(** * A shallow embedding of the ENC28J60 TCP/IP stack (eth0.c, main.c, uart0.c)

    The C program keeps one packet buffer, a handful of globals and a set of
    timer flags.  The embedding follows that shape: the packet buffer is a
    list of octets addressed by offset, fixed-width integers are [Z] with
    the wrap-around written out, the globals of eth0.c are one record that
    every subroutine takes and returns, and the main loop is a step
    function over the record of its locals and flags. *)

From stdpp Require Import base list numbers gmap.
From Stdlib Require Import ZArith Lia.

Local Open Scope Z_scope.

(** ** Fixed-width integers *)

Module C.

(** Conversion to [uint8_t], [uint16_t], [uint32_t]. *)
Definition u8 (x : Z) : Z := x mod 2 ^ 8.
Definition u16 (x : Z) : Z := x mod 2 ^ 16.
Definition u32 (x : Z) : Z := x mod 2 ^ 32.

(** A C condition: non-zero is true. *)
Definition truthy (x : Z) : bool := negb (x =? 0).

(** [for (i = 0; i < n; i++) body] on a state [S]. *)
Definition for_loop {S : Type} (n : Z) (body : Z -> S -> S) (s : S) : S :=
  foldl (fun acc i => body i acc) s (seqZ 0 n).

(** Is [x] an octet? *)
Definition octet (x : Z) : Prop := 0 <= x < 256.
Definition octets (l : list Z) : Prop := Forall octet l.

End C.
Export C.

(** ** Memory: a buffer of octets addressed by offset

    [uint8_t data[MAX_PACKET_SIZE]] in main.c.  The structures of eth0.c are
    views over this buffer; a field is an offset from the start of its
    structure.  The target is little endian, so a [uint16_t] field is read
    low octet first.  Reading past the end of the buffer is outside the C
    standard; here it yields 0 and a write past the end is dropped, and
    the statements below keep every access they depend on in range. *)

Module Mem.

Definition rd (m : list Z) (i : Z) : Z :=
  if 0 <=? i then default 0 (m !! Z.to_nat i) else 0.

Definition wr (m : list Z) (i : Z) (v : Z) : list Z :=
  if 0 <=? i then <[Z.to_nat i := v]> m else m.

Definition rd16 (m : list Z) (i : Z) : Z :=
  rd m i + rd m (i + 1) * 2 ^ 8.

Definition wr16 (m : list Z) (i : Z) (v : Z) : list Z :=
  wr (wr m i (v mod 2 ^ 8)) (i + 1) (v / 2 ^ 8 mod 2 ^ 8).

Definition rd32 (m : list Z) (i : Z) : Z :=
  rd m i + rd m (i + 1) * 2 ^ 8 + rd m (i + 2) * 2 ^ 16 + rd m (i + 3) * 2 ^ 24.

Definition wr32 (m : list Z) (i : Z) (v : Z) : list Z :=
  wr (wr (wr (wr m i (v mod 2 ^ 8)) (i + 1) (v / 2 ^ 8 mod 2 ^ 8))
         (i + 2) (v / 2 ^ 16 mod 2 ^ 8)) (i + 3) (v / 2 ^ 24 mod 2 ^ 8).

(** The [n] octets from offset [i]. *)
Definition slice (m : list Z) (i n : Z) : list Z :=
  (fun j => rd m (i + j)) <$> seqZ 0 n.

End Mem.
Export Mem.

(** ** Structure layouts of eth0.c (offsets of the fields) *)

Definition HW_ADD_LENGTH : Z := 6.
Definition IP_ADD_LENGTH : Z := 4.
Definition TTL : Z := 64.
Definition MAX_PACKET_SIZE : Z := 1522.

Module etherFrame.
Definition destAddress : Z := 0.
Definition sourceAddress : Z := 6.
Definition frameType : Z := 12.
Definition data : Z := 14.
End etherFrame.

Module ipFrame.
Definition revSize : Z := 0.
Definition typeOfService : Z := 1.
Definition length : Z := 2.
Definition id : Z := 4.
Definition flagsAndOffset : Z := 6.
Definition ttl : Z := 8.
Definition protocol : Z := 9.
Definition headerChecksum : Z := 10.
Definition sourceIp : Z := 12.
Definition destIp : Z := 16.
End ipFrame.

Module icmpFrame.
Definition type : Z := 0.
Definition code : Z := 1.
Definition check : Z := 2.
Definition id : Z := 4.
Definition seq_no : Z := 6.
Definition data : Z := 8.
End icmpFrame.

Module arpFrame.
Definition hardwareType : Z := 0.
Definition protocolType : Z := 2.
Definition hardwareSize : Z := 4.
Definition protocolSize : Z := 5.
Definition op : Z := 6.
Definition sourceAddress : Z := 8.
Definition sourceIp : Z := 14.
Definition destAddress : Z := 18.
Definition destIp : Z := 24.
End arpFrame.

Module udpFrame.
Definition sourcePort : Z := 0.
Definition destPort : Z := 2.
Definition length : Z := 4.
Definition check : Z := 6.
Definition data : Z := 8.
End udpFrame.

Module tcpFrame.
Definition sourcePort : Z := 0.
Definition destPort : Z := 2.
Definition sequenceNumber : Z := 4.
Definition ackNumber : Z := 8.
Definition headerLength : Z := 12.
Definition windowSize : Z := 14.
Definition checksum : Z := 16.
Definition urgent : Z := 18.
Definition options : Z := 20.
Definition data : Z := 20.
End tcpFrame.

Module dhcpFrame.
Definition op : Z := 0.
Definition htype : Z := 1.
Definition hlen : Z := 2.
Definition hops : Z := 3.
Definition xid : Z := 4.
Definition secs : Z := 8.
Definition flags : Z := 10.
Definition ciaddr : Z := 12.
Definition yiaddr : Z := 16.
Definition siaddr : Z := 20.
Definition giaddr : Z := 24.
Definition chaddr : Z := 28.
Definition data : Z := 44.
Definition magicCookie : Z := 236.
Definition options : Z := 240.
End dhcpFrame.

(** ** Checksum engine *)

(** [etherSumWords]: the loop body adds the octet at even positions as it is
    and the octet at odd positions shifted left by 8; [sum] is a [uint32_t].
    The phase starts at 0 on every call. *)
Fixpoint sumWords_loop (n : nat) (m : list Z) (pData : Z) (phase : Z) (sum : Z) : Z :=
  match n with
  | O => sum
  | S n' =>
      let sum :=
        if truthy phase
        then u32 (sum + Z.shiftl (rd m pData) 8)
        else u32 (sum + rd m pData) in
      sumWords_loop n' m (pData + 1) (1 - phase) sum
  end.

Definition etherSumWords (sum : Z) (m : list Z) (data : Z) (sizeInBytes : Z) : Z :=
  sumWords_loop (Z.to_nat (u16 sizeInBytes)) m data 0 sum.

(** [while ((sum >> 16) > 0) sum = (sum & 0xFFFF) + (sum >> 16);] with the
    number of iterations bounded by [fuel]. *)
Fixpoint fold_carries (fuel : nat) (sum : Z) : Z :=
  match fuel with
  | O => sum
  | S k =>
      if Z.shiftr sum 16 >? 0
      then fold_carries k (u32 (Z.land sum 0xFFFF + Z.shiftr sum 16))
      else sum
  end.

(** [getEtherChecksum]: two turns of the loop are enough for any 32-bit
    accumulator ([fold_carries_exit] below); the result is [~result] as a
    [uint16_t]. *)
Definition getEtherChecksum (sum : Z) : Z :=
  let sum := fold_carries 2 sum in
  let result := Z.land sum 0xFFFF in
  u16 (Z.lnot result).

Definition htons (value : Z) : Z :=
  let value := u16 value in
  u16 (Z.shiftr (Z.land value 0xFF00) 8 + Z.shiftl (Z.land value 0x00FF) 8).

Definition ntohs := htons.

Definition htols (value : Z) : Z :=
  let value := u32 value in
  let tmp_a := Z.shiftr (Z.land value 0xff000000) 24 in
  let tmp_b := Z.shiftr (Z.land value 0x00ff0000) 8 in
  let tmp_c := u32 (Z.shiftl (Z.land value 0x0000ff00) 8) in
  let tmp_d := u32 (Z.shiftl (Z.land value 0x000000ff) 24) in
  Z.lor (Z.lor (Z.lor tmp_d tmp_c) tmp_b) tmp_a.

(** IP header length in octets, [(ip->revSize & 0xF) * 4]. *)
Definition ip_hlen (packet : list Z) (ip : Z) : Z :=
  Z.land (rd packet (ip + ipFrame.revSize)) 0xF * 4.

(** [etherCalcIpChecksum]. *)
Definition etherCalcIpChecksum (packet : list Z) (ip : Z) : list Z :=
  let sum := 0 in
  let sum := etherSumWords sum packet (ip + ipFrame.revSize) 10 in
  let sum := etherSumWords sum packet (ip + ipFrame.sourceIp) (ip_hlen packet ip - 12) in
  wr16 packet (ip + ipFrame.headerChecksum) (getEtherChecksum sum).

(** ** Globals of eth0.c

    [sum] is not part of the record: every subroutine assigns 0 to it before
    its first [etherSumWords], so the value one subroutine leaves behind is
    never read by another, and the accumulator is threaded as a local value.
    [tx] collects, oldest first, the frames handed to [etherPutPacket]. *)

Record eth : Type := Eth {
  macAddress : list Z;
  ipAddress : list Z;
  tempIpAddress : list Z;
  ipSubnetMask : list Z;
  ipGwAddress : list Z;
  dnsAddress : list Z;
  serverIpAddress : list Z;
  serverMacAddress : list Z;
  currentIsn : Z;
  dhcpEnabled : bool;
  eeprom : gmap Z Z;
  tx : list (list Z)
}.

Definition set_ipAddress (v : list Z) (g : eth) : eth :=
  Eth (macAddress g) v (tempIpAddress g) (ipSubnetMask g) (ipGwAddress g) (dnsAddress g)
      (serverIpAddress g) (serverMacAddress g) (currentIsn g) (dhcpEnabled g) (eeprom g) (tx g).
Definition set_tempIpAddress (v : list Z) (g : eth) : eth :=
  Eth (macAddress g) (ipAddress g) v (ipSubnetMask g) (ipGwAddress g) (dnsAddress g)
      (serverIpAddress g) (serverMacAddress g) (currentIsn g) (dhcpEnabled g) (eeprom g) (tx g).
Definition set_ipSubnetMask (v : list Z) (g : eth) : eth :=
  Eth (macAddress g) (ipAddress g) (tempIpAddress g) v (ipGwAddress g) (dnsAddress g)
      (serverIpAddress g) (serverMacAddress g) (currentIsn g) (dhcpEnabled g) (eeprom g) (tx g).
Definition set_ipGwAddress (v : list Z) (g : eth) : eth :=
  Eth (macAddress g) (ipAddress g) (tempIpAddress g) (ipSubnetMask g) v (dnsAddress g)
      (serverIpAddress g) (serverMacAddress g) (currentIsn g) (dhcpEnabled g) (eeprom g) (tx g).
Definition set_dnsAddress (v : list Z) (g : eth) : eth :=
  Eth (macAddress g) (ipAddress g) (tempIpAddress g) (ipSubnetMask g) (ipGwAddress g) v
      (serverIpAddress g) (serverMacAddress g) (currentIsn g) (dhcpEnabled g) (eeprom g) (tx g).
Definition set_serverIpAddress (v : list Z) (g : eth) : eth :=
  Eth (macAddress g) (ipAddress g) (tempIpAddress g) (ipSubnetMask g) (ipGwAddress g) (dnsAddress g)
      v (serverMacAddress g) (currentIsn g) (dhcpEnabled g) (eeprom g) (tx g).
Definition set_serverMacAddress (v : list Z) (g : eth) : eth :=
  Eth (macAddress g) (ipAddress g) (tempIpAddress g) (ipSubnetMask g) (ipGwAddress g) (dnsAddress g)
      (serverIpAddress g) v (currentIsn g) (dhcpEnabled g) (eeprom g) (tx g).
Definition set_currentIsn (v : Z) (g : eth) : eth :=
  Eth (macAddress g) (ipAddress g) (tempIpAddress g) (ipSubnetMask g) (ipGwAddress g) (dnsAddress g)
      (serverIpAddress g) (serverMacAddress g) v (dhcpEnabled g) (eeprom g) (tx g).
Definition set_dhcpEnabled (v : bool) (g : eth) : eth :=
  Eth (macAddress g) (ipAddress g) (tempIpAddress g) (ipSubnetMask g) (ipGwAddress g) (dnsAddress g)
      (serverIpAddress g) (serverMacAddress g) (currentIsn g) v (eeprom g) (tx g).
Definition set_eeprom (v : gmap Z Z) (g : eth) : eth :=
  Eth (macAddress g) (ipAddress g) (tempIpAddress g) (ipSubnetMask g) (ipGwAddress g) (dnsAddress g)
      (serverIpAddress g) (serverMacAddress g) (currentIsn g) (dhcpEnabled g) v (tx g).
Definition set_tx (v : list (list Z)) (g : eth) : eth :=
  Eth (macAddress g) (ipAddress g) (tempIpAddress g) (ipSubnetMask g) (ipGwAddress g) (dnsAddress g)
      (serverIpAddress g) (serverMacAddress g) (currentIsn g) (dhcpEnabled g) (eeprom g) v.

(** ** Persistent store (eprom.c): one 32-bit word per address *)

Definition readEeprom (g : eth) (add : Z) : Z := default 0 (eeprom g !! add).
Definition writeEeprom (add data : Z) (g : eth) : eth :=
  set_eeprom (<[add := u32 data]> (eeprom g)) g.

(** ** Driver boundary *)

(** [etherPutPacket(packet, size)]: the controller receives the first [size]
    octets of the buffer; [size] is a [uint16_t].  The TX-abort status the
    function returns is ignored by every caller. *)
Definition etherPutPacket (packet : list Z) (size : Z) (g : eth) : eth :=
  set_tx (tx g ++ [slice packet 0 (u16 size)]) g.

(** [etherGetPacket(packet, maxSize)]: the controller holds the frame [rx];
    [min(size, maxSize)] octets are copied to the front of the buffer and
    the rest of the buffer keeps what it held. *)
Definition etherGetPacket (packet : list Z) (rx : list Z) (maxSize : Z) : list Z :=
  let size := u16 (Z.of_nat (length rx)) in
  let size := if size >? maxSize then maxSize else size in
  for_loop size (fun i p => wr p i (rd rx i)) packet.

(** ** Classify predicates and builders *)

(** [while (ok & (i < n)) { ok = test(i); i++; }] *)
Definition match_while (ok : bool) (n : Z) (test : Z -> bool) : bool :=
  for_loop n (fun i (ok : bool) => if ok then test i else ok) ok.

(** Swap of [n] octets between two fields, octet by octet through [tmp]. *)
Definition swap_fields (n a b : Z) (packet : list Z) : list Z :=
  for_loop n (fun i p =>
    let tmp := rd p (a + i) in
    let p := wr p (a + i) (rd p (b + i)) in
    wr p (b + i) tmp) packet.

Definition etherIsIp (packet : list Z) : bool :=
  let ether := 0 in
  let ip := ether + etherFrame.data in
  let ok := rd16 packet (ether + etherFrame.frameType) =? htons 0x0800 in
  if ok then
    let sum := 0 in
    let sum := etherSumWords sum packet (ip + ipFrame.revSize) (ip_hlen packet ip) in
    getEtherChecksum sum =? 0
  else ok.

Definition etherIsIpUnicast (g : eth) (packet : list Z) : bool :=
  let ip := etherFrame.data in
  match_while true IP_ADD_LENGTH
    (fun i => rd packet (ip + ipFrame.destIp + i) =? rd (ipAddress g) i).

Definition etherIsIpBroadcast (packet : list Z) : bool :=
  let ip := etherFrame.data in
  match_while true IP_ADD_LENGTH
    (fun i => rd packet (ip + ipFrame.destIp + i) =? 255).

Definition etherIsPingRequest (packet : list Z) : bool :=
  let ip := etherFrame.data in
  let icmp := ip + ip_hlen packet ip in
  (rd packet (ip + ipFrame.protocol) =? 0x01) && (rd packet (icmp + icmpFrame.type) =? 8).

Definition etherSendPingResponse (g : eth) (packet : list Z) : eth * list Z :=
  let ether := 0 in
  let ip := ether + etherFrame.data in
  let icmp := ip + ip_hlen packet ip in
  (* swap source and destination fields *)
  let packet := swap_fields HW_ADD_LENGTH (ether + etherFrame.destAddress)
                  (ether + etherFrame.sourceAddress) packet in
  let packet := swap_fields IP_ADD_LENGTH (ip + ipFrame.destIp) (ip + ipFrame.sourceIp) packet in
  (* this is a response *)
  let packet := wr packet (icmp + icmpFrame.type) 0 in
  (* calc icmp checksum *)
  let sum := 0 in
  let sum := etherSumWords sum packet (icmp + icmpFrame.type) 2 in
  let icmp_size := ntohs (rd16 packet (ip + ipFrame.length)) in
  let icmp_size := u16 (icmp_size - 24) in
  let sum := etherSumWords sum packet (icmp + icmpFrame.id) icmp_size in
  let packet := wr16 packet (icmp + icmpFrame.check) (getEtherChecksum sum) in
  (* send packet *)
  (etherPutPacket packet (14 + ntohs (rd16 packet (ip + ipFrame.length))) g, packet).

Definition etherIsArpRequest (g : eth) (packet : list Z) : bool :=
  let ether := 0 in
  let arp := ether + etherFrame.data in
  let ok := rd16 packet (ether + etherFrame.frameType) =? htons 0x0806 in
  let ok := match_while ok IP_ADD_LENGTH
              (fun i => rd packet (arp + arpFrame.destIp + i) =? rd (ipAddress g) i) in
  if ok then rd16 packet (arp + arpFrame.op) =? htons 1 else ok.

Definition etherSendArpResponse (g : eth) (packet : list Z) : eth * list Z :=
  let ether := 0 in
  let arp := ether + etherFrame.data in
  (* set op to response *)
  let packet := wr16 packet (arp + arpFrame.op) (htons 2) in
  (* swap source and destination fields *)
  let packet := for_loop HW_ADD_LENGTH (fun i p =>
      let p := wr p (arp + arpFrame.destAddress + i) (rd p (arp + arpFrame.sourceAddress + i)) in
      let p := wr p (ether + etherFrame.destAddress + i) (rd p (ether + etherFrame.sourceAddress + i)) in
      let p := wr p (arp + arpFrame.sourceAddress + i) (rd (macAddress g) i) in
      wr p (ether + etherFrame.sourceAddress + i) (rd (macAddress g) i)) packet in
  let packet := swap_fields IP_ADD_LENGTH (arp + arpFrame.destIp) (arp + arpFrame.sourceIp) packet in
  (* send packet *)
  (etherPutPacket packet 42 g, packet).

Definition etherSendArpRequest (g : eth) (packet : list Z) (ip : list Z) : eth * list Z :=
  let ether := 0 in
  let arp := ether + etherFrame.data in
  let packet := for_loop HW_ADD_LENGTH (fun i p =>
      let p := wr p (ether + etherFrame.destAddress + i) 0xFF in
      wr p (ether + etherFrame.sourceAddress + i) (rd (macAddress g) i)) packet in
  let packet := wr16 packet (ether + etherFrame.frameType) 0x0608 in
  let packet := wr16 packet (arp + arpFrame.hardwareType) (htons 1) in
  let packet := wr16 packet (arp + arpFrame.protocolType) (htons 0x0800) in
  let packet := wr packet (arp + arpFrame.hardwareSize) HW_ADD_LENGTH in
  let packet := wr packet (arp + arpFrame.protocolSize) IP_ADD_LENGTH in
  let packet := wr16 packet (arp + arpFrame.op) (htons 1) in
  let packet := for_loop HW_ADD_LENGTH (fun i p =>
      let p := wr p (arp + arpFrame.sourceAddress + i) (rd (macAddress g) i) in
      wr p (arp + arpFrame.destAddress + i) 0xFF) packet in
  let packet := for_loop IP_ADD_LENGTH (fun i p =>
      let p := wr p (arp + arpFrame.sourceIp + i) (rd (ipAddress g) i) in
      wr p (arp + arpFrame.destIp + i) (rd ip i)) packet in
  (etherPutPacket packet 42 g, packet).

(** The pseudo-header part common to the UDP sums: source and destination
    address, the protocol octet as the high half of a word, the UDP length. *)
Definition udp_pseudo_sum (packet : list Z) (ip udp : Z) : Z :=
  let sum := 0 in
  let sum := etherSumWords sum packet (ip + ipFrame.sourceIp) 8 in
  let tmp16 := rd packet (ip + ipFrame.protocol) in
  let sum := u32 (sum + Z.shiftl (Z.land tmp16 0xff) 8) in
  etherSumWords sum packet (udp + udpFrame.length) 2.

Definition etherIsUdp (packet : list Z) : bool :=
  let ip := etherFrame.data in
  let udp := ip + ip_hlen packet ip in
  let ok := rd packet (ip + ipFrame.protocol) =? 0x11 in
  if ok then
    (* 32-bit sum over pseudo-header *)
    let sum := udp_pseudo_sum packet ip udp in
    (* add udp header and data *)
    let sum := etherSumWords sum packet udp (ntohs (rd16 packet (udp + udpFrame.length))) in
    getEtherChecksum sum =? 0
  else ok.

Definition etherGetUdpData (packet : list Z) : Z :=
  let ip := etherFrame.data in
  let udp := ip + ip_hlen packet ip in
  udp + udpFrame.data.

Definition etherSendUdpResponse (g : eth) (packet : list Z) (udpData : list Z) (udpSize : Z)
  : eth * list Z :=
  let ether := 0 in
  let ip := ether + etherFrame.data in
  let udp := ip + ip_hlen packet ip in
  let packet := swap_fields HW_ADD_LENGTH (ether + etherFrame.destAddress)
                  (ether + etherFrame.sourceAddress) packet in
  let packet := swap_fields IP_ADD_LENGTH (ip + ipFrame.destIp) (ip + ipFrame.sourceIp) packet in
  let packet := wr16 packet (udp + udpFrame.sourcePort) (rd16 packet (udp + udpFrame.destPort)) in
  (* adjust lengths *)
  let packet := wr16 packet (ip + ipFrame.length) (htons (ip_hlen packet ip + 8 + udpSize)) in
  (* 32-bit sum over ip header: the statements of etherCalcIpChecksum *)
  let packet := etherCalcIpChecksum packet ip in
  let packet := wr16 packet (udp + udpFrame.length) (htons (8 + udpSize)) in
  (* copy data *)
  let copyData := udp + udpFrame.data in
  let packet := for_loop udpSize (fun i p => wr p (copyData + i) (rd udpData i)) packet in
  (* 32-bit sum over pseudo-header *)
  let sum := udp_pseudo_sum packet ip udp in
  (* add udp header except crc *)
  let sum := etherSumWords sum packet udp 6 in
  let sum := etherSumWords sum packet (udp + udpFrame.data) udpSize in
  let packet := wr16 packet (udp + udpFrame.check) (getEtherChecksum sum) in
  (etherPutPacket packet (22 + ip_hlen packet ip + udpSize) g, packet).

(** ** DHCP options *)

(** A pointer into the packet buffer, or [NULL]. *)
Definition pointer := option Z.

(** [p[i]] through a pointer; reading through [NULL] is undefined and has no
    result. *)
Definition deref (m : list Z) (p : pointer) (i : Z) : option Z :=
  q ← p; Some (rd m (q + i)).

(** [getOption]: the scan [while (i < size)] with [i] a [uint8_t].  The loop
    is not bounded by the source (a length octet of 254 leaves [i] where it
    was), so the embedding runs it on fuel; [None] is "still in the loop". *)
Fixpoint getOption_loop (fuel : nat) (m : list Z) (options number size i : Z)
  : option pointer :=
  match fuel with
  | O => None
  | S k =>
      if i <? size then
        if rd m (options + i) =? number
        then Some (Some (options + i + 2))
        else getOption_loop k m options number size
               (u8 (i + (rd m (options + (i + 1)) + 2)))
      else Some None
  end.

(** [i] has 256 values and the buffer is not written during the scan: a scan
    that has not returned after 257 tests of the loop condition never does. *)
Definition getOption (m : list Z) (options number size : Z) : option pointer :=
  getOption_loop 257 m options (u8 number) (u8 size) 0.

(** [options[size++] = v] with [size] a [uint8_t]. *)
Definition push_octet (options : Z) (v : Z) (st : list Z * Z) : list Z * Z :=
  let '(m, size) := st in (wr m (options + size) (u8 v), u8 (size + 1)).

(** [putOption(options, size, number, count, ...)]: [values] are the variadic
    arguments; returns the buffer and the advanced cursor. *)
Definition putOption (m : list Z) (options size number count : Z) (values : list Z)
  : list Z * Z :=
  let st := push_octet options number (m, u8 size) in
  let st := push_octet options count st in
  for_loop (u8 count) (fun i st => push_octet options (rd values i) st) st.

(** ** DHCP client packets *)

(** [htons(udp->length - 248)] narrowed to the [uint8_t] parameter of
    [getOption]. *)
Definition dhcp_opSize (packet : list Z) (udp : Z) : Z :=
  htons (rd16 packet (udp + udpFrame.length) - 248).

Definition etherSendDhcpPacket (g : eth) (packet : list Z) (packet_type : Z)
  : option (eth * list Z) :=
  let packet_type := u8 packet_type in
  let ether := 0 in
  let unicast := (packet_type =? 5) || (packet_type =? 7) in
  let packet := for_loop HW_ADD_LENGTH (fun i p =>
      (* DHCP Renew and Release are unicast *)
      let p := if unicast
               then wr p (ether + etherFrame.destAddress + i) (rd (serverMacAddress g) i)
               else wr p (ether + etherFrame.destAddress + i) 255 in
      wr p (ether + etherFrame.sourceAddress + i) (rd (macAddress g) i)) packet in
  let packet := wr16 packet (ether + etherFrame.frameType) (htons 0x0800) in
  let ip := ether + etherFrame.data in
  let packet := wr packet (ip + ipFrame.revSize) 0x45 in
  let packet := wr packet (ip + ipFrame.typeOfService) 0 in
  let packet := wr16 packet (ip + ipFrame.id) 0 in
  let packet := wr16 packet (ip + ipFrame.flagsAndOffset) 0 in
  let packet := wr packet (ip + ipFrame.ttl) TTL in
  let packet := wr packet (ip + ipFrame.protocol) 17 in
  let packet := for_loop IP_ADD_LENGTH (fun i p =>
      if unicast then
        let p := wr p (ip + ipFrame.sourceIp + i) (rd (ipAddress g) i) in
        wr p (ip + ipFrame.destIp + i) (rd (serverIpAddress g) i)
      else
        let p := wr p (ip + ipFrame.sourceIp + i) 0 in
        wr p (ip + ipFrame.destIp + i) 255) packet in
  let udp := ip + ip_hlen packet ip in
  let packet := wr16 packet (udp + udpFrame.sourcePort) (htons 68) in
  let packet := wr16 packet (udp + udpFrame.destPort) (htons 67) in
  let dhcp := udp + udpFrame.data in
  let packet := wr packet (dhcp + dhcpFrame.op) 1 in
  let packet := wr packet (dhcp + dhcpFrame.htype) 0x01 in
  let packet := wr packet (dhcp + dhcpFrame.hlen) 6 in
  let packet := wr packet (dhcp + dhcpFrame.hops) 0 in
  let packet := wr32 packet (dhcp + dhcpFrame.xid) 0 in
  let packet := wr16 packet (dhcp + dhcpFrame.secs) 0 in
  let packet := if unicast
                then wr16 packet (dhcp + dhcpFrame.flags) 0
                else wr16 packet (dhcp + dhcpFrame.flags) (htons 0x8000) in
  let packet := wr32 packet (dhcp + dhcpFrame.magicCookie) (htols 0x63825363) in
  let options := dhcp + dhcpFrame.options in
  (* Save options 51 and 54 from DHCP Offer (to be used in DHCP Request) *)
  saved ←
    (if packet_type =? 3 then
       let opSiz := dhcp_opSize packet udp in
       o54 ← getOption packet options 54 opSiz;
       o51 ← getOption packet options 51 opSiz;
       t1 ← deref packet o54 0; t2 ← deref packet o54 1;
       t3 ← deref packet o54 2; t4 ← deref packet o54 3;
       t5 ← deref packet o51 0; t6 ← deref packet o51 1;
       t7 ← deref packet o51 2; t8 ← deref packet o51 3;
       Some ([t1; t2; t3; t4], [t5; t6; t7; t8])
     else Some ([], []));
  let '(t1234, t5678) := saved in
  (* Set 0 to unused data *)
  let packet := for_loop 10 (fun k p => wr p (dhcp + dhcpFrame.chaddr + (6 + k)) 0) packet in
  let packet := for_loop 192 (fun i p => wr p (dhcp + dhcpFrame.data + i) 0) packet in
  let opSize := 0 in
  (* Add DHCP Message type according to packet_type variable *)
  let dhcp_packet_type :=
    if (packet_type =? 5) || (packet_type =? 6) then 3 else packet_type in
  let '(packet, opSize) := putOption packet options opSize 53 1 [dhcp_packet_type] in
  (* Add options parameters list *)
  let '(packet, opSize) := putOption packet options opSize 55 5 [1; 2; 3; 6; 51] in
  let st := push_octet options 61 (packet, opSize) in
  let st := push_octet options 7 st in
  let st := push_octet options 1 st in
  let st := for_loop HW_ADD_LENGTH (fun i st =>
      let '(p, sz) := st in
      let p := wr p (dhcp + dhcpFrame.chaddr + i) (rd (macAddress g) i) in
      push_octet options (rd (macAddress g) i) (p, sz)) st in
  (* If it is DHCP Request and not in renewing/rebinding state *)
  let '(g, st) :=
    if packet_type =? 3 then
      let st := push_octet options 50 st in
      let st := push_octet options 4 st in
      let '(g, st) := for_loop IP_ADD_LENGTH (fun i gst =>
          let '(g, st) := gst in
          let st := push_octet options (rd (fst st) (dhcp + dhcpFrame.yiaddr + i)) st in
          (set_tempIpAddress
             (wr (tempIpAddress g) i (rd (fst st) (dhcp + dhcpFrame.yiaddr + i))) g, st))
        (g, st) in
      (* Put Lease Time option if this is DHCP Request *)
      let st := putOption (fst st) options (snd st) 51 4 t5678 in
      (* Put DHCP Server Identifier option if this is DHCP Request *)
      let st := putOption (fst st) options (snd st) 54 4 t1234 in
      (g, st)
    else (g, st) in
  (* End options *)
  let '(packet, opSize) := push_octet options 255 st in
  let packet := for_loop IP_ADD_LENGTH (fun i p =>
      (* Populate CIAddr field if this is DHCP Rebind/Renew/Release *)
      let p := if packet_type >? 4
               then wr p (dhcp + dhcpFrame.ciaddr + i) (rd (ipAddress g) i)
               else wr p (dhcp + dhcpFrame.ciaddr + i) 0 in
      let p := wr p (dhcp + dhcpFrame.yiaddr + i) 0 in
      let p := wr p (dhcp + dhcpFrame.siaddr + i) 0 in
      wr p (dhcp + dhcpFrame.giaddr + i) 0) packet in
  let udpSize := u16 (240 + opSize) in
  (* adjust lengths *)
  let packet := wr16 packet (ip + ipFrame.length) (htons (ip_hlen packet ip + 8 + udpSize)) in
  (* 32-bit sum over ip header: the statements of etherCalcIpChecksum *)
  let packet := etherCalcIpChecksum packet ip in
  let packet := wr16 packet (udp + udpFrame.length) (htons (8 + udpSize)) in
  (* 32-bit sum over pseudo-header *)
  let sum := udp_pseudo_sum packet ip udp in
  (* add udp header except crc *)
  let sum := etherSumWords sum packet udp 6 in
  let sum := etherSumWords sum packet (udp + udpFrame.data) udpSize in
  let packet := wr16 packet (udp + udpFrame.check) (getEtherChecksum sum) in
  (* send packet with size = ether + ip header + udp hdr + udp_size *)
  Some (etherPutPacket packet (14 + ip_hlen packet ip + 8 + udpSize) g, packet).

(** The loop [for (i...) ok = dhcp->chaddr[i] == macAddress[i];] assigns [ok]
    on every turn. *)
Definition chaddr_ok (g : eth) (packet : list Z) (dhcp : Z) : bool :=
  for_loop HW_ADD_LENGTH
    (fun i (_ : bool) => rd packet (dhcp + dhcpFrame.chaddr + i) =? rd (macAddress g) i) true.

Definition isDhcpOffer (g : eth) (packet : list Z) : option bool :=
  let ip := etherFrame.data in
  let udp := ip + ip_hlen packet ip in
  let dhcp := udp + udpFrame.data in
  (* Check if MAC address matches *)
  let ok := chaddr_ok g packet dhcp in
  let opSize := dhcp_opSize packet udp in
  msgType ← getOption packet (dhcp + dhcpFrame.options) 53 opSize;
  (* Check for Client Hardware Address and DHCP Message Type *)
  if ok && (rd packet (dhcp + dhcpFrame.op) =? 2) then
    t ← deref packet msgType 0;
    Some (t =? 2)
  else Some false.

(** Returns the globals and the lease time; 0 when the packet is not an ACK. *)
Definition isDhcpAck (g : eth) (packet : list Z) : option (eth * Z) :=
  let ether := 0 in
  let ip := ether + etherFrame.data in
  let udp := ip + ip_hlen packet ip in
  let dhcp := udp + udpFrame.data in
  let options := dhcp + dhcpFrame.options in
  let opSize := dhcp_opSize packet udp in
  msgType ← getOption packet options 53 opSize;
  let ok := chaddr_ok g packet dhcp in
  let g := for_loop HW_ADD_LENGTH (fun i g =>
      set_serverMacAddress
        (wr (serverMacAddress g) i (rd packet (ether + etherFrame.sourceAddress + i))) g) g in
  if ok && (rd packet (dhcp + dhcpFrame.op) =? 2) then
    t ← deref packet msgType 0;
    if t =? 5 then
      leaseTime ← getOption packet options 51 opSize;
      l0 ← deref packet leaseTime 0; l1 ← deref packet leaseTime 1;
      l2 ← deref packet leaseTime 2; l3 ← deref packet leaseTime 3;
      let lease := 0 in
      let lease := Z.lor lease (u32 (Z.shiftl l0 24)) in
      let lease := Z.lor lease (Z.shiftl l1 16) in
      let lease := Z.lor lease (Z.shiftl l2 8) in
      let lease := Z.lor lease l3 in
      sn ← getOption packet options 1 opSize;
      gw ← getOption packet options 3 opSize;
      dns ← getOption packet options 6 opSize;
      g ← foldl (fun (og : option eth) i =>
            g ← og;
            let g := set_ipAddress (wr (ipAddress g) i (rd (tempIpAddress g) i)) g in
            d ← deref packet dns i;
            let g := set_dnsAddress (wr (dnsAddress g) i d) g in
            s ← deref packet sn i;
            let g := set_ipSubnetMask (wr (ipSubnetMask g) i s) g in
            w ← deref packet gw i;
            let g := set_ipGwAddress (wr (ipGwAddress g) i w) g in
            Some (set_serverIpAddress
                    (wr (serverIpAddress g) i (rd packet (ip + ipFrame.sourceIp + i))) g))
          (Some g) (seqZ 0 IP_ADD_LENGTH);
      Some (g, lease)
    else Some (g, 0)
  else Some (g, 0).

Definition sendGratiousArp (g : eth) (packet : list Z) : eth * list Z :=
  let ether := 0 in
  let packet := for_loop HW_ADD_LENGTH (fun i p =>
      let p := wr p (ether + etherFrame.destAddress + i) 255 in
      wr p (ether + etherFrame.sourceAddress + i) (rd (macAddress g) i)) packet in
  let packet := wr16 packet (ether + etherFrame.frameType) (htons 0x0806) in
  let arp := ether + etherFrame.data in
  let packet := wr16 packet (arp + arpFrame.op) (htons 1) in
  let packet := wr16 packet (arp + arpFrame.protocolType) (htons 0x800) in
  let packet := wr16 packet (arp + arpFrame.hardwareType) (htons 1) in
  let packet := wr packet (arp + arpFrame.hardwareSize) 6 in
  let packet := wr packet (arp + arpFrame.protocolSize) 4 in
  let packet := for_loop IP_ADD_LENGTH (fun i p =>
      let p := wr p (arp + arpFrame.destIp + i) (rd (ipAddress g) i) in
      wr p (arp + arpFrame.sourceIp + i) (rd (ipAddress g) i)) packet in
  (etherPutPacket packet 42 g, packet).

(** [isArpResponse] is a stub in the source. *)
Definition isArpResponse (packet : list Z) : bool := false.

(** ** TCP mini-handler *)

Definition etherIsTcp (packet : list Z) : bool :=
  let ip := etherFrame.data in
  let tcp := ip + ip_hlen packet ip in
  let ok := rd packet (ip + ipFrame.protocol) =? 6 in
  if ok then
    (* 32-bit sum over pseudo-header *)
    let sum := 0 in
    let sum := etherSumWords sum packet (ip + ipFrame.sourceIp) 8 in
    let tmp16 := rd packet (ip + ipFrame.protocol) in
    let sum := u32 (sum + Z.shiftl (Z.land tmp16 0xff) 8) in
    (* Calculate TCP Data size *)
    let tmp16 := u16 (htons (rd16 packet (ip + ipFrame.length)) - 20) in
    let sum := u32 (sum + Z.shiftl (Z.land tmp16 0xff) 8) in
    let sum := etherSumWords sum packet tcp tmp16 in
    getEtherChecksum sum =? 0
  else ok.

(** The 16-bit "header length and flags" field in host order. *)
Definition tcp_hl (packet : list Z) : Z :=
  let ip := etherFrame.data in
  let tcp := ip + ip_hlen packet ip in
  htons (rd16 packet (tcp + tcpFrame.headerLength)).

(** [htols(tcp->ackNumber)]. *)
Definition tcp_ack (packet : list Z) : Z :=
  let ip := etherFrame.data in
  let tcp := ip + ip_hlen packet ip in
  htols (rd32 packet (tcp + tcpFrame.ackNumber)).

Definition etherIsTcpSYN (packet : list Z) : bool :=
  truthy (Z.land (Z.shiftr (tcp_hl packet) 1) 1).

Definition etherIsTcpAck (g : eth) (packet : list Z) : bool :=
  let ok := truthy (Z.land (Z.shiftr (tcp_hl packet) 4) 1) in
  let tmp32 := tcp_ack packet in
  ok && (tmp32 =? currentIsn g).

Definition etherIsTelnetData (g : eth) (packet : list Z) : bool :=
  let tmp16 := tcp_hl packet in
  let ok := truthy (Z.land (Z.shiftr tmp16 3) 1) && truthy (Z.land (Z.shiftr tmp16 4) 1) in
  let tmp32 := tcp_ack packet in
  ok && (tmp32 =? currentIsn g).

(** The part the three TCP builders share: swap the Ethernet and IP
    addresses and the ports, acknowledge [sequenceNumber + 1]. *)
Definition tcp_turn_around (packet : list Z) : list Z :=
  let ether := 0 in
  let ip := ether + etherFrame.data in
  let tcp := ip + ip_hlen packet ip in
  let packet := swap_fields HW_ADD_LENGTH (ether + etherFrame.destAddress)
                  (ether + etherFrame.sourceAddress) packet in
  let packet := swap_fields IP_ADD_LENGTH (ip + ipFrame.destIp) (ip + ipFrame.sourceIp) packet in
  let tmp16 := rd16 packet (tcp + tcpFrame.destPort) in
  let packet := wr16 packet (tcp + tcpFrame.destPort) (rd16 packet (tcp + tcpFrame.sourcePort)) in
  let packet := wr16 packet (tcp + tcpFrame.sourcePort) tmp16 in
  (* Set ACK Number as +1 of Seq Number *)
  wr32 packet (tcp + tcpFrame.ackNumber)
    (htols (htols (rd32 packet (tcp + tcpFrame.sequenceNumber)) + 1)).

(** The TCP checksum of the builders: pseudo-header with the segment length
    [len] as the high half of a word, then [hdr] octets of header and
    [dataSize] octets from [tcp->data]. *)
Definition tcp_checksum (packet : list Z) (ip tcp len hdr dataSize : Z) : list Z :=
  let packet := wr16 packet (tcp + tcpFrame.checksum) 0 in
  let sum := 0 in
  let sum := etherSumWords sum packet (ip + ipFrame.sourceIp) 8 in
  let tmp16 := rd packet (ip + ipFrame.protocol) in
  let sum := u32 (sum + Z.shiftl (Z.land tmp16 0xff) 8) in
  let sum := u32 (sum + Z.shiftl (Z.land len 0xff) 8) in
  let sum := etherSumWords sum packet tcp hdr in
  let sum := etherSumWords sum packet (tcp + tcpFrame.data) dataSize in
  wr16 packet (tcp + tcpFrame.checksum) (getEtherChecksum sum).

(** Send SYN ACK in response to SYN. *)
Definition etherSendTcpSynAck (g : eth) (packet : list Z) : eth * list Z :=
  let ether := 0 in
  let ip := ether + etherFrame.data in
  let tcp := ip + ip_hlen packet ip in
  let packet := tcp_turn_around packet in
  (* Increment Seq Number (since no data is sent) *)
  let packet := wr32 packet (tcp + tcpFrame.sequenceNumber) (htols (currentIsn g)) in
  let g := set_currentIsn (u32 (currentIsn g + 1)) g in
  let headerLength := htons (rd16 packet (tcp + tcpFrame.headerLength)) in
  (* Set ACK Flag *)
  let headerLength := Z.lor headerLength (Z.shiftl 1 4) in
  let tcpSize := u8 (Z.shiftr headerLength 12) in
  let packet := wr16 packet (tcp + tcpFrame.headerLength) (htons headerLength) in
  (* 32-bit sum over ip header: the statements of etherCalcIpChecksum *)
  let packet := etherCalcIpChecksum packet ip in
  (* Calculate TCP Checksum *)
  let packet := tcp_checksum packet ip tcp (tcpSize * 4) (tcpSize * 4) 0 in
  (* send packet with size = ether + ip header + tcp_size *)
  (etherPutPacket packet (14 + ip_hlen packet ip + tcpSize * 4) g, packet).

(** Send Telnet data. *)
Definition etherSendTelnetData (g : eth) (packet : list Z) (telnetData : list Z)
  (telnetSize : Z) : eth * list Z :=
  let telnetSize := u8 telnetSize in
  let ether := 0 in
  let ip := ether + etherFrame.data in
  let tcp := ip + ip_hlen packet ip in
  let packet := tcp_turn_around packet in
  let packet := wr32 packet (tcp + tcpFrame.sequenceNumber) (htols (currentIsn g)) in
  let g := set_currentIsn (u32 (currentIsn g + telnetSize)) g in
  let headerLength := htons (rd16 packet (tcp + tcpFrame.headerLength)) in
  let tcpSize := u8 (Z.shiftr headerLength 12) in
  let packet := wr16 packet (tcp + tcpFrame.headerLength) (htons headerLength) in
  (* Copy data to TCP Frame *)
  let copyData := tcp + tcpFrame.data in
  let packet := for_loop telnetSize (fun i p => wr p (copyData + i) (rd telnetData i)) packet in
  (* Update lenght in IP Header *)
  let packet := wr16 packet (ip + ipFrame.length) (htons (40 + telnetSize)) in
  let packet := etherCalcIpChecksum packet ip in
  (* Calculate TCP Checksum *)
  let packet := tcp_checksum packet ip tcp (tcpSize * 4 + telnetSize) (tcpSize * 4) telnetSize in
  (etherPutPacket packet (14 + ip_hlen packet ip + tcpSize * 4 + telnetSize) g, packet).

Definition etherIsTcpFINACK (g : eth) (packet : list Z) : bool :=
  let ok := truthy (Z.land (Z.shiftr (tcp_hl packet) 4) 1)
            && truthy (Z.land (tcp_hl packet) 1) in
  let tmp32 := tcp_ack packet in
  ok && (tmp32 =? currentIsn g).

(** Send ACK and FIN ACK in response to FIN ACK. *)
Definition etherSendAckFinAck (g : eth) (packet : list Z) : eth * list Z :=
  let ether := 0 in
  let ip := ether + etherFrame.data in
  let tcp := ip + ip_hlen packet ip in
  let packet := tcp_turn_around packet in
  (* Increment Seq Number (since no data is sent) *)
  let packet := wr32 packet (tcp + tcpFrame.sequenceNumber) (htols (currentIsn g)) in
  let g := set_currentIsn (u32 (currentIsn g + 1)) g in
  let headerLength := htons (rd16 packet (tcp + tcpFrame.headerLength)) in
  (* Set ACK Flag *)
  let headerLength := Z.lor headerLength (Z.shiftl 1 4) in
  (* Unset FIN Flag *)
  let headerLength := u16 (Z.shiftr headerLength 1) in
  let headerLength := u16 (Z.shiftl headerLength 1) in
  let tcpSize := u8 (Z.shiftr headerLength 12) in
  let packet := wr16 packet (tcp + tcpFrame.headerLength) (htons headerLength) in
  let packet := etherCalcIpChecksum packet ip in
  let packet := tcp_checksum packet ip tcp (tcpSize * 4) (tcpSize * 4) 0 in
  (* send packet with size = ether + ip header + tcp_size *)
  let g := etherPutPacket packet (14 + ip_hlen packet ip + tcpSize * 4) g in
  let headerLength := htons (rd16 packet (tcp + tcpFrame.headerLength)) in
  (* Set FIN Flag *)
  let headerLength := Z.lor headerLength 1 in
  let packet := wr16 packet (tcp + tcpFrame.headerLength) (htons headerLength) in
  (* Recalculate checksum *)
  let packet := tcp_checksum packet ip tcp (tcpSize * 4) (tcpSize * 4) 0 in
  (* send packet with size = ether + ip header + tcp_size *)
  (etherPutPacket packet (14 + ip_hlen packet ip + tcpSize * 4) g, packet).

(** ** Identity setters used by the main loop (eth0.c) *)

Definition etherSetIpAddressToZeroes (g : eth) : eth :=
  for_loop 4 (fun i g => set_ipAddress (wr (ipAddress g) i 0) g) g.

Definition etherSetMacAddress (mac : list Z) (g : eth) : eth :=
  Eth (for_loop 6 (fun i m => wr m i (u8 (rd mac i))) (macAddress g))
      (ipAddress g) (tempIpAddress g) (ipSubnetMask g) (ipGwAddress g) (dnsAddress g)
      (serverIpAddress g) (serverMacAddress g) (currentIsn g) (dhcpEnabled g) (eeprom g) (tx g).

(** The four octets of a stored word, most significant first. *)
Definition word_octets (tmp : Z) : list Z :=
  [ Z.shiftr (Z.land tmp 0xff000000) 24; Z.shiftr (Z.land tmp 0x00ff0000) 16;
    Z.shiftr (Z.land tmp 0x0000ff00) 8; Z.land tmp 0x000000ff ].

Definition getDetailsFromEprom (g : eth) : eth :=
  let g := set_ipAddress (word_octets (readEeprom g 1)) g in
  let g := set_ipGwAddress (word_octets (readEeprom g 2)) g in
  let g := set_dnsAddress (word_octets (readEeprom g 3)) g in
  set_ipSubnetMask (word_octets (readEeprom g 4)) g.

Definition etherEnableDhcpMode (g : eth) : eth :=
  writeEeprom 0 1 (set_dhcpEnabled true g).

Definition etherDisableDhcpMode (g : eth) : eth :=
  writeEeprom 0 0 (set_dhcpEnabled false g).

(** ** Timer service

    timer.h declares the service; its implementation is not among the
    sources, so the service is modelled from the design document. *)

(** The callbacks main.c registers. *)
Inductive callback : Type :=
| sendDhcpDiscovery | startT1Timer | startRenewing | startT2Timer
| startRebinding | leaseEndTimer | arpResponse | startDeclineTimer.

Global Instance callback_eq_dec : EqDecision callback.
Proof. solve_decision. Defined.

(** Modelled from the spec: "mode in {one-shot, periodic}". *)
Inductive timer_mode : Type := OneShot | Periodic.

(** Modelled from the spec: a registration, "each with {mode,
    remaining-seconds, reload-seconds}"; seconds are [uint32_t] in timer.h. *)
Record slot : Type := Slot {
  slot_cb : callback;
  slot_mode : timer_mode;
  slot_remaining : Z;
  slot_reload : Z
}.

Module Timer.

(** Modelled from the spec: timer.c (initTimer, startOneshotTimer,
    startPeriodicTimer, stopTimer, stopAllTimers, tickIsr) is missing.
    "Registers up to N callbacks, each with {mode, remaining-seconds,
    reload-seconds}": a table of N slots, free or holding a callback. *)
Definition table := list (option slot).

(** Modelled from the spec: no callback is registered at the start. *)
Definition initTimer (N : nat) : table := replicate N None.

(** Modelled from the spec: the first free slot takes the registration; the result tells whether
    there was one. *)
Fixpoint register (s : slot) (t : table) : table * bool :=
  match t with
  | [] => ([], false)
  | None :: t' => (Some s :: t', true)
  | Some x :: t' => let '(t'', ok) := register s t' in (Some x :: t'', ok)
  end.

(** Modelled from the spec: a one-shot registration of [seconds]. *)
Definition startOneshotTimer (cb : callback) (seconds : Z) (t : table) : table * bool :=
  register (Slot cb OneShot (u32 seconds) (u32 seconds)) t.

(** Modelled from the spec: a periodic registration, reloaded with
    [seconds]. *)
Definition startPeriodicTimer (cb : callback) (seconds : Z) (t : table) : table * bool :=
  register (Slot cb Periodic (u32 seconds) (u32 seconds)) t.

(** Modelled from the spec: "stop_timer(cb) clears by callback identity". *)
Definition stopTimer (cb : callback) (t : table) : table :=
  (fun o => match o with
            | Some s => if decide (slot_cb s = cb) then None else Some s
            | None => None
            end) <$> t.

(** Modelled from the spec: "stop_all clears all". *)
Definition stopAllTimers (t : table) : table := (fun _ => None) <$> t.

(** Modelled from the spec: "A 1 Hz tick decrements every active slot;
    when remaining reaches zero, the callback is invoked and, for periodic, remaining <- reload; for
    one-shot, the slot is freed."  The result is the table and the
    callbacks invoked, in slot order. *)
Definition tick_slot (o : option slot) : option slot * list callback :=
  match o with
  | None => (None, [])
  | Some s =>
      let r := u32 (slot_remaining s - 1) in
      if r =? 0 then
        match slot_mode s with
        | Periodic => (Some (Slot (slot_cb s) Periodic (slot_reload s) (slot_reload s)),
                       [slot_cb s])
        | OneShot => (None, [slot_cb s])
        end
      else (Some (Slot (slot_cb s) (slot_mode s) r (slot_reload s)), [])
  end.

(** Modelled from the spec: the tick over the whole table. *)
Definition tickIsr (t : table) : table * list callback :=
  (fst ∘ tick_slot <$> t, concat (snd ∘ tick_slot <$> t)).

(** Modelled from the spec: a callback is armed in mode [m] when some slot
    holds it with that mode. *)
Definition armed (cb : callback) (m : timer_mode) (t : table) : bool :=
  existsb (fun o => match o with
                    | Some s => bool_decide (slot_cb s = cb)
                                && match slot_mode s, m with
                                   | OneShot, OneShot | Periodic, Periodic => true
                                   | _, _ => false
                                   end
                    | None => false
                    end) t.

End Timer.

(** ** Main loop (main.c) *)

(** DHCP states (and static [DHCP disabled] state). *)
Definition STATIC : Z := 0.
Definition INIT : Z := 1.
Definition SELECTING : Z := 2.
Definition REQUESTING : Z := 3.
Definition BOUND : Z := 4.
Definition RENEWING : Z := 5.
Definition REBINDING : Z := 6.

(** TCP states. *)
Definition LISTEN : Z := 0.
Definition SYN_RECEIVED : Z := 1.
Definition ESTABLISHED : Z := 2.
Definition FINWAIT_1 : Z := 3.
Definition FINWAIT_2 : Z := 4.
Definition TIME_WAIT : Z := 5.
Definition CLOSED : Z := 6.

(** The flags the timer callbacks and the console raise. *)
Record flags : Type := Flags {
  sendDhcp : bool;
  renewLease : bool;
  sendRenewRequest : bool;
  sendRebindRequest : bool;
  rebind : bool;
  leaseEnd : bool;
  safeToUseIp : bool;
  dhcpRelease : bool;
  transitionToInit : bool
}.

Definition no_flags : flags :=
  Flags false false false false false false false false false.

Definition set_sendDhcp v f := Flags v (renewLease f) (sendRenewRequest f) (sendRebindRequest f)
  (rebind f) (leaseEnd f) (safeToUseIp f) (dhcpRelease f) (transitionToInit f).
Definition set_renewLease v f := Flags (sendDhcp f) v (sendRenewRequest f) (sendRebindRequest f)
  (rebind f) (leaseEnd f) (safeToUseIp f) (dhcpRelease f) (transitionToInit f).
Definition set_sendRenewRequest v f := Flags (sendDhcp f) (renewLease f) v (sendRebindRequest f)
  (rebind f) (leaseEnd f) (safeToUseIp f) (dhcpRelease f) (transitionToInit f).
Definition set_sendRebindRequest v f := Flags (sendDhcp f) (renewLease f) (sendRenewRequest f) v
  (rebind f) (leaseEnd f) (safeToUseIp f) (dhcpRelease f) (transitionToInit f).
Definition set_rebind v f := Flags (sendDhcp f) (renewLease f) (sendRenewRequest f)
  (sendRebindRequest f) v (leaseEnd f) (safeToUseIp f) (dhcpRelease f) (transitionToInit f).
Definition set_leaseEnd v f := Flags (sendDhcp f) (renewLease f) (sendRenewRequest f)
  (sendRebindRequest f) (rebind f) v (safeToUseIp f) (dhcpRelease f) (transitionToInit f).
Definition set_safeToUseIp v f := Flags (sendDhcp f) (renewLease f) (sendRenewRequest f)
  (sendRebindRequest f) (rebind f) (leaseEnd f) v (dhcpRelease f) (transitionToInit f).
Definition set_dhcpRelease v f := Flags (sendDhcp f) (renewLease f) (sendRenewRequest f)
  (sendRebindRequest f) (rebind f) (leaseEnd f) (safeToUseIp f) v (transitionToInit f).
Definition set_transitionToInit v f := Flags (sendDhcp f) (renewLease f) (sendRenewRequest f)
  (sendRebindRequest f) (rebind f) (leaseEnd f) (safeToUseIp f) (dhcpRelease f) v.

(** The bodies of the callbacks. *)
Definition invoke (cb : callback) (f : flags) : flags :=
  match cb with
  | sendDhcpDiscovery => set_sendDhcp true f
  | startT1Timer => set_renewLease true f
  | startRenewing => set_sendRenewRequest true f
  | startT2Timer => set_rebind true f
  | startRebinding => set_sendRebindRequest true f
  | leaseEndTimer => set_leaseEnd true f
  | arpResponse => set_safeToUseIp true f
  | startDeclineTimer => set_transitionToInit true f
  end.

(** The state of [main]: the globals of eth0.c, the packet buffer [data],
    the locals [state] and [tcp_state], the flags and the timer table.
    [at_packet] is the program point: false before the flag handling of an
    iteration, true between the flag handling and the packet processing. *)
Record sys : Type := Sys {
  glob : eth;
  data : list Z;
  state : Z;
  tcp_state : Z;
  flag : flags;
  timers : Timer.table;
  at_packet : bool
}.

Definition set_glob v s := Sys v (data s) (state s) (tcp_state s) (flag s) (timers s) (at_packet s).
Definition set_data v s := Sys (glob s) v (state s) (tcp_state s) (flag s) (timers s) (at_packet s).
Definition set_state v s := Sys (glob s) (data s) v (tcp_state s) (flag s) (timers s) (at_packet s).
Definition set_tcp_state v s := Sys (glob s) (data s) (state s) v (flag s) (timers s) (at_packet s).
Definition set_flag v s := Sys (glob s) (data s) (state s) (tcp_state s) v (timers s) (at_packet s).
Definition set_timers v s := Sys (glob s) (data s) (state s) (tcp_state s) (flag s) v (at_packet s).
Definition set_at_packet v s := Sys (glob s) (data s) (state s) (tcp_state s) (flag s) (timers s) v.

Definition upd_flag (f : flags -> flags) (s : sys) : sys := set_flag (f (flag s)) s.
Definition upd_timers (f : Timer.table -> Timer.table) (s : sys) : sys :=
  set_timers (f (timers s)) s.
Definition upd_glob (f : eth -> eth) (s : sys) : sys := set_glob (f (glob s)) s.

(** [etherSendDhcpPacket(data, packet_type)] on the state of [main]. *)
Definition send_dhcp (packet_type : Z) (s : sys) : option sys :=
  '(g, p) ← etherSendDhcpPacket (glob s) (data s) packet_type;
  Some (set_data p (set_glob g s)).

(** A builder of eth0.c on the state of [main]. *)
Definition build (f : eth -> list Z -> eth * list Z) (s : sys) : sys :=
  let '(g, p) := f (glob s) (data s) in set_data p (set_glob g s).

(** [if (c) body] where the body may be undefined. *)
Definition when (c : bool) (body : sys -> option sys) (s : sys) : option sys :=
  if c then body s else Some s.

(** The timer tick: the interrupt runs the callbacks, which raise flags. *)
Definition main_tick (s : sys) : sys :=
  let '(t, cbs) := Timer.tickIsr (timers s) in
  set_flag (foldl (fun f cb => invoke cb f) (flag s) cbs) (set_timers t s).

(** Lines 340-411 of main.c: the flags raised since the last pass. *)
Definition main_flags (s : sys) : option sys :=
  s ← when (state s =? INIT) (fun s =>
        (* Send Discover once and start periodic timer *)
        let s := upd_flag (set_sendDhcp true) s in
        Some (upd_timers (fun t => fst (Timer.startPeriodicTimer sendDhcpDiscovery 15 t)) s)) s;
  s ← when (sendDhcp (flag s)) (fun s =>
        let s := upd_flag (set_sendDhcp false) s in
        s ← send_dhcp 1 s;
        Some (set_state SELECTING s)) s;
  (* After waiting 2 seconds after sending gratuituous ARP, transition to BOUND state *)
  s ← when (safeToUseIp (flag s) && (state s =? REQUESTING)) (fun s =>
        Some (set_state BOUND s)) s;
  s ← when (renewLease (flag s)) (fun s =>
        let s := set_state RENEWING s in
        let s := upd_flag (set_renewLease false) s in
        Some (upd_timers (fun t => fst (Timer.startPeriodicTimer startRenewing 15 t)) s)) s;
  s ← when (sendRenewRequest (flag s)) (fun s =>
        s ← send_dhcp 4 s;
        Some (upd_flag (set_sendRenewRequest false) s)) s;
  s ← when (rebind (flag s)) (fun s =>
        let s := upd_timers (Timer.stopTimer startRenewing) s in
        let s := set_state REBINDING s in
        let s := upd_flag (set_rebind false) s in
        Some (upd_timers (fun t => fst (Timer.startPeriodicTimer startRebinding 15 t)) s)) s;
  s ← when (sendRebindRequest (flag s)) (fun s =>
        let s := upd_flag (set_sendRebindRequest false) s in
        send_dhcp 5 s) s;
  (* Transition to INIT state once lease ends (without renewing) and set IP to 0.0.0.0 *)
  s ← when (leaseEnd (flag s)) (fun s =>
        let s := upd_timers (Timer.stopTimer startRebinding) s in
        let s := set_state INIT s in
        let s := upd_flag (set_leaseEnd false) s in
        Some (upd_glob etherSetIpAddressToZeroes s)) s;
  (* Send DHCP Release and transition to STATIC state *)
  s ← when (dhcpRelease (flag s)) (fun s =>
        let s := upd_flag (set_dhcpRelease false) s in
        s ← send_dhcp 7 s;
        let s := upd_glob etherDisableDhcpMode s in
        let s := set_state STATIC s in
        let s := upd_glob getDetailsFromEprom s in
        Some (upd_timers Timer.stopAllTimers s)) s;
  (* Transition to INIT state after sending DHCP Decline and waiting 10 secs *)
  when (transitionToInit (flag s)) (fun s =>
        let s := upd_flag (set_transitionToInit false) s in
        Some (set_state INIT s)) s.

(** The strings main.c sends: "Received" with its terminator, and "Hello". *)
Definition str_Received : list Z := [82; 101; 99; 101; 105; 118; 101; 100; 0].
Definition str_Hello : list Z := [72; 101; 108; 108; 111].

(** Lines 471-497: the TCP branch. *)
Definition main_tcp (s : sys) : sys :=
  if etherIsTcpSYN (data s) then
    (* Send SYN ACK in response to SYN *)
    set_tcp_state SYN_RECEIVED (build etherSendTcpSynAck s)
  else if etherIsTcpAck (glob s) (data s) && (tcp_state s =? SYN_RECEIVED) then
    set_tcp_state ESTABLISHED s
  else if etherIsTelnetData (glob s) (data s) then
    build (fun g p => etherSendTelnetData g p str_Hello 5) s
  else if etherIsTcpFINACK (glob s) (data s) then
    set_tcp_state FINWAIT_1 (build etherSendAckFinAck s)
  else if etherIsTcpAck (glob s) (data s) && (tcp_state s =? SYN_RECEIVED) then
    set_tcp_state CLOSED s
  else s.

(** Lines 510-523: a DHCP ACK with a lease restarts the timers.  The
    products [lease * 0.5] and [lease * 0.875] are exact in double precision
    for a 32-bit lease, and the conversion to [uint32_t] drops the fraction. *)
Definition main_dhcp_ack (lease : Z) (s : sys) : sys :=
  if (lease >? 0) && ((state s =? REQUESTING) || (state s =? RENEWING) || (state s =? REBINDING))
  then
    let s := upd_timers Timer.stopAllTimers s in
    (* Send Gratuitous ARP only if getting IP for the first time *)
    let s := if state s =? REQUESTING then build sendGratiousArp s else s in
    (* Start T1 and T2 one shot timers which will start periodic timers *)
    let s := upd_timers (fun t => fst (Timer.startOneshotTimer startT1Timer (lease / 2) t)) s in
    let s := upd_timers (fun t => fst (Timer.startOneshotTimer startT2Timer (lease * 7 / 8) t)) s in
    let s := upd_timers (fun t => fst (Timer.startOneshotTimer leaseEndTimer lease t)) s in
    upd_timers (fun t => fst (Timer.startOneshotTimer arpResponse 2 t)) s
  else s.

(** Lines 431-498: a datagram for this host. *)
Definition main_unicast (s : sys) : option sys :=
  (* handle icmp ping request *)
  let s := if etherIsPingRequest (data s) then build etherSendPingResponse s else s in
  (* Process UDP datagram *)
  let s := if etherIsUdp (data s)
           then build (fun g p => etherSendUdpResponse g p str_Received 9) s else s in
  (* Handle ARP Response to Gratuituous ARP *)
  s ← when (isArpResponse (data s)) (fun s =>
        (* Send decline message to server *)
        s ← send_dhcp 4 s;
        (* Stop all Timers and start a oneshot timer *)
        let s := upd_timers Timer.stopAllTimers s in
        Some (upd_timers
                (fun t => fst (Timer.startOneshotTimer startDeclineTimer 10 t)) s)) s;
  (* Handle TCP Packets *)
  Some (if etherIsTcp (data s) then main_tcp s else s).

(** Lines 501-527: a broadcast datagram. *)
Definition main_broadcast (s : sys) : option sys :=
  when (etherIsUdp (data s)) (fun s =>
    (* If DHCP Offer and state is SELECTING, send DHCP Request *)
    offer ← isDhcpOffer (glob s) (data s);
    s ← when (offer && (state s =? SELECTING)) (fun s =>
          s ← send_dhcp 3 s;
          Some (set_state REQUESTING s)) s;
    (* If DHCP ACK, get the lease time and start the timers *)
    '(g, lease) ← isDhcpAck (glob s) (data s);
    let lease := u32 lease in
    Some (main_dhcp_ack lease (set_glob g s))) s.

(** Lines 414-530: the packet processing, given the frame [rx] the
    controller holds.  LED writes and busy waits are left out. *)
Definition main_packet (rx : list Z) (s : sys) : option sys :=
  (* Get packet *)
  let s := set_data (etherGetPacket (data s) rx MAX_PACKET_SIZE) s in
  (* Handle ARP request *)
  let s := if etherIsArpRequest (glob s) (data s) then build etherSendArpResponse s else s in
  (* Handle IP datagram *)
  when (etherIsIp (data s)) (fun s =>
    s ← when (etherIsIpUnicast (glob s) (data s)) main_unicast s;
    (* Handle IP Broadcast packets *)
    when (etherIsIpBroadcast (data s)) main_broadcast s) s.

(** One step of the system: the timer interrupt, or the next part of the
    loop body.  [ev_packet None] is an iteration that finds no frame. *)
Inductive event : Type :=
| ev_tick
| ev_flags
| ev_packet (rx : option (list Z)).

Definition step (s : sys) (e : event) : option sys :=
  match e with
  | ev_tick => Some (main_tick s)
  | ev_flags =>
      if at_packet s then None
      else s ← main_flags s; Some (set_at_packet true s)
  | ev_packet rx =>
      if at_packet s then
        s ← match rx with Some rx => main_packet rx s | None => Some s end;
        Some (set_at_packet false s)
      else None
  end.

Definition run (s : sys) (es : list event) : option sys :=
  foldl (fun os e => s ← os; step s e) (Some s) es.

(** The runs in which the timer interrupt arrives only at the top of the
    loop, never between the flag handling and the packet processing. *)
Definition run_atomic (s : sys) (es : list event) : option sys :=
  foldl (fun os e =>
           s ← os;
           match e with
           | ev_tick => if at_packet s then None else step s e
           | _ => step s e
           end) (Some s) es.

(** The state in which the loop is entered: the initialisers of eth0.c,
    [etherInit] reading the DHCP flag from the store, and the choice of
    [state] at lines 220-225.  [N] is the size of the timer table, [store]
    the content of the persistent store and [buf] what the buffer holds. *)
Definition boot (N : nat) (store : gmap Z Z) (buf : list Z) : sys :=
  let g := Eth [2; 3; 4; 5; 6; 136] [0; 0; 0; 0] [0; 0; 0; 0] [255; 255; 255; 0]
               [0; 0; 0; 0] [0; 0; 0; 0] [0; 0; 0; 0] [0; 0; 0; 0; 0; 0]
               0 false store [] in
  let tmp := readEeprom g 0 in
  let g := set_dhcpEnabled (tmp >? 0) g in
  let g := if dhcpEnabled g then g else getDetailsFromEprom g in
  let g := etherSetMacAddress [2; 3; 4; 5; 6; 136] g in
  let dhcpMode := dhcpEnabled g in
  Sys g buf (if dhcpMode then INIT else STATIC) 0 no_flags (Timer.initTimer N) false.

(** ** Console line input (uart0.c) *)

Section Uart.

(** uart0.h, which defines [MAX_CHARS] and the structure [USER_DATA], is
    not among the sources: the constant and the conversion to the integer
    type of the field [charCount] are parameters. *)
Variable MAX_CHARS : Z.
Variable to_count : Z -> Z.

(** What [getsUart0] did: the stores into [data->buffer] as (index, value)
    in program order, the octets echoed with [putcUart0], the final
    [charCount], and whether the function returned or still waits in
    [getcUart0] for a character. *)
Record gets_result : Type := GetsResult {
  stores : list (Z * Z);
  echoed : list Z;
  charCount : Z;
  returned : bool
}.

Definition is_alnum (c : Z) : bool :=
  ((97 <=? c) && (c <=? 122)) || ((65 <=? c) && (c <=? 90)) || ((48 <=? c) && (c <=? 57)).

(** The loop [while ((c = getcUart0()))] over the characters that arrive. *)
Fixpoint getsUart0_loop (input : list Z) (count : Z) (st : list (Z * Z)) (out : list Z)
  : gets_result :=
  match input with
  | [] => GetsResult st out count false
  | c :: input =>
      if c =? 0 then GetsResult st out count true
      else if c =? 127 then
        (* Handle Backspace *)
        if count >? 0
        then getsUart0_loop input (to_count (count - 1)) st (out ++ [60; 98; 115; 62])
        else getsUart0_loop input count st out
      else if (c =? 10) || (c =? 13) then
        (* Handle new line and carriage return *)
        GetsResult (st ++ [(count, 0)]) (out ++ [13; 10]) count true
      else if is_alnum c then
        (* Save into buffer if alphabets *)
        let c := if (65 <=? c) && (c <=? 90) then c + 32 else c in
        let st := st ++ [(count, c)] in
        let count := to_count (count + 1) in
        let out := out ++ [c] in
        if count =? MAX_CHARS
        then GetsResult (st ++ [(count, 0)]) (out ++ [13; 10]) count true
        else getsUart0_loop input count st out
      else
        (* All delimeters are displayed as space and are stored as null terminator *)
        getsUart0_loop input (to_count (count + 1)) (st ++ [(count, 0)]) (out ++ [32])
  end.

Definition getsUart0 (input : list Z) : gets_result :=
  getsUart0_loop input (to_count 0) [] [].

End Uart.


(** ** Specification side: the Internet checksum of RFC 1071

    The design document speaks of a header "whose checksum is correct on the
    wire".  That is the RFC's test, written here from its words and
    independently of the code: the octets are paired into 16-bit words, most
    significant octet first, the words are added with end-around carry, and
    the header is correct when the sum is 0xFFFF. *)

Module RFC1071.

Fixpoint be_words (l : list Z) : list Z :=
  match l with
  | a :: b :: r => (a * 2 ^ 8 + b) :: be_words r
  | [a] => [a * 2 ^ 8]
  | [] => []
  end.

(** One's complement addition of two 16-bit words. *)
Definition ones_add (x y : Z) : Z :=
  let s := x + y in if s <? 2 ^ 16 then s else s - 2 ^ 16 + 1.

Definition ones_sum (l : list Z) : Z := foldl ones_add 0 (be_words l).

Definition wire_checksum_ok (octs : list Z) : Prop := ones_sum octs = 0xFFFF.

End RFC1071.

(** ** The wire view of a frame

    The statements read a transmitted frame the way the peer does: fields
    in network byte order, at their offsets in the frame. *)

Module Wire.

Definition be16 (f : list Z) (i : Z) : Z := rd f i * 2 ^ 8 + rd f (i + 1).

Definition be32 (f : list Z) (i : Z) : Z :=
  rd f i * 2 ^ 24 + rd f (i + 1) * 2 ^ 16 + rd f (i + 2) * 2 ^ 8 + rd f (i + 3).

(** TCP flag bits in the octet at offset 13 of the TCP header. *)
Definition FIN : Z := 0.
Definition SYN : Z := 1.
Definition PSH : Z := 3.
Definition ACK : Z := 4.

Definition tcp_flag (f : list Z) (tcp : Z) (bit : Z) : bool :=
  Z.testbit (rd f (tcp + 13)) bit.

End Wire.

(** ** Options regions

    A well-formed options region is what a sequence of [putOption] calls
    from cursor 0 leaves: one [number][count][values] entry per call. *)

Module Options.

(** An entry: the option number and its values. *)
Definition entry : Type := Z * list Z.

(** The calls [putOption(options, size, number, count, values...)] for the
    entries in order, from cursor 0. *)
Definition put_all (m : list Z) (options : Z) (es : list entry) : list Z * Z :=
  foldl (fun st e =>
           putOption (fst st) options (snd st) (fst e) (Z.of_nat (length (snd e))) (snd e))
        (m, 0) es.

(** Octets the entries take in the region. *)
Definition encoded_size (es : list entry) : Z :=
  foldr (fun e acc => 2 + Z.of_nat (length (snd e)) + acc) 0 es.

(** The first entry written for [number], with the offset of its
    [number] octet in the region, counted from [off]. *)
Fixpoint first_entry (number : Z) (es : list entry) (off : Z) : option (Z * list Z) :=
  match es with
  | [] => None
  | e :: r =>
      if fst e =? number then Some (off, snd e)
      else first_entry number r (off + 2 + Z.of_nat (length (snd e)))
  end.

Definition well_formed (es : list entry) : Prop :=
  Forall (fun e => octet (fst e) /\ octets (snd e)) es /\ encoded_size es <= 255.

End Options.

(** ** The UDP checksum of RFC 768

    "The checksum is built over the pseudo-header then the full UDP
    datagram": the octets a receiver checks are the pseudo-header {source
    address, destination address, zero, protocol, UDP length} followed by
    the datagram, header included.  Written from these words. *)

Module RFC768.

Definition pseudo_header (packet : list Z) (ip udp : Z) : list Z :=
  slice packet (ip + 12) 4 ++ slice packet (ip + 16) 4
  ++ [0; rd packet (ip + 9)] ++ slice packet (udp + 4) 2.

Definition datagram (packet : list Z) (udp : Z) : list Z :=
  slice packet udp (Wire.be16 packet (udp + 4)).

Definition checksum_verifies (packet : list Z) (ip udp : Z) : Prop :=
  RFC1071.wire_checksum_ok (pseudo_header packet ip udp ++ datagram packet udp).

End RFC768.

(** ** Identity setters and getters of the console commands (eth0.c) *)

(** [uint32_t ip = 0; ip |= ip0 << 24; ip |= ip1 << 16; ip |= ip2 << 8;
    ip |= ip3;] for [uint8_t] arguments. *)
Definition address_word (ip0 ip1 ip2 ip3 : Z) : Z :=
  let ip := 0 in
  let ip := Z.lor ip (u32 (Z.shiftl ip0 24)) in
  let ip := Z.lor ip (Z.shiftl ip1 16) in
  let ip := Z.lor ip (Z.shiftl ip2 8) in
  Z.lor ip ip3.

(** The four assignments [a[0] = ip0; ... a[3] = ip3;]. *)
Definition store_address (a : list Z) (ip0 ip1 ip2 ip3 : Z) : list Z :=
  wr (wr (wr (wr a 0 ip0) 1 ip1) 2 ip2) 3 ip3.

Definition etherSetIpAddress (ip0 ip1 ip2 ip3 : Z) (g : eth) : eth :=
  let ip0 := u8 ip0 in let ip1 := u8 ip1 in let ip2 := u8 ip2 in let ip3 := u8 ip3 in
  let g := set_ipAddress (store_address (ipAddress g) ip0 ip1 ip2 ip3) g in
  let ip := address_word (Z.land ip0 0x000000ff) (Z.land ip1 0x000000ff)
              (Z.land ip2 0x000000ff) (Z.land ip3 0x000000ff) in
  writeEeprom 1 ip g.

Definition etherSetIpGatewayAddress (ip0 ip1 ip2 ip3 : Z) (g : eth) : eth :=
  let ip0 := u8 ip0 in let ip1 := u8 ip1 in let ip2 := u8 ip2 in let ip3 := u8 ip3 in
  let g := set_ipGwAddress (store_address (ipGwAddress g) ip0 ip1 ip2 ip3) g in
  writeEeprom 2 (address_word ip0 ip1 ip2 ip3) g.

(** The source assigns to [ipGwAddress] here, not to [dnsAddress]. *)
Definition etherSetDNSAddress (ip0 ip1 ip2 ip3 : Z) (g : eth) : eth :=
  let ip0 := u8 ip0 in let ip1 := u8 ip1 in let ip2 := u8 ip2 in let ip3 := u8 ip3 in
  let g := set_ipGwAddress (store_address (ipGwAddress g) ip0 ip1 ip2 ip3) g in
  writeEeprom 3 (address_word ip0 ip1 ip2 ip3) g.

Definition etherSetIpSubnetMask (mask0 mask1 mask2 mask3 : Z) (g : eth) : eth :=
  let mask0 := u8 mask0 in let mask1 := u8 mask1 in
  let mask2 := u8 mask2 in let mask3 := u8 mask3 in
  let g := set_ipSubnetMask (store_address (ipSubnetMask g) mask0 mask1 mask2 mask3) g in
  writeEeprom 4 (address_word mask0 mask1 mask2 mask3) g.

(** [for (i = 0; i < 4; i++) ip[i] = a[i];] into the caller's array. *)
Definition get_address (a : list Z) (ip : list Z) : list Z :=
  for_loop 4 (fun i ip => wr ip i (rd a i)) ip.

Definition etherGetIpAddress (g : eth) (ip : list Z) : list Z := get_address (ipAddress g) ip.
Definition etherGetIpGatewayAddress (g : eth) (ip : list Z) : list Z :=
  get_address (ipGwAddress g) ip.
Definition etherGetDNSAddress (g : eth) (ip : list Z) : list Z := get_address (dnsAddress g) ip.
Definition etherGetIpSubnetMask (g : eth) (mask : list Z) : list Z :=
  get_address (ipSubnetMask g) mask.

(** Determines if the IP address is valid. *)
Definition etherIsIpValid (g : eth) : bool :=
  truthy (rd (ipAddress g) 0) || truthy (rd (ipAddress g) 1)
  || truthy (rd (ipAddress g) 2) || truthy (rd (ipAddress g) 3).

(** ** String helpers of the console (uart0.c)

    A [char*] is the memory from the address on: the list of the octets
    there.  Reading past the end yields 0, as for the packet buffer. *)

(** The string at a pointer: the octets up to the first NUL. *)
Fixpoint cstring (a : list Z) : list Z :=
  match a with
  | [] => []
  | x :: a' => if truthy x then x :: cstring a' else []
  end.

(** [mystrcmp]: while the octet at [a] is not NUL, return false when the
    octets at [a] and [b] differ, else advance both; return true at the
    NUL of [a]. *)
Fixpoint mystrcmp (a b : list Z) : bool :=
  match a with
  | [] => true
  | x :: a' =>
      if truthy x then
        if negb (x =? hd 0 b) then false else mystrcmp a' (tl b)
      else true
  end.

(** Conversion to [int] (32 bits, two's complement). *)
Definition s32 (x : Z) : Z := (x + 2 ^ 31) mod 2 ^ 32 - 2 ^ 31.

(** [for (i = 0; str[i] != '\0'; ++i) res = res * 10 + str[i] - '0';] *)
Fixpoint atoi_loop (str : list Z) (res : Z) : Z :=
  match str with
  | [] => res
  | x :: str' => if truthy x then atoi_loop str' (s32 (s32 (s32 (res * 10) + x) - 48)) else res
  end.

Definition atoi (str : list Z) : Z := atoi_loop str 0.

(** [reverse(str, length)]: [start] and [end] are [uint8_t]; the loop ends
    within 128 turns, since [end - start] decreases by 2 from at most
    255. *)
Fixpoint reverse_loop (fuel : nat) (start end_ : Z) (str : list Z) : list Z :=
  match fuel with
  | O => str
  | S k =>
      if start <? end_ then
        let tmp := rd str start in
        let str := wr str start (rd str end_) in
        let str := wr str end_ tmp in
        reverse_loop k (u8 (start + 1)) (u8 (end_ - 1)) str
      else str
  end.

Definition reverse (str : list Z) (length : Z) : list Z :=
  let start := 0 in
  let end_ := u8 (s32 length - 1) in
  reverse_loop 128 start end_ str.

(** The digit loop of [parseInt]: [num] is an [int32_t], [i] a [uint8_t];
    [%] and [/] truncate towards zero.  Eleven turns are enough for any
    32-bit [num]; [None] is "still in the loop". *)
Fixpoint parseInt_loop (fuel : nat) (num i : Z) (str : list Z) : option (Z * list Z) :=
  match fuel with
  | O => None
  | S k =>
      if negb (num =? 0) then
        let rem := Z.rem num 10 in
        let str := wr str i (u8 (if rem >? 9 then (rem - 10) + 97 else rem + 48)) in
        parseInt_loop k (Z.quot num 10) (u8 (i + 1)) str
      else Some (i, str)
  end.

Definition parseInt (num : Z) (str : list Z) : option (list Z) :=
  let num := s32 num in
  let i := 0 in
  (* Handle 0 explicitely, otherwise empty string is printed for 0 *)
  if num =? 0 then
    let str := wr str i 48 in
    Some (wr str (u8 (i + 1)) 0)
  else
    '(i, str) ← parseInt_loop 11 num i str;
    (* Append string terminator *)
    let str := wr str i 0 in
    (* Reverse the string *)
    Some (reverse str i).

(** ** Test frames and states

    The concrete inputs of the witnesses and counterexamples below: the
    host of the design document's scenarios (MAC 02:03:04:05:06:88, IP
    192.168.1.199) and a peer (MAC 00:11:22:33:44:55, IP 192.168.1.1); for
    DHCP, a server at 10.0.0.1 that offers 10.0.0.42 for 600 seconds.
    Checksum octets are the ones a sender puts on the wire. *)

Module Frames.

Definition host_mac : list Z := [2; 3; 4; 5; 6; 136].
Definition peer_mac : list Z := [0; 17; 34; 51; 68; 85].
Definition host_ip : list Z := [192; 168; 1; 199].
Definition peer_ip : list Z := [192; 168; 1; 1].

(** ARP who-has 192.168.1.199, from the peer. *)
Definition arp_request : list Z :=
  [255; 255; 255; 255; 255; 255] ++ peer_mac ++ [8; 6]
  ++ [0; 1; 8; 0; 6; 4; 0; 1] ++ peer_mac ++ peer_ip ++ [0; 0; 0; 0; 0; 0] ++ host_ip.

(** ICMP Echo Request, IP id 0xBEEF, ICMP id 1, seq 7, payload "abcdef". *)
Definition echo_request : list Z :=
  host_mac ++ peer_mac ++ [8; 0]
  ++ [69; 0; 0; 34; 190; 239; 0; 0; 64; 1; 55; 211] ++ peer_ip ++ host_ip
  ++ [8; 0; 205; 202; 0; 1; 0; 7] ++ [97; 98; 99; 100; 101; 102].

(** UDP datagram to port 1024 with payload "on"; [check] is the checksum
    field; [etherIsUdp] accepts the datagram with [check = [69; 2]]. *)
Definition udp_on (check : list Z) : list Z :=
  host_mac ++ peer_mac ++ [8; 0]
  ++ [69; 0; 0; 30; 0; 2; 0; 0; 64; 17; 246; 180] ++ peer_ip ++ host_ip
  ++ [195; 80; 4; 0; 0; 10] ++ check ++ [111; 110].

(** TCP segment from port 50000 to port 23, data offset 5, window 0x2000,
    no payload; [flags] is the flags octet and [check] the checksum. *)
Definition tcp_segment (seq ack : list Z) (flags : Z) (check : list Z) : list Z :=
  host_mac ++ peer_mac ++ [8; 0]
  ++ [69; 0; 0; 40; 0; 1; 0; 0; 64; 6; 246; 182] ++ peer_ip ++ host_ip
  ++ [195; 80; 0; 23] ++ seq ++ ack ++ [80; flags; 32; 0] ++ check ++ [0; 0].

(** SYN, seq 0x1000. *)
Definition tcp_syn : list Z := tcp_segment [0; 0; 16; 0] [0; 0; 0; 0] 2 [56; 98].
(** ACK, seq 0x1001, ack 1. *)
Definition tcp_ack1 : list Z := tcp_segment [0; 0; 16; 1] [0; 0; 0; 1] 16 [56; 82].
(** FIN|ACK, seq 0x1001, ack 1. *)
Definition tcp_fin_ack : list Z := tcp_segment [0; 0; 16; 1] [0; 0; 0; 1] 17 [56; 81].

(** DHCP reply of 300 octets from the server 10.0.0.1 (MAC of the peer),
    broadcast: [yiaddr] 10.0.0.42, options 53 = [msg_type], 54 = 10.0.0.1,
    51 = 600, 1 = 255.255.255.0, 3 = 10.0.0.1, 6 = 10.0.0.1, end, padding. *)
Definition dhcp_reply (msg_type : Z) (check : list Z) : list Z :=
  [255; 255; 255; 255; 255; 255] ++ peer_mac ++ [8; 0]
  ++ [69; 0; 1; 72; 0; 0; 0; 0; 64; 17; 111; 165] ++ [10; 0; 0; 1] ++ [255; 255; 255; 255]
  ++ [0; 67; 0; 68; 1; 52] ++ check
  ++ [2; 1; 6; 0; 0; 0; 0; 0; 0; 0; 128; 0]
  ++ [0; 0; 0; 0; 10; 0; 0; 42; 10; 0; 0; 1; 0; 0; 0; 0]
  ++ host_mac ++ replicate 10 0 ++ replicate 192 0 ++ [99; 130; 83; 99]
  ++ [53; 1; msg_type; 54; 4; 10; 0; 0; 1; 51; 4; 0; 0; 2; 88; 1; 4; 255; 255; 255; 0;
      3; 4; 10; 0; 0; 1; 6; 4; 10; 0; 0; 1; 255]
  ++ replicate 26 0.

Definition dhcp_offer : list Z := dhcp_reply 2 [234; 201].
Definition dhcp_ack : list Z := dhcp_reply 5 [231; 201].

(** The host with a static address, nothing received yet: the loop is
    entered with DHCP off and the address in the store. *)
Definition static_store : gmap Z Z := {[ 0 := 0; 1 := 0xC0A801C7 ]}.
Definition static_host : sys := boot 10 static_store (replicate 1522 0).

(** The host with DHCP on. *)
Definition dhcp_store : gmap Z Z := {[ 0 := 1 ]}.
Definition dhcp_host : sys := boot 10 dhcp_store (replicate 1522 0).

(** The connection after the SYN, and after the peer's ACK. *)
Definition after_syn : sys := default static_host (main_packet tcp_syn static_host).
Definition established : sys := default after_syn (main_packet tcp_ack1 after_syn).

(** DHCP bring-up to BOUND: DISCOVER, OFFER, REQUEST, ACK, and the two
    seconds of the safe timer. *)
Definition to_bound : list event :=
  [ev_flags; ev_packet (Some dhcp_offer); ev_flags; ev_packet (Some dhcp_ack);
   ev_tick; ev_tick; ev_flags; ev_packet None].

(** From BOUND (2 s after the ACK) to the iteration after T1 fires at
    300 s. *)
Definition t1_fires : list event :=
  replicate 298 ev_tick ++ [ev_flags; ev_packet None].

(** The 15 seconds of the periodic timer armed at T1, and the next flag
    handling. *)
Definition renew_period : list event := replicate 15 ev_tick ++ [ev_flags].

(** From RENEWING at 300 s to 524 s; then the flag handling of an
    iteration, the tick of second 525 (T2 fires) before the packet
    processing of the same iteration, a DHCP ACK in that packet
    processing, and the flag handling of the next iteration. *)
Definition t2_races_ack : list event :=
  replicate 224 ev_tick
  ++ [ev_flags; ev_tick; ev_packet (Some dhcp_ack); ev_flags].

End Frames.

(** ** Auxiliary definitions of the proofs *)

(** The exact value the loop of [etherSumWords] accumulates over a list of
    octets: even positions count once, odd positions 256 times. *)
Fixpoint wsum (odd : bool) (l : list Z) : Z :=
  match l with
  | [] => 0
  | a :: r => (if odd then a * 2 ^ 8 else a) + wsum (negb odd) r
  end.

(** The same with the weights exchanged: the sum of the big-endian words. *)
Fixpoint bsum (odd : bool) (l : list Z) : Z :=
  match l with
  | [] => 0
  | a :: r => (if odd then a else a * 2 ^ 8) + bsum (negb odd) r
  end.

(** The loop of [etherSendArpResponse] over the hardware addresses. *)
Definition arp_hw_loop (g : eth) (packet : list Z) : list Z :=
  for_loop HW_ADD_LENGTH (fun i p =>
      let p := wr p (14 + arpFrame.destAddress + i) (rd p (14 + arpFrame.sourceAddress + i)) in
      let p := wr p (0 + etherFrame.destAddress + i) (rd p (0 + etherFrame.sourceAddress + i)) in
      let p := wr p (14 + arpFrame.sourceAddress + i) (rd (macAddress g) i) in
      wr p (0 + etherFrame.sourceAddress + i) (rd (macAddress g) i)) packet.

(** The octets an entry takes. *)
Definition enc_entry (e : Options.entry) : list Z :=
  fst e :: Z.of_nat (length (snd e)) :: snd e.


(** The timer table holds a slot for the callback [cb]. *)
Definition has (cb : callback) (t : Timer.table) : Prop :=
  exists sl, Some sl ∈ t /\ slot_cb sl = cb.

(** Counters are [uint32_t], and T1 is only ever a one-shot timer. *)
Definition slot_ok (o : option slot) : Prop :=
  match o with
  | Some sl => 0 <= slot_remaining sl < 2 ^ 32
               /\ 0 <= slot_reload sl < 2 ^ 32
               /\ (slot_cb sl = startT1Timer -> slot_mode sl = OneShot)
  | None => True
  end.

(** T1 does not outlive T2: the counters are equal, or T1 fires first. *)
Definition ordered (t : Timer.table) : Prop :=
  forall s1 s2,
    Some s1 ∈ t -> Some s2 ∈ t ->
    slot_cb s1 = startT1Timer -> slot_cb s2 = startT2Timer ->
    slot_remaining s1 = slot_remaining s2
    \/ 0 < slot_remaining s1 <= slot_remaining s2.

(** What the loop keeps true of the timer table [t] and the flag [rebind]. *)
Definition timers_inv (t : Timer.table) (rb : bool) : Prop :=
  Forall slot_ok t
  /\ ordered t
  /\ (rb = true -> ~ has startT1Timer t)
  /\ (has startRebinding t -> ~ has startT1Timer t).

Definition sys_inv (s : sys) : Prop :=
  timers_inv (timers s) (rebind (flag s))
  /\ (at_packet s = true -> rebind (flag s) = false).

(** The parts of the state that only the DHCP branch touches. *)
Definition same_ctl (s s' : sys) : Prop :=
  timers s' = timers s /\ flag s' = flag s /\ at_packet s' = at_packet s.


(** * Properties *)

(** ** Fixed-width integers and memory *)

Lemma u8_small x : 0 <= x < 256 -> u8 x = x.
Proof. intros; unfold u8; apply Z.mod_small; lia. Qed.

Lemma u16_small x : 0 <= x < 65536 -> u16 x = x.
Proof. intros; unfold u16; apply Z.mod_small; lia. Qed.

Lemma u32_small x : 0 <= x < 2 ^ 32 -> u32 x = x.
Proof. intros; unfold u32; apply Z.mod_small; lia. Qed.

Lemma u32_add_l a b : u32 (u32 a + b) = u32 (a + b).
Proof. unfold u32. apply Zplus_mod_idemp_l. Qed.

Lemma length_wr m i v : length (wr m i v) = length m.
Proof. unfold wr. destruct (0 <=? i); [apply length_insert | reflexivity]. Qed.

Lemma rd_wr_eq m i v : 0 <= i < Z.of_nat (length m) -> rd (wr m i v) i = v.
Proof.
  intros [H0 H1]. unfold rd, wr.
  destruct (Z.leb_spec 0 i); [|lia].
  rewrite list_lookup_insert_eq by lia. reflexivity.
Qed.

Lemma rd_wr_ne m i j v : i <> j -> rd (wr m i v) j = rd m j.
Proof.
  intros Hne. unfold rd, wr.
  destruct (Z.leb_spec 0 i), (Z.leb_spec 0 j); try reflexivity.
  rewrite list_lookup_insert_ne by lia. reflexivity.
Qed.

Lemma rd_octet m i : octets m -> octet (rd m i).
Proof.
  intros Hm. unfold rd.
  destruct (0 <=? i); [|unfold octet; lia].
  destruct (m !! Z.to_nat i) as [x|] eqn:E; simpl; [|unfold octet; lia].
  eapply Forall_lookup_1 in Hm; eauto.
Qed.

Lemma rd_nonneg_bound m i : octets m -> 0 <= rd m i < 256.
Proof. intros H. apply (rd_octet m i H). Qed.

Lemma wr_octets m i v : octets m -> octet v -> octets (wr m i v).
Proof.
  intros Hm Hv. unfold wr. destruct (0 <=? i); [|assumption].
  apply Forall_insert; assumption.
Qed.

Lemma length_wr16 m i v : length (wr16 m i v) = length m.
Proof. unfold wr16. rewrite !length_wr. reflexivity. Qed.

Lemma length_wr32 m i v : length (wr32 m i v) = length m.
Proof. unfold wr32. rewrite !length_wr. reflexivity. Qed.

Lemma rd_wr16_other m i v j : j <> i -> j <> i + 1 -> rd (wr16 m i v) j = rd m j.
Proof. intros. unfold wr16. rewrite !rd_wr_ne by lia. reflexivity. Qed.

Lemma rd_wr32_other m i v j :
  j < i \/ i + 3 < j -> rd (wr32 m i v) j = rd m j.
Proof. intros. unfold wr32. rewrite !rd_wr_ne by lia. reflexivity. Qed.

Lemma wr16_octets m i v : octets m -> octets (wr16 m i v).
Proof.
  intros. unfold wr16.
  apply wr_octets; [apply wr_octets|]; auto; unfold octet;
    apply Z.mod_pos_bound; lia.
Qed.

Lemma rd16_wr16 m i v :
  0 <= i -> i + 1 < Z.of_nat (length m) -> 0 <= v < 65536 -> rd16 (wr16 m i v) i = v.
Proof.
  intros. unfold rd16, wr16.
  rewrite rd_wr_ne by lia. rewrite rd_wr_eq by lia.
  rewrite rd_wr_eq by (rewrite length_wr; lia).
  rewrite (Z.mod_small (v / 2 ^ 8)) by (split; [apply Z.div_pos | apply Z.div_lt_upper_bound]; lia).
  pose proof (Z.div_mod v (2 ^ 8) ltac:(lia)). lia.
Qed.

Lemma slice_cons m i n :
  0 < n -> slice m i n = rd m i :: slice m (i + 1) (n - 1).
Proof.
  intros Hn. unfold slice. rewrite seqZ_cons by lia. simpl.
  rewrite Z.add_0_r. f_equal.
  replace (Z.succ 0) with (1 + 0) by lia.
  rewrite <- fmap_add_seqZ, <- list_fmap_compose.
  apply list_fmap_ext. intros _ j _. simpl. f_equal; lia.
Qed.

Lemma slice_nil m i n : n <= 0 -> slice m i n = [].
Proof. intros. unfold slice. rewrite seqZ_nil by lia. reflexivity. Qed.

Lemma length_slice m i n : length (slice m i n) = Z.to_nat n.
Proof. unfold slice. rewrite length_fmap, length_seqZ. reflexivity. Qed.

Lemma slice_lookup m i n (k : nat) :
  Z.of_nat k < n -> slice m i n !! k = Some (rd m (i + Z.of_nat k)).
Proof.
  intros. unfold slice. rewrite list_lookup_fmap, lookup_seqZ_lt by lia.
  simpl. do 2 f_equal.
Qed.

Lemma rd_slice m i n j : 0 <= j < n -> rd (slice m i n) j = rd m (i + j).
Proof.
  intros. unfold rd at 1. destruct (Z.leb_spec 0 j); [|lia].
  rewrite slice_lookup by lia. simpl. f_equal; lia.
Qed.

Lemma slice_app m i n1 n2 :
  0 <= n1 -> 0 <= n2 -> slice m i (n1 + n2) = slice m i n1 ++ slice m (i + n1) n2.
Proof.
  intros. unfold slice. rewrite seqZ_app by lia. rewrite fmap_app. f_equal.
  replace (0 + n1) with (n1 + 0) by lia.
  rewrite <- fmap_add_seqZ, <- list_fmap_compose.
  apply list_fmap_ext. intros _ j _. simpl. f_equal; lia.
Qed.

Lemma slice_octets m i n : octets m -> octets (slice m i n).
Proof.
  intros Hm. unfold slice, octets. apply Forall_fmap, Forall_forall.
  intros j _. simpl. apply rd_octet; assumption.
Qed.

Lemma slice_ext m m' i n :
  (forall j, i <= j < i + n -> rd m j = rd m' j) -> slice m i n = slice m' i n.
Proof.
  intros H. unfold slice. apply list_fmap_ext. intros k j Hk. simpl.
  apply lookup_seqZ in Hk. apply H. lia.
Qed.

Lemma slice_ext2 m m' i i' n :
  (forall k, 0 <= k < n -> rd m (i + k) = rd m' (i' + k)) -> slice m i n = slice m' i' n.
Proof.
  intros H. unfold slice. apply list_fmap_ext. intros k j Hk. simpl.
  apply lookup_seqZ in Hk. apply H. lia.
Qed.

(** ** Checksum engine *)

Lemma wsum_bounds odd l :
  octets l -> 0 <= wsum odd l <= 65280 * Z.of_nat (length l).
Proof.
  intros H. revert odd. induction H as [|a r Ha Hr IH]; intros odd.
  - simpl. lia.
  - cbn [wsum length]. rewrite Nat2Z.inj_succ.
    specialize (IH (negb odd)). unfold octet in Ha. destruct odd; lia.
Qed.

Lemma wsum_app odd l1 l2 :
  wsum odd (l1 ++ l2) = wsum odd l1 + wsum (if Nat.even (length l1) then odd else negb odd) l2.
Proof.
  revert odd. induction l1 as [|a r IH]; intros odd.
  - reflexivity.
  - cbn [app wsum length]. rewrite IH, Nat.even_succ, <- Nat.negb_even.
    destruct (Nat.even (length r)); cbn [negb]; rewrite ?negb_involutive; lia.
Qed.

Lemma wsum_app_even odd l1 l2 :
  Nat.even (length l1) = true -> wsum odd (l1 ++ l2) = wsum odd l1 + wsum odd l2.
Proof. intros E. rewrite wsum_app, E. reflexivity. Qed.

Lemma wsum_zero odd l : octets l -> wsum odd l = 0 -> bsum odd l = 0.
Proof.
  intros H. revert odd. induction H as [|a r Ha Hr IH]; intros odd; simpl; [reflexivity|].
  intros E. pose proof (wsum_bounds (negb odd) r Hr). unfold octet in Ha.
  rewrite IH by (destruct odd; lia). destruct odd; lia.
Qed.

Lemma bsum_zero odd l : octets l -> bsum odd l = 0 -> wsum odd l = 0.
Proof.
  intros H. revert odd. induction H as [|a r Ha Hr IH]; intros odd; simpl; [reflexivity|].
  intros E.
  assert (Hb : forall o, 0 <= bsum o r).
  { clear -Hr. induction Hr as [|b r' Hb' _ IH']; intros o; simpl; [lia|].
    specialize (IH' (negb o)). unfold octet in Hb'. destruct o; lia. }
  specialize (Hb (negb odd)). unfold octet in Ha.
  rewrite IH by (destruct odd; lia). destruct odd; lia.
Qed.

(** Byte-order independence: 256 times the little-endian sum is congruent to
    the big-endian sum modulo 65535. *)
Lemma wsum_bsum odd l : exists k, 2 ^ 8 * wsum odd l = bsum odd l + 65535 * k.
Proof.
  revert odd. induction l as [|a r IH]; intros odd; simpl.
  - exists 0. lia.
  - destruct (IH (negb odd)) as [k Hk]. destruct odd.
    + exists (k + a). lia.
    + exists k. lia.
Qed.

Lemma sumWords_loop_spec n : forall m p phase sum,
  phase = 0 \/ phase = 1 -> 0 <= sum < 2 ^ 32 ->
  sumWords_loop n m p phase sum
  = u32 (sum + wsum (truthy phase) (slice m p (Z.of_nat n))).
Proof.
  induction n as [|n IH]; intros m p phase sum Hph Hs.
  - cbn [sumWords_loop]. rewrite slice_nil by lia. cbn [wsum].
    rewrite Z.add_0_r, u32_small; auto.
  - rewrite slice_cons by lia.
    replace (Z.of_nat (S n) - 1) with (Z.of_nat n) by lia.
    cbn [sumWords_loop wsum].
    rewrite IH.
    + replace (truthy (1 - phase)) with (negb (truthy phase))
        by (destruct Hph; subst; reflexivity).
      rewrite Z.shiftl_mul_pow2 by lia.
      destruct (truthy phase); rewrite u32_add_l; f_equal; lia.
    + destruct Hph; subst; auto.
    + destruct (truthy phase); apply Z.mod_pos_bound; lia.
Qed.

Lemma etherSumWords_spec sum m p size :
  0 <= sum < 2 ^ 32 -> 0 <= size < 65536 ->
  etherSumWords sum m p size = u32 (sum + wsum false (slice m p size)).
Proof.
  intros. unfold etherSumWords. rewrite u16_small by lia.
  rewrite sumWords_loop_spec by (auto; lia).
  rewrite Z2Nat.id by lia. reflexivity.
Qed.

Lemma land_ffff x : Z.land x 0xFFFF = x mod 2 ^ 16.
Proof. change 0xFFFF with (Z.ones 16). apply Z.land_ones. lia. Qed.

Lemma land_ff x : Z.land x 0xFF = x mod 2 ^ 8.
Proof. change 0xFF with (Z.ones 8). apply Z.land_ones. lia. Qed.

Lemma land_f x : Z.land x 0xF = x mod 2 ^ 4.
Proof. change 0xF with (Z.ones 4). apply Z.land_ones. lia. Qed.

(** The loop of [getEtherChecksum] has left [while] after at most two turns,
    with a value below 2^16 that is congruent to the accumulator modulo
    65535 and is zero only for a zero accumulator. *)
Lemma fold_carries_spec sum :
  0 <= sum < 2 ^ 32 ->
  let f := fold_carries 2 sum in
  0 <= f < 2 ^ 16 /\ (exists k, 0 <= k /\ sum = f + 65535 * k) /\ (f = 0 -> sum = 0).
Proof.
  intros Hs. cbn [fold_carries].
  rewrite !land_ffff, !Z.shiftr_div_pow2 by lia.
  pose proof (Z.div_mod sum (2 ^ 16) ltac:(lia)) as Hdm.
  pose proof (Z.mod_pos_bound sum (2 ^ 16) ltac:(lia)) as Hm.
  assert (Hq : 0 <= sum / 2 ^ 16 < 2 ^ 16).
  { split; [apply Z.div_pos; lia | apply Z.div_lt_upper_bound; lia]. }
  destruct (Z.gtb_spec (sum / 2 ^ 16) 0) as [Hgt|Hle].
  - rewrite (u32_small (sum mod 2 ^ 16 + sum / 2 ^ 16)) by lia.
    remember (sum mod 2 ^ 16 + sum / 2 ^ 16) as s1 eqn:Es1.
    pose proof (Z.div_mod s1 (2 ^ 16) ltac:(lia)) as Hdm1.
    pose proof (Z.mod_pos_bound s1 (2 ^ 16) ltac:(lia)) as Hm1.
    assert (Hq1 : 0 <= s1 / 2 ^ 16 <= 1).
    { split; [apply Z.div_pos; lia|].
      assert (s1 / 2 ^ 16 < 2) by (apply Z.div_lt_upper_bound; lia). lia. }
    destruct (Z.gtb_spec (s1 / 2 ^ 16) 0) as [Hgt1|Hle1].
    + assert (s1 / 2 ^ 16 = 1) as E1 by lia. rewrite E1 in *.
      rewrite u32_small by lia.
      split; [lia|]. split; [exists (sum / 2 ^ 16 + 1); lia | lia].
    + assert (s1 / 2 ^ 16 = 0) as E1 by lia. rewrite E1 in *.
      split; [lia|]. split; [exists (sum / 2 ^ 16); lia | lia].
  - assert (sum / 2 ^ 16 = 0) as E0 by lia. rewrite E0 in *.
    split; [lia|]. split; [exists 0; lia | lia].
Qed.

(** The loop condition is false for the value two turns leave: the bounded
    loop is the loop of the source. *)
Lemma fold_carries_exit sum :
  0 <= sum < 2 ^ 32 -> (Z.shiftr (fold_carries 2 sum) 16 >? 0) = false.
Proof.
  intros Hs. destruct (fold_carries_spec sum Hs) as [Hf _].
  rewrite Z.shiftr_div_pow2 by lia. rewrite Z.div_small by lia. reflexivity.
Qed.

Lemma fold_carries_more_fuel n sum :
  0 <= sum < 2 ^ 32 -> fold_carries (2 + n) sum = fold_carries 2 sum.
Proof.
  intros Hs. pose proof (fold_carries_exit sum Hs) as He.
  change (2 + n)%nat with (S (S n)).
  cbn [fold_carries] in *.
  destruct (Z.shiftr sum 16 >? 0); [|reflexivity].
  destruct (Z.shiftr (u32 (Z.land sum 65535 + Z.shiftr sum 16)) 16 >? 0); [|reflexivity].
  destruct n; [reflexivity|]. cbn [fold_carries]. rewrite He. reflexivity.
Qed.

Lemma getEtherChecksum_value sum :
  0 <= sum < 2 ^ 32 -> getEtherChecksum sum = 65535 - fold_carries 2 sum.
Proof.
  intros Hs. unfold getEtherChecksum.
  destruct (fold_carries_spec sum Hs) as [Hf _].
  rewrite land_ffff, Z.mod_small by lia.
  unfold Z.lnot, u16. rewrite <- Z.sub_1_r.
  replace (- fold_carries 2 sum - 1) with ((65535 - fold_carries 2 sum) + (-1) * 2 ^ 16) by lia.
  rewrite Z.mod_add by lia. apply Z.mod_small. lia.
Qed.

Lemma getEtherChecksum_range sum :
  0 <= sum < 2 ^ 32 -> 0 <= getEtherChecksum sum < 65536.
Proof.
  intros Hs. rewrite getEtherChecksum_value by assumption.
  destruct (fold_carries_spec sum Hs) as [Hf _]. lia.
Qed.

(** The fold answers 0 exactly for a non-zero multiple of 65535. *)
Lemma getEtherChecksum_zero sum :
  0 <= sum < 2 ^ 32 ->
  (getEtherChecksum sum = 0 <-> sum <> 0 /\ exists k, sum = 65535 * k).
Proof.
  intros Hs. rewrite getEtherChecksum_value by assumption.
  destruct (fold_carries_spec sum Hs) as (Hf & (k & Hk & Hsum) & Hz).
  split.
  - intros E. split; [lia|]. exists (k + 1). lia.
  - intros [Hne [j Hj]].
    assert (fold_carries 2 sum <> 0) by (intros E; apply Hne, Hz, E).
    assert (fold_carries 2 sum = 65535 * (j - k)) as E by lia.
    assert (j - k = 1) by nia. lia.
Qed.

(** One's complement sum of RFC 1071 against the plain sum of the words. *)
Lemma ones_add_spec x y :
  0 <= x < 2 ^ 16 -> 0 <= y < 2 ^ 16 ->
  let r := RFC1071.ones_add x y in
  0 <= r < 2 ^ 16 /\ (exists k, 0 <= k /\ x + y = r + 65535 * k)
  /\ (r = 0 -> x = 0 /\ y = 0).
Proof.
  intros Hx Hy. unfold RFC1071.ones_add. cbn zeta.
  destruct (Z.ltb_spec (x + y) (2 ^ 16)).
  - split; [lia|]. split; [exists 0; lia | lia].
  - split; [lia|]. split; [exists 1; lia | lia].
Qed.

Lemma be_words_sum_pair l : octets l ->
  (Forall (fun w => 0 <= w < 2 ^ 16) (RFC1071.be_words l)
   /\ foldr Z.add 0 (RFC1071.be_words l) = bsum false l)
  /\ forall a, octet a ->
       Forall (fun w => 0 <= w < 2 ^ 16) (RFC1071.be_words (a :: l))
       /\ foldr Z.add 0 (RFC1071.be_words (a :: l)) = bsum false (a :: l).
Proof.
  induction 1 as [|b r Hb Hr [IH1 IH2]].
  - split; [split; [constructor | reflexivity]|].
    intros a Ha. unfold octet in Ha. simpl. split; [repeat constructor; lia | lia].
  - split; [apply IH2; assumption|].
    intros a Ha. destruct IH1 as [IHa IHb]. unfold octet in *.
    cbn [RFC1071.be_words foldr bsum negb]. split; [constructor; [lia | assumption] | lia].
Qed.

Lemma be_words_sum l : octets l ->
  Forall (fun w => 0 <= w < 2 ^ 16) (RFC1071.be_words l)
  /\ foldr Z.add 0 (RFC1071.be_words l) = bsum false l.
Proof. intros H. apply be_words_sum_pair, H. Qed.

Lemma ones_fold_spec ws : Forall (fun w => 0 <= w < 2 ^ 16) ws ->
  forall acc, 0 <= acc < 2 ^ 16 ->
  let r := foldl RFC1071.ones_add acc ws in
  0 <= r < 2 ^ 16 /\ (exists k, 0 <= k /\ acc + foldr Z.add 0 ws = r + 65535 * k)
  /\ (r = 0 -> acc = 0 /\ foldr Z.add 0 ws = 0).
Proof.
  induction 1 as [|w ws Hw Hws IH]; intros acc Hacc; simpl.
  - split; [lia|]. split; [exists 0; lia | lia].
  - destruct (ones_add_spec acc w Hacc Hw) as (Hr & (k & Hk0 & Hk) & Hz).
    destruct (IH _ Hr) as (Hr' & (k' & Hk0' & Hk') & Hz').
    split; [assumption|]. split.
    + exists (k + k'). lia.
    + intros E. destruct (Hz' E) as [E1 E2]. destruct (Hz E1). lia.
Qed.

(** A list of octets passes the RFC's test exactly when the sum of its
    big-endian words is a non-zero multiple of 65535. *)
Lemma wire_checksum_ok_bsum l : octets l ->
  RFC1071.wire_checksum_ok l -> bsum false l <> 0 /\ exists k, bsum false l = 65535 * k.
Proof.
  intros H Hok. unfold RFC1071.wire_checksum_ok, RFC1071.ones_sum in Hok.
  destruct (be_words_sum l H) as [Hw Hs].
  destruct (ones_fold_spec _ Hw 0 ltac:(lia)) as (_ & (k & Hk0 & Hk) & _).
  rewrite Hok, Hs in Hk. split; [|exists (k + 1)]; lia.
Qed.

Lemma ip_hlen_range packet ip : 0 <= ip_hlen packet ip <= 60.
Proof.
  unfold ip_hlen. rewrite land_f.
  pose proof (Z.mod_pos_bound (rd packet (ip + ipFrame.revSize)) (2 ^ 4) ltac:(lia)). lia.
Qed.

Lemma wsum_small odd l :
  octets l -> Z.of_nat (length l) <= 65536 -> 0 <= wsum odd l < 2 ^ 32.
Proof. intros H Hl. pose proof (wsum_bounds odd l H). lia. Qed.

(** A header that passes the RFC's test makes the code's sum fold to zero. *)
Lemma wire_ok_folds_to_zero packet p n :
  octets packet -> 0 <= n < 65536 ->
  RFC1071.wire_checksum_ok (slice packet p n) ->
  getEtherChecksum (etherSumWords 0 packet p n) = 0.
Proof.
  intros Hp Hn Hok.
  pose proof (slice_octets packet p n Hp) as Hsl.
  assert (Hw : 0 <= wsum false (slice packet p n) < 2 ^ 32).
  { apply wsum_small; [assumption|]. rewrite length_slice. lia. }
  rewrite etherSumWords_spec by lia. rewrite Z.add_0_l, u32_small by assumption.
  apply getEtherChecksum_zero; [assumption|].
  destruct (wire_checksum_ok_bsum _ Hsl Hok) as [Hne [k Hk]].
  destruct (wsum_bsum false (slice packet p n)) as [k' Hk'].
  split.
  - intros E. apply Hne. apply wsum_zero; assumption.
  - exists (2 ^ 8 * (k + k') - wsum false (slice packet p n)). lia.
Qed.

(** The exact sum [etherCalcIpChecksum] feeds to the fold. *)
Lemma calc_sum_value packet ip :
  octets packet -> 12 <= ip_hlen packet ip ->
  etherSumWords (etherSumWords 0 packet (ip + ipFrame.revSize) 10) packet
    (ip + ipFrame.sourceIp) (ip_hlen packet ip - 12)
  = wsum false (slice packet ip 10)
    + wsum false (slice packet (ip + 12) (ip_hlen packet ip - 12))
  /\ 0 <= wsum false (slice packet ip 10)
          + wsum false (slice packet (ip + 12) (ip_hlen packet ip - 12)) < 2 ^ 31.
Proof.
  intros Hp Hl. pose proof (ip_hlen_range packet ip) as Hr.
  unfold ipFrame.revSize, ipFrame.sourceIp. rewrite Z.add_0_r.
  pose proof (wsum_bounds false _ (slice_octets packet ip 10 Hp)) as HA.
  pose proof (wsum_bounds false _
                (slice_octets packet (ip + 12) (ip_hlen packet ip - 12) Hp)) as HC.
  rewrite !length_slice in *.
  rewrite (etherSumWords_spec 0) by lia. rewrite Z.add_0_l.
  rewrite (u32_small (wsum false (slice packet ip 10))) by lia.
  rewrite etherSumWords_spec by lia.
  rewrite u32_small by lia. split; [reflexivity | lia].
Qed.

(** The header [etherCalcIpChecksum] leaves, as a list of octets. *)
Lemma calc_header_slice packet ip :
  0 <= ip -> 12 <= ip_hlen packet ip ->
  ip + ip_hlen packet ip <= Z.of_nat (length packet) ->
  let c := getEtherChecksum
             (etherSumWords (etherSumWords 0 packet (ip + ipFrame.revSize) 10) packet
                (ip + ipFrame.sourceIp) (ip_hlen packet ip - 12)) in
  slice (etherCalcIpChecksum packet ip) ip (ip_hlen packet ip)
  = slice packet ip 10 ++ [c mod 2 ^ 8; c / 2 ^ 8 mod 2 ^ 8]
    ++ slice packet (ip + 12) (ip_hlen packet ip - 12).
Proof.
  intros Hip Hl Hlen c.
  unfold etherCalcIpChecksum. cbn zeta. fold c.
  replace (ip_hlen packet ip) with (10 + (2 + (ip_hlen packet ip - 12))) at 1 by lia.
  rewrite slice_app by lia. rewrite slice_app by lia.
  f_equal; [|f_equal].
  - apply slice_ext. intros j Hj. unfold ipFrame.headerChecksum.
    apply rd_wr16_other; lia.
  - rewrite slice_cons by lia. rewrite slice_cons by lia. rewrite slice_nil by lia.
    unfold ipFrame.headerChecksum, wr16.
    rewrite rd_wr_ne by lia. rewrite rd_wr_eq by lia.
    replace (ip + 10 + 1) with (ip + 10 + 1) by lia.
    rewrite rd_wr_eq by (rewrite length_wr; lia). reflexivity.
  - replace (ip + 10 + 2) with (ip + 12) by lia.
    apply slice_ext. intros j Hj. unfold ipFrame.headerChecksum.
    apply rd_wr16_other; lia.
Qed.

Lemma calc_keeps_hlen packet ip :
  ip_hlen (etherCalcIpChecksum packet ip) ip = ip_hlen packet ip.
Proof.
  unfold etherCalcIpChecksum, ip_hlen. cbn zeta.
  unfold ipFrame.revSize, ipFrame.headerChecksum.
  rewrite rd_wr16_other by lia. reflexivity.
Qed.

(** The header the builder leaves makes the code's sum fold to zero. *)
Lemma calc_folds_to_zero packet ip :
  octets packet -> 0 <= ip -> 12 <= ip_hlen packet ip ->
  ip + ip_hlen packet ip <= Z.of_nat (length packet) ->
  let packet' := etherCalcIpChecksum packet ip in
  getEtherChecksum (etherSumWords 0 packet' ip (ip_hlen packet' ip)) = 0.
Proof.
  intros Hp Hip Hl Hlen packet'. subst packet'.
  rewrite calc_keeps_hlen.
  pose proof (ip_hlen_range packet ip) as Hr.
  destruct (calc_sum_value packet ip Hp Hl) as [HS HSb].
  rewrite etherSumWords_spec by lia. rewrite Z.add_0_l.
  rewrite calc_header_slice by assumption. cbn zeta. rewrite HS.
  set (S := wsum false (slice packet ip 10)
            + wsum false (slice packet (ip + 12) (ip_hlen packet ip - 12))) in *.
  assert (HS32 : 0 <= S < 2 ^ 32) by lia.
  pose proof (getEtherChecksum_range S HS32) as Hc.
  pose proof (getEtherChecksum_value S HS32) as Hv.
  destruct (fold_carries_spec S HS32) as (Hf & (k & Hk0 & Hk) & _).
  set (c := getEtherChecksum S) in *.
  rewrite !wsum_app. rewrite length_slice.
  change (Nat.even (Z.to_nat 10)) with true. cbn [app wsum negb length Nat.even].
  assert (Hcc : c mod 2 ^ 8 + (c / 2 ^ 8 mod 2 ^ 8 * 2 ^ 8 + 0) = c).
  { rewrite (Z.mod_small (c / 2 ^ 8))
      by (split; [apply Z.div_pos | apply Z.div_lt_upper_bound]; lia).
    pose proof (Z.div_mod c (2 ^ 8) ltac:(lia)). lia. }
  replace (wsum false (slice packet ip 10)
           + (c mod 2 ^ 8 + (c / 2 ^ 8 mod 2 ^ 8 * 2 ^ 8 + 0)
              + wsum false (slice packet (ip + 12) (ip_hlen packet ip - 12))))
    with (S + c) by (subst S; lia).
  rewrite u32_small by lia.
  apply getEtherChecksum_zero; [lia|]. split; [lia|]. exists (k + 1). lia.
Qed.

(** ** Byte order *)

Lemma land_field y w k :
  0 <= k ->
  Z.land y (Z.shiftl (Z.ones w) k) = Z.shiftl (Z.land (Z.shiftr y k) (Z.ones w)) k.
Proof.
  intros Hk. apply Z.bits_inj'. intros n Hn. rewrite Z.land_spec.
  destruct (Z.ltb_spec n k).
  - rewrite !Z.shiftl_spec_low by lia. apply andb_false_r.
  - rewrite !Z.shiftl_spec by lia. rewrite Z.land_spec, Z.shiftr_spec by lia.
    replace (n - k + k) with n by lia. reflexivity.
Qed.

(** The octet of [y] that starts at bit [k], left where it is. *)
Lemma land_octet_at y k :
  0 <= k -> Z.land y (Z.shiftl 0xFF k) = (y / 2 ^ k) mod 2 ^ 8 * 2 ^ k.
Proof.
  intros Hk. change 0xFF with (Z.ones 8). rewrite land_field by lia.
  rewrite Z.land_ones, Z.shiftr_div_pow2, Z.shiftl_mul_pow2 by lia. reflexivity.
Qed.

Lemma lor_disjoint hi lo k :
  0 <= k -> 0 <= lo < 2 ^ k -> Z.lor (hi * 2 ^ k) lo = hi * 2 ^ k + lo.
Proof.
  intros Hk Hlo.
  assert (E : Z.land (hi * 2 ^ k) lo = 0).
  { rewrite <- Z.shiftl_mul_pow2 by lia. apply Z.bits_inj'. intros n Hn.
    rewrite Z.land_spec, Z.bits_0. destruct (Z.ltb_spec n k).
    - rewrite Z.shiftl_spec_low by lia. reflexivity.
    - rewrite <- (Z.mod_small lo (2 ^ k)) by lia.
      rewrite Z.mod_pow2_bits_high by lia. apply andb_false_r. }
  rewrite <- Z.lxor_lor by exact E. symmetry. apply Z.add_nocarry_lxor. exact E.
Qed.

Lemma htons_value v :
  htons v = u16 v / 2 ^ 8 + u16 v mod 2 ^ 8 * 2 ^ 8.
Proof.
  unfold htons. cbn zeta.
  assert (Hx : 0 <= u16 v < 2 ^ 16) by (apply Z.mod_pos_bound; lia).
  set (x := u16 v) in *.
  change 0xFF00 with (Z.shiftl 0xFF 8).
  rewrite land_octet_at by lia.
  rewrite land_ff, Z.shiftr_div_pow2, Z.shiftl_mul_pow2 by lia.
  rewrite Z.div_mul by lia.
  assert (0 <= x / 2 ^ 8 < 2 ^ 8)
    by (split; [apply Z.div_pos | apply Z.div_lt_upper_bound]; lia).
  rewrite (Z.mod_small (x / 2 ^ 8)) by lia.
  pose proof (Z.mod_pos_bound x (2 ^ 8) ltac:(lia)).
  apply u16_small. lia.
Qed.

Lemma htons_range v : 0 <= htons v < 65536.
Proof. unfold htons. cbn zeta. apply Z.mod_pos_bound. lia. Qed.

Lemma htons_htons v : htons (htons v) = u16 v.
Proof.
  rewrite (htons_value (htons v)). rewrite (u16_small (htons v)) by apply htons_range.
  rewrite htons_value.
  assert (Hx : 0 <= u16 v < 2 ^ 16) by (apply Z.mod_pos_bound; lia).
  set (x := u16 v) in *. clearbody x. clear v.
  Z.div_mod_to_equations. lia.
Qed.

Lemma htons_octets hi lo :
  octet hi -> octet lo -> htons (lo + hi * 2 ^ 8) = hi + lo * 2 ^ 8.
Proof.
  unfold octet. intros Hhi Hlo. rewrite htons_value.
  rewrite u16_small by lia. Z.div_mod_to_equations. lia.
Qed.

(** [htons] of a field read in host order is the field in network order. *)
Lemma htons_rd16 m i : octets m -> htons (rd16 m i) = Wire.be16 m i.
Proof.
  intros Hm. unfold rd16, Wire.be16.
  pose proof (rd_octet m i Hm). pose proof (rd_octet m (i + 1) Hm).
  rewrite htons_octets by assumption. lia.
Qed.

Lemma lor_disjoint_eq a hi lo k :
  a = hi * 2 ^ k -> 0 <= k -> 0 <= lo < 2 ^ k -> Z.lor a lo = a + lo.
Proof. intros -> Hk Hlo. apply lor_disjoint; assumption. Qed.

Lemma htols_value v :
  htols v = u32 v / 2 ^ 24 + (u32 v / 2 ^ 16) mod 2 ^ 8 * 2 ^ 8
            + (u32 v / 2 ^ 8) mod 2 ^ 8 * 2 ^ 16 + u32 v mod 2 ^ 8 * 2 ^ 24.
Proof.
  unfold htols. cbn zeta.
  assert (Hx : 0 <= u32 v < 2 ^ 32) by (apply Z.mod_pos_bound; lia).
  set (x := u32 v) in *. clearbody x. clear v.
  change 0xff000000 with (Z.shiftl 0xFF 24).
  change 0x00ff0000 with (Z.shiftl 0xFF 16).
  change 0x0000ff00 with (Z.shiftl 0xFF 8).
  rewrite land_ff, !land_octet_at by lia.
  rewrite !Z.shiftr_div_pow2, !Z.shiftl_mul_pow2 by lia.
  assert (H24 : 0 <= x / 2 ^ 24 < 2 ^ 8)
    by (split; [apply Z.div_pos | apply Z.div_lt_upper_bound]; lia).
  rewrite (Z.mod_small (x / 2 ^ 24)) by lia.
  rewrite Z.div_mul by lia.
  replace ((x / 2 ^ 16) mod 2 ^ 8 * 2 ^ 16 / 2 ^ 8) with ((x / 2 ^ 16) mod 2 ^ 8 * 2 ^ 8)
    by (change (2 ^ 16) with (2 ^ 8 * 2 ^ 8); rewrite Z.mul_assoc, Z.div_mul by lia;
        reflexivity).
  pose proof (Z.mod_pos_bound (x / 2 ^ 16) (2 ^ 8) ltac:(lia)) as HB.
  pose proof (Z.mod_pos_bound (x / 2 ^ 8) (2 ^ 8) ltac:(lia)) as HC.
  pose proof (Z.mod_pos_bound x (2 ^ 8) ltac:(lia)) as HD.
  set (B := (x / 2 ^ 16) mod 2 ^ 8) in *. set (C := (x / 2 ^ 8) mod 2 ^ 8) in *.
  set (D := x mod 2 ^ 8) in *. set (A := x / 2 ^ 24) in *.
  clearbody A B C D.
  rewrite !u32_small by lia.
  rewrite (lor_disjoint_eq (D * 2 ^ 24) D (C * 2 ^ 8 * 2 ^ 8) 24) by lia.
  rewrite (lor_disjoint_eq _ (D * 2 ^ 8 + C) (B * 2 ^ 8) 16) by lia.
  rewrite (lor_disjoint_eq _ (D * 2 ^ 16 + C * 2 ^ 8 + B) A 8) by lia.
  lia.
Qed.

Lemma htols_range v : 0 <= htols v < 2 ^ 32.
Proof.
  rewrite htols_value.
  assert (Hx : 0 <= u32 v < 2 ^ 32) by (apply Z.mod_pos_bound; lia).
  set (x := u32 v) in *. clearbody x. clear v.
  assert (H24 : 0 <= x / 2 ^ 24 < 2 ^ 8)
    by (split; [apply Z.div_pos | apply Z.div_lt_upper_bound]; lia).
  pose proof (Z.mod_pos_bound (x / 2 ^ 16) (2 ^ 8) ltac:(lia)).
  pose proof (Z.mod_pos_bound (x / 2 ^ 8) (2 ^ 8) ltac:(lia)).
  pose proof (Z.mod_pos_bound x (2 ^ 8) ltac:(lia)).
  lia.
Qed.

(** [htols] reverses the four octets of a word. *)
Lemma htols_octets a b c d :
  octet a -> octet b -> octet c -> octet d ->
  htols (a + b * 2 ^ 8 + c * 2 ^ 16 + d * 2 ^ 24) = d + c * 2 ^ 8 + b * 2 ^ 16 + a * 2 ^ 24.
Proof.
  unfold octet. intros Ha Hb Hc Hd. rewrite htols_value.
  rewrite u32_small by lia.
  set (x := a + b * 2 ^ 8 + c * 2 ^ 16 + d * 2 ^ 24).
  assert (E0 : x mod 2 ^ 8 = a).
  { symmetry. apply (Z.mod_unique_pos x (2 ^ 8) (b + c * 2 ^ 8 + d * 2 ^ 16)); subst x; lia. }
  assert (E1 : x / 2 ^ 8 = b + c * 2 ^ 8 + d * 2 ^ 16).
  { symmetry. apply (Z.div_unique_pos x (2 ^ 8) _ a); subst x; lia. }
  assert (E2 : x / 2 ^ 16 = c + d * 2 ^ 8).
  { symmetry. apply (Z.div_unique_pos x (2 ^ 16) _ (a + b * 2 ^ 8)); subst x; lia. }
  assert (E3 : x / 2 ^ 24 = d).
  { symmetry. apply (Z.div_unique_pos x (2 ^ 24) _ (a + b * 2 ^ 8 + c * 2 ^ 16));
      subst x; lia. }
  rewrite E0, E1, E2, E3.
  rewrite <- (Z.mod_unique_pos (c + d * 2 ^ 8) (2 ^ 8) d c) by lia.
  rewrite <- (Z.mod_unique_pos (b + c * 2 ^ 8 + d * 2 ^ 16) (2 ^ 8) (c + d * 2 ^ 8) b) by lia.
  lia.
Qed.

Lemma u32_as_octets x :
  0 <= x < 2 ^ 32 ->
  exists a b c d, octet a /\ octet b /\ octet c /\ octet d
                  /\ x = a + b * 2 ^ 8 + c * 2 ^ 16 + d * 2 ^ 24.
Proof.
  intros Hx. unfold octet.
  exists (x mod 2 ^ 8), ((x / 2 ^ 8) mod 2 ^ 8), ((x / 2 ^ 16) mod 2 ^ 8), (x / 2 ^ 24).
  pose proof (Z.div_mod x (2 ^ 8) ltac:(lia)) as D0.
  pose proof (Z.mod_pos_bound x (2 ^ 8) ltac:(lia)).
  pose proof (Z.div_mod (x / 2 ^ 8) (2 ^ 8) ltac:(lia)) as D1.
  pose proof (Z.mod_pos_bound (x / 2 ^ 8) (2 ^ 8) ltac:(lia)).
  pose proof (Z.div_mod (x / 2 ^ 16) (2 ^ 8) ltac:(lia)) as D2.
  pose proof (Z.mod_pos_bound (x / 2 ^ 16) (2 ^ 8) ltac:(lia)).
  assert (E16 : x / 2 ^ 16 = x / 2 ^ 8 / 2 ^ 8)
    by (rewrite Z.div_div by lia; reflexivity).
  assert (E24 : x / 2 ^ 24 = x / 2 ^ 16 / 2 ^ 8)
    by (rewrite Z.div_div by lia; reflexivity).
  assert (0 <= x / 2 ^ 24 < 2 ^ 8)
    by (split; [apply Z.div_pos | apply Z.div_lt_upper_bound]; lia).
  rewrite <- E16 in D1. rewrite <- E24 in D2.
  repeat split; try lia.
Qed.

Lemma htols_htols v : htols (htols v) = u32 v.
Proof.
  assert (Hx : 0 <= u32 v < 2 ^ 32) by (apply Z.mod_pos_bound; lia).
  destruct (u32_as_octets _ Hx) as (a & b & c & d & Ha & Hb & Hc & Hd & E).
  replace (htols v) with (htols (u32 v))
    by (unfold htols, u32; cbn zeta; rewrite Z.mod_mod by lia; reflexivity).
  rewrite E, htols_octets by assumption.
  rewrite htols_octets by assumption. reflexivity.
Qed.

Lemma rd32_range m i : octets m -> 0 <= rd32 m i < 2 ^ 32.
Proof.
  intros Hm. unfold rd32.
  pose proof (rd_octet m i Hm). pose proof (rd_octet m (i + 1) Hm).
  pose proof (rd_octet m (i + 2) Hm). pose proof (rd_octet m (i + 3) Hm).
  unfold octet in *. lia.
Qed.

(** [htols] of a field read in host order is the field in network order. *)
Lemma htols_rd32 m i : octets m -> htols (rd32 m i) = Wire.be32 m i.
Proof.
  intros Hm. unfold rd32, Wire.be32.
  rewrite htols_octets by (apply rd_octet; assumption). lia.
Qed.

Lemma rd32_wr32 m i v :
  0 <= i -> i + 3 < Z.of_nat (length m) -> 0 <= v < 2 ^ 32 -> rd32 (wr32 m i v) i = v.
Proof.
  intros Hi Hl Hv. unfold rd32, wr32.
  rewrite (rd_wr_ne _ (i + 3) i), (rd_wr_ne _ (i + 2) i), (rd_wr_ne _ (i + 1) i) by lia.
  rewrite rd_wr_eq by lia.
  rewrite (rd_wr_ne _ (i + 3) (i + 1)), (rd_wr_ne _ (i + 2) (i + 1)) by lia.
  rewrite rd_wr_eq by (rewrite !length_wr; lia).
  rewrite (rd_wr_ne _ (i + 3) (i + 2)) by lia.
  rewrite rd_wr_eq by (rewrite !length_wr; lia).
  rewrite rd_wr_eq by (rewrite !length_wr; lia).
  destruct (u32_as_octets _ Hv) as (a & b & c & d & Ha & Hb & Hc & Hd & E).
  unfold octet in *. subst v.
  set (x := a + b * 2 ^ 8 + c * 2 ^ 16 + d * 2 ^ 24).
  assert (E0 : x mod 2 ^ 8 = a).
  { symmetry. apply (Z.mod_unique_pos x (2 ^ 8) (b + c * 2 ^ 8 + d * 2 ^ 16)); subst x; lia. }
  assert (E1 : x / 2 ^ 8 = b + c * 2 ^ 8 + d * 2 ^ 16).
  { symmetry. apply (Z.div_unique_pos x (2 ^ 8) _ a); subst x; lia. }
  assert (E2 : x / 2 ^ 16 = c + d * 2 ^ 8).
  { symmetry. apply (Z.div_unique_pos x (2 ^ 16) _ (a + b * 2 ^ 8)); subst x; lia. }
  assert (E3 : x / 2 ^ 24 = d).
  { symmetry. apply (Z.div_unique_pos x (2 ^ 24) _ (a + b * 2 ^ 8 + c * 2 ^ 16));
      subst x; lia. }
  rewrite E0, E1, E2, E3.
  rewrite <- (Z.mod_unique_pos (c + d * 2 ^ 8) (2 ^ 8) d c) by lia.
  rewrite <- (Z.mod_unique_pos (b + c * 2 ^ 8 + d * 2 ^ 16) (2 ^ 8) (c + d * 2 ^ 8) b) by lia.
  rewrite (Z.mod_small d) by lia. subst x. lia.
Qed.

Lemma wr32_octets m i v : octets m -> octets (wr32 m i v).
Proof.
  intros. unfold wr32.
  repeat (apply wr_octets; [|unfold octet; apply Z.mod_pos_bound; lia]). assumption.
Qed.

(** ** Loops and field copies *)

Lemma for_loop_S {S : Type} (n : nat) (body : Z -> S -> S) (s : S) :
  for_loop (Z.of_nat (Datatypes.S n)) body s
  = body (Z.of_nat n) (for_loop (Z.of_nat n) body s).
Proof. unfold for_loop. rewrite seqZ_S, foldl_app. reflexivity. Qed.

(** Invariant rule for [for (i = 0; i < n; i++)]. *)
Lemma for_loop_ind {S : Type} (P : Z -> S -> Prop) n (body : Z -> S -> S) (s : S) :
  0 <= n -> P 0 s ->
  (forall k s, 0 <= k < n -> P k s -> P (k + 1) (body k s)) ->
  P n (for_loop n body s).
Proof.
  intros Hn H0 Hstep. rewrite <- (Z2Nat.id n) by lia.
  assert (Hle : (Z.to_nat n <= Z.to_nat n)%nat) by lia.
  revert Hle. generalize (Z.to_nat n) at 1 3 4 as m.
  induction m as [|m IH]; intros Hle.
  - exact H0.
  - rewrite for_loop_S. rewrite Nat2Z.inj_succ, <- Z.add_1_r.
    apply Hstep; [lia|]. apply IH. lia.
Qed.

Lemma for_loop_0 {S : Type} (body : Z -> S -> S) (s : S) : for_loop 0 body s = s.
Proof. reflexivity. Qed.

Lemma rd_wr m i v j :
  0 <= i < Z.of_nat (length m) -> rd (wr m i v) j = if j =? i then v else rd m j.
Proof.
  intros Hi. destruct (Z.eqb_spec j i) as [->|Hne].
  - apply rd_wr_eq; assumption.
  - apply rd_wr_ne; lia.
Qed.

(** Case analysis on every comparison in the goal. *)
Ltac zcase1 :=
  match goal with
  | |- context [?a =? ?b] => destruct (Z.eqb_spec a b)
  | |- context [?a <=? ?b] => destruct (Z.leb_spec a b)
  | |- context [?a <? ?b] => destruct (Z.ltb_spec a b)
  | |- context [?a >? ?b] => destruct (Z.gtb_spec a b)
  end; cbn [andb orb negb]; try (exfalso; lia).

Ltac zcases := repeat zcase1.

(** Reads through a chain of writes that are in range. *)
Ltac rd_wr_all :=
  repeat (rewrite rd_wr by (rewrite ?length_wr; lia)).

Lemma swap_fields_spec n a b p :
  0 <= n -> 0 <= a -> 0 <= b -> (a + n <= b \/ b + n <= a) ->
  a + n <= Z.of_nat (length p) -> b + n <= Z.of_nat (length p) ->
  length (swap_fields n a b p) = length p
  /\ forall j, rd (swap_fields n a b p) j
               = if (a <=? j) && (j <? a + n) then rd p (b + (j - a))
                 else if (b <=? j) && (j <? b + n) then rd p (a + (j - b))
                 else rd p j.
Proof.
  intros Hn Ha Hb Hdis Hla Hlb. unfold swap_fields.
  apply (for_loop_ind (fun k q =>
    length q = length p
    /\ forall j, rd q j = if (a <=? j) && (j <? a + k) then rd p (b + (j - a))
                          else if (b <=? j) && (j <? b + k) then rd p (a + (j - b))
                          else rd p j)); [assumption | |].
  - split; [reflexivity|]. intros j. zcases; reflexivity || lia.
  - intros k q Hk [Hlen Hrd]. split; [rewrite !length_wr; exact Hlen|].
    intros j. rd_wr_all. rewrite !Hrd.
    zcases; try lia; try reflexivity; f_equal; lia.
Qed.

Lemma swap_fields_octets n a b p : 0 <= n -> octets p -> octets (swap_fields n a b p).
Proof.
  intros Hn Hp. unfold swap_fields.
  apply (for_loop_ind (fun _ q => octets q)); [assumption | assumption |].
  intros k q _ Hq. apply wr_octets; [apply wr_octets|]; auto using rd_octet.
Qed.

(** Copy from a constant table into the buffer. *)
Lemma copy_in_spec n dst (src : list Z) p :
  0 <= n -> 0 <= dst -> dst + n <= Z.of_nat (length p) ->
  let q := for_loop n (fun i p => wr p (dst + i) (rd src i)) p in
  length q = length p
  /\ forall j, rd q j = if (dst <=? j) && (j <? dst + n) then rd src (j - dst) else rd p j.
Proof.
  intros Hn Hd Hl. cbn zeta.
  apply (for_loop_ind (fun k q =>
    length q = length p
    /\ forall j, rd q j = if (dst <=? j) && (j <? dst + k) then rd src (j - dst)
                          else rd p j)); [assumption | |].
  - split; [reflexivity|]. intros j. zcases; reflexivity || lia.
  - intros k q Hk [Hlen Hrd]. split; [rewrite !length_wr; exact Hlen|].
    intros j. rd_wr_all. rewrite !Hrd.
    zcases; try lia; try reflexivity; f_equal; lia.
Qed.

(** [etherGetPacket] leaves the frame at the front of the buffer. *)
Lemma etherGetPacket_spec packet rx :
  Z.of_nat (length rx) <= Z.of_nat (length packet) ->
  Z.of_nat (length rx) <= MAX_PACKET_SIZE ->
  let q := etherGetPacket packet rx MAX_PACKET_SIZE in
  length q = length packet
  /\ forall j, rd q j = if (0 <=? j) && (j <? Z.of_nat (length rx)) then rd rx j
                        else rd packet j.
Proof.
  intros Hl Hm. unfold etherGetPacket. cbn zeta.
  unfold MAX_PACKET_SIZE in *.
  rewrite u16_small by lia.
  destruct (Z.gtb_spec (Z.of_nat (length rx)) 1522); [lia|].
  destruct (copy_in_spec (Z.of_nat (length rx)) 0 rx packet) as [H1 H2]; try lia.
  split; [exact H1|]. intros j.
  etransitivity; [apply (H2 j)|].
  zcases; try lia; try reflexivity; f_equal; lia.
Qed.

Lemma etherGetPacket_octets packet rx maxSize :
  octets packet -> octets rx -> octets (etherGetPacket packet rx maxSize).
Proof.
  intros Hp Hr. unfold etherGetPacket. cbn zeta.
  set (n := if _ >? _ then _ else _).
  destruct (Z.le_gt_cases 0 n).
  - apply (for_loop_ind (fun _ q => octets q)); [assumption | assumption |].
    intros k q _ Hq. apply wr_octets; auto using rd_octet.
  - unfold for_loop. rewrite seqZ_nil by lia. exact Hp.
Qed.

(** ** ARP and ICMP builders *)

(** [match_while] answers true only when the test held at every index. *)
Lemma match_while_true ok n test :
  0 <= n -> match_while ok n test = true ->
  ok = true /\ forall i, 0 <= i < n -> test i = true.
Proof.
  intros Hn. unfold match_while.
  apply (for_loop_ind (fun k (r : bool) =>
    r = true -> ok = true /\ forall i, 0 <= i < k -> test i = true)); [assumption | |].
  - intros ->. split; [reflexivity|]. intros; lia.
  - intros k r Hk IH. destruct r; [|discriminate].
    intros Ht. destruct (IH eq_refl) as [H1 H2]. split; [exact H1|].
    intros i Hi. destruct (Z.eq_dec i k) as [->|]; [exact Ht | apply H2; lia].
Qed.

Lemma match_while_all ok n test :
  0 <= n -> ok = true -> (forall i, 0 <= i < n -> test i = true) ->
  match_while ok n test = true.
Proof.
  intros Hn Hok Hall. unfold match_while.
  apply (for_loop_ind (fun k (r : bool) => r = true)); [assumption | assumption |].
  intros k r Hk ->. apply Hall. lia.
Qed.

Lemma etherIsArpRequest_true g packet :
  etherIsArpRequest g packet = true ->
  rd16 packet 12 = htons 0x0806
  /\ (forall i, 0 <= i < 4 -> rd packet (38 + i) = rd (ipAddress g) i)
  /\ rd16 packet 20 = htons 1.
Proof.
  unfold etherIsArpRequest. cbn zeta.
  destruct (match_while _ _ _) eqn:E; [|discriminate].
  apply match_while_true in E; [|unfold IP_ADD_LENGTH; lia].
  destruct E as [E1 E2]. intros E3.
  split; [apply Z.eqb_eq, E1|]. split; [|apply Z.eqb_eq, E3].
  intros i Hi. specialize (E2 i Hi). apply Z.eqb_eq in E2.
  rewrite <- E2. f_equal.
Qed.

Lemma arp_hw_loop_spec g p :
  42 <= Z.of_nat (length p) ->
  length (arp_hw_loop g p) = length p
  /\ forall j, rd (arp_hw_loop g p) j
               = if (32 <=? j) && (j <? 38) then rd p (j - 10)
                 else if (0 <=? j) && (j <? 6) then rd p (j + 6)
                 else if (22 <=? j) && (j <? 28) then rd (macAddress g) (j - 22)
                 else if (6 <=? j) && (j <? 12) then rd (macAddress g) (j - 6)
                 else rd p j.
Proof.
  intros Hl. unfold arp_hw_loop.
  unfold arpFrame.destAddress, arpFrame.sourceAddress, etherFrame.destAddress,
    etherFrame.sourceAddress.
  apply (for_loop_ind (fun k q =>
    length q = length p
    /\ forall j, rd q j
                 = if (32 <=? j) && (j <? 32 + k) then rd p (j - 10)
                   else if (0 <=? j) && (j <? k) then rd p (j + 6)
                   else if (22 <=? j) && (j <? 22 + k) then rd (macAddress g) (j - 22)
                   else if (6 <=? j) && (j <? 6 + k) then rd (macAddress g) (j - 6)
                   else rd p j)); [unfold HW_ADD_LENGTH; lia | |].
  - split; [reflexivity|]. intros j. zcases; reflexivity || lia.
  - unfold HW_ADD_LENGTH. intros k q Hk [Hlen Hrd].
    split; [rewrite !length_wr; exact Hlen|].
    intros j. cbn zeta. rd_wr_all. rewrite !Hrd.
    zcases; try lia; try reflexivity; f_equal; lia.
Qed.

Lemma etherSendArpResponse_unfold g packet :
  etherSendArpResponse g packet
  = let p := swap_fields IP_ADD_LENGTH 38 28
               (arp_hw_loop g (wr16 packet 20 (htons 2))) in
    (etherPutPacket p 42 g, p).
Proof. reflexivity. Qed.

(** What [etherSendPingResponse] leaves in the buffer: the two swaps, the
    type octet, and a checksum [ck] at offset 2 of the ICMP header. *)
Lemma ping_buffer_spec packet ck :
  let h := ip_hlen packet 14 in
  20 <= h -> 14 + h + 4 <= Z.of_nat (length packet) ->
  let p1 := swap_fields HW_ADD_LENGTH 0 6 packet in
  let p2 := swap_fields IP_ADD_LENGTH 30 26 p1 in
  let p3 := wr p2 (14 + h) 0 in
  let p4 := wr16 p3 (14 + h + 2) ck in
  length p4 = length packet
  /\ forall j, rd p4 j
       = if (0 <=? j) && (j <? 6) then rd packet (j + 6)
         else if (6 <=? j) && (j <? 12) then rd packet (j - 6)
         else if (26 <=? j) && (j <? 30) then rd packet (j + 4)
         else if (30 <=? j) && (j <? 34) then rd packet (j - 4)
         else if j =? 14 + h then 0
         else if j =? 14 + h + 2 then ck mod 2 ^ 8
         else if j =? 14 + h + 3 then ck / 2 ^ 8 mod 2 ^ 8
         else rd packet j.
Proof.
  intros h Hh Hlen p1 p2 p3 p4.
  destruct (swap_fields_spec HW_ADD_LENGTH 0 6 packet) as [Hl1 Hr1];
    try (unfold HW_ADD_LENGTH; lia).
  fold p1 in Hl1, Hr1.
  destruct (swap_fields_spec IP_ADD_LENGTH 30 26 p1) as [Hl2 Hr2];
    try (unfold IP_ADD_LENGTH; lia).
  fold p2 in Hl2, Hr2. unfold HW_ADD_LENGTH in Hr1. unfold IP_ADD_LENGTH in Hr2.
  split.
  - subst p4 p3. rewrite length_wr16, length_wr. lia.
  - intros j. subst p4 p3. unfold wr16.
    replace (14 + h + 2 + 1) with (14 + h + 3) by lia.
    rd_wr_all. rewrite Hr2.
    destruct (Z.eqb_spec j (14 + h + 3)); [zcases; reflexivity|].
    destruct (Z.eqb_spec j (14 + h + 2)); [zcases; reflexivity|].
    destruct (Z.eqb_spec j (14 + h)); [zcases; reflexivity|].
    zcases; rewrite Hr1; zcases; f_equal; lia.
Qed.

(** ** DHCP options *)

Lemma length_enc_entry e : Z.of_nat (length (enc_entry e)) = 2 + Z.of_nat (length (snd e)).
Proof. unfold enc_entry. cbn [length]. lia. Qed.

(** One call of [putOption] appends the entry at the cursor. *)
Lemma putOption_spec m options size e :
  0 <= options -> 0 <= size -> octet (fst e) -> octets (snd e) ->
  size + 2 + Z.of_nat (length (snd e)) <= 255 ->
  options + size + 2 + Z.of_nat (length (snd e)) <= Z.of_nat (length m) ->
  let r := putOption m options size (fst e) (Z.of_nat (length (snd e))) (snd e) in
  snd r = size + 2 + Z.of_nat (length (snd e))
  /\ length (fst r) = length m
  /\ forall j, rd (fst r) j
       = if (options + size <=? j) && (j <? options + size + 2 + Z.of_nat (length (snd e)))
         then rd (enc_entry e) (j - (options + size)) else rd m j.
Proof.
  intros Ho Hs Hn Hv Hsz Hlen. destruct e as [n vs]. cbn [fst snd] in *.
  unfold putOption. unfold octet in Hn.
  rewrite (u8_small size), (u8_small (Z.of_nat (length vs))) by lia.
  cbn [push_octet]. rewrite (u8_small n), (u8_small (size + 1)) by lia.
  rewrite (u8_small (Z.of_nat (length vs))), (u8_small (size + 1 + 1)) by lia.
  cbn zeta.
  set (m2 := wr (wr m (options + size) n) (options + (size + 1)) (Z.of_nat (length vs))).
  assert (Hm2 : length m2 = length m) by (subst m2; rewrite !length_wr; reflexivity).
  assert (Hr2 : forall j, rd m2 j = if j =? options + size then n
                                    else if j =? options + size + 1 then Z.of_nat (length vs)
                                    else rd m j).
  { intros j. subst m2. rd_wr_all. zcases; reflexivity. }
  apply (for_loop_ind (fun k (st : list Z * Z) =>
    snd st = size + 2 + k
    /\ length (fst st) = length m
    /\ forall j, rd (fst st) j
         = if (options + size <=? j) && (j <? options + size + 2 + k)
           then rd (enc_entry (n, vs)) (j - (options + size)) else rd m j)); [lia | |].
  - cbn [fst snd]. split; [lia|]. split; [exact Hm2|].
    intros j. rewrite Hr2. unfold enc_entry. cbn [fst snd].
    zcases; try reflexivity.
    + replace (j - (options + size)) with 0 by lia. reflexivity.
    + replace (j - (options + size)) with 1 by lia. reflexivity.
  - intros k [q sz] Hk (Hsz' & Hlq & Hrq). cbn [fst snd] in *. subst sz.
    cbn [push_octet fst snd].
    assert (Hvk : octet (rd vs k)) by (apply rd_octet; assumption).
    unfold octet in Hvk.
    rewrite (u8_small (rd vs k)), (u8_small (size + 2 + k + 1)) by lia.
    split; [lia|]. split; [rewrite length_wr; exact Hlq|].
    intros j. rd_wr_all. rewrite Hrq.
    zcases; try reflexivity.
    unfold enc_entry. cbn [fst snd].
    replace (j - (options + size)) with (2 + k) by lia.
    unfold rd at 2. destruct (Z.leb_spec 0 (2 + k)); [|lia].
    replace (Z.to_nat (2 + k)) with (S (S (Z.to_nat k))) by lia.
    cbn [lookup list_lookup]. unfold rd. destruct (Z.leb_spec 0 k); [reflexivity | lia].
Qed.

Lemma encoded_size_nonneg es : 0 <= Options.encoded_size es.
Proof. induction es as [|e r IH]; simpl; lia. Qed.

Lemma encoded_size_app es1 es2 :
  Options.encoded_size (es1 ++ es2) = Options.encoded_size es1 + Options.encoded_size es2.
Proof. induction es1 as [|e r IH]; simpl; lia. Qed.

Lemma length_concat_enc es :
  Z.of_nat (length (concat (enc_entry <$> es))) = Options.encoded_size es.
Proof.
  induction es as [|e r IH]; [reflexivity|].
  cbn [fmap list_fmap concat Options.encoded_size foldr].
  rewrite length_app, Nat2Z.inj_add, length_enc_entry.
  change (foldr _ 0 r) with (Options.encoded_size r). lia.
Qed.

Lemma rd_app_l (l1 l2 : list Z) j :
  j < Z.of_nat (length l1) -> rd (l1 ++ l2) j = rd l1 j.
Proof.
  intros Hj. unfold rd. destruct (0 <=? j) eqn:E; [|reflexivity].
  apply Z.leb_le in E. rewrite lookup_app_l by lia. reflexivity.
Qed.

Lemma rd_app_r (l1 l2 : list Z) j :
  Z.of_nat (length l1) <= j -> rd (l1 ++ l2) j = rd l2 (j - Z.of_nat (length l1)).
Proof.
  intros Hj. unfold rd.
  destruct (Z.leb_spec 0 j); [|lia].
  destruct (Z.leb_spec 0 (j - Z.of_nat (length l1))); [|lia].
  rewrite lookup_app_r by lia. do 2 f_equal. lia.
Qed.

(** The region [put_all] leaves is the concatenation of the entries. *)
Lemma put_all_spec m options es :
  0 <= options -> Options.well_formed es ->
  options + Options.encoded_size es <= Z.of_nat (length m) ->
  let r := Options.put_all m options es in
  snd r = Options.encoded_size es
  /\ length (fst r) = length m
  /\ forall j, rd (fst r) j
       = if (options <=? j) && (j <? options + Options.encoded_size es)
         then rd (concat (enc_entry <$> es)) (j - options) else rd m j.
Proof.
  intros Ho [Hwf Hsz] Hlen. cbn zeta. revert Hwf Hsz Hlen.
  induction es as [|e es IH] using rev_ind; intros Hwf Hsz Hlen.
  - cbn. split; [reflexivity|]. split; [reflexivity|]. intros j. zcases; reflexivity.
  - unfold Options.put_all. rewrite foldl_app. cbn [foldl].
    fold (Options.put_all m options es).
    rewrite encoded_size_app in *. cbn [Options.encoded_size foldr] in *.
    apply Forall_app in Hwf. destruct Hwf as [Hwf He].
    inversion He as [|? ? [Hn Hv] _]; subst.
    pose proof (encoded_size_nonneg es) as Hnn.
    destruct IH as (IH1 & IH2 & IH3); [assumption | lia | lia |].
    set (r := Options.put_all m options es) in *.
    destruct (putOption_spec (fst r) options (snd r) e) as (P1 & P2 & P3);
      try assumption; try lia.
    split; [rewrite P1, IH1; lia|]. split; [rewrite P2; exact IH2|].
    intros j. rewrite P3, IH1, IH3.
    rewrite fmap_app, concat_app. cbn [fmap list_fmap concat]. rewrite app_nil_r.
    pose proof (length_concat_enc es) as Hlc.
    pose proof (length_enc_entry e) as Hle.
    zcases; try reflexivity.
    + rewrite rd_app_r by lia. f_equal. lia.
    + rewrite rd_app_l by lia. reflexivity.
Qed.

Lemma first_entry_shift number es off :
  Options.first_entry number es off
  = (fun p => (fst p + off, snd p)) <$> Options.first_entry number es 0.
Proof.
  revert off. induction es as [|e r IH]; intros off; [reflexivity|].
  cbn [Options.first_entry]. destruct (fst e =? number); [cbn; f_equal; f_equal; lia|].
  rewrite (IH (off + 2 + _)), (IH (0 + 2 + _)).
  destruct (Options.first_entry number r 0) as [[o v]|]; cbn; [|reflexivity].
  do 2 f_equal. lia.
Qed.

(** The scan over a region that holds [pre ++ es], entered at the start of
    [es], returns the value of the first entry of [es] with the number. *)
Lemma getOption_loop_spec m options number size :
  forall es pre fuel,
    0 <= options -> octet number ->
    Forall (fun e => octet (fst e) /\ octets (snd e)) es ->
    size = Options.encoded_size pre + Options.encoded_size es ->
    size <= 255 ->
    (forall j, 0 <= j < Options.encoded_size es ->
               rd m (options + Options.encoded_size pre + j) = rd (concat (enc_entry <$> es)) j) ->
    (length es < fuel)%nat ->
    getOption_loop fuel m options number size (Options.encoded_size pre)
    = Some ((fun p => options + fst p + 2)
              <$> Options.first_entry number es (Options.encoded_size pre)).
Proof.
  induction es as [|e es IH]; intros pre fuel Ho Hnum Hwf Hsize H255 Hmem Hfuel.
  - destruct fuel as [|fuel]; [simpl in Hfuel; lia|].
    cbn [getOption_loop Options.first_entry]. cbn in Hsize.
    destruct (Z.ltb_spec (Options.encoded_size pre) size); [lia | reflexivity].
  - destruct fuel as [|fuel]; [simpl in Hfuel; lia|].
    inversion Hwf as [|? ? [Hn Hv] Hwf']; subst.
    pose proof (encoded_size_nonneg pre) as Hpre.
    pose proof (encoded_size_nonneg es) as Hes.
    cbn [Options.encoded_size foldr] in *.
    change (foldr _ 0 es) with (Options.encoded_size es) in *.
    cbn [getOption_loop Options.first_entry].
    destruct (Z.ltb_spec (Options.encoded_size pre)
                (Options.encoded_size pre + (2 + Z.of_nat (length (snd e))
                                             + Options.encoded_size es))); [|lia].
    assert (H0 : rd m (options + Options.encoded_size pre) = fst e).
    { rewrite <- (Z.add_0_r (options + _)). rewrite Hmem by lia. reflexivity. }
    assert (H1 : rd m (options + (Options.encoded_size pre + 1))
                 = Z.of_nat (length (snd e))).
    { rewrite Z.add_assoc. rewrite Hmem by lia. reflexivity. }
    rewrite H0, H1.
    destruct (Z.eqb_spec (fst e) number); [reflexivity|].
    rewrite u8_small by lia.
    replace (Options.encoded_size pre + (Z.of_nat (length (snd e)) + 2))
      with (Options.encoded_size (pre ++ [e]))
      by (rewrite encoded_size_app; cbn; lia).
    replace (Options.encoded_size pre + 2 + Z.of_nat (length (snd e)))
      with (Options.encoded_size (pre ++ [e]))
      by (rewrite encoded_size_app; cbn; lia).
    apply IH; try assumption.
    + rewrite encoded_size_app; cbn; lia.
    + intros j Hj. rewrite encoded_size_app. cbn [Options.encoded_size foldr].
      replace (options + (Options.encoded_size pre + (2 + Z.of_nat (length (snd e)) + 0)) + j)
        with (options + Options.encoded_size pre + (2 + Z.of_nat (length (snd e)) + j)) by lia.
      rewrite Hmem by lia.
      cbn [fmap list_fmap concat]. pose proof (length_enc_entry e).
      rewrite rd_app_r by lia. f_equal. lia.
    + simpl in Hfuel. lia.
Qed.

Lemma encoded_size_length es : 2 * Z.of_nat (length es) <= Options.encoded_size es.
Proof. induction es as [|e r IH]; cbn [Options.encoded_size foldr length]; [lia|].
  change (foldr _ 0 r) with (Options.encoded_size r). lia. Qed.

Lemma first_entry_None number es off :
  number ∉ (fst <$> es) -> Options.first_entry number es off = None.
Proof.
  revert off. induction es as [|e r IH]; intros off Hn; [reflexivity|].
  cbn [Options.first_entry]. cbn [fmap list_fmap] in Hn.
  apply not_elem_of_cons in Hn. destruct Hn as [Hne Hn].
  destruct (Z.eqb_spec (fst e) number); [congruence|]. apply IH. exact Hn.
Qed.

Lemma first_entry_Some number es off :
  number ∈ (fst <$> es) ->
  exists o vs, Options.first_entry number es off = Some (o, vs) /\ off <= o
               /\ o + 2 + Z.of_nat (length vs) <= off + Options.encoded_size es
               /\ forall k, 0 <= k < Z.of_nat (length vs) ->
                    rd (concat (enc_entry <$> es)) (o - off + 2 + k) = rd vs k.
Proof.
  revert off. induction es as [|e r IH]; intros off Hin.
  - cbn in Hin. apply elem_of_nil in Hin. destruct Hin.
  - cbn [Options.first_entry fmap list_fmap concat Options.encoded_size foldr].
    change (foldr _ 0 r) with (Options.encoded_size r).
    pose proof (encoded_size_nonneg r) as Hr.
    pose proof (length_enc_entry e) as Hle.
    destruct (Z.eqb_spec (fst e) number) as [E|E].
    + exists off, (snd e). split; [reflexivity|]. split; [lia|]. split; [lia|].
      intros k Hk. rewrite rd_app_l by lia. unfold enc_entry.
      replace (off - off + 2 + k) with (2 + k) by lia.
      unfold rd. destruct (Z.leb_spec 0 (2 + k)); [|lia].
      destruct (Z.leb_spec 0 k); [|lia].
      replace (Z.to_nat (2 + k)) with (S (S (Z.to_nat k))) by lia. reflexivity.
    + cbn [fmap list_fmap] in Hin. apply elem_of_cons in Hin.
      destruct Hin as [Hin|Hin]; [congruence|].
      destruct (IH (off + 2 + Z.of_nat (length (snd e))) Hin)
        as (o & vs & H1 & H2 & H3 & H4).
      exists o, vs. split; [exact H1|]. split; [lia|]. split; [lia|].
      intros k Hk. rewrite rd_app_r by lia. rewrite <- (H4 k Hk). f_equal. lia.
Qed.

(** ** TCP builders *)

Lemma length_swap_fields n a b p : length (swap_fields n a b p) = length p.
Proof.
  unfold swap_fields, for_loop.
  generalize (seqZ 0 n) as l. intros l. revert p.
  induction l as [|i l IH]; intros p; [reflexivity|].
  cbn [foldl]. rewrite IH, !length_wr. reflexivity.
Qed.

Lemma rd_swap_other n a b p j :
  ~ (a <= j < a + n) -> ~ (b <= j < b + n) -> rd (swap_fields n a b p) j = rd p j.
Proof.
  intros Ha Hb. destruct (Z.le_gt_cases 0 n) as [Hn|Hn].
  - unfold swap_fields.
    apply (for_loop_ind (fun _ q => rd q j = rd p j)); [assumption | reflexivity |].
    intros k q Hk Hq. rewrite !rd_wr_ne by lia. exact Hq.
  - unfold swap_fields, for_loop. rewrite seqZ_nil by lia. reflexivity.
Qed.

Lemma rd_calc_other p ip j :
  j <> ip + 10 -> j <> ip + 11 -> rd (etherCalcIpChecksum p ip) j = rd p j.
Proof.
  intros. unfold etherCalcIpChecksum, ipFrame.headerChecksum. cbn zeta.
  apply rd_wr16_other; lia.
Qed.

Lemma length_calc p ip : length (etherCalcIpChecksum p ip) = length p.
Proof. unfold etherCalcIpChecksum. cbn zeta. apply length_wr16. Qed.

Lemma calc_octets p ip : octets p -> octets (etherCalcIpChecksum p ip).
Proof. intros. unfold etherCalcIpChecksum. cbn zeta. apply wr16_octets. assumption. Qed.

Lemma rd_tcp_checksum_other p ip tcp len hdr ds j :
  j <> tcp + 16 -> j <> tcp + 17 -> rd (tcp_checksum p ip tcp len hdr ds) j = rd p j.
Proof.
  intros. unfold tcp_checksum, tcpFrame.checksum. cbn zeta.
  rewrite !rd_wr16_other by lia. reflexivity.
Qed.

Lemma length_tcp_checksum p ip tcp len hdr ds :
  length (tcp_checksum p ip tcp len hdr ds) = length p.
Proof. unfold tcp_checksum. cbn zeta. rewrite !length_wr16. reflexivity. Qed.

Lemma tcp_checksum_octets p ip tcp len hdr ds :
  octets p -> octets (tcp_checksum p ip tcp len hdr ds).
Proof. intros. unfold tcp_checksum. cbn zeta. repeat apply wr16_octets. assumption. Qed.

(** Reads that pass the writes of the builders untouched. *)
Ltac rd_other :=
  repeat first
    [ rewrite rd_wr_ne by lia
    | rewrite rd_wr16_other by lia
    | rewrite rd_wr32_other by lia
    | rewrite rd_calc_other by lia
    | rewrite rd_tcp_checksum_other by lia
    | rewrite rd_swap_other by lia ].

Ltac length_all :=
  repeat first
    [ rewrite length_wr | rewrite length_wr16 | rewrite length_wr32 | rewrite length_calc
    | rewrite length_tcp_checksum | rewrite length_swap_fields ].

Lemma rd16_ext m m' i :
  rd m i = rd m' i -> rd m (i + 1) = rd m' (i + 1) -> rd16 m i = rd16 m' i.
Proof. intros H0 H1. unfold rd16. rewrite H0, H1. reflexivity. Qed.

Lemma rd32_ext m m' i :
  (forall k, 0 <= k < 4 -> rd m (i + k) = rd m' (i + k)) -> rd32 m i = rd32 m' i.
Proof.
  intros H. unfold rd32.
  rewrite <- (Z.add_0_r i) at 1 5. rewrite !H by lia. rewrite Z.add_0_r. reflexivity.
Qed.

Lemma be32_ext m m' i i' :
  (forall k, 0 <= k < 4 -> rd m (i + k) = rd m' (i' + k)) -> Wire.be32 m i = Wire.be32 m' i'.
Proof.
  intros H. unfold Wire.be32.
  rewrite <- (Z.add_0_r i) at 1. rewrite <- (Z.add_0_r i') at 1.
  rewrite !H by lia. reflexivity.
Qed.

(** The flag test [(x >> n) & 1] of the classify predicates. *)
Lemma flag_test x n : 0 <= n -> truthy (Z.land (Z.shiftr x n) 1) = Z.testbit x n.
Proof.
  intros Hn. unfold truthy. change 1 with (Z.ones 1) at 1.
  rewrite Z.land_ones by lia. change (2 ^ 1) with 2.
  rewrite <- Z.bit0_mod, Z.shiftr_spec by lia. rewrite Z.add_0_l.
  destruct (Z.testbit x n); reflexivity.
Qed.

Lemma flag_test0 x : truthy (Z.land x 1) = Z.testbit x 0.
Proof. rewrite <- (Z.shiftr_0_r x) at 1. apply flag_test. lia. Qed.

(** The octet [htons] puts second is the low octet of its argument. *)
Lemma htons_high_octet v : (htons v / 2 ^ 8) mod 2 ^ 8 = v mod 2 ^ 8.
Proof.
  rewrite htons_value. unfold u16.
  assert (Hx : 0 <= v mod 2 ^ 16 < 2 ^ 16) by (apply Z.mod_pos_bound; lia).
  rewrite <- (Z.mod_mod_divide v (2 ^ 16) (2 ^ 8)) by (exists (2 ^ 8); reflexivity).
  set (x := v mod 2 ^ 16) in *. clearbody x.
  assert (0 <= x / 2 ^ 8 < 2 ^ 8)
    by (split; [apply Z.div_pos | apply Z.div_lt_upper_bound]; lia).
  pose proof (Z.mod_pos_bound x (2 ^ 8) ltac:(lia)).
  rewrite Z.div_add by lia. rewrite (Z.div_small (x / 2 ^ 8)) by lia.
  rewrite Z.add_0_l. apply Z.mod_small. lia.
Qed.

(** The flags octet on the wire, from the field in host order. *)
Lemma flags_octet m i v :
  0 <= i -> i + 1 < Z.of_nat (length m) -> rd (wr16 m i (htons v)) (i + 1) = v mod 2 ^ 8.
Proof.
  intros. unfold wr16. rewrite rd_wr_eq by (rewrite length_wr; lia).
  apply htons_high_octet.
Qed.

Lemma tcp_hl_range p : 0 <= tcp_hl p < 65536.
Proof. unfold tcp_hl. cbn zeta. apply htons_range. Qed.

(** Setting the ACK bit leaves the data offset. *)
Lemma data_offset_lor x b : 0 <= b < 2 ^ 12 -> Z.shiftr (Z.lor x b) 12 = Z.shiftr x 12.
Proof.
  intros Hb. rewrite Z.shiftr_lor.
  rewrite (Z.shiftr_div_pow2 b) by lia. rewrite (Z.div_small b) by lia.
  apply Z.lor_0_r.
Qed.

Lemma shiftr12_range x : 0 <= x < 65536 -> 0 <= Z.shiftr x 12 < 16.
Proof.
  intros. rewrite Z.shiftr_div_pow2 by lia.
  split; [apply Z.div_pos | apply Z.div_lt_upper_bound]; lia.
Qed.

Lemma lor_range16 x b : 0 <= x < 65536 -> 0 <= b < 65536 -> 0 <= Z.lor x b < 65536.
Proof.
  intros Hx Hb. split; [apply Z.lor_nonneg; lia|].
  destruct (Z.eq_dec (Z.lor x b) 0) as [->|Hne]; [lia|].
  assert (0 < Z.lor x b) by (pose proof (proj2 (Z.lor_nonneg x b) ltac:(lia)); lia).
  change 65536 with (2 ^ 16) in *.
  apply (proj2 (Z.log2_lt_pow2 _ 16 H)). rewrite Z.log2_lor by lia.
  apply Z.max_lub_lt.
  - destruct (Z.eq_dec x 0) as [->|]; [cbn; lia|].
    apply (proj1 (Z.log2_lt_pow2 x 16 ltac:(lia))). lia.
  - destruct (Z.eq_dec b 0) as [->|]; [cbn; lia|].
    apply (proj1 (Z.log2_lt_pow2 b 16 ltac:(lia))). lia.
Qed.

(** What [tcp_turn_around] leaves. *)
Lemma turn_around_spec p :
  let tcp := 14 + ip_hlen p 14 in
  octets p -> 20 <= ip_hlen p 14 -> tcp + 20 <= Z.of_nat (length p) ->
  let q := tcp_turn_around p in
  length q = length p /\ octets q
  /\ (forall j, 12 <= j < 26 \/ 34 <= j < tcp \/ tcp + 4 <= j < tcp + 8 \/ tcp + 12 <= j ->
                rd q j = rd p j)
  /\ Wire.be32 q (tcp + 8) = u32 (Wire.be32 p (tcp + 4) + 1).
Proof.
  intros tcp Hoct Hh Hlen q. subst q. unfold tcp_turn_around. cbn zeta.
  change (0 + etherFrame.data) with 14.
  change (0 + etherFrame.destAddress) with 0. change (0 + etherFrame.sourceAddress) with 6.
  change (14 + ipFrame.destIp) with 30. change (14 + ipFrame.sourceIp) with 26.
  unfold tcpFrame.destPort, tcpFrame.sourcePort, tcpFrame.ackNumber, tcpFrame.sequenceNumber.
  fold tcp. rewrite !Z.add_0_r.
  set (p2 := swap_fields IP_ADD_LENGTH 30 26 (swap_fields HW_ADD_LENGTH 0 6 p)).
  assert (Hp2 : octets p2)
    by (subst p2; unfold IP_ADD_LENGTH, HW_ADD_LENGTH;
        repeat apply swap_fields_octets; try lia; assumption).
  assert (Hl2 : length p2 = length p) by (subst p2; length_all; reflexivity).
  set (p4 := wr16 (wr16 p2 (tcp + 2) _) tcp _).
  assert (Hp4 : octets p4) by (subst p4; repeat apply wr16_octets; assumption).
  assert (Hl4 : length p4 = length p) by (subst p4; length_all; exact Hl2).
  assert (Hseq : rd32 p4 (tcp + 4) = rd32 p (tcp + 4)).
  { apply rd32_ext. intros k Hk. subst p4 p2. unfold HW_ADD_LENGTH, IP_ADD_LENGTH.
    rd_other. reflexivity. }
  rewrite Hseq.
  split; [length_all; exact Hl4|].
  split; [apply wr32_octets; exact Hp4|].
  split.
  - intros j Hj. subst p4 p2. unfold HW_ADD_LENGTH, IP_ADD_LENGTH. rd_other. reflexivity.
  - rewrite <- htols_rd32 by (apply wr32_octets; exact Hp4).
    rewrite rd32_wr32 by (try apply htols_range; lia).
    rewrite htols_htols. rewrite htols_rd32 by assumption. reflexivity.
Qed.

Lemma low_octet_bit x n : 0 <= n < 8 -> Z.testbit (x mod 2 ^ 8) n = Z.testbit x n.
Proof. intros. apply Z.mod_pow2_bits_low. lia. Qed.

Lemma tcp_hl_after_turn p :
  let tcp := 14 + ip_hlen p 14 in
  octets p -> 20 <= ip_hlen p 14 -> tcp + 20 <= Z.of_nat (length p) ->
  forall v, rd16 (wr32 (tcp_turn_around p) (tcp + 4) v) (tcp + 12) = rd16 p (tcp + 12).
Proof.
  intros tcp Hoct Hh Hlen v.
  destruct (turn_around_spec p Hoct Hh Hlen) as (_ & _ & Hfr & _). fold tcp in Hfr.
  apply rd16_ext; rewrite rd_wr32_other by lia; apply Hfr; lia.
Qed.

(** What [etherSendTcpSynAck] does. *)
Lemma etherSendTcpSynAck_spec g p :
  let tcp := 14 + ip_hlen p 14 in
  let doff := Z.shiftr (tcp_hl p) 12 in
  octets p -> 20 <= ip_hlen p 14 -> tcp + 60 <= Z.of_nat (length p) ->
  let r := etherSendTcpSynAck g p in
  let f := slice (snd r) 0 (14 + ip_hlen p 14 + doff * 4) in
  length (snd r) = length p /\ octets (snd r)
  /\ fst r = set_tx (tx g ++ [f]) (set_currentIsn (u32 (currentIsn g + 1)) g)
  /\ rd (snd r) 23 = rd p 23
  /\ rd (snd r) (tcp + 13) = Z.lor (tcp_hl p) 16 mod 2 ^ 8
  /\ Wire.be32 (snd r) (tcp + 4) = u32 (currentIsn g)
  /\ Wire.be32 (snd r) (tcp + 8) = u32 (Wire.be32 p (tcp + 4) + 1).
Proof.
  intros tcp doff Hoct Hh Hlen.
  pose proof (ip_hlen_range p 14) as Hhr.
  destruct (turn_around_spec p Hoct Hh ltac:(fold tcp; lia)) as (Hl1 & Ho1 & Hfr1 & Hack1).
  fold tcp in Hfr1, Hack1.
  pose proof (tcp_hl_after_turn p Hoct Hh ltac:(fold tcp; lia)) as Hhl. fold tcp in Hhl.
  pose proof (tcp_hl_range p) as Hhlr.
  pose proof (shiftr12_range (tcp_hl p) Hhlr) as Hdr. fold doff in Hdr.
  unfold etherSendTcpSynAck. cbn zeta.
  change (0 + etherFrame.data) with 14. fold tcp.
  unfold tcpFrame.sequenceNumber, tcpFrame.headerLength.
  set (p1 := tcp_turn_around p) in *.
  rewrite (Hhl (htols (currentIsn g))).
  set (p2 := wr32 p1 (tcp + 4) (htols (currentIsn g))).
  change (htons (rd16 p (tcp + 12))) with (tcp_hl p).
  change (Z.shiftl 1 4) with 16.
  rewrite data_offset_lor by lia. fold doff. rewrite (u8_small doff) by lia.
  set (p3 := wr16 p2 (tcp + 12) (htons (Z.lor (tcp_hl p) 16))).
  set (p4 := etherCalcIpChecksum p3 14).
  set (p5 := tcp_checksum p4 14 tcp (doff * 4) (doff * 4) 0).
  assert (Hl5 : length p5 = length p) by (subst p5 p4 p3 p2; length_all; exact Hl1).
  assert (Ho5 : octets p5).
  { subst p5 p4 p3 p2. apply tcp_checksum_octets, calc_octets, wr16_octets, wr32_octets, Ho1. }
  assert (Hh5 : ip_hlen p5 14 = ip_hlen p 14).
  { unfold ip_hlen, ipFrame.revSize. subst p5 p4 p3 p2. rd_other. rewrite Hfr1 by lia.
    reflexivity. }
  rewrite Hh5. cbn [fst snd].
  split; [exact Hl5|]. split; [exact Ho5|].
  split.
  { unfold etherPutPacket. cbn [tx set_tx set_currentIsn].
    rewrite u16_small by lia. reflexivity. }
  split; [subst p5 p4 p3 p2; rd_other; apply Hfr1; lia|].
  split.
  { subst p5 p4. rd_other. subst p3.
    replace (tcp + 13) with (tcp + 12 + 1) by lia.
    apply flags_octet; [lia|]. subst p2. length_all. lia. }
  split.
  - transitivity (Wire.be32 p2 (tcp + 4)).
    + apply be32_ext. intros k Hk. subst p5 p4 p3. rd_other. reflexivity.
    + subst p2. rewrite <- htols_rd32 by (apply wr32_octets, Ho1).
      rewrite rd32_wr32 by (try apply htols_range; lia). apply htols_htols.
  - rewrite <- Hack1. apply be32_ext. intros k Hk. subst p5 p4 p3 p2. rd_other. reflexivity.
Qed.

Lemma clear_bit0 x :
  0 <= x < 65536 ->
  let y := u16 (Z.shiftl (u16 (Z.shiftr x 1)) 1) in
  0 <= y < 65536 /\ Z.testbit y 0 = false
  /\ (forall n, 1 <= n -> Z.testbit y n = Z.testbit x n)
  /\ Z.shiftr y 12 = Z.shiftr x 12.
Proof.
  intros Hx. cbn zeta.
  assert (H1 : 0 <= Z.shiftr x 1 < 32768).
  { rewrite Z.shiftr_div_pow2 by lia.
    split; [apply Z.div_pos | apply Z.div_lt_upper_bound]; lia. }
  rewrite (u16_small (Z.shiftr x 1)) by lia.
  assert (H2 : 0 <= Z.shiftl (Z.shiftr x 1) 1 < 65536)
    by (rewrite Z.shiftl_mul_pow2 by lia; lia).
  rewrite u16_small by lia.
  split; [exact H2|]. split; [apply Z.shiftl_spec_low; lia|]. split.
  - intros n Hn. rewrite Z.shiftl_spec, Z.shiftr_spec by lia. f_equal. lia.
  - apply Z.bits_inj'. intros n Hn. rewrite !Z.shiftr_spec by lia.
    rewrite Z.shiftl_spec, Z.shiftr_spec by lia. f_equal. lia.
Qed.

(** What [etherSendAckFinAck] does: two frames, cut from the buffer before
    and after the FIN bit is set. *)
Lemma etherSendAckFinAck_spec g p :
  let tcp := 14 + ip_hlen p 14 in
  let doff := Z.shiftr (tcp_hl p) 12 in
  octets p -> 20 <= ip_hlen p 14 -> tcp + 60 <= Z.of_nat (length p) ->
  let r := etherSendAckFinAck g p in
  exists f1 f2,
    Z.of_nat (length f1) = 14 + ip_hlen p 14 + doff * 4
    /\ Z.of_nat (length f2) = 14 + ip_hlen p 14 + doff * 4
    /\ fst r = set_tx (tx g ++ [f1; f2]) (set_currentIsn (u32 (currentIsn g + 1)) g)
    /\ length (snd r) = length p /\ octets (snd r)
    /\ rd (snd r) 23 = rd p 23
    /\ (4 <= doff ->
          Wire.tcp_flag f1 tcp Wire.ACK = true /\ Wire.tcp_flag f1 tcp Wire.FIN = false
          /\ Wire.tcp_flag f2 tcp Wire.ACK = true /\ Wire.tcp_flag f2 tcp Wire.FIN = true
          /\ Wire.be32 f1 (tcp + 4) = u32 (currentIsn g)
          /\ Wire.be32 f2 (tcp + 4) = u32 (currentIsn g)).
Proof.
  intros tcp doff Hoct Hh Hlen.
  pose proof (ip_hlen_range p 14) as Hhr.
  destruct (turn_around_spec p Hoct Hh ltac:(fold tcp; lia)) as (Hl1 & Ho1 & Hfr1 & Hack1).
  fold tcp in Hfr1, Hack1.
  pose proof (tcp_hl_after_turn p Hoct Hh ltac:(fold tcp; lia)) as Hhl. fold tcp in Hhl.
  pose proof (tcp_hl_range p) as Hhlr.
  pose proof (shiftr12_range (tcp_hl p) Hhlr) as Hdr. fold doff in Hdr.
  pose proof (lor_range16 (tcp_hl p) 16 Hhlr ltac:(lia)) as Hlr.
  destruct (clear_bit0 (Z.lor (tcp_hl p) 16) Hlr) as (Hyr & Hy0 & Hyn & Hy12).
  unfold etherSendAckFinAck. cbn zeta.
  change (0 + etherFrame.data) with 14. fold tcp.
  unfold tcpFrame.sequenceNumber, tcpFrame.headerLength.
  set (p1 := tcp_turn_around p) in *.
  rewrite (Hhl (htols (currentIsn g))).
  set (p2 := wr32 p1 (tcp + 4) (htols (currentIsn g))).
  change (htons (rd16 p (tcp + 12))) with (tcp_hl p).
  change (Z.shiftl 1 4) with 16.
  set (y := u16 (Z.shiftl (u16 (Z.shiftr (Z.lor (tcp_hl p) 16) 1)) 1)) in *.
  rewrite Hy12, data_offset_lor by lia. fold doff. rewrite (u8_small doff) by lia.
  set (p3 := wr16 p2 (tcp + 12) (htons y)).
  set (p4 := etherCalcIpChecksum p3 14).
  set (p5 := tcp_checksum p4 14 tcp (doff * 4) (doff * 4) 0).
  assert (Hl2 : length p2 = length p) by (subst p2; length_all; exact Hl1).
  assert (Hl5 : length p5 = length p) by (subst p5 p4 p3; length_all; exact Hl2).
  assert (Ho5 : octets p5).
  { subst p5 p4 p3 p2. apply tcp_checksum_octets, calc_octets, wr16_octets, wr32_octets, Ho1. }
  assert (Hh5 : ip_hlen p5 14 = ip_hlen p 14).
  { unfold ip_hlen, ipFrame.revSize. subst p5 p4 p3 p2. rd_other. rewrite Hfr1 by lia.
    reflexivity. }
  assert (Hhl5 : rd16 p5 (tcp + 12) = htons y).
  { transitivity (rd16 p3 (tcp + 12)).
    - apply rd16_ext; subst p5 p4; rd_other; reflexivity.
    - subst p3. apply rd16_wr16; [lia | lia | apply htons_range]. }
  rewrite Hhl5, htons_htons, (u16_small y) by lia.
  set (p6 := wr16 p5 (tcp + 12) (htons (Z.lor y 1))).
  set (p7 := tcp_checksum p6 14 tcp (doff * 4) (doff * 4) 0).
  assert (Hl7 : length p7 = length p) by (subst p7 p6; length_all; exact Hl5).
  assert (Hh7 : ip_hlen p7 14 = ip_hlen p 14).
  { rewrite <- Hh5. unfold ip_hlen, ipFrame.revSize. subst p7 p6. rd_other. reflexivity. }
  rewrite Hh5, Hh7. cbn [fst snd].
  exists (slice p5 0 (14 + ip_hlen p 14 + doff * 4)),
         (slice p7 0 (14 + ip_hlen p 14 + doff * 4)).
  split; [rewrite length_slice; lia|]. split; [rewrite length_slice; lia|].
  split.
  { unfold etherPutPacket. cbn [tx set_tx set_currentIsn].
    rewrite !u16_small by lia. rewrite <- app_assoc. reflexivity. }
  split; [exact Hl7|].
  split; [subst p7 p6; apply tcp_checksum_octets, wr16_octets, Ho5|].
  split.
  { subst p7 p6 p5 p4 p3 p2. rd_other. apply Hfr1. lia. }
  intros Hd.
  assert (Hf5 : rd p5 (tcp + 13) = y mod 2 ^ 8).
  { subst p5 p4. rd_other. subst p3. replace (tcp + 13) with (tcp + 12 + 1) by lia.
    apply flags_octet; lia. }
  assert (Hf7 : rd p7 (tcp + 13) = Z.lor y 1 mod 2 ^ 8).
  { subst p7. rd_other. subst p6. replace (tcp + 13) with (tcp + 12 + 1) by lia.
    apply flags_octet; lia. }
  assert (Hs5 : Wire.be32 p5 (tcp + 4) = u32 (currentIsn g)).
  { transitivity (Wire.be32 p2 (tcp + 4)).
    - apply be32_ext. intros k Hk. subst p5 p4 p3. rd_other. reflexivity.
    - subst p2. rewrite <- htols_rd32 by (apply wr32_octets, Ho1).
      rewrite rd32_wr32 by (try apply htols_range; lia). apply htols_htols. }
  unfold Wire.tcp_flag, Wire.ACK, Wire.FIN.
  rewrite !rd_slice by lia. rewrite !Z.add_0_l. rewrite Hf5, Hf7.
  rewrite !low_octet_bit by lia. rewrite Z.lor_spec, Z.lor_spec, Hy0, (Hyn 4) by lia.
  rewrite Z.lor_spec. change (Z.testbit 16 4) with true. change (Z.testbit 1 4) with false.
  change (Z.testbit 1 0) with true. rewrite !orb_true_r.
  repeat split.
  - rewrite <- Hs5. apply be32_ext. intros k Hk. rewrite rd_slice by lia. f_equal.
  - rewrite <- Hs5. apply be32_ext. intros k Hk. rewrite rd_slice by lia.
    subst p7 p6. rd_other. f_equal.
Qed.

(** ** Packet dispatch in the main loop *)

Lemma match_while_false n test : match_while false n test = false.
Proof.
  destruct (Z.le_gt_cases 0 n) as [Hn|Hn].
  - unfold match_while.
    apply (for_loop_ind (fun _ (r : bool) => r = false)); [assumption | reflexivity |].
    intros k r _ ->. reflexivity.
  - unfold match_while, for_loop. rewrite seqZ_nil by lia. reflexivity.
Qed.

(** An IP frame is not taken for an ARP request. *)
Lemma ip_not_arp g p : etherIsIp p = true -> etherIsArpRequest g p = false.
Proof.
  unfold etherIsIp, etherIsArpRequest. cbn zeta.
  destruct (Z.eqb_spec (rd16 p (0 + etherFrame.frameType)) (htons 0x0800)) as [E|E];
    [|discriminate].
  intros _. rewrite E. change (htons 2048 =? htons 2054) with false.
  rewrite match_while_false. reflexivity.
Qed.

Lemma etherIsTcp_protocol p : etherIsTcp p = true -> rd p 23 = 6.
Proof.
  unfold etherIsTcp. cbn zeta. change (etherFrame.data + ipFrame.protocol) with 23.
  destruct (Z.eqb_spec (rd p 23) 6); [auto | discriminate].
Qed.

Lemma tcp_not_ping p : rd p 23 = 6 -> etherIsPingRequest p = false.
Proof.
  intros E. unfold etherIsPingRequest. cbn zeta.
  change (etherFrame.data + ipFrame.protocol) with 23. rewrite E. reflexivity.
Qed.

Lemma tcp_not_udp p : rd p 23 = 6 -> etherIsUdp p = false.
Proof.
  intros E. unfold etherIsUdp. cbn zeta.
  change (etherFrame.data + ipFrame.protocol) with 23. rewrite E. reflexivity.
Qed.

Lemma when_true body s : when true body s = body s.
Proof. reflexivity. Qed.

Lemma when_false body s : when false body s = Some s.
Proof. reflexivity. Qed.

(** An accepted TCP segment reaches the TCP branch and nothing else. *)
Lemma main_unicast_tcp s :
  etherIsTcp (data s) = true -> main_unicast s = Some (main_tcp s).
Proof.
  intros Htcp. pose proof (etherIsTcp_protocol _ Htcp) as H6.
  unfold main_unicast.
  rewrite (tcp_not_ping _ H6). cbv zeta.
  rewrite (tcp_not_udp _ H6). unfold isArpResponse, when. cbn [mbind option_bind].
  rewrite Htcp. reflexivity.
Qed.

Lemma main_broadcast_tcp s : rd (data s) 23 = 6 -> main_broadcast s = Some s.
Proof.
  intros H6. unfold main_broadcast, when. rewrite (tcp_not_udp _ H6). reflexivity.
Qed.

Lemma main_packet_tcp rx s :
  let s1 := set_data (etherGetPacket (data s) rx MAX_PACKET_SIZE) s in
  etherIsIp (data s1) = true ->
  etherIsIpUnicast (glob s1) (data s1) = true ->
  etherIsTcp (data s1) = true ->
  rd (data (main_tcp s1)) 23 = 6 ->
  main_packet rx s = Some (main_tcp s1).
Proof.
  intros s1 Hip Huni Htcp Hproto.
  unfold main_packet. fold s1.
  rewrite (ip_not_arp (glob s1) (data s1) Hip). cbv zeta.
  rewrite Hip, when_true, Huni, when_true.
  rewrite (main_unicast_tcp s1 Htcp). cbn [mbind option_bind].
  unfold when. rewrite (main_broadcast_tcp _ Hproto).
  destruct (etherIsIpBroadcast _); reflexivity.
Qed.

(** The flag bits of the field the code reads are the bits of the flags
    octet on the wire. *)
Lemma tcp_hl_flag p n :
  octets p -> 0 <= n < 8 ->
  Z.testbit (tcp_hl p) n = Wire.tcp_flag p (14 + ip_hlen p 14) n.
Proof.
  intros Hp Hn. unfold tcp_hl, Wire.tcp_flag. cbn zeta.
  change (etherFrame.data) with 14. unfold tcpFrame.headerLength.
  rewrite htons_rd16 by assumption. unfold Wire.be16.
  replace (14 + ip_hlen p 14 + 12 + 1) with (14 + ip_hlen p 14 + 13) by lia.
  rewrite <- (low_octet_bit (_ + _)) by lia.
  rewrite Z.add_comm, Z.mod_add by lia.
  apply low_octet_bit. lia.
Qed.

Lemma tcp_ack_wire p :
  octets p -> tcp_ack p = Wire.be32 p (14 + ip_hlen p 14 + 8).
Proof.
  intros Hp. unfold tcp_ack. cbn zeta. change etherFrame.data with 14.
  unfold tcpFrame.ackNumber. apply htols_rd32. assumption.
Qed.

Lemma etherIsTcpSYN_wire p :
  octets p -> etherIsTcpSYN p = Wire.tcp_flag p (14 + ip_hlen p 14) Wire.SYN.
Proof.
  intros Hp. unfold etherIsTcpSYN. rewrite flag_test by lia.
  apply tcp_hl_flag; [assumption | unfold Wire.SYN; lia].
Qed.

Lemma etherIsTcpAck_wire g p :
  octets p ->
  etherIsTcpAck g p
  = Wire.tcp_flag p (14 + ip_hlen p 14) Wire.ACK
    && (Wire.be32 p (14 + ip_hlen p 14 + 8) =? currentIsn g).
Proof.
  intros Hp. unfold etherIsTcpAck. cbn zeta. rewrite flag_test by lia.
  rewrite tcp_hl_flag by (assumption || lia). rewrite tcp_ack_wire by assumption.
  reflexivity.
Qed.

Lemma etherIsTelnetData_wire g p :
  octets p ->
  etherIsTelnetData g p
  = Wire.tcp_flag p (14 + ip_hlen p 14) Wire.PSH
    && Wire.tcp_flag p (14 + ip_hlen p 14) Wire.ACK
    && (Wire.be32 p (14 + ip_hlen p 14 + 8) =? currentIsn g).
Proof.
  intros Hp. unfold etherIsTelnetData. cbn zeta. rewrite !flag_test by lia.
  rewrite !tcp_hl_flag by (assumption || lia). rewrite tcp_ack_wire by assumption.
  reflexivity.
Qed.

Lemma etherIsTcpFINACK_wire g p :
  octets p ->
  etherIsTcpFINACK g p
  = Wire.tcp_flag p (14 + ip_hlen p 14) Wire.ACK
    && Wire.tcp_flag p (14 + ip_hlen p 14) Wire.FIN
    && (Wire.be32 p (14 + ip_hlen p 14 + 8) =? currentIsn g).
Proof.
  intros Hp. unfold etherIsTcpFINACK. cbn zeta. rewrite flag_test, flag_test0 by lia.
  rewrite !tcp_hl_flag by (assumption || lia). rewrite tcp_ack_wire by assumption.
  reflexivity.
Qed.

Lemma build_unfold f s :
  build f s = set_data (snd (f (glob s) (data s))) (set_glob (fst (f (glob s) (data s))) s).
Proof. unfold build. destruct (f (glob s) (data s)). reflexivity. Qed.

(** The buffer after [etherGetPacket], for a frame that fits. *)
Lemma received_buffer s rx :
  octets (data s) -> Z.of_nat (length (data s)) = MAX_PACKET_SIZE ->
  octets rx -> Z.of_nat (length rx) <= MAX_PACKET_SIZE ->
  let p := etherGetPacket (data s) rx MAX_PACKET_SIZE in
  octets p /\ Z.of_nat (length p) = MAX_PACKET_SIZE.
Proof.
  intros Hd Hl Hr Hrl p. split.
  - apply etherGetPacket_octets; assumption.
  - destruct (etherGetPacket_spec (data s) rx) as [H _]; try lia.
    subst p. rewrite H. exact Hl.
Qed.

(** ** UDP classification *)

Lemma bsum_wsum odd l : exists k, bsum odd l = 2 ^ 8 * wsum odd l + 65535 * k.
Proof. destruct (wsum_bsum odd l) as [k Hk]. exists (- k). lia. Qed.

(** The RFC's test holds as soon as the sum of the big-endian words is a
    non-zero multiple of 65535. *)
Lemma bsum_wire_checksum_ok l : octets l ->
  bsum false l <> 0 -> (exists k, bsum false l = 65535 * k) -> RFC1071.wire_checksum_ok l.
Proof.
  intros H Hne [k Hk]. unfold RFC1071.wire_checksum_ok, RFC1071.ones_sum.
  destruct (be_words_sum l H) as [Hw Hs].
  destruct (ones_fold_spec _ Hw 0 ltac:(lia)) as (Hr & (j & Hj0 & Hj) & Hz).
  rewrite Hs in Hj, Hz.
  set (r := foldl RFC1071.ones_add 0 (RFC1071.be_words l)) in *.
  assert (r <> 0) by (intros E; destruct (Hz E); contradiction).
  assert (r = 65535 * (k - j)) by lia.
  assert (k - j = 1) by nia. lia.
Qed.

(** The code's accumulator, summed over a list of octets, folds to zero
    exactly when the list passes the RFC's test. *)
Lemma fold_zero_iff_wire_ok l :
  octets l -> wsum false l < 2 ^ 32 ->
  (getEtherChecksum (wsum false l) = 0 <-> RFC1071.wire_checksum_ok l).
Proof.
  intros H Hb. pose proof (wsum_bounds false l H) as [Hw0 _].
  rewrite getEtherChecksum_zero by lia.
  destruct (wsum_bsum false l) as [k Hk].
  split.
  - intros [Hne [j Hj]]. apply bsum_wire_checksum_ok; [assumption | |].
    + intros E. apply Hne. apply bsum_zero; assumption.
    + exists (2 ^ 8 * j - k). lia.
  - intros Hok. destruct (wire_checksum_ok_bsum l H Hok) as [Hne [j Hj]]. split.
    + intros E. apply Hne. apply wsum_zero; assumption.
    + exists (2 ^ 8 * (j + k) - wsum false l). lia.
Qed.

(** The sum [etherIsUdp] feeds to the fold is the exact sum over the
    pseudo-header and the datagram. *)
Lemma etherIsUdp_sum packet :
  octets packet ->
  let ip := 14 in
  let udp := 14 + ip_hlen packet 14 in
  let l := RFC768.pseudo_header packet ip udp ++ RFC768.datagram packet udp in
  etherSumWords (udp_pseudo_sum packet ip udp) packet udp
    (ntohs (rd16 packet (udp + udpFrame.length)))
  = wsum false l
  /\ octets l /\ wsum false l < 2 ^ 32.
Proof.
  intros Hp ip udp l. subst l ip.
  unfold RFC768.pseudo_header, RFC768.datagram, udp_pseudo_sum, udpFrame.length, ntohs.
  cbn zeta. rewrite htons_rd16 by assumption.
  change (14 + ipFrame.sourceIp) with 26. change (14 + ipFrame.protocol) with 23.
  change (14 + 12) with 26. change (14 + 16) with 30. change (14 + 9) with 23.
  set (ulen := Wire.be16 packet (udp + 4)).
  assert (Hul : 0 <= ulen < 65536).
  { subst ulen. unfold Wire.be16.
    pose proof (rd_octet packet (udp + 4) Hp). pose proof (rd_octet packet (udp + 4 + 1) Hp).
    unfold octet in *. lia. }
  pose proof (rd_octet packet 23 Hp) as H23. unfold octet in H23.
  pose proof (wsum_bounds false _ (slice_octets packet 26 8 Hp)) as B1.
  pose proof (wsum_bounds false _ (slice_octets packet (udp + 4) 2 Hp)) as B3.
  pose proof (wsum_bounds false _ (slice_octets packet udp ulen Hp)) as B4.
  rewrite !length_slice in *.
  assert (E8 : slice packet 26 8 = slice packet 26 4 ++ slice packet 30 4)
    by (change 8 with (4 + 4); rewrite slice_app by lia; reflexivity).
  rewrite (etherSumWords_spec 0) by lia. rewrite Z.add_0_l.
  rewrite (u32_small (wsum false (slice packet 26 8))) by lia.
  rewrite land_ff, (Z.mod_small (rd packet 23)), Z.shiftl_mul_pow2 by lia.
  rewrite (u32_small (_ + rd packet 23 * 2 ^ 8)) by lia.
  rewrite (etherSumWords_spec _ packet (udp + 4) 2) by lia.
  rewrite (u32_small (_ + wsum false (slice packet (udp + 4) 2))) by lia.
  rewrite etherSumWords_spec by lia.
  rewrite u32_small by lia.
  assert (Hoct : octets ((slice packet 26 4 ++ slice packet 30 4 ++ [0; rd packet 23]
                          ++ slice packet (udp + 4) 2) ++ slice packet udp ulen)).
  { unfold octets. repeat (apply Forall_app; split); try (apply slice_octets; assumption).
    repeat constructor; unfold octet; lia. }
  split; [|split; [exact Hoct|]].
  - rewrite E8. rewrite <- !app_assoc.
    rewrite !wsum_app_even by (rewrite ?length_slice; reflexivity).
    cbn [wsum negb]. lia.
  - rewrite <- !app_assoc.
    rewrite !wsum_app_even by (rewrite ?length_slice; reflexivity).
    rewrite E8, wsum_app_even in B1 by (rewrite ?length_slice; reflexivity).
    cbn [wsum negb]. rewrite !Z2Nat.id in * by lia. lia.
Qed.

(** * The timers of the DHCP client when ticks arrive between iterations *)

Lemma armed_has cb m t : Timer.armed cb m t = true -> has cb t.
Proof.
  unfold Timer.armed. rewrite existsb_exists. intros ([sl|] & Hin & Hb); [|discriminate].
  apply andb_true_iff in Hb. destruct Hb as [Hb _]. apply bool_decide_eq_true in Hb.
  exists sl. split; [apply list_elem_of_In, Hin | exact Hb].
Qed.

Lemma register_elem sl t x :
  Some x ∈ fst (Timer.register sl t) -> x = sl \/ Some x ∈ t.
Proof.
  induction t as [|[y|] t IH]; cbn [Timer.register].
  - cbn. intros H. apply elem_of_nil in H. destruct H.
  - destruct (Timer.register sl t) as [t' ok]. cbn [fst] in *.
    intros H. apply elem_of_cons in H. destruct H as [H|H].
    + right. rewrite H. apply list_elem_of_here.
    + destruct (IH H) as [E|E]; [left; exact E|right; apply list_elem_of_further, E].
  - cbn [fst]. intros H. apply elem_of_cons in H. destruct H as [H|H].
    + left. congruence.
    + right. apply list_elem_of_further, H.
Qed.

Lemma stopTimer_elem cb t x :
  Some x ∈ Timer.stopTimer cb t -> Some x ∈ t /\ slot_cb x <> cb.
Proof.
  unfold Timer.stopTimer. intros H. apply list_elem_of_fmap in H.
  destruct H as ([y|] & E & Hin); [|discriminate].
  destruct (decide (slot_cb y = cb)) as [|Hne]; [discriminate|].
  injection E as ->. auto.
Qed.

Lemma stopAllTimers_elem t x : ~ Some x ∈ Timer.stopAllTimers t.
Proof.
  unfold Timer.stopAllTimers. intros H. apply list_elem_of_fmap in H.
  destruct H as (y & E & _). discriminate.
Qed.

Lemma initTimer_elem N x : ~ Some x ∈ Timer.initTimer N.
Proof.
  unfold Timer.initTimer. intros H. apply elem_of_replicate_inv in H. discriminate.
Qed.

Lemma tickIsr_elem t x :
  Some x ∈ fst (Timer.tickIsr t) ->
  exists y, Some y ∈ t /\ fst (Timer.tick_slot (Some y)) = Some x.
Proof.
  unfold Timer.tickIsr. cbn [fst]. intros H. apply list_elem_of_fmap in H.
  destruct H as ([y|] & E & Hin); [|discriminate].
  exists y. split; [exact Hin | symmetry; exact E].
Qed.

Lemma tickIsr_fired t cb :
  cb ∈ snd (Timer.tickIsr t) ->
  exists y, Some y ∈ t /\ slot_cb y = cb /\ u32 (slot_remaining y - 1) = 0.
Proof.
  unfold Timer.tickIsr. cbn [snd]. intros H.
  apply list_elem_of_In, in_concat in H. destruct H as (l & Hl & Hcb).
  apply list_elem_of_In, list_elem_of_fmap in Hl. destruct Hl as ([y|] & E & Hin).
  - exists y. split; [exact Hin|]. subst l. cbn in Hcb.
    destruct (u32 (slot_remaining y - 1) =? 0) eqn:Hz.
    + apply Z.eqb_eq in Hz. split; [|exact Hz].
      destruct (slot_mode y); cbn in Hcb; destruct Hcb as [<-|[]]; reflexivity.
    + destruct Hcb.
  - subst l. destruct Hcb.
Qed.

(** A slot that survives a tick either counted down without reaching zero,
    or is a periodic slot that fired and was reloaded. *)
Lemma tick_slot_Some y x :
  fst (Timer.tick_slot (Some y)) = Some x ->
  slot_cb x = slot_cb y /\ slot_mode x = slot_mode y /\ slot_reload x = slot_reload y
  /\ ((u32 (slot_remaining y - 1) <> 0 /\ slot_remaining x = u32 (slot_remaining y - 1))
      \/ (u32 (slot_remaining y - 1) = 0 /\ slot_mode y = Periodic
          /\ slot_remaining x = slot_reload y)).
Proof.
  cbn [Timer.tick_slot]. destruct (u32 (slot_remaining y - 1) =? 0) eqn:Hz.
  - apply Z.eqb_eq in Hz. destruct (slot_mode y) eqn:Hm; cbn [fst]; [discriminate|].
    intros E. injection E as <-. cbn. auto 10.
  - apply Z.eqb_neq in Hz. cbn [fst]. intros E. injection E as <-. cbn. auto 10.
Qed.

Lemma u32_pred r :
  0 <= r < 2 ^ 32 ->
  (r = 0 /\ u32 (r - 1) = 2 ^ 32 - 1) \/ (0 < r /\ u32 (r - 1) = r - 1).
Proof.
  intros Hr. unfold u32. destruct (Z.eq_dec r 0) as [->|Hne].
  - left. split; reflexivity.
  - right. split; [lia|]. apply Z.mod_small. lia.
Qed.

Lemma invoke_rebind cbs f :
  rebind (foldl (fun f cb => invoke cb f) f cbs) = true ->
  rebind f = true \/ startT2Timer ∈ cbs.
Proof.
  revert f. induction cbs as [|cb cbs IH]; intros f; cbn [foldl].
  - auto.
  - intros H. destruct (IH _ H) as [E|E].
    + destruct cb; cbn in E; auto; right; apply list_elem_of_here.
    + right. apply list_elem_of_further, E.
Qed.

Lemma has_tickIsr cb t : has cb (fst (Timer.tickIsr t)) -> has cb t.
Proof.
  intros (x & Hx & Hcb). apply tickIsr_elem in Hx. destruct Hx as (y & Hy & E).
  apply tick_slot_Some in E. destruct E as (Ec & _).
  exists y. split; [exact Hy | congruence].
Qed.

(** When T2 fires, no T1 slot is left after the tick. *)
Lemma t2_fires_after_t1 t :
  Forall slot_ok t -> ordered t ->
  (exists y, Some y ∈ t /\ slot_cb y = startT2Timer /\ u32 (slot_remaining y - 1) = 0) ->
  ~ has startT1Timer (fst (Timer.tickIsr t)).
Proof.
  intros Hok Hord (y2 & Hy2 & Hc2 & Hz2) (x1 & Hx1 & Hc1).
  apply tickIsr_elem in Hx1. destruct Hx1 as (y1 & Hy1 & E).
  apply tick_slot_Some in E. destruct E as (Ec & Em & _ & Hcase).
  rewrite Forall_forall in Hok.
  pose proof (Hok _ Hy1) as (Hr1 & _ & Hone). pose proof (Hok _ Hy2) as (Hr2 & _ & _).
  assert (Hcb1 : slot_cb y1 = startT1Timer) by congruence.
  destruct Hcase as [[Hnz _]|[_ [Hper _]]]; [|rewrite (Hone Hcb1) in Hper; discriminate].
  destruct (u32_pred _ Hr2) as [[_ E2]|[Hpos2 E2]]; [rewrite E2 in Hz2; discriminate|].
  destruct (Hord y1 y2 Hy1 Hy2 Hcb1 Hc2) as [Heq|Hle].
  - rewrite Heq in Hnz. contradiction.
  - assert (slot_remaining y1 = 1) as E1 by lia. rewrite E1 in Hnz. apply Hnz. reflexivity.
Qed.

Lemma timers_inv_tick t f :
  timers_inv t (rebind f) ->
  timers_inv (fst (Timer.tickIsr t))
             (rebind (foldl (fun f cb => invoke cb f) f (snd (Timer.tickIsr t)))).
Proof.
  intros (Hok & Hord & Hrb & Hreb).
  assert (Hkeep : ~ has startT1Timer t -> ~ has startT1Timer (fst (Timer.tickIsr t))).
  { intros Hno Hhas. apply Hno, has_tickIsr, Hhas. }
  split; [|split; [|split]].
  - apply Forall_forall. intros [x|] Hx; [|exact I].
    apply tickIsr_elem in Hx. destruct Hx as (y & Hy & E).
    apply tick_slot_Some in E. destruct E as (Ec & Em & Er & Hcase).
    rewrite Forall_forall in Hok. pose proof (Hok _ Hy) as (Hr & Hrl & Hone).
    cbn [slot_ok]. rewrite Ec, Em, Er. split; [|split; assumption].
    destruct Hcase as [[_ ->]|[_ [_ ->]]]; [|exact Hrl].
    unfold u32. apply Z.mod_pos_bound. lia.
  - intros x1 x2 Hx1 Hx2 Hc1 Hc2.
    assert (Hhas : has startT1Timer (fst (Timer.tickIsr t))) by (exists x1; auto).
    apply tickIsr_elem in Hx1. destruct Hx1 as (y1 & Hy1 & E1).
    apply tickIsr_elem in Hx2. destruct Hx2 as (y2 & Hy2 & E2).
    apply tick_slot_Some in E1. destruct E1 as (Ec1 & Em1 & _ & Hcase1).
    apply tick_slot_Some in E2. destruct E2 as (Ec2 & Em2 & _ & Hcase2).
    assert (Hcb1 : slot_cb y1 = startT1Timer) by congruence.
    assert (Hcb2 : slot_cb y2 = startT2Timer) by congruence.
    destruct Hcase2 as [[Hnz2 ->]|[Hz2 _]].
    2:{ exfalso. apply (t2_fires_after_t1 t Hok Hord); [|exact Hhas].
        exists y2. auto. }
    rewrite Forall_forall in Hok.
    pose proof (Hok _ Hy1) as (Hr1 & _ & Hone). pose proof (Hok _ Hy2) as (Hr2 & _ & _).
    destruct Hcase1 as [[Hnz1 ->]|[_ [Hper _]]]; [|rewrite (Hone Hcb1) in Hper; discriminate].
    destruct (Hord y1 y2 Hy1 Hy2 Hcb1 Hcb2) as [Heq|Hle].
    + left. rewrite Heq. reflexivity.
    + right. destruct (u32_pred _ Hr1) as [[E _]|[_ E1]]; [lia|].
      destruct (u32_pred _ Hr2) as [[E _]|[_ E2]]; [lia|].
      rewrite E1, E2 in *. lia.
  - intros H. apply invoke_rebind in H. destruct H as [H|H].
    + apply Hkeep, Hrb, H.
    + apply tickIsr_fired in H. apply (t2_fires_after_t1 t Hok Hord H).
  - intros H. apply Hkeep, Hreb, has_tickIsr, H.
Qed.

Lemma timers_inv_subset t t' rb rb' :
  (forall x, Some x ∈ t' -> Some x ∈ t) -> (rb' = true -> rb = true) ->
  timers_inv t rb -> timers_inv t' rb'.
Proof.
  intros Hsub Hflag (Hok & Hord & Hrb & Hreb).
  assert (Hhas : forall cb, has cb t' -> has cb t).
  { intros cb (x & Hx & Hc). exists x. auto. }
  split; [|split; [|split]].
  - apply Forall_forall. intros [x|] Hx; [|exact I].
    rewrite Forall_forall in Hok. apply (Hok (Some x)), Hsub, Hx.
  - intros x1 x2 H1 H2. apply Hord; auto.
  - intros E H. apply (Hrb (Hflag E)), Hhas, H.
  - intros H1 H2. apply (Hreb (Hhas _ H1)), Hhas, H2.
Qed.

Lemma timers_inv_register t rb sl :
  timers_inv t rb -> slot_ok (Some sl) ->
  slot_cb sl <> startT1Timer -> slot_cb sl <> startT2Timer ->
  (slot_cb sl = startRebinding -> ~ has startT1Timer t) ->
  timers_inv (fst (Timer.register sl t)) rb.
Proof.
  intros (Hok & Hord & Hrb & Hreb) Hsl Hn1 Hn2 Hnew.
  assert (Hno : ~ has startT1Timer t -> ~ has startT1Timer (fst (Timer.register sl t))).
  { intros Hno (x & Hx & Hc). apply register_elem in Hx. destruct Hx as [->|Hx].
    - contradiction.
    - apply Hno. exists x. auto. }
  split; [|split; [|split]].
  - apply Forall_forall. intros [x|] Hx; [|exact I].
    apply register_elem in Hx. destruct Hx as [->|Hx]; [exact Hsl|].
    rewrite Forall_forall in Hok. apply (Hok _ Hx).
  - intros x1 x2 H1 H2 Hc1 Hc2.
    apply register_elem in H1. destruct H1 as [->|H1]; [contradiction|].
    apply register_elem in H2. destruct H2 as [->|H2]; [contradiction|].
    apply Hord; auto.
  - intros E. apply Hno, Hrb, E.
  - intros (x & Hx & Hc). apply Hno. apply register_elem in Hx. destruct Hx as [->|Hx].
    + apply Hnew, Hc.
    + apply Hreb. exists x. auto.
Qed.

Lemma send_dhcp_frame k s s' :
  send_dhcp k s = Some s' ->
  timers s' = timers s /\ flag s' = flag s /\ at_packet s' = at_packet s /\ state s' = state s.
Proof.
  unfold send_dhcp. destruct (etherSendDhcpPacket _ _ _) as [[g p]|]; cbn; [|discriminate].
  intros [= <-]. cbn. auto.
Qed.

Lemma periodic_15_ok cb :
  cb <> startT1Timer -> slot_ok (Some (Slot cb Periodic (u32 15) (u32 15))).
Proof. intros H. cbn. repeat split; vm_compute; congruence. Qed.

(** The flag handling keeps the invariant and leaves [rebind] cleared. *)
Lemma main_flags_inv s s' :
  main_flags s = Some s' ->
  timers_inv (timers s) (rebind (flag s)) ->
  timers_inv (timers s') (rebind (flag s'))
  /\ rebind (flag s') = false /\ at_packet s' = at_packet s.
Proof.
  unfold main_flags. intros H Hinv.
  apply bind_Some in H as (s1 & H1 & H).
  assert (I1 : timers_inv (timers s1) (rebind (flag s1)) /\ at_packet s1 = at_packet s).
  { unfold when in H1. destruct (state s =? INIT); injection H1 as <-; [|auto].
    cbn. split; [|reflexivity].
    apply timers_inv_register; [exact Hinv | apply periodic_15_ok | ..]; cbn; congruence. }
  clear H1 Hinv. destruct I1 as [Hinv Hat].
  apply bind_Some in H as (s2 & H2 & H).
  assert (I2 : timers_inv (timers s2) (rebind (flag s2)) /\ at_packet s2 = at_packet s).
  { unfold when in H2. destruct (sendDhcp (flag s1)); [|injection H2 as <-; auto].
    apply bind_Some in H2 as (s1' & E & H2). injection H2 as <-.
    apply send_dhcp_frame in E. destruct E as (Et & Ef & Ea & _). cbn in *.
    rewrite Et, Ef, Ea. auto. }
  clear H2 Hinv Hat. destruct I2 as [Hinv Hat].
  apply bind_Some in H as (s3 & H3 & H).
  assert (I3 : timers_inv (timers s3) (rebind (flag s3)) /\ at_packet s3 = at_packet s).
  { unfold when in H3. destruct (_ && _); injection H3 as <-; auto. }
  clear H3 Hinv Hat. destruct I3 as [Hinv Hat].
  apply bind_Some in H as (s4 & H4 & H).
  assert (I4 : timers_inv (timers s4) (rebind (flag s4)) /\ at_packet s4 = at_packet s).
  { unfold when in H4. destruct (renewLease (flag s3)); injection H4 as <-; [|auto].
    cbn. split; [|exact Hat].
    apply timers_inv_register; [exact Hinv | apply periodic_15_ok | ..]; cbn; congruence. }
  clear H4 Hinv Hat. destruct I4 as [Hinv Hat].
  apply bind_Some in H as (s5 & H5 & H).
  assert (I5 : timers_inv (timers s5) (rebind (flag s5)) /\ at_packet s5 = at_packet s).
  { unfold when in H5. destruct (sendRenewRequest (flag s4)); [|injection H5 as <-; auto].
    apply bind_Some in H5 as (s4' & E & H5). injection H5 as <-.
    apply send_dhcp_frame in E. destruct E as (Et & Ef & Ea & _). cbn in *.
    rewrite Et, Ef, Ea. auto. }
  clear H5 Hinv Hat. destruct I5 as [Hinv Hat].
  apply bind_Some in H as (s6 & H6 & H).
  assert (I6 : timers_inv (timers s6) (rebind (flag s6))
               /\ rebind (flag s6) = false /\ at_packet s6 = at_packet s).
  { unfold when in H6. destruct (rebind (flag s5)) eqn:Hrb; injection H6 as <-; [|rewrite Hrb; auto].
    cbn. split; [|auto].
    assert (Hstop : timers_inv (Timer.stopTimer startRenewing (timers s5)) true).
    { revert Hinv. apply timers_inv_subset; [|auto].
      intros x Hx. apply stopTimer_elem in Hx. tauto. }
    eapply timers_inv_subset; [intros x Hx; exact Hx | discriminate |].
    apply timers_inv_register; [exact Hstop | apply periodic_15_ok | ..]; cbn; try congruence.
    intros _. destruct Hstop as (_ & _ & Hno & _). auto. }
  clear H6 Hinv Hat. destruct I6 as (Hinv & Hrb & Hat).
  apply bind_Some in H as (s7 & H7 & H).
  assert (I7 : timers_inv (timers s7) (rebind (flag s7))
               /\ rebind (flag s7) = false /\ at_packet s7 = at_packet s).
  { unfold when in H7. destruct (sendRebindRequest (flag s6)); [|injection H7 as <-; auto].
    apply send_dhcp_frame in H7. destruct H7 as (Et & Ef & Ea & _). cbn in *.
    rewrite Et, Ef, Ea. cbn. auto. }
  clear H7 Hinv Hat Hrb. destruct I7 as (Hinv & Hrb & Hat).
  apply bind_Some in H as (s8 & H8 & H).
  assert (I8 : timers_inv (timers s8) (rebind (flag s8))
               /\ rebind (flag s8) = false /\ at_packet s8 = at_packet s).
  { unfold when in H8. destruct (leaseEnd (flag s7)); injection H8 as <-; [|auto].
    cbn. split; [|auto]. revert Hinv. apply timers_inv_subset; [|auto].
    intros x Hx. apply stopTimer_elem in Hx. tauto. }
  clear H8 Hinv Hat Hrb. destruct I8 as (Hinv & Hrb & Hat).
  apply bind_Some in H as (s9 & H9 & H).
  assert (I9 : timers_inv (timers s9) (rebind (flag s9))
               /\ rebind (flag s9) = false /\ at_packet s9 = at_packet s).
  { unfold when in H9. destruct (dhcpRelease (flag s8)); [|injection H9 as <-; auto].
    apply bind_Some in H9 as (s8' & E & H9). injection H9 as <-.
    apply send_dhcp_frame in E. destruct E as (Et & Ef & Ea & _). cbn in *.
    rewrite Ef, Ea. cbn. split; [|auto]. revert Hinv. apply timers_inv_subset; [|auto].
    intros x Hx. apply stopAllTimers_elem in Hx. destruct Hx. }
  clear H9 Hinv Hat Hrb. destruct I9 as (Hinv & Hrb & Hat).
  unfold when in H. destruct (transitionToInit (flag s9)); injection H as <-; auto.
Qed.

(** ** The packet processing *)

Lemma same_ctl_refl s : same_ctl s s.
Proof. repeat split. Qed.

Lemma same_ctl_trans s1 s2 s3 : same_ctl s1 s2 -> same_ctl s2 s3 -> same_ctl s1 s3.
Proof. unfold same_ctl. intros (-> & -> & ->) (-> & -> & ->). auto. Qed.

Lemma same_ctl_build f s : same_ctl s (build f s).
Proof. unfold build. destruct (f _ _) as [g p]. repeat split. Qed.

Lemma same_ctl_main_tcp s : same_ctl s (main_tcp s).
Proof.
  unfold main_tcp.
  repeat match goal with
         | |- context [if ?c then _ else _] => destruct c
         end;
    first [ apply same_ctl_refl | apply same_ctl_build
          | solve [repeat split]
          | eapply same_ctl_trans; [apply same_ctl_build | solve [repeat split]] ].
Qed.

Lemma same_ctl_send_dhcp k s s' : send_dhcp k s = Some s' -> same_ctl s s'.
Proof. intros H. apply send_dhcp_frame in H. unfold same_ctl. tauto. Qed.

Lemma same_ctl_main_unicast s s' : main_unicast s = Some s' -> same_ctl s s'.
Proof.
  unfold main_unicast, isArpResponse, when. cbn [mbind option_bind].
  intros [= <-].
  repeat match goal with
         | |- context [if ?c then _ else _] => destruct c
         end;
    repeat first [ apply same_ctl_refl | apply same_ctl_build | apply same_ctl_main_tcp
                 | eapply same_ctl_trans; [|apply same_ctl_main_tcp]
                 | eapply same_ctl_trans; [|apply same_ctl_build] ].
Qed.

Lemma lease_timers_ordered lease :
  0 < lease < 2 ^ 32 ->
  u32 (lease / 2) = u32 (lease * 7 / 8) \/ 0 < u32 (lease / 2) <= u32 (lease * 7 / 8).
Proof.
  intros H. rewrite !u32_small by (split; [|apply Z.div_lt_upper_bound]; try lia;
                                   apply Z.div_pos; lia).
  destruct (Z.eq_dec lease 1) as [->|Hne]; [left; reflexivity|right].
  split; [apply Z.div_str_pos; lia|].
  assert (lease / 2 = lease * 4 / 8) as ->.
  { replace (lease * 4) with (lease * 2 * 2) by lia. replace 8 with (4 * 2) at 1 by lia.
    rewrite Z.div_mul_cancel_r by lia. replace (lease * 2) with (lease * 2) by lia.
    replace 4 with (2 * 2) by lia. rewrite Z.div_mul_cancel_r by lia. reflexivity. }
  apply Z.div_le_mono; lia.
Qed.

(** The DHCP ACK branch on the timers. *)
Lemma main_dhcp_ack_inv lease s :
  0 <= lease < 2 ^ 32 ->
  timers_inv (timers s) false ->
  timers_inv (timers (main_dhcp_ack lease s)) false
  /\ flag (main_dhcp_ack lease s) = flag s
  /\ at_packet (main_dhcp_ack lease s) = at_packet s.
Proof.
  intros Hl Hinv. unfold main_dhcp_ack.
  destruct (lease >? 0) eqn:Hpos; cbn [andb]; [|auto].
  destruct (_ || _); [|auto].
  apply Z.gtb_gt in Hpos.
  set (s1 := upd_timers Timer.stopAllTimers s).
  set (s2 := if state s1 =? REQUESTING then build sendGratiousArp s1 else s1).
  assert (H2 : same_ctl s1 s2).
  { unfold s2. destruct (_ =? _); [apply same_ctl_build | apply same_ctl_refl]. }
  destruct H2 as (Ht & Hf & Ha). cbv zeta. cbn. rewrite Ht, Hf, Ha. cbn.
  split; [|auto].
  unfold Timer.startOneshotTimer.
  set (a := Slot startT1Timer _ _ _). set (b := Slot startT2Timer _ _ _).
  set (c := Slot leaseEndTimer _ _ _). set (d := Slot arpResponse _ _ _).
  match goal with |- timers_inv ?t _ => set (t4 := t) end.
  assert (Hin : forall x, Some x ∈ t4 -> x = a \/ x = b \/ x = c \/ x = d).
  { intros x Hx. unfold t4 in Hx.
    apply register_elem in Hx. destruct Hx as [->|Hx]; [auto|].
    apply register_elem in Hx. destruct Hx as [->|Hx]; [auto|].
    apply register_elem in Hx. destruct Hx as [->|Hx]; [auto|].
    apply register_elem in Hx. destruct Hx as [->|Hx]; [auto|].
    apply stopAllTimers_elem in Hx. destruct Hx. }
  assert (Hu : forall v, 0 <= u32 v < 2 ^ 32) by (intros v; apply Z.mod_pos_bound; lia).
  split; [|split; [|split]].
  - apply Forall_forall. intros [x|] Hx; [|exact I].
    destruct (Hin x Hx) as [-> | [-> | [-> | ->]]]; cbn; repeat split;
      first [apply Hu | discriminate | reflexivity].
  - intros x1 x2 H1 H2 Hc1 Hc2.
    destruct (Hin x1 H1) as [-> | [-> | [-> | ->]]]; try discriminate Hc1.
    destruct (Hin x2 H2) as [-> | [-> | [-> | ->]]]; try discriminate Hc2.
    cbn. apply lease_timers_ordered. lia.
  - discriminate.
  - intros (x & Hx & Hc). destruct (Hin x Hx) as [-> | [-> | [-> | ->]]]; discriminate Hc.
Qed.

Lemma main_broadcast_inv s s' :
  main_broadcast s = Some s' ->
  timers_inv (timers s) false ->
  timers_inv (timers s') false /\ flag s' = flag s /\ at_packet s' = at_packet s.
Proof.
  unfold main_broadcast, when. intros H Hinv.
  destruct (etherIsUdp (data s)); [|injection H as <-; auto].
  apply bind_Some in H as (offer & _ & H).
  apply bind_Some in H as (s1 & H1 & H).
  assert (Hs1 : same_ctl s s1).
  { destruct (_ && _); [|injection H1 as <-; apply same_ctl_refl].
    apply bind_Some in H1 as (s0 & E & H1). injection H1 as <-.
    apply same_ctl_send_dhcp in E. destruct E as (Et & Ef & Ea). repeat split; assumption. }
  destruct Hs1 as (Et & Ef & Ea).
  apply bind_Some in H as ([g lease] & _ & H). injection H as <-.
  rewrite <- Et in Hinv.
  destruct (main_dhcp_ack_inv (u32 lease) (set_glob g s1)) as (Hi & Hf & Ha).
  - apply Z.mod_pos_bound. lia.
  - exact Hinv.
  - split; [exact Hi|]. rewrite Hf, Ha. cbn. auto.
Qed.

Lemma main_packet_inv rx s s' :
  main_packet rx s = Some s' ->
  timers_inv (timers s) false ->
  timers_inv (timers s') false /\ flag s' = flag s /\ at_packet s' = at_packet s.
Proof.
  unfold main_packet. cbv zeta.
  set (s0 := set_data _ s).
  set (s1 := if etherIsArpRequest (glob s0) (data s0)
             then build etherSendArpResponse s0 else s0).
  assert (Hs1 : same_ctl s s1).
  { unfold s1. destruct (etherIsArpRequest _ _).
    - eapply same_ctl_trans; [|apply same_ctl_build]. repeat split.
    - repeat split. }
  clearbody s1. clear s0. destruct Hs1 as (Et & Ef & Ea).
  intros H Hinv. unfold when in H.
  destruct (etherIsIp (data s1)); [|injection H as <-; rewrite Et; auto].
  apply bind_Some in H as (s2 & H2 & H).
  assert (Hs2 : same_ctl s1 s2).
  { destruct (etherIsIpUnicast _ _); [|injection H2 as <-; apply same_ctl_refl].
    apply same_ctl_main_unicast, H2. }
  destruct Hs2 as (Et2 & Ef2 & Ea2).
  destruct (etherIsIpBroadcast (data s2)).
  - apply main_broadcast_inv in H; [|rewrite Et2, Et; exact Hinv].
    destruct H as (Hi & Hf & Ha). split; [exact Hi|]. split; congruence.
  - injection H as <-. rewrite Et2, Et. split; [exact Hinv|]. split; congruence.
Qed.

Lemma sys_inv_step s e s' :
  sys_inv s -> (e = ev_tick -> at_packet s = false) ->
  step s e = Some s' -> sys_inv s'.
Proof.
  intros [Hinv Hat] Htick. destruct e as [| |rx]; cbn [step].
  - intros [= <-]. unfold main_tick.
    pose proof (timers_inv_tick (timers s) (flag s) Hinv) as Hi.
    destruct (Timer.tickIsr (timers s)) as [t cbs]. cbn [fst snd] in Hi.
    split; cbn; [exact Hi|]. rewrite (Htick eq_refl). discriminate.
  - destruct (at_packet s); [discriminate|]. intros H.
    apply bind_Some in H as (s1 & H1 & H). injection H as <-.
    apply main_flags_inv in H1; [|exact Hinv]. destruct H1 as (Hi & Hrb & _).
    split; cbn; auto.
  - destruct (at_packet s) eqn:Ea; [|discriminate]. intros H.
    apply bind_Some in H as (s1 & H1 & H). injection H as <-.
    specialize (Hat eq_refl). rewrite Hat in Hinv.
    destruct rx as [rx|].
    + apply main_packet_inv in H1; [|exact Hinv]. destruct H1 as (Hi & Hf & _).
      split; cbn; [|discriminate]. rewrite Hf, Hat. exact Hi.
    + injection H1 as <-. split; cbn; [|discriminate]. rewrite Hat. exact Hinv.
Qed.

Lemma sys_inv_boot N store buf : sys_inv (boot N store buf).
Proof.
  unfold boot. cbv zeta. cbn [timers flag at_packet sys_inv].
  split; [|discriminate]. unfold timers_inv. cbn [rebind no_flags].
  assert (Hno : forall cb, ~ has cb (Timer.initTimer N)).
  { intros cb (x & Hx & _). apply initTimer_elem in Hx. exact Hx. }
  split; [|split; [|split]].
  - apply Forall_forall. intros [x|] Hx; [|exact I]. apply initTimer_elem in Hx. destruct Hx.
  - intros x1 x2 H1. apply initTimer_elem in H1. destruct H1.
  - intros _. apply Hno.
  - intros _. apply Hno.
Qed.

Lemma run_atomic_None es :
  foldl (fun os e =>
           s ← os;
           match e with
           | ev_tick => if at_packet s then None else step s e
           | _ => step s e
           end) None es = None.
Proof. induction es as [|e es IH]; [reflexivity | exact IH]. Qed.

Lemma sys_inv_run_atomic es s s' :
  sys_inv s -> run_atomic s es = Some s' -> sys_inv s'.
Proof.
  unfold run_atomic. revert s. induction es as [|e es IH]; intros s Hinv; cbn [foldl].
  - intros [= <-]. exact Hinv.
  - cbn [mbind option_bind].
    destruct (match e with
              | ev_tick => if at_packet s then None else step s e
              | _ => step s e
              end) as [s1|] eqn:E.
    + apply IH. destruct e as [| |rx].
      * destruct (at_packet s) eqn:Ea; [discriminate|].
        apply (sys_inv_step s ev_tick); auto.
      * apply (sys_inv_step s ev_flags); [exact Hinv | discriminate | exact E].
      * apply (sys_inv_step s (ev_packet rx)); [exact Hinv | discriminate | exact E].
    + rewrite run_atomic_None. discriminate.
Qed.

(** X23. When the timer tick is taken only at the top of the loop (never
    between the flag handling and the packet processing of one iteration),
    the T1 one-shot timer and the periodic rebind timer are never armed
    together, for any size of the timer table, any content of the store and
    any received frames. *)
Theorem atomic_ticks_keep_t1_and_rebind_apart N store buf es s :
  run_atomic (boot N store buf) es = Some s ->
  Timer.armed startT1Timer OneShot (timers s)
  && Timer.armed startRebinding Periodic (timers s) = false.
Proof.
  intros H. apply sys_inv_run_atomic in H; [|apply sys_inv_boot].
  destruct H as [(_ & _ & _ & Hreb) _].
  destruct (Timer.armed startT1Timer OneShot (timers s)) eqn:E1; [|reflexivity].
  destruct (Timer.armed startRebinding Periodic (timers s)) eqn:E2; [|reflexivity].
  exfalso. apply armed_has in E1, E2. exact (Hreb E2 E1).
Qed.

(** The run up to RENEWING is of that kind; the run in which the tick of
    second 525 arrives between the flag handling and the packet processing
    is not. *)
Lemma racing_run_is_not_atomic :
  (exists s, run_atomic Frames.dhcp_host (Frames.to_bound ++ Frames.t1_fires) = Some s
             /\ state s = RENEWING)
  /\ run_atomic Frames.dhcp_host
       (Frames.to_bound ++ Frames.t1_fires ++ Frames.t2_races_ack) = None.
Proof.
  split.
  - eexists. split; vm_compute; reflexivity.
  - vm_compute. reflexivity.
Qed.

(** * The claims *)

(** C2.  For every well-formed IPv4 header whose checksum is correct on the
    wire (the RFC 1071 test), resetting the accumulator, summing the header
    with [etherSumWords] and folding with [getEtherChecksum] gives zero; and
    for every header whose checksum field was written by the builder
    [etherCalcIpChecksum], summing the whole header again and folding gives
    zero as well. *)
Theorem C2_ip_header_checksum_folds_to_zero :
  (forall packet ip,
      octets packet -> 0 <= ip ->
      5 <= Z.land (rd packet (ip + ipFrame.revSize)) 0xF ->
      ip + ip_hlen packet ip <= Z.of_nat (length packet) ->
      RFC1071.wire_checksum_ok (slice packet ip (ip_hlen packet ip)) ->
      getEtherChecksum (etherSumWords 0 packet ip (ip_hlen packet ip)) = 0)
  /\
  (forall packet ip,
      octets packet -> 0 <= ip ->
      5 <= Z.land (rd packet (ip + ipFrame.revSize)) 0xF ->
      ip + ip_hlen packet ip <= Z.of_nat (length packet) ->
      let packet' := etherCalcIpChecksum packet ip in
      getEtherChecksum (etherSumWords 0 packet' ip (ip_hlen packet' ip)) = 0).
Proof.
  split.
  - intros packet ip Hp _ _ _ Hok.
    pose proof (ip_hlen_range packet ip).
    apply wire_ok_folds_to_zero; [assumption | lia | assumption].
  - intros packet ip Hp Hip Hihl Hlen.
    apply calc_folds_to_zero; try assumption.
    unfold ip_hlen. lia.
Qed.

(** C4.  For every received ARP request whose target protocol address is
    the configured IP (a frame [etherIsArpRequest] accepts),
    [etherSendArpResponse] hands one frame of 42 octets to the controller,
    with ARP op 2, sender hardware address the device MAC, sender protocol
    address the configured IP, target hardware address the sender MAC of the
    request and target protocol address the sender IP of the request. *)
Theorem C4_arp_response :
  forall g packet,
    42 <= Z.of_nat (length packet) ->
    etherIsArpRequest g packet = true ->
    exists f,
      tx (fst (etherSendArpResponse g packet)) = tx g ++ [f]
      /\ length f = 42%nat
      /\ Wire.be16 f (14 + arpFrame.op) = 2
      /\ (forall i, 0 <= i < 6 ->
            rd f (14 + arpFrame.sourceAddress + i) = rd (macAddress g) i)
      /\ (forall i, 0 <= i < 4 ->
            rd f (14 + arpFrame.sourceIp + i) = rd (ipAddress g) i)
      /\ (forall i, 0 <= i < 6 ->
            rd f (14 + arpFrame.destAddress + i) = rd packet (14 + arpFrame.sourceAddress + i))
      /\ (forall i, 0 <= i < 4 ->
            rd f (14 + arpFrame.destIp + i) = rd packet (14 + arpFrame.sourceIp + i)).
Proof.
  intros g packet Hlen Hreq.
  destruct (etherIsArpRequest_true g packet Hreq) as (_ & Htpa & _).
  rewrite etherSendArpResponse_unfold. cbn zeta.
  set (p0 := wr16 packet 20 (htons 2)).
  assert (Hl0 : length p0 = length packet) by apply length_wr16.
  destruct (arp_hw_loop_spec g p0 ltac:(lia)) as [Hl1 Hr1].
  set (p1 := arp_hw_loop g p0) in *.
  destruct (swap_fields_spec IP_ADD_LENGTH 38 28 p1) as [Hl2 Hr2];
    try (unfold IP_ADD_LENGTH; lia).
  set (p2 := swap_fields IP_ADD_LENGTH 38 28 p1) in *.
  unfold IP_ADD_LENGTH in Hr2.
  assert (Hp0 : forall j, rd p0 j = if j =? 20 then 0 else if j =? 21 then 2 else rd packet j).
  { intros j. subst p0. unfold wr16. change (htons 2 mod 2 ^ 8) with 0.
    change (htons 2 / 2 ^ 8 mod 2 ^ 8) with 2.
    rd_wr_all. zcases; try lia; reflexivity. }
  exists (slice p2 0 42). cbn [fst]. unfold etherPutPacket. cbn [tx set_tx].
  change (u16 42) with 42.
  split; [reflexivity|]. split; [apply length_slice|].
  unfold Wire.be16, arpFrame.op, arpFrame.sourceAddress, arpFrame.sourceIp,
    arpFrame.destAddress, arpFrame.destIp.
  repeat split.
  - rewrite !rd_slice by lia. cbn [Z.add Pos.add Pos.succ].
    rewrite !Hr2, !Hr1, !Hp0. reflexivity.
  - intros i Hi. rewrite rd_slice by lia. rewrite Hr2. zcases.
    rewrite Hr1. zcases. f_equal; lia.
  - intros i Hi. rewrite rd_slice by lia. rewrite Hr2. zcases.
    rewrite Hr1. zcases. rewrite Hp0. zcases. rewrite <- Htpa by lia. f_equal; lia.
  - intros i Hi. rewrite rd_slice by lia. rewrite Hr2. zcases.
    rewrite Hr1. zcases. rewrite Hp0. zcases. f_equal; lia.
  - intros i Hi. rewrite rd_slice by lia. rewrite Hr2. zcases.
    rewrite Hr1. zcases. rewrite Hp0. zcases. f_equal; lia.
Qed.

(** C5.  For every received ICMP Echo Request (a frame [etherIsPingRequest]
    accepts, with an IP header of at least five words, that lies within
    the buffer), whatever its payload, [etherSendPingResponse] hands the
    controller one frame: its IP total length is the request's, its ICMP
    type is 0, its ICMP id and sequence number and its payload are those of
    the request, and its Ethernet and IP source and destination addresses
    are the request's exchanged. *)
Theorem C5_ping_response :
  forall g packet,
    let icmp := 14 + ip_hlen packet 14 in
    let total := Wire.be16 packet (14 + ipFrame.length) in
    octets packet ->
    etherIsPingRequest packet = true ->
    5 <= Z.land (rd packet (14 + ipFrame.revSize)) 0xF ->
    ip_hlen packet 14 + 8 <= total ->
    14 + total <= Z.of_nat (length packet) <= MAX_PACKET_SIZE ->
    exists f,
      tx (fst (etherSendPingResponse g packet)) = tx g ++ [f]
      /\ Z.of_nat (length f) = 14 + total
      /\ Wire.be16 f (14 + ipFrame.length) = total
      /\ rd f (icmp + icmpFrame.type) = 0
      /\ Wire.be16 f (icmp + icmpFrame.id) = Wire.be16 packet (icmp + icmpFrame.id)
      /\ Wire.be16 f (icmp + icmpFrame.seq_no) = Wire.be16 packet (icmp + icmpFrame.seq_no)
      /\ slice f (icmp + icmpFrame.data) (total - ip_hlen packet 14 - 8)
         = slice packet (icmp + icmpFrame.data) (total - ip_hlen packet 14 - 8)
      /\ slice f etherFrame.destAddress 6 = slice packet etherFrame.sourceAddress 6
      /\ slice f etherFrame.sourceAddress 6 = slice packet etherFrame.destAddress 6
      /\ slice f (14 + ipFrame.destIp) 4 = slice packet (14 + ipFrame.sourceIp) 4
      /\ slice f (14 + ipFrame.sourceIp) 4 = slice packet (14 + ipFrame.destIp) 4.
Proof.
  intros g packet icmp total Hoct _ Hihl Htot Hlen. unfold MAX_PACKET_SIZE in Hlen.
  assert (Hh : 20 <= ip_hlen packet 14) by (unfold ip_hlen; lia).
  pose proof (ip_hlen_range packet 14) as Hhr.
  assert (Htr : 0 <= total < 65536).
  { subst total. unfold Wire.be16.
    pose proof (rd_octet packet (14 + ipFrame.length) Hoct).
    pose proof (rd_octet packet (14 + ipFrame.length + 1) Hoct). unfold octet in *. lia. }
  unfold etherSendPingResponse. cbn zeta.
  change (0 + etherFrame.data) with 14.
  change (0 + etherFrame.destAddress) with 0. change (0 + etherFrame.sourceAddress) with 6.
  change (14 + ipFrame.destIp) with 30. change (14 + ipFrame.sourceIp) with 26.
  unfold icmpFrame.type, icmpFrame.check, icmpFrame.id. rewrite !Z.add_0_r.
  set (p2 := swap_fields IP_ADD_LENGTH 30 26 (swap_fields HW_ADD_LENGTH 0 6 packet)).
  set (p3 := wr p2 (14 + ip_hlen packet 14) 0).
  set (ck := getEtherChecksum _).
  destruct (ping_buffer_spec packet ck Hh ltac:(lia)) as [Hl4 Hr4].
  cbn zeta in Hl4, Hr4. fold p2 p3 in Hl4, Hr4.
  set (p4 := wr16 p3 (14 + ip_hlen packet 14 + 2) ck) in *.
  assert (Hsame : rd16 p4 (14 + ipFrame.length) = rd16 packet (14 + ipFrame.length)).
  { unfold rd16, ipFrame.length. rewrite !Hr4. zcases. reflexivity. }
  rewrite Hsame. unfold ntohs. rewrite htons_rd16 by assumption. fold total.
  exists (slice p4 0 (14 + total)). cbn [fst]. unfold etherPutPacket. cbn [tx set_tx].
  rewrite u16_small by lia.
  split; [reflexivity|]. split; [rewrite length_slice; lia|].
  subst icmp. unfold Wire.be16, ipFrame.length, icmpFrame.type, icmpFrame.id,
    icmpFrame.seq_no, icmpFrame.data, etherFrame.destAddress, etherFrame.sourceAddress,
    ipFrame.destIp, ipFrame.sourceIp.
  repeat split.
  - subst total. unfold Wire.be16, ipFrame.length in *.
    rewrite !rd_slice by lia. rewrite !Hr4. zcases. f_equal; f_equal; lia.
  - rewrite rd_slice by lia. rewrite Hr4. zcases. reflexivity.
  - rewrite !rd_slice by lia. rewrite !Hr4. zcases. f_equal; f_equal; f_equal; lia.
  - rewrite !rd_slice by lia. rewrite !Hr4. zcases. f_equal; f_equal; f_equal; lia.
  - apply slice_ext2. intros k Hk. rewrite rd_slice by lia. rewrite Hr4. zcases.
    f_equal; lia.
  - apply slice_ext2. intros k Hk. rewrite rd_slice by lia. rewrite Hr4. zcases.
    f_equal; lia.
  - apply slice_ext2. intros k Hk. rewrite rd_slice by lia. rewrite Hr4. zcases.
    f_equal; lia.
  - apply slice_ext2. intros k Hk. rewrite rd_slice by lia. rewrite Hr4. zcases.
    f_equal; lia.
  - apply slice_ext2. intros k Hk. rewrite rd_slice by lia. rewrite Hr4. zcases.
    f_equal; lia.
Qed.

(** C8.  For every well-formed options region (the entries written by
    successive [putOption] calls from cursor 0, within the 255 octets a
    [uint8_t] cursor addresses): [getOption] for a number that was written
    returns the pointer to the values of the first entry written for that
    number, and the values are there; [getOption] for a number that was
    never written returns NULL.  In both cases the scan returns. *)
Theorem C8_put_then_get_option :
  forall m options es number,
    0 <= options ->
    Options.well_formed es ->
    options + Options.encoded_size es <= Z.of_nat (length m) ->
    octet number ->
    let m' := fst (Options.put_all m options es) in
    let size := snd (Options.put_all m options es) in
    (number ∈ (fst <$> es) ->
       exists off vs,
         Options.first_entry number es 0 = Some (off, vs)
         /\ getOption m' options number size = Some (Some (options + off + 2))
         /\ slice m' (options + off + 2) (Z.of_nat (length vs)) = vs)
    /\ (number ∉ (fst <$> es) -> getOption m' options number size = Some None).
Proof.
  intros m options es number Ho Hwf Hlen Hnum m' size.
  destruct (put_all_spec m options es Ho Hwf Hlen) as (Hsz & Hl & Hrd).
  fold m' size in Hsz, Hl, Hrd.
  destruct Hwf as [Hwf H255].
  pose proof (encoded_size_nonneg es) as Hnn.
  pose proof (encoded_size_length es) as Hle.
  assert (Hscan : getOption m' options number size
                  = Some ((fun p => options + fst p + 2)
                            <$> Options.first_entry number es 0)).
  { unfold getOption.
    rewrite (u8_small number), (u8_small size) by (unfold octet in Hnum; lia).
    apply (getOption_loop_spec m' options number size es []); try assumption.
    - lia.
    - intros j Hj. cbn [Options.encoded_size foldr]. rewrite Z.add_0_r.
      rewrite Hrd. zcases. f_equal. lia.
    - unfold Options.entry in *. lia. }
  split.
  - intros Hin.
    destruct (first_entry_Some number es 0 Hin) as (off & vs & H1 & H2 & H3 & H4).
    exists off, vs. split; [exact H1|]. split; [rewrite Hscan, H1; reflexivity|].
    apply list_eq. intros k.
    destruct (decide (k < length vs)%nat) as [Hk|Hk].
    + rewrite slice_lookup by lia. rewrite Hrd. zcases.
      replace (options + off + 2 + Z.of_nat k - options) with (off - 0 + 2 + Z.of_nat k) by lia.
      rewrite H4 by lia. unfold rd. destruct (Z.leb_spec 0 (Z.of_nat k)); [|lia].
      rewrite Nat2Z.id. destruct (vs !! k) eqn:E; [reflexivity|].
      apply lookup_ge_None in E. lia.
    + rewrite (proj2 (lookup_ge_None _ _)) by (rewrite length_slice; lia).
      symmetry. apply lookup_ge_None. lia.
  - intros Hnin. rewrite Hscan, first_entry_None by assumption. reflexivity.
Qed.

(** C3.  A TCP segment the stack accepts (an IP datagram for this host
    with valid checksums, an IP header of at least five words and a TCP
    header of at least five words) is held in the buffer [p].
    If its SYN flag is set, the main loop sends one segment with SYN and
    ACK set, whose acknowledgement number is the request's sequence number
    plus one and whose sequence number is [currentIsn] before the
    increment; [currentIsn] advances by one (modulo 2^32) and the
    connection state becomes SYN_RECEIVED.
    If instead it is an ACK without SYN whose acknowledgement number is
    [currentIsn], and the connection state is SYN_RECEIVED, the state
    becomes ESTABLISHED. *)
Theorem C3_tcp_passive_open :
  forall s rx,
    octets (data s) -> Z.of_nat (length (data s)) = MAX_PACKET_SIZE ->
    octets rx -> Z.of_nat (length rx) <= MAX_PACKET_SIZE ->
    let p := etherGetPacket (data s) rx MAX_PACKET_SIZE in
    let tcp := 14 + ip_hlen p 14 in
    etherIsIp p = true ->
    etherIsIpUnicast (glob s) p = true ->
    etherIsTcp p = true ->
    5 <= Z.land (rd p (14 + ipFrame.revSize)) 0xF ->
    5 <= Z.shiftr (tcp_hl p) 12 ->
    (Wire.tcp_flag p tcp Wire.SYN = true ->
       exists s' f,
         main_packet rx s = Some s'
         /\ tx (glob s') = tx (glob s) ++ [f]
         /\ Wire.tcp_flag f tcp Wire.SYN = true
         /\ Wire.tcp_flag f tcp Wire.ACK = true
         /\ Wire.be32 f (tcp + tcpFrame.ackNumber)
            = u32 (Wire.be32 p (tcp + tcpFrame.sequenceNumber) + 1)
         /\ Wire.be32 f (tcp + tcpFrame.sequenceNumber) = u32 (currentIsn (glob s))
         /\ currentIsn (glob s') = u32 (currentIsn (glob s) + 1)
         /\ tcp_state s' = SYN_RECEIVED)
    /\
    (Wire.tcp_flag p tcp Wire.SYN = false ->
     Wire.tcp_flag p tcp Wire.ACK = true ->
     Wire.be32 p (tcp + tcpFrame.ackNumber) = currentIsn (glob s) ->
     tcp_state s = SYN_RECEIVED ->
       exists s',
         main_packet rx s = Some s'
         /\ tcp_state s' = ESTABLISHED
         /\ tx (glob s') = tx (glob s)).
Proof.
  intros s rx Hd Hdl Hrx Hrl p tcp Hip Huni Htcp Hihl Hdoff.
  destruct (received_buffer s rx Hd Hdl Hrx Hrl) as [Hp Hpl]. fold p in Hp, Hpl.
  unfold MAX_PACKET_SIZE in Hpl.
  assert (Hh : 20 <= ip_hlen p 14) by (unfold ip_hlen; lia).
  pose proof (ip_hlen_range p 14) as Hhr.
  pose proof (etherIsTcp_protocol _ Htcp) as H6.
  set (s1 := set_data p s).
  unfold tcpFrame.ackNumber, tcpFrame.sequenceNumber.
  split.
  - intros Hsyn.
    destruct (etherSendTcpSynAck_spec (glob s) p Hp Hh ltac:(lia))
      as (Hl & Ho & Hg & H23 & Hfl & Hseq & Hack).
    fold tcp in Hfl, Hseq, Hack.
    pose proof (tcp_hl_range p) as Hhlr.
    pose proof (shiftr12_range _ Hhlr) as Hdr.
    assert (Hmt : main_tcp s1
                  = set_tcp_state SYN_RECEIVED (build etherSendTcpSynAck s1)).
    { unfold main_tcp. change (data s1) with p.
      rewrite etherIsTcpSYN_wire by assumption. fold tcp. rewrite Hsyn. reflexivity. }
    exists (main_tcp s1). eexists.
    split.
    { apply (main_packet_tcp rx s); try assumption.
      change (set_data (etherGetPacket (data s) rx MAX_PACKET_SIZE) s) with s1.
      rewrite Hmt, build_unfold. cbn [data set_tcp_state set_data set_glob].
      change (data s1) with p. change (glob s1) with (glob s). rewrite H23. exact H6. }
    rewrite Hmt, build_unfold. cbn [glob tcp_state set_tcp_state set_data set_glob].
    change (data s1) with p. change (glob s1) with (glob s). rewrite Hg.
    cbn [tx set_tx currentIsn set_currentIsn].
    split; [reflexivity|].
    unfold Wire.tcp_flag, Wire.SYN, Wire.ACK.
    rewrite !rd_slice by lia. rewrite !Z.add_0_l, Hfl, !low_octet_bit by lia.
    rewrite !Z.lor_spec. change (Z.testbit 16 1) with false. change (Z.testbit 16 4) with true.
    rewrite orb_false_r, orb_true_r.
    split; [rewrite (tcp_hl_flag p 1) by (assumption || lia); exact Hsyn|].
    split; [reflexivity|].
    split; [rewrite <- Hack; apply be32_ext; intros k Hk; rewrite rd_slice by lia;
            f_equal|].
    split; [rewrite <- Hseq; apply be32_ext; intros k Hk; rewrite rd_slice by lia;
            f_equal|].
    split; reflexivity.
  - intros Hsyn Hack Hnum Hst.
    assert (Hmt : main_tcp s1 = set_tcp_state ESTABLISHED s1).
    { unfold main_tcp. change (data s1) with p. change (glob s1) with (glob s).
      rewrite etherIsTcpSYN_wire, etherIsTcpAck_wire by assumption. fold tcp.
      unfold tcpFrame.ackNumber in Hnum.
      rewrite Hsyn, Hack, Hnum, Z.eqb_refl. change (tcp_state s1) with (tcp_state s).
      rewrite Hst. reflexivity. }
    exists (main_tcp s1). split.
    { apply (main_packet_tcp rx s); try assumption.
      change (set_data (etherGetPacket (data s) rx MAX_PACKET_SIZE) s) with s1.
      rewrite Hmt. exact H6. }
    rewrite Hmt. split; reflexivity.
Qed.

(** C6 (amended).  A TCP segment the stack accepts, with FIN and ACK set and
    SYN and PSH clear, is held in the buffer [p]; its acknowledgement number
    is [currentIsn] and the connection state is not SYN_RECEIVED.  Then the
    main loop sends exactly two segments, in this order: both have ACK set,
    the first has FIN clear and the second has FIN set, both carry the
    sequence number [currentIsn] had before the increment, and the
    connection state becomes FINWAIT_1. *)
Theorem C6_fin_ack_answered_twice :
  forall s rx,
    octets (data s) -> Z.of_nat (length (data s)) = MAX_PACKET_SIZE ->
    octets rx -> Z.of_nat (length rx) <= MAX_PACKET_SIZE ->
    let p := etherGetPacket (data s) rx MAX_PACKET_SIZE in
    let tcp := 14 + ip_hlen p 14 in
    etherIsIp p = true ->
    etherIsIpUnicast (glob s) p = true ->
    etherIsTcp p = true ->
    5 <= Z.land (rd p (14 + ipFrame.revSize)) 0xF ->
    5 <= Z.shiftr (tcp_hl p) 12 ->
    Wire.tcp_flag p tcp Wire.FIN = true ->
    Wire.tcp_flag p tcp Wire.ACK = true ->
    Wire.tcp_flag p tcp Wire.SYN = false ->
    Wire.tcp_flag p tcp Wire.PSH = false ->
    Wire.be32 p (tcp + tcpFrame.ackNumber) = currentIsn (glob s) ->
    tcp_state s <> SYN_RECEIVED ->
    exists s' f1 f2,
      main_packet rx s = Some s'
      /\ tx (glob s') = tx (glob s) ++ [f1; f2]
      /\ Wire.tcp_flag f1 tcp Wire.ACK = true /\ Wire.tcp_flag f1 tcp Wire.FIN = false
      /\ Wire.tcp_flag f2 tcp Wire.ACK = true /\ Wire.tcp_flag f2 tcp Wire.FIN = true
      /\ Wire.be32 f1 (tcp + tcpFrame.sequenceNumber) = u32 (currentIsn (glob s))
      /\ Wire.be32 f2 (tcp + tcpFrame.sequenceNumber) = u32 (currentIsn (glob s))
      /\ tcp_state s' = FINWAIT_1.
Proof.
  intros s rx Hd Hdl Hrx Hrl p tcp Hip Huni Htcp Hihl Hdoff Hfin Hack Hsyn Hpsh Hnum Hst.
  destruct (received_buffer s rx Hd Hdl Hrx Hrl) as [Hp Hpl]. fold p in Hp, Hpl.
  unfold MAX_PACKET_SIZE in Hpl.
  assert (Hh : 20 <= ip_hlen p 14) by (unfold ip_hlen; lia).
  pose proof (ip_hlen_range p 14) as Hhr.
  pose proof (etherIsTcp_protocol _ Htcp) as H6.
  set (s1 := set_data p s).
  unfold tcpFrame.ackNumber, tcpFrame.sequenceNumber in *.
  destruct (etherSendAckFinAck_spec (glob s) p Hp Hh ltac:(lia))
    as (f1 & f2 & Hl1 & Hl2 & Hg & Hl & Ho & H23 & Hflags).
  fold tcp in Hflags.
  destruct (Hflags ltac:(lia)) as (A1 & F1 & A2 & F2 & S1 & S2).
  assert (Hmt : main_tcp s1 = set_tcp_state FINWAIT_1 (build etherSendAckFinAck s1)).
  { unfold main_tcp. change (data s1) with p. change (glob s1) with (glob s).
    rewrite etherIsTcpSYN_wire, etherIsTcpAck_wire, etherIsTelnetData_wire,
      etherIsTcpFINACK_wire by assumption. fold tcp.
    rewrite Hsyn, Hack, Hpsh, Hfin, Hnum, Z.eqb_refl. change (tcp_state s1) with (tcp_state s).
    destruct (Z.eqb_spec (tcp_state s) SYN_RECEIVED); [contradiction | reflexivity]. }
  exists (main_tcp s1), f1, f2.
  split.
  { apply (main_packet_tcp rx s); try assumption.
    change (set_data (etherGetPacket (data s) rx MAX_PACKET_SIZE) s) with s1.
    rewrite Hmt, build_unfold. cbn [data set_tcp_state set_data set_glob].
    change (data s1) with p. change (glob s1) with (glob s). rewrite H23. exact H6. }
  rewrite Hmt, build_unfold. cbn [glob tcp_state set_tcp_state set_data set_glob].
  change (data s1) with p. change (glob s1) with (glob s). rewrite Hg.
  cbn [tx set_tx].
  repeat split; assumption.
Qed.

(** C7 (amended).  [etherIsUdp] accepts a datagram exactly when its protocol
    is UDP and its checksum verifies over the pseudo-header and the full
    datagram (the test of RFC 768 and RFC 1071).  A checksum field of zero
    gets no treatment of its own: the field is summed like any other. *)
Theorem C7_udp_accepted_iff_checksum_verifies :
  forall packet,
    octets packet ->
    (etherIsUdp packet = true
     <-> rd packet (14 + ipFrame.protocol) = 17
         /\ RFC768.checksum_verifies packet 14 (14 + ip_hlen packet 14)).
Proof.
  intros packet Hp.
  destruct (etherIsUdp_sum packet Hp) as (Hsum & Hoct & Hlt).
  cbn zeta in Hsum, Hoct, Hlt.
  unfold etherIsUdp, RFC768.checksum_verifies. cbn zeta.
  change etherFrame.data with 14. rewrite Hsum.
  change (14 + ipFrame.protocol) with 23.
  destruct (Z.eqb_spec (rd packet 23) 17) as [E|E].
  - rewrite Z.eqb_eq. rewrite fold_zero_iff_wire_ok by assumption. tauto.
  - split; [discriminate | tauto].
Qed.

(** * Runs of the code where it departs from the specification *)

Ltac by_evaluation :=
  lazymatch goal with
  | |- _ /\ _ => split; [vm_compute; reflexivity | by_evaluation]
  | |- _ => vm_compute; reflexivity
  end.

(** C1. The DHCP client is brought to BOUND with the server 10.0.0.1
    learned from the ACK (lease 600 s).  When T1 fires at 300 s, the loop
    changes the state to RENEWING and arms the 15 s periodic timer, and
    transmits nothing.  The first request leaves 15 s later, built by
    [etherSendDhcpPacket (data, 4)] (main.c line 369): its destination MAC
    and IP are the broadcast addresses, the broadcast flag is set, and
    option 53 carries message type 4. *)
Theorem C1_renew_is_broadcast_with_type_4 :
  exists s_bound s_t1 s_renew f,
    run Frames.dhcp_host Frames.to_bound = Some s_bound
    /\ state s_bound = BOUND
    /\ serverMacAddress (glob s_bound) = Frames.peer_mac
    /\ serverIpAddress (glob s_bound) = [10; 0; 0; 1]
    /\ run s_bound Frames.t1_fires = Some s_t1
    /\ state s_t1 = RENEWING
    /\ tx (glob s_t1) = tx (glob s_bound)
    /\ Timer.armed startRenewing Periodic (timers s_t1) = true
    /\ run s_t1 Frames.renew_period = Some s_renew
    /\ state s_renew = RENEWING
    /\ tx (glob s_renew) = tx (glob s_t1) ++ [f]
    /\ slice f etherFrame.destAddress 6 = [255; 255; 255; 255; 255; 255]
    /\ slice f (14 + ipFrame.destIp) 4 = [255; 255; 255; 255]
    /\ Wire.be16 f (42 + dhcpFrame.flags) = 0x8000
    /\ slice f (42 + dhcpFrame.options) 3 = [53; 1; 4].
Proof.
  eexists _, _, _, _.
  by_evaluation.
Qed.

(** The sibling path: with the message type 5 that the comment above
    [etherSendDhcpPacket] gives for a renewal, the same state yields the
    unicast request: destination MAC and IP of the server, broadcast flag
    clear, [ciaddr] the leased address, option 53 carrying 3. *)
Lemma renew_with_type_5_is_unicast :
  exists s_bound s_t1 g p f,
    run Frames.dhcp_host Frames.to_bound = Some s_bound
    /\ run s_bound Frames.t1_fires = Some s_t1
    /\ etherSendDhcpPacket (glob s_t1) (data s_t1) 5 = Some (g, p)
    /\ tx g = tx (glob s_t1) ++ [f]
    /\ slice f etherFrame.destAddress 6 = Frames.peer_mac
    /\ slice f (14 + ipFrame.destIp) 4 = [10; 0; 0; 1]
    /\ Wire.be16 f (42 + dhcpFrame.flags) = 0
    /\ slice f (42 + dhcpFrame.ciaddr) 4 = [10; 0; 0; 42]
    /\ slice f (42 + dhcpFrame.options) 3 = [53; 1; 3].
Proof.
  eexists _, _, _, _, _. by_evaluation.
Qed.

(** C9. The client is in RENEWING.  The loop handles its flags; the tick of
    second 525 then fires T2 and raises [rebind]; the packet processing of
    the same iteration takes a DHCP ACK, stops all timers and arms T1 again
    (main.c lines 510-518); the next flag handling finds [rebind] still
    raised and arms the periodic rebind timer (lines 373-378).  The T1
    one-shot timer and the periodic rebind timer are then both armed.  (When
    no tick arrives at that point of the loop the two timers are never armed
    together: [atomic_ticks_keep_t1_and_rebind_apart].) *)
Theorem C9_t1_and_rebind_timer_both_armed :
  exists s_bound s_t1 s,
    run Frames.dhcp_host Frames.to_bound = Some s_bound
    /\ run s_bound Frames.t1_fires = Some s_t1
    /\ state s_t1 = RENEWING
    /\ run s_t1 Frames.t2_races_ack = Some s
    /\ Timer.armed startT1Timer OneShot (timers s) = true
    /\ Timer.armed startRebinding Periodic (timers s) = true.
Proof.
  eexists _, _, _.
  by_evaluation.
Qed.

(** A run of delimiters from count [c] that ends at count [MAX_CHARS + 2]
    stores at index [MAX_CHARS + 1]. *)
Lemma delimiters_reach (MAX_CHARS : Z) (to_count : Z -> Z) :
  (forall k, 0 <= k <= MAX_CHARS + 1 -> to_count k = k) ->
  forall n c st out,
    0 <= c -> c + Z.of_nat (S n) = MAX_CHARS + 2 ->
    (MAX_CHARS + 1, 0)
      ∈ stores (getsUart0_loop MAX_CHARS to_count (replicate (S n) 32) c st out).
Proof.
  intros Hcount. induction n as [|n IH]; intros c st out Hc Hn.
  - assert (c = MAX_CHARS + 1) as -> by lia.
    cbn. apply elem_of_app. right. apply list_elem_of_here.
  - change (replicate (S (S n)) 32) with (32 :: replicate (S n) 32).
    cbn [getsUart0_loop].
    change (32 =? 0) with false. change (32 =? 127) with false.
    change ((32 =? 10) || (32 =? 13)) with false.
    change (is_alnum 32) with false. cbv iota.
    rewrite Hcount by lia. apply IH; lia.
Qed.

(** C10. Whatever [MAX_CHARS] is, if the type of [charCount] holds the
    values up to [MAX_CHARS + 1], then [MAX_CHARS + 2] delimiters make
    [getsUart0] store a NUL at index [MAX_CHARS + 1]: the branch of line
    142 increments [charCount] without the test of line 135. *)
Theorem C10_delimiters_store_past_MAX_CHARS :
  forall (MAX_CHARS : Z) (to_count : Z -> Z),
    0 <= MAX_CHARS ->
    (forall k, 0 <= k <= MAX_CHARS + 1 -> to_count k = k) ->
    (MAX_CHARS + 1, 0)
      ∈ stores (getsUart0 MAX_CHARS to_count (replicate (Z.to_nat (MAX_CHARS + 2)) 32)).
Proof.
  intros MAX_CHARS to_count Hmax Hcount. unfold getsUart0.
  rewrite Hcount by lia.
  replace (Z.to_nat (MAX_CHARS + 2)) with (S (Z.to_nat (MAX_CHARS + 1))) by lia.
  apply delimiters_reach; [exact Hcount | lia | lia].
Qed.

(** * Witnesses, counterexamples and runs of the code *)

Lemma octets_check l :
  forallb (fun x => (0 <=? x) && (x <? 256)) l = true -> octets l.
Proof.
  induction l as [|x l IH]; cbn [forallb]; intros H.
  - apply Forall_nil_2.
  - apply andb_true_iff in H. destruct H as [Hx Hl].
    apply andb_true_iff in Hx. destruct Hx as [H1 H2].
    apply Z.leb_le in H1. apply Z.ltb_lt in H2.
    apply Forall_cons_2; [unfold octet; lia | exact (IH Hl)].
Qed.

Ltac by_compute :=
  first [ apply octets_check; vm_compute; reflexivity
        | vm_compute; first [ reflexivity | discriminate | lia
                            | split; first [ reflexivity | discriminate ] ] ].

(** C2 on the header of the echo request. *)
Lemma C2_witness :
  getEtherChecksum
    (etherSumWords 0 Frames.echo_request 14 (ip_hlen Frames.echo_request 14)) = 0
  /\ (let packet' := etherCalcIpChecksum Frames.echo_request 14 in
      getEtherChecksum (etherSumWords 0 packet' 14 (ip_hlen packet' 14)) = 0).
Proof.
  split.
  - apply (proj1 C2_ip_header_checksum_folds_to_zero); by_compute.
  - apply (proj2 C2_ip_header_checksum_folds_to_zero); by_compute.
Defined.

(** C4 on an ARP request for 192.168.1.199. *)
Lemma C4_witness :
  exists f,
    tx (fst (etherSendArpResponse (glob Frames.static_host) Frames.arp_request))
    = tx (glob Frames.static_host) ++ [f]
    /\ length f = 42%nat
    /\ Wire.be16 f (14 + arpFrame.op) = 2.
Proof.
  destruct (C4_arp_response (glob Frames.static_host) Frames.arp_request
              ltac:(by_compute) ltac:(by_compute))
    as (f & Htx & Hlen & Hop & _).
  exists f. auto.
Defined.

(** C5 on an echo request with the payload abcdef. *)
Lemma C5_witness :
  exists f,
    tx (fst (etherSendPingResponse (glob Frames.static_host) Frames.echo_request))
    = tx (glob Frames.static_host) ++ [f]
    /\ rd f (34 + icmpFrame.type) = 0
    /\ slice f (34 + icmpFrame.data) 6 = [97; 98; 99; 100; 101; 102].
Proof.
  destruct (C5_ping_response (glob Frames.static_host) Frames.echo_request
              ltac:(by_compute) ltac:(by_compute) ltac:(by_compute)
              ltac:(by_compute) ltac:(by_compute))
    as (f & Htx & _ & _ & Hty & _ & _ & Hdata & _).
  exists f. split; [exact Htx|]. split; [exact Hty | exact Hdata].
Defined.

(** C8 on a region with option 53 written twice: the scan finds the first
    value, and finds nothing for option 54. *)
Lemma C8_witness :
  let es := [(53, [5]); (51, [0; 0; 2; 88]); (53, [2])] in
  let m' := fst (Options.put_all (replicate 64 0) 4 es) in
  let size := snd (Options.put_all (replicate 64 0) 4 es) in
  getOption m' 4 53 size = Some (Some 6)
  /\ getOption m' 4 54 size = Some None.
Proof.
  intros es m' size.
  assert (Hwf : Options.well_formed es) by (repeat constructor; by_compute).
  destruct (C8_put_then_get_option (replicate 64 0) 4 es 53
              ltac:(by_compute) Hwf ltac:(by_compute) ltac:(by_compute))
    as [Hfound _].
  destruct (C8_put_then_get_option (replicate 64 0) 4 es 54
              ltac:(by_compute) Hwf ltac:(by_compute) ltac:(by_compute))
    as [_ Hmissing].
  split.
  - destruct Hfound as (off & vs & Hfirst & Hget & _).
    + apply list_elem_of_here.
    + vm_compute in Hfirst. injection Hfirst as <- <-. exact Hget.
  - apply Hmissing. vm_compute. intros H.
    repeat (apply elem_of_cons in H; destruct H as [H|H]; [discriminate|]).
    apply elem_of_nil in H. exact H.
Defined.

(** C3 on a SYN with sequence number 0x1000, and on the ACK that follows. *)
Lemma C3_witness :
  (exists s' f,
     main_packet Frames.tcp_syn Frames.static_host = Some s'
     /\ tx (glob s') = tx (glob Frames.static_host) ++ [f]
     /\ tcp_state s' = SYN_RECEIVED)
  /\ (exists s',
        main_packet Frames.tcp_ack1 Frames.after_syn = Some s'
        /\ tcp_state s' = ESTABLISHED).
Proof.
  split.
  - pose proof (C3_tcp_passive_open Frames.static_host Frames.tcp_syn
                  ltac:(by_compute) ltac:(by_compute) ltac:(by_compute)
                  ltac:(by_compute) ltac:(by_compute) ltac:(by_compute)
                  ltac:(by_compute) ltac:(by_compute) ltac:(by_compute)) as [Hsyn _].
    destruct (Hsyn ltac:(by_compute)) as (s' & f & Hrun & Htx & _ & _ & _ & _ & _ & Hst).
    exists s', f. auto.
  - pose proof (C3_tcp_passive_open Frames.after_syn Frames.tcp_ack1
                  ltac:(by_compute) ltac:(by_compute) ltac:(by_compute)
                  ltac:(by_compute) ltac:(by_compute) ltac:(by_compute)
                  ltac:(by_compute) ltac:(by_compute) ltac:(by_compute)) as [_ Hack].
    destruct (Hack ltac:(by_compute) ltac:(by_compute) ltac:(by_compute)
                   ltac:(by_compute)) as (s' & Hrun & Hst & _).
    exists s'. auto.
Defined.

(** C6 on a FIN|ACK received in ESTABLISHED. *)
Lemma C6_witness :
  exists s' f1 f2,
    main_packet Frames.tcp_fin_ack Frames.established = Some s'
    /\ tx (glob s') = tx (glob Frames.established) ++ [f1; f2]
    /\ tcp_state s' = FINWAIT_1.
Proof.
  destruct (C6_fin_ack_answered_twice Frames.established Frames.tcp_fin_ack
              ltac:(by_compute) ltac:(by_compute) ltac:(by_compute)
              ltac:(by_compute) ltac:(by_compute) ltac:(by_compute)
              ltac:(by_compute) ltac:(by_compute) ltac:(by_compute)
              ltac:(by_compute) ltac:(by_compute) ltac:(by_compute)
              ltac:(by_compute) ltac:(by_compute) ltac:(by_compute))
    as (s' & f1 & f2 & Hrun & Htx & _ & _ & _ & _ & _ & _ & Hst).
  exists s', f1, f2. auto.
Defined.

(** C7 on a datagram whose checksum verifies. *)
Lemma C7_witness :
  etherIsUdp (Frames.udp_on [69; 2]) = true
  /\ RFC768.checksum_verifies (Frames.udp_on [69; 2]) 14
       (14 + ip_hlen (Frames.udp_on [69; 2]) 14).
Proof.
  pose proof (C7_udp_accepted_iff_checksum_verifies (Frames.udp_on [69; 2])
                ltac:(by_compute)) as [Hdir _].
  assert (Hacc : etherIsUdp (Frames.udp_on [69; 2]) = true) by by_compute.
  split; [exact Hacc | exact (proj2 (Hdir Hacc))].
Defined.

(** C6, as stated, fails: a FIN|ACK segment that the classify chain
    accepts, whose acknowledgement number equals [currentIsn], received in
    SYN_RECEIVED, is taken by the branch of the handshake ACK (main.c line
    478 comes first in the else-if chain).  No segment is emitted and the
    connection is ESTABLISHED. *)
Lemma C6_counterexample :
  let s := Frames.after_syn in
  let p := etherGetPacket (data s) Frames.tcp_fin_ack MAX_PACKET_SIZE in
  etherIsIp p = true
  /\ etherIsIpUnicast (glob s) p = true
  /\ etherIsTcp p = true
  /\ Wire.tcp_flag p 34 Wire.FIN = true
  /\ Wire.tcp_flag p 34 Wire.ACK = true
  /\ etherIsTcpFINACK (glob s) p = true
  /\ tcp_state s = SYN_RECEIVED
  /\ exists s',
       main_packet Frames.tcp_fin_ack s = Some s'
       /\ tx (glob s') = tx (glob s)
       /\ tcp_state s' = ESTABLISHED.
Proof.
  cbv zeta. do 7 (split; [vm_compute; reflexivity|]).
  eexists. by_evaluation.
Qed.

(** C7, as stated, fails: an IPv4/UDP datagram for this host whose checksum
    field is zero is rejected by [etherIsUdp]. *)
Lemma C7_counterexample :
  let p := Frames.udp_on [0; 0] in
  etherIsIp p = true
  /\ etherIsIpUnicast (glob Frames.static_host) p = true
  /\ rd p (14 + ipFrame.protocol) = 17
  /\ Wire.be16 p (34 + udpFrame.check) = 0
  /\ etherIsUdp p = false.
Proof.
  cbv zeta. by_evaluation.
Qed.

(** C10 with [MAX_CHARS = 80] and an 8-bit count: 82 spaces. *)
Lemma C10_witness : (81, 0) ∈ stores (getsUart0 80 u8 (replicate 82 32)).
Proof.
  apply (C10_delimiters_store_past_MAX_CHARS 80 u8).
  - lia.
  - intros k Hk. apply u8_small. lia.
Defined.

(** * Further properties of the code *)

(** ** Checksum engine and byte order *)

(** X1.  For every 32-bit accumulator the loop of [getEtherChecksum] has
    ended after at most two turns: its condition is then false, further
    turns change nothing, and the function returns the complement of the
    16-bit value the loop leaves. *)
Theorem X1_checksum_loop_ends :
  forall sum, 0 <= sum < 2 ^ 32 ->
    (Z.shiftr (fold_carries 2 sum) 16 >? 0) = false
    /\ (forall n, fold_carries (2 + n) sum = fold_carries 2 sum)
    /\ 0 <= fold_carries 2 sum < 2 ^ 16
    /\ getEtherChecksum sum = 65535 - fold_carries 2 sum.
Proof.
  intros sum Hs. split; [apply fold_carries_exit, Hs|].
  split; [intros n; apply fold_carries_more_fuel, Hs|].
  split; [apply (fold_carries_spec sum Hs) | apply getEtherChecksum_value, Hs].
Qed.

(** X2.  Adding the value [getEtherChecksum] returns to the accumulator it
    was computed from gives an accumulator whose checksum is 0: a field
    filled with the checksum makes the receiver's test succeed. *)
Theorem X2_checksum_verifies_itself :
  forall sum, 0 <= sum <= 2 ^ 32 - 65536 ->
    getEtherChecksum (sum + getEtherChecksum sum) = 0.
Proof.
  intros sum Hs.
  assert (Hs32 : 0 <= sum < 2 ^ 32) by lia.
  rewrite (getEtherChecksum_value sum Hs32).
  destruct (fold_carries_spec sum Hs32) as (Hf & (k & Hk & Hsum) & _).
  apply getEtherChecksum_zero; [lia|].
  split; [lia|]. exists (k + 1). lia.
Qed.

Lemma even_to_nat n : 0 <= n -> Z.even n = true -> Nat.even (Z.to_nat n) = true.
Proof.
  intros Hn He. apply Z.even_spec in He. destruct He as [k Hk].
  apply Nat.even_spec. exists (Z.to_nat k). lia.
Qed.

(** X3.  Summing a region in two calls of [etherSumWords] gives the same
    accumulator as one call over the whole region, when the first part has
    an even number of octets (each call starts with the low half of a
    word). *)
Theorem X3_sum_words_splits_at_even_offsets :
  forall sum m p n1 n2,
    0 <= sum < 2 ^ 32 -> 0 <= n1 -> 0 <= n2 -> n1 + n2 < 65536 ->
    Z.even n1 = true ->
    etherSumWords (etherSumWords sum m p n1) m (p + n1) n2
    = etherSumWords sum m p (n1 + n2).
Proof.
  intros sum m p n1 n2 Hs H1 H2 Hn He.
  rewrite (etherSumWords_spec sum m p n1) by lia.
  rewrite etherSumWords_spec by (try apply Z.mod_pos_bound; lia).
  rewrite etherSumWords_spec by lia.
  rewrite slice_app by lia. rewrite wsum_app_even.
  - rewrite u32_add_l. f_equal. lia.
  - rewrite length_slice by lia. apply even_to_nat; assumption.
Qed.

(** X4.  The test the code applies to a region (sum the octets as
    little-endian words, fold, complement, compare with 0) accepts exactly
    the regions whose big-endian words have the one's complement sum
    0xFFFF, the test of RFC 1071. *)
Theorem X4_checksum_test_is_rfc1071 :
  forall m p n,
    octets m -> 0 <= n < 65536 ->
    (getEtherChecksum (etherSumWords 0 m p n) = 0
     <-> RFC1071.wire_checksum_ok (slice m p n)).
Proof.
  intros m p n Hm Hn.
  pose proof (slice_octets m p n Hm) as Hsl.
  pose proof (wsum_bounds false _ Hsl) as Hw. rewrite length_slice in Hw.
  rewrite etherSumWords_spec by lia. rewrite Z.add_0_l, u32_small by lia.
  apply fold_zero_iff_wire_ok; [assumption | lia].
Qed.

(** X5.  [htons] and [htols] are their own inverses on 16-bit and 32-bit
    values, and applied to a field read from the buffer they give the
    value the octets have in network order. *)
Theorem X5_byte_swaps :
  (forall v, htons (htons v) = u16 v)
  /\ (forall v, htols (htols v) = u32 v)
  /\ (forall m i, octets m ->
        htons (rd16 m i) = rd m i * 2 ^ 8 + rd m (i + 1)
        /\ htols (rd32 m i)
           = rd m i * 2 ^ 24 + rd m (i + 1) * 2 ^ 16 + rd m (i + 2) * 2 ^ 8 + rd m (i + 3)).
Proof.
  split; [exact htons_htons|]. split; [exact htols_htols|].
  intros m i Hm. split.
  - rewrite htons_rd16 by assumption. reflexivity.
  - rewrite htols_rd32 by assumption. reflexivity.
Qed.

Lemma frame_type_test m v :
  octets m -> 0 <= v < 2 ^ 16 ->
  (rd16 m 12 =? htons v) = (Wire.be16 m 12 =? v).
Proof.
  intros Hm Hv. rewrite <- (htons_rd16 m 12 Hm).
  destruct (Z.eqb_spec (rd16 m 12) (htons v)) as [E|E];
    destruct (Z.eqb_spec (htons (rd16 m 12)) v) as [E'|E']; try reflexivity.
  - exfalso. apply E'. rewrite E, htons_htons. apply u16_small. lia.
  - exfalso. apply E. rewrite <- E', htons_htons. symmetry. apply u16_small.
    unfold rd16. pose proof (rd_octet m 12 Hm). pose proof (rd_octet m (12 + 1) Hm).
    unfold octet in *. lia.
Qed.

(** X6.  [etherIsIp] accepts exactly the frames whose type field is 0x0800
    in network order and whose IP header, of the length its own IHL field
    gives, passes the checksum test of RFC 1071. *)
Theorem X6_etherIsIp_accepts :
  forall packet,
    octets packet ->
    (etherIsIp packet = true
     <-> Wire.be16 packet etherFrame.frameType = 0x0800
         /\ RFC1071.wire_checksum_ok (slice packet 14 (ip_hlen packet 14))).
Proof.
  intros packet Hp. unfold etherIsIp. cbn zeta.
  unfold etherFrame.frameType, etherFrame.data, ipFrame.revSize.
  rewrite !Z.add_0_l, Z.add_0_r.
  rewrite frame_type_test by (auto; lia).
  pose proof (ip_hlen_range packet 14) as Hr.
  destruct (Z.eqb_spec (Wire.be16 packet 12) 2048) as [E|E].
  - rewrite Z.eqb_eq.
    pose proof (slice_octets packet 14 (ip_hlen packet 14) Hp) as Hsl.
    pose proof (wsum_bounds false _ Hsl) as Hw. rewrite length_slice in Hw.
    rewrite etherSumWords_spec by lia. rewrite Z.add_0_l, u32_small by lia.
    rewrite fold_zero_iff_wire_ok by (auto; lia). tauto.
  - split; [discriminate | tauto].
Qed.

(** ** Classify predicates *)

Lemma match_while_iff n test :
  0 <= n ->
  (match_while true n test = true <-> forall i, 0 <= i < n -> test i = true).
Proof.
  intros Hn. split.
  - intros H. apply (match_while_true true n test Hn H).
  - intros H. apply match_while_all; auto.
Qed.

Lemma slice_eq_iff m m' i i' n :
  0 <= n ->
  (slice m i n = slice m' i' n <-> forall j, 0 <= j < n -> rd m (i + j) = rd m' (i' + j)).
Proof.
  intros Hn. split.
  - intros E j Hj. rewrite <- (rd_slice m i n j Hj), <- (rd_slice m' i' n j Hj), E.
    reflexivity.
  - intros H. apply slice_ext2. exact H.
Qed.

(** X7.  [etherIsIpUnicast] answers true exactly when the four octets of
    the destination address are those of [ipAddress], and
    [etherIsIpBroadcast] exactly when they are 255.255.255.255; neither
    looks at any other octet of the frame. *)
Theorem X7_address_tests :
  forall g packet,
    (etherIsIpUnicast g packet = true
     <-> slice packet (14 + ipFrame.destIp) 4 = slice (ipAddress g) 0 4)
    /\ (etherIsIpBroadcast packet = true
        <-> slice packet (14 + ipFrame.destIp) 4 = [255; 255; 255; 255]).
Proof.
  intros g packet. unfold etherIsIpUnicast, etherIsIpBroadcast. cbn zeta.
  unfold IP_ADD_LENGTH, etherFrame.data.
  rewrite !match_while_iff by lia. split.
  - rewrite slice_eq_iff by lia. split; intros H i Hi; specialize (H i Hi).
    + apply Z.eqb_eq in H. rewrite Z.add_0_l. exact H.
    + apply Z.eqb_eq. rewrite Z.add_0_l in H. exact H.
  - change [255; 255; 255; 255] with (slice [255; 255; 255; 255] 0 4).
    rewrite slice_eq_iff by lia. split; intros H i Hi; specialize (H i Hi).
    + apply Z.eqb_eq in H. rewrite H, Z.add_0_l.
      assert (i = 0 \/ i = 1 \/ i = 2 \/ i = 3) as [-> | [-> | [-> | ->]]] by lia; reflexivity.
    + apply Z.eqb_eq. rewrite H, Z.add_0_l.
      assert (i = 0 \/ i = 1 \/ i = 2 \/ i = 3) as [-> | [-> | [-> | ->]]] by lia; reflexivity.
Qed.

(** X8.  [etherIsArpRequest] accepts exactly the frames whose type field is
    0x0806, whose ARP target protocol address is [ipAddress] and whose ARP
    operation is 1 (all in network order); the hardware and protocol type
    and size fields are not examined. *)
Theorem X8_etherIsArpRequest_accepts :
  forall g packet,
    octets packet ->
    (etherIsArpRequest g packet = true
     <-> Wire.be16 packet etherFrame.frameType = 0x0806
         /\ slice packet (14 + arpFrame.destIp) 4 = slice (ipAddress g) 0 4
         /\ Wire.be16 packet (14 + arpFrame.op) = 1).
Proof.
  intros g packet Hp. unfold etherIsArpRequest. cbn zeta.
  unfold etherFrame.frameType, etherFrame.data, IP_ADD_LENGTH.
  rewrite !Z.add_0_l.
  rewrite frame_type_test by (auto; lia).
  rewrite slice_eq_iff by lia.
  assert (Hop : (rd16 packet (14 + arpFrame.op) =? htons 1)
                = (Wire.be16 packet (14 + arpFrame.op) =? 1)).
  { rewrite <- (htons_rd16 packet _ Hp).
    destruct (Z.eqb_spec (rd16 packet (14 + arpFrame.op)) (htons 1)) as [E|E];
      destruct (Z.eqb_spec (htons (rd16 packet (14 + arpFrame.op))) 1) as [E'|E'];
      try reflexivity.
    - exfalso. apply E'. rewrite E. reflexivity.
    - exfalso. apply E. rewrite <- E', htons_htons. symmetry. apply u16_small.
      unfold rd16. pose proof (rd_octet packet (14 + arpFrame.op) Hp).
      pose proof (rd_octet packet (14 + arpFrame.op + 1) Hp). unfold octet in *. lia. }
  rewrite Hop.
  destruct (Z.eqb_spec (Wire.be16 packet 12) 2054) as [E|E].
  - destruct (match_while true 4 _) eqn:Em.
    + pose proof (proj1 (match_while_iff 4 _ ltac:(lia)) Em) as Hm. clear Em.
      rename Hm into Em. rewrite Z.eqb_eq. split.
      * intros H. split; [exact E|]. split; [|exact H].
        intros j Hj. specialize (Em j Hj). apply Z.eqb_eq in Em. rewrite Z.add_0_l. exact Em.
      * tauto.
    + split; [discriminate|]. intros (_ & H & _). exfalso.
      assert (match_while true 4
                (fun i => rd packet (14 + arpFrame.destIp + i) =? rd (ipAddress g) i) = true).
      { apply match_while_iff; [lia|]. intros i Hi. apply Z.eqb_eq.
        rewrite (H i Hi), Z.add_0_l. reflexivity. }
      congruence.
  - rewrite match_while_false. split; [discriminate | tauto].
Qed.

(** ** Driver boundary *)

(** X9.  [etherGetPacket] copies the first [min(size, maxSize)] octets of
    the received frame to the front of the buffer and writes nothing else:
    a frame longer than [maxSize] is cut, and the buffer keeps its length
    and what it held from that offset on. *)
Theorem X9_etherGetPacket_copies_at_most_maxSize :
  forall packet rx maxSize,
    Z.of_nat (length rx) < 65536 ->
    0 <= maxSize <= Z.of_nat (length packet) ->
    let n := Z.min (Z.of_nat (length rx)) maxSize in
    let q := etherGetPacket packet rx maxSize in
    length q = length packet
    /\ slice q 0 n = slice rx 0 n
    /\ (forall j, n <= j -> rd q j = rd packet j).
Proof.
  intros packet rx maxSize Hrx Hmax n q. subst q. unfold etherGetPacket. cbn zeta.
  rewrite u16_small by lia.
  assert (Hn : (if Z.of_nat (length rx) >? maxSize then maxSize else Z.of_nat (length rx)) = n).
  { subst n. destruct (Z.gtb_spec (Z.of_nat (length rx)) maxSize); lia. }
  rewrite Hn.
  destruct (copy_in_spec n 0 rx packet) as [H1 H2]; try lia.
  cbn zeta in H1, H2.
  assert (Hfun : (fun (i : Z) (p : list Z) => wr p (0 + i) (rd rx i))
                 = (fun (i : Z) (p : list Z) => wr p i (rd rx i))) by reflexivity.
  rewrite Hfun in H1, H2.
  split; [exact H1|]. split.
  - apply slice_ext2. intros j Hj. rewrite !Z.add_0_l. rewrite H2.
    destruct (Z.leb_spec 0 j); [|lia]. destruct (Z.ltb_spec j (0 + n)); [|lia].
    cbn [andb]. f_equal. lia.
  - intros j Hj. rewrite H2.
    destruct (Z.ltb_spec j (0 + n)); [lia|]. rewrite andb_false_r. reflexivity.
Qed.

Lemma X9_witness :
  let q := etherGetPacket (replicate 8 7) [1; 2; 3; 4; 5; 6] 4 in
  length q = 8%nat /\ slice q 0 4 = [1; 2; 3; 4] /\ rd q 4 = 7.
Proof.
  pose proof (X9_etherGetPacket_copies_at_most_maxSize (replicate 8 7) [1; 2; 3; 4; 5; 6] 4
                ltac:(vm_compute; reflexivity)
                ltac:(vm_compute; split; discriminate)) as H.
  cbv zeta in H. destruct H as (H1 & H2 & H3).
  split; [exact H1|]. split; [exact H2|]. apply (H3 4). vm_compute. discriminate.
Defined.

(** ** DHCP options and classifiers *)

Lemma getOption_loop_sound fuel : forall m options number size i p,
  0 <= i ->
  getOption_loop fuel m options number size i = Some (Some p) ->
  rd m (p - 2) = number /\ options <= p - 2 < options + size.
Proof.
  induction fuel as [|k IH]; intros m options number size i p Hi; cbn [getOption_loop].
  - discriminate.
  - destruct (Z.ltb_spec i size) as [Hlt|Hge]; [|discriminate].
    destruct (Z.eqb_spec (rd m (options + i)) number) as [E|E].
    + intros [= <-]. replace (options + i + 2 - 2) with (options + i) by lia.
      split; [exact E | lia].
    + apply IH. unfold u8. apply Z.mod_pos_bound. lia.
Qed.

(** X10.  Whatever the buffer holds, a pointer [getOption] returns points
    two octets past an octet of the region that equals the number asked
    for; the scan never answers with a value whose tag it has not seen. *)
Theorem X10_getOption_returns_only_tagged_values :
  forall m options number size p,
    getOption m options number size = Some (Some p) ->
    rd m (p - 2) = u8 number /\ options <= p - 2 < options + u8 size.
Proof.
  intros m options number size p. unfold getOption.
  apply (getOption_loop_sound 257 m options (u8 number) (u8 size) 0 p). lia.
Qed.

Lemma X10_witness :
  rd (fst (Options.put_all (replicate 16 0) 2 [(53, [5]); (51, [0; 0; 2; 88])])) (7 - 2) = u8 51.
Proof.
  apply (X10_getOption_returns_only_tagged_values _ 2 51 9 7).
  vm_compute. reflexivity.
Defined.

(** X11.  The scan of [getOption] does not return when it meets an entry
    whose tag is not the number asked for and whose length octet is 254:
    the 8-bit cursor is advanced by 256 and stays where it was.  With an
    empty region the scan returns NULL at once. *)
Theorem X11_getOption_length_254_never_returns :
  forall m options number size,
    (0 < u8 size ->
     rd m options <> u8 number -> rd m (options + 1) = 254 ->
     forall fuel, getOption_loop fuel m options (u8 number) (u8 size) 0 = None)
    /\ (u8 size = 0 -> getOption m options number size = Some None).
Proof.
  intros m options number size. split.
  - intros Hs Hne Hlen fuel. induction fuel as [|k IH]; cbn [getOption_loop]; [reflexivity|].
    destruct (Z.ltb_spec 0 (u8 size)) as [_|]; [|lia].
    rewrite Z.add_0_r.
    destruct (Z.eqb_spec (rd m options) (u8 number)) as [E|_]; [contradiction|].
    replace (options + (0 + 1)) with (options + 1) by lia.
    rewrite Hlen. exact IH.
  - intros Hz. unfold getOption. rewrite Hz. reflexivity.
Qed.

Lemma X11_witness :
  getOption_loop 1000 [1; 254; 0; 0] 0 (u8 53) (u8 4) 0 = None
  /\ getOption [1; 254; 0; 0] 0 53 0 = Some None.
Proof.
  destruct (X11_getOption_length_254_never_returns [1; 254; 0; 0] 0 53 4) as [H _].
  destruct (X11_getOption_length_254_never_returns [1; 254; 0; 0] 0 53 0) as [_ H0].
  split.
  - apply H; vm_compute; first [reflexivity | discriminate].
  - apply H0. reflexivity.
Defined.

Lemma getOption_loop_ext fuel : forall m m' options number size i,
  (forall j, options <= j -> rd m' j = rd m j) -> 0 <= i ->
  getOption_loop fuel m' options number size i = getOption_loop fuel m options number size i.
Proof.
  induction fuel as [|k IH]; intros m m' options number size i Hext Hi; cbn [getOption_loop].
  - reflexivity.
  - rewrite !Hext by lia. destruct (i <? size); [|reflexivity].
    destruct (_ =? number); [reflexivity|].
    apply IH; [exact Hext|]. unfold u8. apply Z.mod_pos_bound. lia.
Qed.

(** X12.  Of the six octets of [chaddr], only the last one decides the
    answer of [isDhcpOffer] (the loop assigns [ok] on every turn): two
    packets that differ only in the first five octets of [chaddr] get the
    same answer. *)
Theorem X12_isDhcpOffer_ignores_five_chaddr_octets :
  forall g p p',
    let chaddr := 14 + ip_hlen p 14 + 8 + dhcpFrame.chaddr in
    (forall j, ~ (chaddr <= j < chaddr + 5) -> rd p' j = rd p j) ->
    isDhcpOffer g p' = isDhcpOffer g p.
Proof.
  intros g p p' chaddr Hext. subst chaddr.
  pose proof (ip_hlen_range p 14) as Hr.
  assert (Hh : ip_hlen p' 14 = ip_hlen p 14).
  { unfold ip_hlen, ipFrame.revSize, dhcpFrame.chaddr in *. rewrite Hext by lia. reflexivity. }
  unfold isDhcpOffer. cbn zeta. unfold etherFrame.data. rewrite Hh.
  unfold dhcp_opSize, rd16, udpFrame.length, udpFrame.data, dhcpFrame.options,
    dhcpFrame.op, dhcpFrame.chaddr in *.
  rewrite !(Hext (14 + ip_hlen p 14 + 4)) by lia.
  rewrite !(Hext (14 + ip_hlen p 14 + 4 + 1)) by lia.
  rewrite (Hext (14 + ip_hlen p 14 + 8 + 0)) by lia.
  assert (Hc : chaddr_ok g p' (14 + ip_hlen p 14 + 8) = chaddr_ok g p (14 + ip_hlen p 14 + 8)).
  { unfold chaddr_ok, for_loop, HW_ADD_LENGTH, dhcpFrame.chaddr. cbn [seqZ foldl].
    vm_compute seqZ. cbn [foldl]. rewrite Hext by lia. reflexivity. }
  rewrite Hc.
  unfold getOption.
  rewrite (getOption_loop_ext 257 p p') by (try lia; intros j Hj; apply Hext; lia).
  destruct (getOption_loop 257 p _ _ _ 0) as [msgType|] eqn:Eo; [|reflexivity].
  cbn [mbind option_bind].
  destruct (_ && _); [|reflexivity].
  destruct msgType as [q|]; [|reflexivity]. unfold deref. cbn [mbind option_bind].
  apply getOption_loop_sound in Eo; [|lia]. destruct Eo as [_ Hq].
  rewrite Hext by lia. reflexivity.
Qed.

Lemma X12_witness :
  isDhcpOffer (glob Frames.dhcp_host) (wr Frames.dhcp_offer 70 99)
  = isDhcpOffer (glob Frames.dhcp_host) Frames.dhcp_offer.
Proof.
  apply (X12_isDhcpOffer_ignores_five_chaddr_octets
           (glob Frames.dhcp_host) Frames.dhcp_offer (wr Frames.dhcp_offer 70 99)).
  intros j Hj. apply rd_wr_ne. intros <-. apply Hj. vm_compute. split; [discriminate | reflexivity].
Defined.

Lemma foldl_option_inv {A B : Type} (P : A -> Prop) (body : option A -> B -> option A) l :
  (forall i, body None i = None) ->
  (forall a i a', P a -> body (Some a) i = Some a' -> P a') ->
  forall a0 a', P a0 -> foldl body (Some a0) l = Some a' -> P a'.
Proof.
  intros Hnone Hstep. induction l as [|i l IH]; intros a0 a' H0; cbn [foldl].
  - intros [= <-]. exact H0.
  - destruct (body (Some a0) i) as [a1|] eqn:E.
    + apply IH. apply (Hstep a0 i a1 H0 E).
    + assert (Hn : forall l', foldl body None l' = None).
      { induction l' as [|x l' IH']; [reflexivity|]. cbn [foldl]. rewrite Hnone. exact IH'. }
      rewrite Hn. discriminate.
Qed.

(** X13.  Whenever [isDhcpAck] returns, for an ACK or for any other packet,
    [serverMacAddress] holds the source address of the Ethernet frame in
    the buffer; nothing is transmitted and the MAC address of the device is
    untouched. *)
Theorem X13_isDhcpAck_records_the_frame_source :
  forall g p g' lease,
    6 <= Z.of_nat (length (serverMacAddress g)) ->
    isDhcpAck g p = Some (g', lease) ->
    slice (serverMacAddress g') 0 6 = slice p etherFrame.sourceAddress 6
    /\ tx g' = tx g /\ macAddress g' = macAddress g.
Proof.
  intros g p g' lease Hlen. unfold isDhcpAck. cbn zeta.
  set (g1 := for_loop HW_ADD_LENGTH _ g).
  assert (H1 : (length (serverMacAddress g1) = length (serverMacAddress g)
                /\ forall j, rd (serverMacAddress g1) j
                             = if (0 <=? j) && (j <? 6) then rd p (6 + j)
                               else rd (serverMacAddress g) j)
               /\ tx g1 = tx g /\ macAddress g1 = macAddress g).
  { unfold g1, HW_ADD_LENGTH.
    apply (for_loop_ind (fun k gk =>
      (length (serverMacAddress gk) = length (serverMacAddress g)
       /\ forall j, rd (serverMacAddress gk) j
                    = if (0 <=? j) && (j <? k) then rd p (6 + j)
                      else rd (serverMacAddress g) j)
      /\ tx gk = tx g /\ macAddress gk = macAddress g)); [lia | |].
    - split; [split; [reflexivity|]|split; reflexivity].
      intros j. zcases; reflexivity.
    - intros k gk Hk ((Hl & Hrd) & Htx & Hmac). cbn.
      split; [split|split; assumption].
      + rewrite length_wr. exact Hl.
      + intros j. rewrite rd_wr by lia. rewrite Hrd.
        unfold etherFrame.sourceAddress. rewrite Z.add_0_l.
        zcases; try reflexivity; subst; reflexivity. }
  destruct H1 as ((Hl1 & Hrd1) & Htx1 & Hmac1).
  assert (Hsl : slice (serverMacAddress g1) 0 6 = slice p etherFrame.sourceAddress 6).
  { apply slice_ext2. intros j Hj. rewrite Z.add_0_l, Hrd1.
    unfold etherFrame.sourceAddress. zcases. reflexivity. }
  intros H. apply bind_Some in H as (msgType & _ & H).
  destruct (_ && _); [|injection H as <- <-; auto].
  apply bind_Some in H as (t & _ & H).
  destruct (t =? 5); [|injection H as <- <-; auto].
  do 8 (apply bind_Some in H as (? & _ & H)).
  apply bind_Some in H as (g2 & Ef & H). injection H as <- <-.
  apply (foldl_option_inv
           (fun a => serverMacAddress a = serverMacAddress g1
                     /\ tx a = tx g1 /\ macAddress a = macAddress g1)) in Ef.
  - destruct Ef as (E1 & E2 & E3). rewrite E1, E2, E3. auto.
  - intros i. reflexivity.
  - intros a i a' (E1 & E2 & E3) Hb. cbn [mbind option_bind] in Hb.
    repeat (apply bind_Some in Hb as (? & _ & Hb)).
    injection Hb as <-. cbn. auto.
  - auto.
Qed.

(** ** TCP branch of the main loop *)

Lemma telnet_data_is_ack g p : etherIsTelnetData g p = true -> etherIsTcpAck g p = true.
Proof.
  unfold etherIsTelnetData, etherIsTcpAck. cbn zeta.
  intros H. apply andb_true_iff in H. destruct H as [H1 H2].
  apply andb_true_iff in H1. destruct H1 as [_ H1]. rewrite H1, H2. reflexivity.
Qed.

Lemma fin_ack_is_ack g p : etherIsTcpFINACK g p = true -> etherIsTcpAck g p = true.
Proof.
  unfold etherIsTcpFINACK, etherIsTcpAck. cbn zeta.
  intros H. apply andb_true_iff in H. destruct H as [H1 H2].
  apply andb_true_iff in H1. destruct H1 as [H1 _]. rewrite H1, H2. reflexivity.
Qed.

Lemma tcp_state_build f s : tcp_state (build f s) = tcp_state s.
Proof. unfold build. destruct (f _ _). reflexivity. Qed.

(** X14.  The last alternative of the TCP branch of [main] repeats the
    condition of the second one and is never taken: the branch never moves
    the connection to CLOSED. *)
Theorem X14_tcp_branch_never_closes :
  forall s, tcp_state (main_tcp s) = CLOSED -> tcp_state s = CLOSED.
Proof.
  intros s. unfold main_tcp.
  destruct (etherIsTcpSYN (data s)); [discriminate|].
  destruct (etherIsTcpAck (glob s) (data s) && (tcp_state s =? SYN_RECEIVED)) eqn:E;
    [discriminate|].
  destruct (etherIsTelnetData (glob s) (data s)); [rewrite tcp_state_build; auto|].
  destruct (etherIsTcpFINACK (glob s) (data s)); [discriminate|]. auto.
Qed.

Lemma X14_witness : tcp_state (set_tcp_state CLOSED Frames.established) = CLOSED.
Proof.
  apply (X14_tcp_branch_never_closes (set_tcp_state CLOSED Frames.established)).
  vm_compute. reflexivity.
Defined.

(** X15.  While the connection is in SYN_RECEIVED, a segment without SYN
    is either the ACK of the handshake (ACK set, acknowledgement number
    [currentIsn]), which moves the state to ESTABLISHED, or has no effect:
    the branches that send data or answer a FIN are not reached. *)
Theorem X15_syn_received_sends_nothing :
  forall s,
    tcp_state s = SYN_RECEIVED -> etherIsTcpSYN (data s) = false ->
    main_tcp s = if etherIsTcpAck (glob s) (data s) then set_tcp_state ESTABLISHED s else s.
Proof.
  intros s Hst Hsyn. unfold main_tcp. rewrite Hsyn, Hst.
  change (SYN_RECEIVED =? SYN_RECEIVED) with true. rewrite !andb_true_r.
  destruct (etherIsTcpAck (glob s) (data s)) eqn:Ea; [reflexivity|].
  destruct (etherIsTelnetData (glob s) (data s)) eqn:Et.
  { apply telnet_data_is_ack in Et. congruence. }
  destruct (etherIsTcpFINACK (glob s) (data s)) eqn:Ef.
  { apply fin_ack_is_ack in Ef. congruence. }
  reflexivity.
Qed.

Lemma X15_witness :
  let s := set_data (etherGetPacket (data Frames.after_syn) Frames.tcp_fin_ack MAX_PACKET_SIZE)
             Frames.after_syn in
  main_tcp s = set_tcp_state ESTABLISHED s.
Proof.
  intros s.
  rewrite (X15_syn_received_sends_nothing s) by (vm_compute; reflexivity).
  assert (E : etherIsTcpAck (glob s) (data s) = true) by (vm_compute; reflexivity).
  rewrite E. reflexivity.
Defined.

(** ** Addresses and the persistent store *)

Lemma address_word_value a b c d :
  octet a -> octet b -> octet c -> octet d ->
  address_word a b c d = a * 2 ^ 24 + b * 2 ^ 16 + c * 2 ^ 8 + d.
Proof.
  unfold octet, address_word. intros Ha Hb Hc Hd. cbn zeta.
  rewrite Z.lor_0_l. rewrite !Z.shiftl_mul_pow2 by lia.
  rewrite u32_small by lia.
  rewrite (lor_disjoint a (b * 2 ^ 16) 24) by lia.
  rewrite (lor_disjoint_eq _ (a * 2 ^ 8 + b) (c * 2 ^ 8) 16) by lia.
  apply (lor_disjoint_eq _ (a * 2 ^ 16 + b * 2 ^ 8 + c) d 8); lia.
Qed.

Lemma word_octets_value a b c d :
  octet a -> octet b -> octet c -> octet d ->
  word_octets (a * 2 ^ 24 + b * 2 ^ 16 + c * 2 ^ 8 + d) = [a; b; c; d].
Proof.
  unfold octet, word_octets. intros Ha Hb Hc Hd.
  set (w := a * 2 ^ 24 + b * 2 ^ 16 + c * 2 ^ 8 + d).
  change 0xff000000 with (Z.shiftl 0xFF 24). change 0x00ff0000 with (Z.shiftl 0xFF 16).
  change 0x0000ff00 with (Z.shiftl 0xFF 8).
  rewrite !land_octet_at by lia. rewrite land_ff.
  rewrite !Z.shiftr_div_pow2 by lia. rewrite !Z.div_mul by lia.
  assert (E24 : w / 2 ^ 24 = a) by (symmetry; apply (Z.div_unique_pos w (2 ^ 24) a
            (b * 2 ^ 16 + c * 2 ^ 8 + d)); subst w; lia).
  assert (E16 : w / 2 ^ 16 = a * 2 ^ 8 + b) by (symmetry; apply (Z.div_unique_pos w (2 ^ 16)
            (a * 2 ^ 8 + b) (c * 2 ^ 8 + d)); subst w; lia).
  assert (E8 : w / 2 ^ 8 = a * 2 ^ 16 + b * 2 ^ 8 + c) by (symmetry;
            apply (Z.div_unique_pos w (2 ^ 8) (a * 2 ^ 16 + b * 2 ^ 8 + c) d); subst w; lia).
  rewrite E24, E16, E8.
  f_equal; [apply Z.mod_small; lia|]. f_equal; [|f_equal; [|f_equal]].
  - symmetry. apply (Z.mod_unique_pos _ _ a); lia.
  - symmetry. apply (Z.mod_unique_pos _ _ (a * 2 ^ 8 + b)); lia.
  - symmetry. apply (Z.mod_unique_pos _ _ (a * 2 ^ 16 + b * 2 ^ 8 + c)); subst w; lia.
Qed.

Lemma stored_address a b c d :
  word_octets (u32 (address_word (u8 a) (u8 b) (u8 c) (u8 d))) = [u8 a; u8 b; u8 c; u8 d].
Proof.
  assert (Ho : forall x, octet (u8 x)) by (intros x; apply Z.mod_pos_bound; lia).
  pose proof (Ho a) as Ha. pose proof (Ho b) as Hb. pose proof (Ho c) as Hc.
  pose proof (Ho d) as Hd.
  rewrite address_word_value by auto. unfold octet in *.
  rewrite u32_small by lia. apply word_octets_value; auto.
Qed.

Lemma readEeprom_writeEeprom add v g : readEeprom (writeEeprom add v g) add = u32 v.
Proof. unfold readEeprom, writeEeprom. cbn. rewrite lookup_insert_eq. reflexivity. Qed.

Lemma getDetailsFromEprom_fields g :
  ipAddress (getDetailsFromEprom g) = word_octets (readEeprom g 1)
  /\ ipGwAddress (getDetailsFromEprom g) = word_octets (readEeprom g 2)
  /\ dnsAddress (getDetailsFromEprom g) = word_octets (readEeprom g 3)
  /\ ipSubnetMask (getDetailsFromEprom g) = word_octets (readEeprom g 4).
Proof. repeat split. Qed.

(** X16.  An address set with one of the four setters comes back from the
    persistent store: after the setter, [getDetailsFromEprom] leaves the
    four octets given (as [uint8_t]) in the corresponding array.  This
    holds for the DNS address too, although its setter does not write
    [dnsAddress]. *)
Theorem X16_addresses_persist :
  forall a b c d g,
    ipAddress (getDetailsFromEprom (etherSetIpAddress a b c d g)) = [u8 a; u8 b; u8 c; u8 d]
    /\ ipGwAddress (getDetailsFromEprom (etherSetIpGatewayAddress a b c d g))
       = [u8 a; u8 b; u8 c; u8 d]
    /\ dnsAddress (getDetailsFromEprom (etherSetDNSAddress a b c d g))
       = [u8 a; u8 b; u8 c; u8 d]
    /\ ipSubnetMask (getDetailsFromEprom (etherSetIpSubnetMask a b c d g))
       = [u8 a; u8 b; u8 c; u8 d].
Proof.
  intros a b c d g.
  assert (Hm : forall x, Z.land (u8 x) 0x000000ff = u8 x).
  { intros x. rewrite land_ff. apply Z.mod_small. apply Z.mod_pos_bound. lia. }
  unfold etherSetIpAddress, etherSetIpGatewayAddress,
    etherSetDNSAddress, etherSetIpSubnetMask. cbn zeta. rewrite !Hm.
  repeat split.
  - rewrite (proj1 (getDetailsFromEprom_fields _)), readEeprom_writeEeprom.
    apply stored_address.
  - rewrite (proj1 (proj2 (getDetailsFromEprom_fields _))), readEeprom_writeEeprom.
    apply stored_address.
  - rewrite (proj1 (proj2 (proj2 (getDetailsFromEprom_fields _)))), readEeprom_writeEeprom.
    apply stored_address.
  - rewrite (proj2 (proj2 (proj2 (getDetailsFromEprom_fields _)))), readEeprom_writeEeprom.
    apply stored_address.
Qed.

Lemma get_address_spec a out :
  4 <= Z.of_nat (length out) ->
  slice (get_address a out) 0 4 = slice a 0 4.
Proof.
  intros Hl. unfold get_address.
  destruct (copy_in_spec 4 0 a out) as [_ H2]; try lia. cbn zeta in H2.
  change (fun (i : Z) (p : list Z) => wr p (0 + i) (rd a i))
    with (fun (i : Z) (p : list Z) => wr p i (rd a i)) in H2.
  apply slice_ext2. intros j Hj. rewrite !Z.add_0_l, H2.
  zcases. f_equal. lia.
Qed.

(** X17.  [etherSetDNSAddress] assigns the four octets to [ipGwAddress]:
    right after the call the gateway getter returns the address given as
    DNS server, and the DNS getter returns what it returned before. *)
Theorem X17_dns_setter_changes_the_gateway :
  forall a b c d g out,
    4 <= Z.of_nat (length (ipGwAddress g)) -> 4 <= Z.of_nat (length out) ->
    let g' := etherSetDNSAddress a b c d g in
    slice (etherGetIpGatewayAddress g' out) 0 4 = [u8 a; u8 b; u8 c; u8 d]
    /\ etherGetDNSAddress g' out = etherGetDNSAddress g out.
Proof.
  intros a b c d g out Hg Hout g'. split; [|reflexivity].
  unfold etherGetIpGatewayAddress. rewrite get_address_spec by assumption.
  subst g'. unfold etherSetDNSAddress. cbn zeta. cbn [ipGwAddress writeEeprom set_eeprom
    set_ipGwAddress]. unfold store_address.
  change [u8 a; u8 b; u8 c; u8 d] with (slice [u8 a; u8 b; u8 c; u8 d] 0 4).
  apply slice_ext2. intros j Hj. rewrite !Z.add_0_l.
  rd_wr_all.
  assert (j = 0 \/ j = 1 \/ j = 2 \/ j = 3) as [-> | [-> | [-> | ->]]] by lia; reflexivity.
Qed.

(** ** Console line input *)

Lemma in_bounds_snoc MAX_CHARS (st : list (Z * Z)) i (v : Z) :
  Forall (fun iv : Z * Z => 0 <= fst iv <= MAX_CHARS) st -> 0 <= i <= MAX_CHARS ->
  Forall (fun iv : Z * Z => 0 <= fst iv <= MAX_CHARS) (st ++ [(i, v)]).
Proof.
  intros H Hi. apply Forall_app. split; [exact H|]. apply Forall_cons_2; [exact Hi|].
  apply Forall_nil_2.
Qed.

Lemma gets_short_line_loop MAX_CHARS to_count :
  (forall k, 0 <= k <= MAX_CHARS -> to_count k = k) ->
  forall input count st out,
    0 <= count -> count + Z.of_nat (length input) <= MAX_CHARS ->
    Forall (fun iv : Z * Z => 0 <= fst iv <= MAX_CHARS) st ->
    let r := getsUart0_loop MAX_CHARS to_count input count st out in
    Forall (fun iv : Z * Z => 0 <= fst iv <= MAX_CHARS) (stores r)
    /\ 0 <= charCount r <= MAX_CHARS.
Proof.
  intros Hcount. induction input as [|c input IH]; intros count st out Hc Hl Hst;
    cbn [getsUart0_loop length] in *.
  - cbn. split; [exact Hst | lia].
  - rewrite Nat2Z.inj_succ in Hl.
    destruct (c =? 0); [cbn; split; [exact Hst | lia]|].
    destruct (c =? 127).
    { destruct (Z.gtb_spec count 0).
      - apply IH; [rewrite Hcount by lia; lia | rewrite Hcount by lia; lia | exact Hst].
      - apply IH; [lia | lia | exact Hst]. }
    destruct ((c =? 10) || (c =? 13)).
    { cbn. split; [apply in_bounds_snoc; [exact Hst | lia] | lia]. }
    destruct (is_alnum c).
    { cbv zeta. rewrite Hcount by lia.
      destruct (Z.eqb_spec (count + 1) MAX_CHARS) as [E|E].
      - cbn. split; [|lia].
        apply in_bounds_snoc; [apply in_bounds_snoc; [exact Hst | lia] | lia].
      - apply IH; [lia | lia | apply in_bounds_snoc; [exact Hst | lia]]. }
    rewrite Hcount by lia.
    apply IH; [lia | lia | apply in_bounds_snoc; [exact Hst | lia]].
Qed.

(** X18.  [getsUart0] keeps within the line buffer when at most
    [MAX_CHARS] characters arrive: every store lands at an index between 0
    and [MAX_CHARS], and [charCount] ends in that range (the type of
    [charCount] holding the values up to [MAX_CHARS]). *)
Theorem X18_short_lines_stay_in_the_buffer :
  forall (MAX_CHARS : Z) (to_count : Z -> Z) input,
    (forall k, 0 <= k <= MAX_CHARS -> to_count k = k) ->
    Z.of_nat (length input) <= MAX_CHARS ->
    let r := getsUart0 MAX_CHARS to_count input in
    Forall (fun iv => 0 <= fst iv <= MAX_CHARS) (stores r)
    /\ 0 <= charCount r <= MAX_CHARS.
Proof.
  intros MAX_CHARS to_count input Hcount Hlen. unfold getsUart0.
  assert (H0 : to_count 0 = 0) by (apply Hcount; lia).
  rewrite H0.
  apply (gets_short_line_loop MAX_CHARS to_count Hcount input 0 [] []); [lia | lia |].
  apply Forall_nil_2.
Qed.

Lemma gets_stores_loop MAX_CHARS to_count :
  forall input count st out,
    Forall (fun iv => snd iv = 0 \/ 97 <= snd iv <= 122 \/ 48 <= snd iv <= 57) st ->
    Forall (fun iv => snd iv = 0 \/ 97 <= snd iv <= 122 \/ 48 <= snd iv <= 57)
           (stores (getsUart0_loop MAX_CHARS to_count input count st out)).
Proof.
  assert (Hsn : forall st i v,
    Forall (fun iv : Z * Z => snd iv = 0 \/ 97 <= snd iv <= 122 \/ 48 <= snd iv <= 57) st ->
    v = 0 \/ 97 <= v <= 122 \/ 48 <= v <= 57 ->
    Forall (fun iv : Z * Z => snd iv = 0 \/ 97 <= snd iv <= 122 \/ 48 <= snd iv <= 57)
           (st ++ [(i, v)])).
  { intros st i v H Hv. apply Forall_app. split; [exact H|].
    apply Forall_cons_2; [exact Hv | apply Forall_nil_2]. }
  induction input as [|c input IH]; intros count st out Hst; cbn [getsUart0_loop].
  - exact Hst.
  - destruct (c =? 0); [exact Hst|].
    destruct (c =? 127).
    { destruct (count >? 0); apply IH; exact Hst. }
    destruct ((c =? 10) || (c =? 13)).
    { cbn. apply Hsn; [exact Hst | auto]. }
    destruct (is_alnum c) eqn:Ea.
    { cbv zeta.
      assert (Hv : let c' := if (65 <=? c) && (c <=? 90) then c + 32 else c in
                   c' = 0 \/ 97 <= c' <= 122 \/ 48 <= c' <= 57).
      { unfold is_alnum in Ea. cbv zeta.
        destruct (Z.leb_spec 65 c), (Z.leb_spec c 90), (Z.leb_spec 97 c), (Z.leb_spec c 122),
          (Z.leb_spec 48 c), (Z.leb_spec c 57); cbn [andb orb] in *;
          try discriminate; lia. }
      cbv zeta in Hv.
      destruct (_ =? MAX_CHARS).
      - cbn. apply Hsn; [apply Hsn; [exact Hst | exact Hv] | auto].
      - apply IH. apply Hsn; [exact Hst | exact Hv]. }
    apply IH. apply Hsn; [exact Hst | auto].
Qed.

(** X19.  Whatever arrives, [getsUart0] stores only NUL, lower-case letters
    and digits: upper-case letters are stored in lower case and every
    other character as NUL. *)
Theorem X19_only_lower_case_digits_and_nul_are_stored :
  forall (MAX_CHARS : Z) (to_count : Z -> Z) input,
    Forall (fun iv => snd iv = 0 \/ 97 <= snd iv <= 122 \/ 48 <= snd iv <= 57)
           (stores (getsUart0 MAX_CHARS to_count input)).
Proof.
  intros MAX_CHARS to_count input. unfold getsUart0.
  apply gets_stores_loop. apply Forall_nil_2.
Qed.

Lemma alnum_is_no_control c :
  is_alnum c = true ->
  (c =? 0) = false /\ (c =? 127) = false /\ ((c =? 10) || (c =? 13)) = false.
Proof.
  unfold is_alnum. intros H.
  destruct (Z.leb_spec 97 c), (Z.leb_spec c 122), (Z.leb_spec 65 c), (Z.leb_spec c 90),
    (Z.leb_spec 48 c), (Z.leb_spec c 57); cbn [andb orb] in H; try discriminate;
    (split; [|split]); repeat zcase1; reflexivity.
Qed.

Lemma gets_line_loop MAX_CHARS to_count rest :
  (forall k, 0 <= k <= MAX_CHARS -> to_count k = k) ->
  forall line count st out,
    let lower := fun c => if (65 <=? c) && (c <=? 90) then c + 32 else c in
    Forall (fun c => is_alnum c = true) line ->
    0 <= count -> count + Z.of_nat (length line) < MAX_CHARS ->
    getsUart0_loop MAX_CHARS to_count (line ++ 13 :: rest) count st out
    = GetsResult
        (st ++ imap (fun i c => (count + Z.of_nat i, lower c)) line
            ++ [(count + Z.of_nat (length line), 0)])
        (out ++ (lower <$> line) ++ [13; 10])
        (count + Z.of_nat (length line)) true.
Proof.
  intros Hcount line. induction line as [|c line IH]; intros count st out lower Hal Hc Hl.
  - cbn. rewrite Z.add_0_r. reflexivity.
  - apply Forall_cons in Hal. destruct Hal as [Hc1 Hal].
    destruct (alnum_is_no_control c Hc1) as (E0 & E127 & Enl).
    cbn [app getsUart0_loop length] in *. rewrite Nat2Z.inj_succ in Hl.
    rewrite E0, E127, Enl, Hc1. cbv zeta. rewrite Hcount by lia.
    destruct (Z.eqb_spec (count + 1) MAX_CHARS) as [E|_]; [lia|].
    rewrite IH by (try assumption; lia).
    rewrite Nat2Z.inj_succ. cbn [imap fmap list_fmap].
    rewrite <- !app_assoc. cbn [app]. rewrite Z.add_0_r.
    f_equal.
    + f_equal. f_equal. f_equal.
      * apply imap_ext. intros i x _. cbn. f_equal. lia.
      * f_equal. f_equal. lia.
    + lia.
Qed.

(** X20.  A line of fewer than [MAX_CHARS] letters and digits followed by
    a carriage return is stored from index 0 on, upper-case letters folded
    to lower case, and terminated by NUL; it is echoed the same way,
    followed by CR LF; [charCount] is the length of the line and the
    function returns without reading further. *)
Theorem X20_a_plain_line_is_stored_folded_and_terminated :
  forall (MAX_CHARS : Z) (to_count : Z -> Z) line rest,
    (forall k, 0 <= k <= MAX_CHARS -> to_count k = k) ->
    Forall (fun c => is_alnum c = true) line ->
    Z.of_nat (length line) < MAX_CHARS ->
    let lower := fun c => if (65 <=? c) && (c <=? 90) then c + 32 else c in
    getsUart0 MAX_CHARS to_count (line ++ 13 :: rest)
    = GetsResult
        (imap (fun i c => (Z.of_nat i, lower c)) line ++ [(Z.of_nat (length line), 0)])
        ((lower <$> line) ++ [13; 10])
        (Z.of_nat (length line)) true.
Proof.
  intros MAX_CHARS to_count line rest Hcount Hal Hlen lower. unfold getsUart0.
  rewrite Hcount by lia.
  rewrite (gets_line_loop MAX_CHARS to_count rest Hcount line 0 [] []) by (auto; lia).
  cbn [app]. rewrite Z.add_0_l. f_equal.
Qed.

(** ** String helpers of the console *)

(** X21.  [mystrcmp(a, b)] answers true exactly when the string at [a] is a
    prefix of the octets at [b]: it is a prefix test, not an equality, and
    the empty string matches everything. *)
Theorem X21_mystrcmp_is_a_prefix_test :
  forall a b, mystrcmp a b = true <-> cstring a `prefix_of` b.
Proof.
  induction a as [|x a IH]; intros b; cbn [mystrcmp cstring].
  - split; [intros _; apply prefix_nil | reflexivity].
  - destruct (truthy x) eqn:Ex.
    + destruct b as [|y b]; cbn [hd tl].
      * assert (x <> 0) by (unfold truthy in Ex; intros ->; discriminate).
        destruct (Z.eqb_spec x 0); [contradiction|]. cbn [negb]. split; [discriminate|].
        intros Hp. apply prefix_nil_inv in Hp. discriminate.
      * destruct (Z.eqb_spec x y) as [->|Hne]; cbn [negb].
        -- rewrite IH. split; [apply prefix_cons | apply prefix_cons_inv_2].
        -- split; [discriminate|]. intros Hp. apply prefix_cons_inv_1 in Hp. contradiction.
    + split; [intros _; apply prefix_nil | reflexivity].
Qed.

Lemma list_eq_rd (l1 l2 : list Z) :
  length l1 = length l2 ->
  (forall j, 0 <= j < Z.of_nat (length l1) -> rd l1 j = rd l2 j) -> l1 = l2.
Proof.
  intros Hl Hrd. apply list_eq. intros i.
  destruct (l1 !! i) as [x|] eqn:E1.
  - assert (Hi : (i < length l1)%nat) by (apply lookup_lt_is_Some; eauto).
    destruct (l2 !! i) as [y|] eqn:E2.
    + specialize (Hrd (Z.of_nat i) ltac:(lia)). unfold rd in Hrd.
      destruct (Z.leb_spec 0 (Z.of_nat i)); [|lia].
      rewrite Nat2Z.id, E1, E2 in Hrd. cbn in Hrd. congruence.
    + apply lookup_ge_None in E2. lia.
  - apply lookup_ge_None in E1. symmetry. apply lookup_ge_None. lia.
Qed.

Lemma rd_lookup (l : list Z) (i : nat) x : l !! i = Some x -> rd l (Z.of_nat i) = x.
Proof.
  intros E. unfold rd. destruct (Z.leb_spec 0 (Z.of_nat i)); [|lia].
  rewrite Nat2Z.id, E. reflexivity.
Qed.

Lemma reverse_loop_spec fuel : forall s e str,
  0 <= s <= 255 -> -1 <= e <= 255 -> e < Z.of_nat (length str) ->
  e - s < 2 * Z.of_nat fuel ->
  let r := reverse_loop fuel s e str in
  length r = length str
  /\ forall j, rd r j = if (s <=? j) && (j <=? e) then rd str (s + e - j) else rd str j.
Proof.
  induction fuel as [|k IH]; intros s e str Hs He Hlen Hfuel; cbn [reverse_loop].
  - split; [reflexivity|]. intros j. zcases; reflexivity.
  - destruct (Z.ltb_spec s e) as [Hlt|Hge].
    + cbv zeta.
      set (str' := wr (wr str s (rd str e)) e (rd str s)).
      assert (Hl' : length str' = length str) by (unfold str'; rewrite !length_wr; reflexivity).
      assert (Hrd' : forall j, rd str' j = if j =? e then rd str s
                                           else if j =? s then rd str e else rd str j).
      { intros j. unfold str'. rd_wr_all. reflexivity. }
      rewrite (u8_small (s + 1)), (u8_small (e - 1)) by lia.
      destruct (IH (s + 1) (e - 1) str') as [H1 H2]; try lia.
      split; [lia|]. intros j. rewrite H2, !Hrd'.
      zcases; try reflexivity; f_equal; lia.
    + split; [reflexivity|]. intros j. zcases; try reflexivity. f_equal. lia.
Qed.

(** X22.  [reverse(str, length)] reverses the first [length] characters in
    place and leaves the rest, for lengths from 1 to 256.  With length 0
    the 8-bit end index wraps to 255 and the first 256 characters are
    reversed. *)
Theorem X22_reverse_reverses_a_prefix :
  forall str n,
    (1 <= n <= 256 -> n <= Z.of_nat (length str) ->
     reverse str n = list.reverse (take (Z.to_nat n) str) ++ drop (Z.to_nat n) str)
    /\ (n = 0 -> 256 <= Z.of_nat (length str) ->
        reverse str n = list.reverse (take 256 str) ++ drop 256 str).
Proof.
  assert (Hmain : forall str n e,
    1 <= n <= 256 -> n <= Z.of_nat (length str) -> e = n - 1 ->
    reverse_loop 128 0 e str
    = list.reverse (take (Z.to_nat n) str) ++ drop (Z.to_nat n) str).
  { intros str n e Hn Hl ->.
    destruct (reverse_loop_spec 128 0 (n - 1) str) as [H1 H2]; try lia.
    apply list_eq_rd.
    - rewrite H1, length_app, length_reverse, length_take_le, length_drop by lia. lia.
    - intros j Hj. rewrite H1 in Hj. rewrite H2.
      destruct (Z.ltb_spec j n) as [Hjn|Hjn].
      + destruct (Z.leb_spec 0 j); [|lia]. destruct (Z.leb_spec j (n - 1)); [|lia].
        cbn [andb]. symmetry.
        destruct (lookup_lt_is_Some_2 str (Z.to_nat (n - 1 - j)) ltac:(lia)) as [x Ex].
        rewrite <- (Z2Nat.id j) at 1 by lia.
        rewrite (rd_lookup _ (Z.to_nat j) x).
        * replace (0 + (n - 1) - j) with (Z.of_nat (Z.to_nat (n - 1 - j))) by lia.
          symmetry. apply rd_lookup. exact Ex.
        * rewrite lookup_app_l by (rewrite length_reverse, length_take_le; lia).
          rewrite reverse_lookup by (rewrite length_take_le; lia).
          rewrite length_take_le by lia. rewrite lookup_take_lt by lia.
          rewrite <- Ex. f_equal. lia.
      + destruct (Z.leb_spec j (n - 1)); [lia|]. rewrite andb_false_r. symmetry.
        destruct (lookup_lt_is_Some_2 str (Z.to_nat j) ltac:(lia)) as [x Ex].
        rewrite <- (Z2Nat.id j) by lia.
        rewrite (rd_lookup _ (Z.to_nat j) x), (rd_lookup _ (Z.to_nat j) x); auto.
        rewrite lookup_app_r by (rewrite length_reverse, length_take_le; lia).
        rewrite length_reverse, length_take_le by lia. rewrite lookup_drop.
        rewrite <- Ex. f_equal. lia. }
  intros str n. split.
  - intros Hn Hl. unfold reverse. cbn zeta. apply Hmain; [lia | lia |].
    unfold s32. rewrite (Z.mod_small (n + 2 ^ 31)) by lia.
    rewrite u8_small by lia. lia.
  - intros -> Hl. unfold reverse. cbn zeta.
    change (u8 (s32 0 - 1)) with 255.
    apply (Hmain str 256 255); lia.
Qed.

(** ** ARP builders *)

(** A loop that fills two fields octet by octet from values that do not
    depend on the buffer. *)
Lemma fill2_spec n a (fa : Z -> Z) b (fb : Z -> Z) p :
  0 <= n -> 0 <= a -> 0 <= b -> (a + n <= b \/ b + n <= a) ->
  a + n <= Z.of_nat (length p) -> b + n <= Z.of_nat (length p) ->
  let q := for_loop n (fun i p => wr (wr p (a + i) (fa i)) (b + i) (fb i)) p in
  length q = length p
  /\ forall j, rd q j = if (a <=? j) && (j <? a + n) then fa (j - a)
                        else if (b <=? j) && (j <? b + n) then fb (j - b)
                        else rd p j.
Proof.
  intros Hn Ha Hb Hdis Hla Hlb. cbn zeta.
  apply (for_loop_ind (fun k q =>
    length q = length p
    /\ forall j, rd q j = if (a <=? j) && (j <? a + k) then fa (j - a)
                          else if (b <=? j) && (j <? b + k) then fb (j - b)
                          else rd p j)); [assumption | |].
  - split; [reflexivity|]. intros j. zcases; reflexivity.
  - intros k q Hk [Hl Hrd]. split; [rewrite !length_wr; exact Hl|].
    intros j. rd_wr_all. rewrite Hrd.
    zcases; try reflexivity; f_equal; lia.
Qed.

Ltac len_wr := repeat first [rewrite length_wr16 | rewrite length_wr32 | rewrite length_wr].

Lemma rd_wr16 m i v j :
  0 <= i -> i + 1 < Z.of_nat (length m) ->
  rd (wr16 m i v) j = if j =? i + 1 then v / 2 ^ 8 mod 2 ^ 8
                      else if j =? i then v mod 2 ^ 8 else rd m j.
Proof. intros. unfold wr16. rd_wr_all. reflexivity. Qed.

(** X24.  [etherSendArpRequest] transmits a 42-octet broadcast frame of
    type 0x0806: an Ethernet/IPv4 ARP request (operation 1) whose sender
    addresses are the MAC and IP of the device, whose target hardware
    address is ff:ff:ff:ff:ff:ff and whose target protocol address is the
    address asked for.  A host configured with that address accepts the
    frame with [etherIsArpRequest]. *)
Theorem X24_arp_request_is_well_formed :
  forall g packet ip,
    42 <= Z.of_nat (length packet) ->
    exists f,
      tx (fst (etherSendArpRequest g packet ip)) = tx g ++ [f]
      /\ length f = 42%nat
      /\ slice f etherFrame.destAddress 6 = [255; 255; 255; 255; 255; 255]
      /\ slice f etherFrame.sourceAddress 6 = slice (macAddress g) 0 6
      /\ slice f etherFrame.frameType 2 = [8; 6]
      /\ slice f (14 + arpFrame.hardwareType) 8 = [0; 1; 8; 0; 6; 4; 0; 1]
      /\ slice f (14 + arpFrame.sourceAddress) 6 = slice (macAddress g) 0 6
      /\ slice f (14 + arpFrame.sourceIp) 4 = slice (ipAddress g) 0 4
      /\ slice f (14 + arpFrame.destAddress) 6 = [255; 255; 255; 255; 255; 255]
      /\ slice f (14 + arpFrame.destIp) 4 = slice ip 0 4
      /\ (forall g', slice (ipAddress g') 0 4 = slice ip 0 4 ->
            etherIsArpRequest g' f = true).
Proof.
  intros g packet ip Hlen. unfold etherSendArpRequest. cbn zeta.
  unfold HW_ADD_LENGTH, IP_ADD_LENGTH, etherFrame.destAddress, etherFrame.sourceAddress,
    etherFrame.frameType, etherFrame.data, arpFrame.hardwareType, arpFrame.protocolType,
    arpFrame.hardwareSize, arpFrame.protocolSize, arpFrame.op, arpFrame.sourceAddress,
    arpFrame.sourceIp, arpFrame.destAddress, arpFrame.destIp.
  rewrite !Z.add_0_l.
  destruct (fill2_spec 6 0 (fun _ => 255) 6 (fun i => rd (macAddress g) i) packet)
    as [Hl1 Hr1]; try lia.
  cbn zeta in Hl1, Hr1.
  change (fun (i : Z) (p : list Z) => wr (wr p (0 + i) 255) (6 + i) (rd (macAddress g) i))
    with (fun (i : Z) (p : list Z) => wr (wr p i 255) (6 + i) (rd (macAddress g) i))
    in Hl1, Hr1.
  set (p1 := for_loop 6 _ packet) in *.
  set (p2 := wr16 (wr (wr (wr16 (wr16 (wr16 p1 12 1544) (14 + 0) (htons 1)) (14 + 2)
                (htons 2048)) (14 + 4) 6) (14 + 5) 4) (14 + 6) (htons 1)).
  assert (Hl2 : length p2 = length packet)
    by (unfold p2; len_wr; exact Hl1).
  assert (Hr2 : forall j, rd p2 j
            = if j =? 21 then 1 else if j =? 20 then 0 else if j =? 19 then 4
              else if j =? 18 then 6 else if j =? 17 then 0 else if j =? 16 then 8
              else if j =? 15 then 1 else if j =? 14 then 0 else if j =? 13 then 6
              else if j =? 12 then 8 else rd p1 j).
  { intros j. unfold p2.
    repeat first [ rewrite rd_wr16 by (len_wr; lia) | rewrite rd_wr by (len_wr; lia) ].
    change (htons 1 / 2 ^ 8 mod 2 ^ 8) with 1. change (htons 1 mod 2 ^ 8) with 0.
    change (htons 2048 / 2 ^ 8 mod 2 ^ 8) with 0. change (htons 2048 mod 2 ^ 8) with 8.
    change (1544 / 2 ^ 8 mod 2 ^ 8) with 6. change (1544 mod 2 ^ 8) with 8.
    cbn [Z.add Pos.add Pos.succ]. reflexivity. }
  destruct (fill2_spec 6 22 (fun i => rd (macAddress g) i) 32 (fun _ => 255) p2)
    as [Hl3 Hr3]; try lia.
  cbn zeta in Hl3, Hr3. set (p3 := for_loop 6 _ p2) in *.
  destruct (fill2_spec 4 28 (fun i => rd (ipAddress g) i) 38 (fun i => rd ip i) p3)
    as [Hl4 Hr4]; try lia.
  cbn zeta in Hl4, Hr4. set (p4 := for_loop 4 _ p3) in *.
  assert (Hrd : forall j, 0 <= j < 42 ->
            rd (slice p4 0 42) j
            = if j <? 6 then 255 else if j <? 12 then rd (macAddress g) (j - 6)
              else if j =? 12 then 8 else if j =? 13 then 6 else if j =? 14 then 0
              else if j =? 15 then 1 else if j =? 16 then 8 else if j =? 17 then 0
              else if j =? 18 then 6 else if j =? 19 then 4 else if j =? 20 then 0
              else if j =? 21 then 1 else if j <? 28 then rd (macAddress g) (j - 22)
              else if j <? 32 then rd (ipAddress g) (j - 28)
              else if j <? 38 then 255 else rd ip (j - 38)).
  { intros j Hj. rewrite rd_slice by lia. rewrite Z.add_0_l.
    rewrite Hr4. zcases; try reflexivity; rewrite Hr3; zcases; try reflexivity;
      rewrite Hr2; zcases; try reflexivity; rewrite Hr1; zcases; reflexivity. }
  exists (slice p4 0 42). cbn [fst]. unfold etherPutPacket. cbn [tx set_tx].
  change (u16 42) with 42.
  split; [reflexivity|]. split; [apply length_slice|].
  repeat split.
  - change [255; 255; 255; 255; 255; 255] with (slice [255; 255; 255; 255; 255; 255] 0 6).
    apply slice_ext2. intros j Hj. rewrite Hrd by lia. zcases.
    assert (j = 0 \/ j = 1 \/ j = 2 \/ j = 3 \/ j = 4 \/ j = 5)
      as [-> | [-> | [-> | [-> | [-> | ->]]]]] by lia; reflexivity.
  - apply slice_ext2. intros j Hj. rewrite Hrd by lia. zcases. f_equal. lia.
  - change [8; 6] with (slice [8; 6] 0 2).
    apply slice_ext2. intros j Hj. rewrite Hrd by lia.
    assert (j = 0 \/ j = 1) as [-> | ->] by lia; reflexivity.
  - change [0; 1; 8; 0; 6; 4; 0; 1] with (slice [0; 1; 8; 0; 6; 4; 0; 1] 0 8).
    apply slice_ext2. intros j Hj. rewrite Hrd by lia.
    assert (j = 0 \/ j = 1 \/ j = 2 \/ j = 3 \/ j = 4 \/ j = 5 \/ j = 6 \/ j = 7)
      as [-> | [-> | [-> | [-> | [-> | [-> | [-> | ->]]]]]]] by lia; reflexivity.
  - apply slice_ext2. intros j Hj. rewrite Hrd by lia. zcases. f_equal. lia.
  - apply slice_ext2. intros j Hj. rewrite Hrd by lia. zcases. f_equal. lia.
  - change [255; 255; 255; 255; 255; 255] with (slice [255; 255; 255; 255; 255; 255] 0 6).
    apply slice_ext2. intros j Hj. rewrite Hrd by lia. zcases.
    assert (j = 0 \/ j = 1 \/ j = 2 \/ j = 3 \/ j = 4 \/ j = 5)
      as [-> | [-> | [-> | [-> | [-> | ->]]]]] by lia; reflexivity.
  - apply slice_ext2. intros j Hj. rewrite Hrd by lia. zcases. f_equal. lia.
  - intros g' Hg'. unfold etherIsArpRequest. cbn zeta.
    unfold etherFrame.frameType, etherFrame.data, IP_ADD_LENGTH, arpFrame.destIp, arpFrame.op,
      rd16.
    rewrite !Z.add_0_l. rewrite (Hrd 12), (Hrd (12 + 1)), (Hrd (14 + 6)), (Hrd (14 + 6 + 1))
      by lia.
    cbn [Z.add Pos.add Pos.succ Z.ltb Z.eqb Z.compare Pos.compare Pos.compare_cont Pos.eqb].
    change (8 + 6 * 2 ^ 8 =? htons 2054) with true.
    change (0 + 1 * 2 ^ 8 =? htons 1) with true.
    rewrite match_while_all; [reflexivity | lia | reflexivity |].
    intros i Hi. apply Z.eqb_eq. rewrite Hrd by lia. zcases.
    pose proof (proj1 (slice_eq_iff _ _ 0 0 4 ltac:(lia)) Hg' i Hi) as E.
    rewrite !Z.add_0_l in E. rewrite E. f_equal. lia.
Qed.

(** X25.  [sendGratiousArp] transmits a 42-octet broadcast ARP request in
    which sender and target protocol address are both the IP address of the
    device.  It does not write the ARP sender and target hardware address
    fields: they go out with whatever the buffer held. *)
Theorem X25_gratuitous_arp_leaves_hardware_fields :
  forall g packet,
    42 <= Z.of_nat (length packet) ->
    exists f,
      tx (fst (sendGratiousArp g packet)) = tx g ++ [f]
      /\ length f = 42%nat
      /\ slice f etherFrame.destAddress 6 = [255; 255; 255; 255; 255; 255]
      /\ slice f etherFrame.sourceAddress 6 = slice (macAddress g) 0 6
      /\ slice f etherFrame.frameType 2 = [8; 6]
      /\ slice f (14 + arpFrame.hardwareType) 8 = [0; 1; 8; 0; 6; 4; 0; 1]
      /\ slice f (14 + arpFrame.sourceIp) 4 = slice (ipAddress g) 0 4
      /\ slice f (14 + arpFrame.destIp) 4 = slice (ipAddress g) 0 4
      /\ slice f (14 + arpFrame.sourceAddress) 6 = slice packet (14 + arpFrame.sourceAddress) 6
      /\ slice f (14 + arpFrame.destAddress) 6 = slice packet (14 + arpFrame.destAddress) 6.
Proof.
  intros g packet Hlen. unfold sendGratiousArp. cbn zeta.
  unfold HW_ADD_LENGTH, IP_ADD_LENGTH, etherFrame.destAddress, etherFrame.sourceAddress,
    etherFrame.frameType, etherFrame.data, arpFrame.hardwareType, arpFrame.protocolType,
    arpFrame.hardwareSize, arpFrame.protocolSize, arpFrame.op, arpFrame.sourceAddress,
    arpFrame.sourceIp, arpFrame.destAddress, arpFrame.destIp.
  rewrite !Z.add_0_l.
  destruct (fill2_spec 6 0 (fun _ => 255) 6 (fun i => rd (macAddress g) i) packet)
    as [Hl1 Hr1]; try lia.
  cbn zeta in Hl1, Hr1.
  change (fun (i : Z) (p : list Z) => wr (wr p (0 + i) 255) (6 + i) (rd (macAddress g) i))
    with (fun (i : Z) (p : list Z) => wr (wr p i 255) (6 + i) (rd (macAddress g) i))
    in Hl1, Hr1.
  set (p1 := for_loop 6 _ packet) in *.
  set (p2 := wr (wr (wr16 (wr16 (wr16 (wr16 p1 12 (htons 2054)) (14 + 6) (htons 1))
                (14 + 2) (htons 2048)) (14 + 0) (htons 1)) (14 + 4) 6) (14 + 5) 4).
  assert (Hl2 : length p2 = length packet) by (unfold p2; len_wr; exact Hl1).
  assert (Hr2 : forall j, rd p2 j
            = if j =? 19 then 4 else if j =? 18 then 6 else if j =? 15 then 1
              else if j =? 14 then 0 else if j =? 17 then 0 else if j =? 16 then 8
              else if j =? 21 then 1 else if j =? 20 then 0 else if j =? 13 then 6
              else if j =? 12 then 8 else rd p1 j).
  { intros j. unfold p2.
    repeat first [ rewrite rd_wr16 by (len_wr; lia) | rewrite rd_wr by (len_wr; lia) ].
    change (htons 1 / 2 ^ 8 mod 2 ^ 8) with 1. change (htons 1 mod 2 ^ 8) with 0.
    change (htons 2048 / 2 ^ 8 mod 2 ^ 8) with 0. change (htons 2048 mod 2 ^ 8) with 8.
    change (htons 2054 / 2 ^ 8 mod 2 ^ 8) with 6. change (htons 2054 mod 2 ^ 8) with 8.
    cbn [Z.add Pos.add Pos.succ]. reflexivity. }
  destruct (fill2_spec 4 38 (fun i => rd (ipAddress g) i) 28 (fun i => rd (ipAddress g) i) p2)
    as [Hl3 Hr3]; try lia.
  cbn zeta in Hl3, Hr3. set (p3 := for_loop 4 _ p2) in *.
  assert (Hrd : forall j, 0 <= j < 42 ->
            rd (slice p3 0 42) j
            = if j <? 6 then 255 else if j <? 12 then rd (macAddress g) (j - 6)
              else if j =? 12 then 8 else if j =? 13 then 6 else if j =? 14 then 0
              else if j =? 15 then 1 else if j =? 16 then 8 else if j =? 17 then 0
              else if j =? 18 then 6 else if j =? 19 then 4 else if j =? 20 then 0
              else if j =? 21 then 1 else if j <? 28 then rd packet j
              else if j <? 32 then rd (ipAddress g) (j - 28)
              else if j <? 38 then rd packet j else rd (ipAddress g) (j - 38)).
  { intros j Hj. rewrite rd_slice by lia. rewrite Z.add_0_l.
    rewrite Hr3. zcases; try reflexivity;
      rewrite Hr2; zcases; try reflexivity; rewrite Hr1; zcases; reflexivity. }
  exists (slice p3 0 42). cbn [fst]. unfold etherPutPacket. cbn [tx set_tx].
  change (u16 42) with 42.
  split; [reflexivity|]. split; [apply length_slice|].
  repeat split.
  - change [255; 255; 255; 255; 255; 255] with (slice [255; 255; 255; 255; 255; 255] 0 6).
    apply slice_ext2. intros j Hj. rewrite Hrd by lia. zcases.
    assert (j = 0 \/ j = 1 \/ j = 2 \/ j = 3 \/ j = 4 \/ j = 5)
      as [-> | [-> | [-> | [-> | [-> | ->]]]]] by lia; reflexivity.
  - apply slice_ext2. intros j Hj. rewrite Hrd by lia. zcases. f_equal. lia.
  - change [8; 6] with (slice [8; 6] 0 2).
    apply slice_ext2. intros j Hj. rewrite Hrd by lia.
    assert (j = 0 \/ j = 1) as [-> | ->] by lia; reflexivity.
  - change [0; 1; 8; 0; 6; 4; 0; 1] with (slice [0; 1; 8; 0; 6; 4; 0; 1] 0 8).
    apply slice_ext2. intros j Hj. rewrite Hrd by lia.
    assert (j = 0 \/ j = 1 \/ j = 2 \/ j = 3 \/ j = 4 \/ j = 5 \/ j = 6 \/ j = 7)
      as [-> | [-> | [-> | [-> | [-> | [-> | [-> | ->]]]]]]] by lia; reflexivity.
  - apply slice_ext2. intros j Hj. rewrite Hrd by lia. zcases. f_equal. lia.
  - apply slice_ext2. intros j Hj. rewrite Hrd by lia. zcases. f_equal. lia.
  - apply slice_ext2. intros j Hj. rewrite Hrd by lia. zcases. reflexivity.
  - apply slice_ext2. intros j Hj. rewrite Hrd by lia. zcases. reflexivity.
Qed.

(** ** The frames the builders transmit, seen by a receiver *)

(** [etherSumWords] reads only the octets of the region. *)
Lemma sumWords_loop_ext n m m' p phase sum :
  (forall j, p <= j < p + Z.of_nat n -> rd m' j = rd m j) ->
  sumWords_loop n m' p phase sum = sumWords_loop n m p phase sum.
Proof.
  revert p phase sum. induction n as [|n IH]; intros p phase sum H; [reflexivity|].
  cbn [sumWords_loop]. rewrite (H p) by lia. apply IH. intros j Hj. apply H. lia.
Qed.

Lemma etherSumWords_ext sum m m' p n :
  (forall j, p <= j < p + u16 n -> rd m' j = rd m j) ->
  etherSumWords sum m' p n = etherSumWords sum m p n.
Proof.
  intros H. unfold etherSumWords. apply sumWords_loop_ext. intros j Hj. apply H.
  assert (0 <= u16 n) by (apply Z.mod_pos_bound; lia).
  rewrite Z2Nat.id in Hj; lia.
Qed.

(** The two octets a 16-bit store leaves sum to the value stored. *)
Lemma wsum_field c :
  0 <= c < 65536 -> wsum false [c mod 2 ^ 8; c / 2 ^ 8 mod 2 ^ 8] = c.
Proof.
  intros Hc. cbn [wsum negb].
  rewrite (Z.mod_small (c / 2 ^ 8)) by (split; [apply Z.div_pos | apply Z.div_lt_upper_bound]; lia).
  pose proof (Z.div_mod c (2 ^ 8) ltac:(lia)). lia.
Qed.

Lemma field_octets c : octets [c mod 2 ^ 8; c / 2 ^ 8 mod 2 ^ 8].
Proof. repeat constructor; unfold octet; apply Z.mod_pos_bound; lia. Qed.

(** A region whose checksum field, at an even offset, holds the checksum
    computed over the octets around it sums to a value that folds to 0. *)
Lemma checksum_field_verifies A B c :
  octets A -> octets B -> Nat.even (length A) = true ->
  wsum false A + wsum false B <= 2 ^ 32 - 65536 ->
  c = getEtherChecksum (wsum false A + wsum false B) ->
  let l := A ++ [c mod 2 ^ 8; c / 2 ^ 8 mod 2 ^ 8] ++ B in
  octets l /\ wsum false l < 2 ^ 32 /\ getEtherChecksum (wsum false l) = 0.
Proof.
  intros HA HB Hev Hs Hc l. subst l.
  pose proof (wsum_bounds false A HA) as [HA0 _].
  pose proof (wsum_bounds false B HB) as [HB0 _].
  set (S := wsum false A + wsum false B) in *.
  assert (Hs32 : 0 <= S < 2 ^ 32) by lia.
  pose proof (getEtherChecksum_range S Hs32) as Hcr. rewrite <- Hc in Hcr.
  assert (E : wsum false (A ++ [c mod 2 ^ 8; c / 2 ^ 8 mod 2 ^ 8] ++ B) = S + c).
  { rewrite wsum_app_even by assumption.
    rewrite (wsum_app_even false [_; _]) by reflexivity.
    rewrite wsum_field by assumption. subst S. lia. }
  rewrite E. split; [|split; [lia|]].
  - unfold octets. repeat (apply Forall_app; split); auto. apply field_octets.
  - destruct (fold_carries_spec S Hs32) as (Hf & (k & Hk & Hsum) & _).
    rewrite (getEtherChecksum_value S Hs32) in Hc.
    apply getEtherChecksum_zero; [lia|].
    split; [lia|]. exists (k + 1). lia.
Qed.

(** The octets of a region after a 16-bit store inside it. *)
Lemma slice_wr16_field m i c a n :
  0 <= a <= i -> i + 2 <= a + n -> a + n <= Z.of_nat (length m) ->
  slice (wr16 m i c) a n
  = slice m a (i - a) ++ [c mod 2 ^ 8; c / 2 ^ 8 mod 2 ^ 8] ++ slice m (i + 2) (a + n - (i + 2)).
Proof.
  intros Ha Hi Hl.
  replace n with ((i - a) + (2 + (a + n - (i + 2)))) at 1 by lia.
  rewrite slice_app by lia. rewrite slice_app by lia.
  replace (a + (i - a)) with i by lia.
  f_equal; [|f_equal].
  - apply slice_ext. intros j Hj. apply rd_wr16_other; lia.
  - rewrite slice_cons by lia. rewrite slice_cons by lia. rewrite slice_nil by lia.
    rewrite !rd_wr16 by lia.
    rewrite Z.eqb_refl. destruct (Z.eqb_spec i (i + 1)); [lia|]. rewrite Z.eqb_refl.
    reflexivity.
  - apply slice_ext. intros j Hj. apply rd_wr16_other; lia.
Qed.

(** The octets of the buffer the controller is given. *)
Lemma rd_sent m n j : 0 <= j < n -> rd (slice m 0 n) j = rd m j.
Proof. intros. rewrite rd_slice by lia. reflexivity. Qed.

Lemma slice_sent m n a k : 0 <= a -> a + k <= n -> slice (slice m 0 n) a k = slice m a k.
Proof. intros. apply slice_ext. intros j Hj. apply rd_sent. lia. Qed.

Lemma ip_hlen_ext m m' ip : rd m' ip = rd m ip -> ip_hlen m' ip = ip_hlen m ip.
Proof. intros E. unfold ip_hlen, ipFrame.revSize. rewrite Z.add_0_r. rewrite E. reflexivity. Qed.

(** [etherIsIp] reads the type field and the IP header only. *)
Lemma etherIsIp_ext m m' n :
  15 <= n -> 14 + ip_hlen m 14 <= n ->
  (forall j, 0 <= j < n -> rd m' j = rd m j) -> etherIsIp m' = etherIsIp m.
Proof.
  intros Hn Hh H. unfold etherIsIp. cbn zeta.
  change (0 + etherFrame.data) with 14. change (0 + etherFrame.frameType) with 12.
  change (14 + ipFrame.revSize) with 14.
  rewrite (ip_hlen_ext m m' 14) by (apply H; lia).
  rewrite (rd16_ext m' m 12) by (apply H; lia).
  rewrite (etherSumWords_ext 0 m m' 14); [reflexivity|].
  intros j Hj. apply H. pose proof (ip_hlen_range m 14). rewrite u16_small in Hj; lia.
Qed.

(** Exchanging two fields of equal even length does not change the sum. *)
Lemma wsum_swap A B C D :
  Nat.even (length A) = true -> Nat.even (length B) = true -> Nat.even (length C) = true ->
  wsum false (A ++ C ++ B ++ D) = wsum false (A ++ B ++ C ++ D).
Proof.
  intros HA HB HC.
  rewrite !wsum_app_even by assumption. lia.
Qed.

(** X26.  The echo reply [etherSendPingResponse] builds for a request with
    a 20-octet IP header passes the tests of a receiver: the IP header
    checksum still verifies after the exchange of the addresses, and the
    ICMP checksum the function computes verifies over the whole ICMP
    message. *)
Theorem X26_ping_reply_checksums_verify :
  forall g packet,
    let total := Wire.be16 packet (14 + ipFrame.length) in
    octets packet ->
    etherIsIp packet = true ->
    ip_hlen packet 14 = 20 ->
    28 <= total ->
    14 + total <= Z.of_nat (length packet) <= MAX_PACKET_SIZE ->
    exists f,
      tx (fst (etherSendPingResponse g packet)) = tx g ++ [f]
      /\ etherIsIp f = true
      /\ RFC1071.wire_checksum_ok (slice f 34 (total - 20)).
Proof.
  intros g packet total Hoct Hip Hh Htot Hlen.
  unfold MAX_PACKET_SIZE in Hlen.
  unfold etherSendPingResponse. cbn zeta.
  change (0 + etherFrame.data) with 14.
  change (14 + ipFrame.length) with 16 in *.
  change (0 + etherFrame.destAddress) with 0. change (0 + etherFrame.sourceAddress) with 6.
  change (14 + ipFrame.destIp) with 30. change (14 + ipFrame.sourceIp) with 26.
  unfold icmpFrame.type, icmpFrame.id, icmpFrame.check, ntohs.
  unfold IP_ADD_LENGTH, HW_ADD_LENGTH.
  rewrite Hh. change (14 + 20 + 0) with 34. change (14 + 20 + 4) with 38.
  change (14 + 20 + 2) with 36.
  set (p3 := wr (swap_fields 4 30 26 (swap_fields 6 0 6 packet)) 34 0).
  assert (Hl3 : length p3 = length packet) by (subst p3; length_all; reflexivity).
  assert (Ho3 : octets p3).
  { subst p3. apply wr_octets; [|unfold octet; lia].
    repeat apply swap_fields_octets; try lia; assumption. }
  assert (Hsw : forall j, rd p3 j
       = if (0 <=? j) && (j <? 6) then rd packet (j + 6)
         else if (6 <=? j) && (j <? 12) then rd packet (j - 6)
         else if (26 <=? j) && (j <? 30) then rd packet (j + 4)
         else if (30 <=? j) && (j <? 34) then rd packet (j - 4)
         else if j =? 34 then 0
         else rd packet j).
  { intros j.
    destruct (ping_buffer_spec packet 0) as [_ Hr]; cbn zeta; rewrite ?Hh; try lia.
    cbn zeta in Hr. rewrite Hh in Hr. change (14 + 20) with 34 in Hr.
    unfold IP_ADD_LENGTH, HW_ADD_LENGTH in Hr. fold p3 in Hr. specialize (Hr j).
    destruct (Z.eq_dec j 36) as [->|N36]; [subst p3; rd_other; reflexivity|].
    destruct (Z.eq_dec j 37) as [->|N37]; [subst p3; rd_other; reflexivity|].
    rewrite rd_wr16_other in Hr by lia. rewrite Hr.
    change (34 + 2) with 36. change (34 + 3) with 37.
    zcases; reflexivity. }
  assert (E16 : rd16 p3 16 = rd16 packet 16).
  { apply rd16_ext; rewrite Hsw; reflexivity. }
  rewrite E16, htons_rd16 by assumption. fold total.
  assert (Htr : 0 <= total < 65536).
  { subst total. unfold Wire.be16.
    pose proof (rd_octet packet 16 Hoct).
    pose proof (rd_octet packet (16 + 1) Hoct). unfold octet in *. lia. }
  rewrite (u16_small (total - 24)) by lia.
  set (S := etherSumWords (etherSumWords 0 p3 34 2) p3 38 (total - 24)).
  set (c := getEtherChecksum S).
  set (p4 := wr16 p3 36 c).
  unfold etherPutPacket. cbn [fst tx set_tx].
  assert (E16' : rd16 p4 16 = rd16 packet 16).
  { rewrite <- E16. apply rd16_ext; subst p4; rd_other; reflexivity. }
  rewrite E16', htons_rd16 by assumption. fold total.
  rewrite (u16_small (14 + total)) by lia.
  set (f := slice p4 0 (14 + total)).
  exists f. split; [reflexivity|].
  (* the sum the function computes *)
  pose proof (slice_octets p3 34 2 Ho3) as HoA.
  pose proof (slice_octets p3 38 (total - 24) Ho3) as HoB.
  pose proof (wsum_bounds false _ HoA) as BA.
  pose proof (wsum_bounds false _ HoB) as BB.
  rewrite length_slice in BA, BB. rewrite Z2Nat.id in BB by lia.
  change (Z.of_nat (Z.to_nat 2)) with 2 in BA.
  assert (ES : S = wsum false (slice p3 34 2) + wsum false (slice p3 38 (total - 24))).
  { subst S. rewrite (etherSumWords_spec 0) by lia. rewrite Z.add_0_l.
    rewrite (u32_small (wsum false (slice p3 34 2))) by lia.
    rewrite etherSumWords_spec by lia. apply u32_small. lia. }
  split.
  - (* the IP header *)
    rewrite <- Hip.
    assert (Hf : forall j, 0 <= j < 14 + total -> rd f j = rd p4 j)
      by (intros j Hj; subst f; apply rd_sent; lia).
    assert (H12 : forall j, 12 <= j < 26 -> rd f j = rd packet j).
    { intros j Hj. rewrite Hf by lia. subst p4. rd_other. rewrite Hsw. zcases; reflexivity. }
    assert (H14 : ip_hlen f 14 = 20) by (rewrite <- Hh; apply ip_hlen_ext, H12; lia).
    unfold etherIsIp. cbn zeta.
    change (0 + etherFrame.data) with 14. change (0 + etherFrame.frameType) with 12.
    change (14 + ipFrame.revSize) with 14.
    rewrite (rd16_ext f packet 12) by (apply H12; lia).
    rewrite H14, Hh.
    assert (Hof : octets f) by (subst f; apply slice_octets, wr16_octets, Ho3).
    assert (Esum : etherSumWords 0 f 14 20 = etherSumWords 0 packet 14 20).
    { rewrite !(etherSumWords_spec 0) by lia. f_equal. f_equal.
      change 20 with (12 + (4 + (4 + 0))).
      rewrite !slice_app by lia. change (14 + 12) with 26. change (26 + 4) with 30.
      rewrite (slice_ext f packet 14 12) by (intros j Hj; apply H12; lia).
      rewrite (slice_ext2 f packet 26 30 4).
      2:{ intros k Hk. rewrite Hf by lia. subst p4. rd_other. rewrite Hsw. zcases. f_equal. lia. }
      rewrite (slice_ext2 f packet 30 26 4).
      2:{ intros k Hk. rewrite Hf by lia. subst p4. rd_other. rewrite Hsw. zcases. f_equal. lia. }
      apply wsum_swap; rewrite length_slice; reflexivity. }
    rewrite Esum. reflexivity.
  - (* the ICMP message *)
    subst f. rewrite slice_sent by lia.
    subst p4. rewrite slice_wr16_field by lia.
    change (36 - 34) with 2. change (36 + 2) with 38.
    replace (34 + (total - 20) - 38) with (total - 24) by lia.
    destruct (checksum_field_verifies (slice p3 34 2) (slice p3 38 (total - 24)) c)
      as (Hol & Hlt & Hz); auto.
    + lia.
    + subst c. rewrite ES. reflexivity.
    + cbn zeta in Hol, Hlt, Hz. apply fold_zero_iff_wire_ok; assumption.
Qed.

(** The sum of [etherIsTcp] and of the TCP builders: the addresses, the
    protocol and the low octet of the segment length [len] as high halves
    of words, and [len] octets from the TCP header on. *)
Lemma tcp_sum_value packet tcp len :
  octets packet -> 0 <= len < 65536 ->
  let l := slice packet 26 8 ++ [0; rd packet 23] ++ [0; len mod 2 ^ 8] ++ slice packet tcp len in
  etherSumWords
    (u32 (u32 (etherSumWords 0 packet 26 8 + Z.shiftl (Z.land (rd packet 23) 0xff) 8)
          + Z.shiftl (Z.land len 0xff) 8)) packet tcp len
  = wsum false l
  /\ octets l /\ wsum false l <= 2 ^ 32 - 65536.
Proof.
  intros Hp Hlen l. subst l.
  pose proof (rd_octet packet 23 Hp) as H23. unfold octet in H23.
  pose proof (Z.mod_pos_bound len (2 ^ 8) ltac:(lia)) as Hlo.
  pose proof (wsum_bounds false _ (slice_octets packet 26 8 Hp)) as B1.
  pose proof (wsum_bounds false _ (slice_octets packet tcp len Hp)) as B4.
  rewrite !length_slice in *. rewrite Z2Nat.id in B4 by lia.
  change (Z.of_nat (Z.to_nat 8)) with 8 in B1.
  rewrite (etherSumWords_spec 0) by lia. rewrite Z.add_0_l.
  rewrite (u32_small (wsum false (slice packet 26 8))) by lia.
  rewrite !land_ff, (Z.mod_small (rd packet 23)), !Z.shiftl_mul_pow2 by lia.
  rewrite (u32_small (_ + rd packet 23 * 2 ^ 8)) by lia.
  rewrite (u32_small (_ + len mod 2 ^ 8 * 2 ^ 8)) by lia.
  rewrite etherSumWords_spec by lia.
  rewrite u32_small by lia.
  assert (E : wsum false (slice packet 26 8 ++ [0; rd packet 23] ++ [0; len mod 2 ^ 8]
                          ++ slice packet tcp len)
              = wsum false (slice packet 26 8) + rd packet 23 * 2 ^ 8
                + len mod 2 ^ 8 * 2 ^ 8 + wsum false (slice packet tcp len)).
  { rewrite wsum_app_even by (rewrite length_slice; reflexivity).
    rewrite (wsum_app_even false [_; _]) by reflexivity.
    rewrite (wsum_app_even false [_; _]) by reflexivity.
    cbn [wsum negb]. lia. }
  rewrite E. split; [reflexivity|]. split; [|lia].
  unfold octets. repeat (apply Forall_app; split); try (apply slice_octets; assumption);
    repeat constructor; unfold octet; lia.
Qed.

(** X27.  [etherIsTcp] accepts exactly the frames whose IP protocol is 6
    and whose checksum verifies (RFC 1071) over the two addresses, the
    protocol, a length word and the segment, where the segment length is
    taken to be the IP total length minus 20, whatever the IHL field says,
    and only the low octet of that length enters the length word. *)
Theorem X27_etherIsTcp_accepts :
  forall packet,
    octets packet ->
    let tcp := 14 + ip_hlen packet 14 in
    let len := u16 (Wire.be16 packet (14 + ipFrame.length) - 20) in
    (etherIsTcp packet = true
     <-> rd packet (14 + ipFrame.protocol) = 6
         /\ RFC1071.wire_checksum_ok
              (slice packet (14 + ipFrame.sourceIp) 4 ++ slice packet (14 + ipFrame.destIp) 4
               ++ [0; 6] ++ [0; len mod 2 ^ 8] ++ slice packet tcp len)).
Proof.
  intros packet Hp tcp len.
  change (14 + ipFrame.length) with 16 in *. change (14 + ipFrame.protocol) with 23.
  change (14 + ipFrame.sourceIp) with 26. change (14 + ipFrame.destIp) with 30.
  assert (Hlen : 0 <= len < 65536) by (subst len; apply Z.mod_pos_bound; lia).
  destruct (tcp_sum_value packet tcp len Hp Hlen) as (Hsum & Hoct & Hlt).
  cbn zeta in Hsum, Hoct, Hlt.
  assert (E8 : slice packet 26 8 = slice packet 26 4 ++ slice packet 30 4)
    by (change 8 with (4 + 4); rewrite slice_app by lia; reflexivity).
  rewrite E8, <- app_assoc in Hsum, Hoct, Hlt.
  unfold etherIsTcp. cbn zeta.
  change etherFrame.data with 14.
  change (14 + ipFrame.length) with 16. change (14 + ipFrame.protocol) with 23.
  change (14 + ipFrame.sourceIp) with 26.
  rewrite htons_rd16 by assumption. fold tcp len.
  destruct (Z.eqb_spec (rd packet 23) 6) as [E|E].
  - rewrite Hsum. rewrite E in Hoct, Hlt |- *.
    rewrite Z.eqb_eq. rewrite fold_zero_iff_wire_ok by (try assumption; lia). tauto.
  - split; [discriminate | tauto].
Qed.

(** The copy loops of the builders. *)
Lemma rd_copy_other n dst (src : list Z) p j :
  ~ (dst <= j < dst + n) ->
  rd (for_loop n (fun i p => wr p (dst + i) (rd src i)) p) j = rd p j.
Proof.
  intros Hj. destruct (Z.le_gt_cases 0 n) as [Hn|Hn].
  - apply (for_loop_ind (fun _ q => rd q j = rd p j)); [assumption | reflexivity |].
    intros k q Hk Hq. rewrite rd_wr_ne by lia. exact Hq.
  - unfold for_loop. rewrite seqZ_nil by lia. reflexivity.
Qed.

Lemma length_copy n dst (src : list Z) p :
  length (for_loop n (fun i p => wr p (dst + i) (rd src i)) p) = length p.
Proof.
  unfold for_loop. generalize (seqZ 0 n) as l. intros l. revert p.
  induction l as [|i l IH]; intros p; [reflexivity|].
  cbn [foldl]. rewrite IH, length_wr. reflexivity.
Qed.

Lemma copy_octets n dst (src : list Z) p :
  octets src -> octets p -> octets (for_loop n (fun i p => wr p (dst + i) (rd src i)) p).
Proof.
  intros Hs. unfold for_loop. generalize (seqZ 0 n) as l. intros l. revert p.
  induction l as [|i l IH]; intros p Hp; [assumption|].
  cbn [foldl]. apply IH. apply wr_octets; [assumption | apply rd_octet; assumption].
Qed.

Lemma be16_range m i : octets m -> 0 <= Wire.be16 m i < 65536.
Proof.
  intros Hm. unfold Wire.be16.
  pose proof (rd_octet m i Hm). pose proof (rd_octet m (i + 1) Hm). unfold octet in *. lia.
Qed.

(** A 16-bit field written with [htons v] reads [v] in network order. *)
Lemma be16_wr16_htons m i v :
  octets m -> 0 <= i -> i + 1 < Z.of_nat (length m) -> 0 <= v < 65536 ->
  Wire.be16 (wr16 m i (htons v)) i = v.
Proof.
  intros Hm Hi Hl Hv. rewrite <- htons_rd16 by (apply wr16_octets; assumption).
  rewrite rd16_wr16 by (try apply htons_range; lia).
  rewrite htons_htons. apply u16_small. lia.
Qed.

Lemma be16_ext m m' i :
  rd m i = rd m' i -> rd m (i + 1) = rd m' (i + 1) -> Wire.be16 m i = Wire.be16 m' i.
Proof. intros H0 H1. unfold Wire.be16. rewrite H0, H1. reflexivity. Qed.

(** The pseudo-header part of the UDP sum. *)
Lemma udp_pseudo_sum_value p udp :
  octets p ->
  udp_pseudo_sum p 14 udp = wsum false (RFC768.pseudo_header p 14 udp)
  /\ octets (RFC768.pseudo_header p 14 udp)
  /\ 0 <= wsum false (RFC768.pseudo_header p 14 udp) < 2 ^ 20.
Proof.
  intros Hp. unfold udp_pseudo_sum, RFC768.pseudo_header, udpFrame.length. cbn zeta.
  change (14 + ipFrame.sourceIp) with 26. change (14 + ipFrame.protocol) with 23.
  change (14 + 12) with 26. change (14 + 16) with 30. change (14 + 9) with 23.
  pose proof (rd_octet p 23 Hp) as H23. unfold octet in H23.
  pose proof (wsum_bounds false _ (slice_octets p 26 8 Hp)) as B1.
  pose proof (wsum_bounds false _ (slice_octets p (udp + 4) 2 Hp)) as B3.
  rewrite !length_slice in *.
  change (Z.of_nat (Z.to_nat 8)) with 8 in B1. change (Z.of_nat (Z.to_nat 2)) with 2 in B3.
  assert (E8 : slice p 26 8 = slice p 26 4 ++ slice p 30 4)
    by (change 8 with (4 + 4); rewrite slice_app by lia; reflexivity).
  rewrite (etherSumWords_spec 0) by lia. rewrite Z.add_0_l.
  rewrite (u32_small (wsum false (slice p 26 8))) by lia.
  rewrite land_ff, (Z.mod_small (rd p 23)), Z.shiftl_mul_pow2 by lia.
  rewrite (u32_small (_ + rd p 23 * 2 ^ 8)) by lia.
  rewrite (etherSumWords_spec _ p (udp + 4) 2) by lia.
  rewrite (u32_small (_ + wsum false (slice p (udp + 4) 2))) by lia.
  assert (E : wsum false (slice p 26 4 ++ slice p 30 4 ++ [0; rd p 23] ++ slice p (udp + 4) 2)
              = wsum false (slice p 26 8) + rd p 23 * 2 ^ 8 + wsum false (slice p (udp + 4) 2)).
  { rewrite E8. rewrite !wsum_app_even by (rewrite ?length_slice; reflexivity).
    cbn [wsum negb]. lia. }
  rewrite E. split; [reflexivity|]. split; [|lia].
  unfold octets. repeat (apply Forall_app; split); try (apply slice_octets; assumption).
  repeat constructor; unfold octet; lia.
Qed.

(** [etherIsUdp] reads the IP header and the datagram only. *)
Lemma etherIsUdp_ext m m' n :
  octets m ->
  34 <= n -> 14 + ip_hlen m 14 + 6 <= n ->
  14 + ip_hlen m 14 + Wire.be16 m (14 + ip_hlen m 14 + 4) <= n ->
  (forall j, 0 <= j < n -> rd m' j = rd m j) -> etherIsUdp m' = etherIsUdp m.
Proof.
  intros Hm Hn Hh Hu H. unfold etherIsUdp. cbn zeta.
  change etherFrame.data with 14. change (14 + ipFrame.protocol) with 23.
  pose proof (ip_hlen_range m 14) as Hr.
  rewrite (ip_hlen_ext m m' 14) by (apply H; lia).
  set (udp := 14 + ip_hlen m 14) in *.
  rewrite (H 23) by lia.
  unfold udpFrame.length.
  rewrite (rd16_ext m' m (udp + 4)) by (apply H; lia).
  assert (Eps : udp_pseudo_sum m' 14 udp = udp_pseudo_sum m 14 udp).
  { unfold udp_pseudo_sum. cbn zeta.
    change (14 + ipFrame.sourceIp) with 26. change (14 + ipFrame.protocol) with 23.
    unfold udpFrame.length.
    rewrite (H 23) by lia.
    rewrite (etherSumWords_ext 0 m m' 26 8)
      by (intros j Hj; rewrite u16_small in Hj by lia; apply H; lia).
    apply etherSumWords_ext. intros j Hj. rewrite u16_small in Hj by lia. apply H; lia. }
  rewrite Eps.
  rewrite (etherSumWords_ext _ m m' udp); [reflexivity|].
  intros j Hj. apply H. unfold ntohs in Hj. rewrite htons_rd16 in Hj by assumption.
  rewrite u16_small in Hj by (apply be16_range; assumption). lia.
Qed.

Ltac rd_skip :=
  repeat first
    [ rewrite rd_wr_ne by lia
    | rewrite rd_wr16_other by lia
    | rewrite rd_wr32_other by lia
    | rewrite rd_calc_other by lia
    | rewrite rd_tcp_checksum_other by lia
    | rewrite rd_swap_other by lia
    | rewrite rd_copy_other by lia ].

Ltac length_skip :=
  repeat first
    [ rewrite length_wr | rewrite length_wr16 | rewrite length_wr32 | rewrite length_calc
    | rewrite length_tcp_checksum | rewrite length_swap_fields | rewrite length_copy ].

(** X28.  The datagram [etherSendUdpResponse] transmits passes the tests
    of the code's own receiver: [etherIsIp] and [etherIsUdp] accept it.  It
    carries the [udpSize] octets given, the lengths that go with them, and
    the addresses of the request exchanged; both of its ports are the
    destination port of the request. *)
Theorem X28_udp_response_is_accepted :
  forall g packet udpData udpSize,
    let h := ip_hlen packet 14 in
    let udp := 14 + h in
    octets packet -> octets udpData ->
    0 <= udpSize < 256 -> udpSize <= Z.of_nat (length udpData) ->
    20 <= h ->
    22 + h + udpSize <= Z.of_nat (length packet) ->
    Wire.be16 packet etherFrame.frameType = 0x0800 ->
    rd packet (14 + ipFrame.protocol) = 17 ->
    exists f,
      tx (fst (etherSendUdpResponse g packet udpData udpSize)) = tx g ++ [f]
      /\ Z.of_nat (length f) = 22 + h + udpSize
      /\ etherIsIp f = true
      /\ etherIsUdp f = true
      /\ Wire.be16 f (14 + ipFrame.length) = h + 8 + udpSize
      /\ Wire.be16 f (udp + udpFrame.length) = 8 + udpSize
      /\ slice f (udp + udpFrame.data) udpSize = slice udpData 0 udpSize
      /\ Wire.be16 f (udp + udpFrame.sourcePort) = Wire.be16 packet (udp + udpFrame.destPort)
      /\ Wire.be16 f (udp + udpFrame.destPort) = Wire.be16 packet (udp + udpFrame.destPort)
      /\ slice f etherFrame.destAddress 6 = slice packet etherFrame.sourceAddress 6
      /\ slice f etherFrame.sourceAddress 6 = slice packet etherFrame.destAddress 6
      /\ slice f (14 + ipFrame.destIp) 4 = slice packet (14 + ipFrame.sourceIp) 4
      /\ slice f (14 + ipFrame.sourceIp) 4 = slice packet (14 + ipFrame.destIp) 4.
Proof.
  intros g packet udpData n h udp Hoct Hdata Hn Hdl Hh Hlen Hty Hpr.
  pose proof (ip_hlen_range packet 14) as Hhr. fold h in Hhr.
  unfold etherSendUdpResponse. cbn zeta.
  change (0 + etherFrame.data) with 14.
  change (0 + etherFrame.destAddress) with 0. change (0 + etherFrame.sourceAddress) with 6.
  change etherFrame.destAddress with 0. change etherFrame.sourceAddress with 6.
  change etherFrame.frameType with 12 in Hty.
  change (14 + ipFrame.destIp) with 30. change (14 + ipFrame.sourceIp) with 26.
  change (14 + ipFrame.length) with 16. change (14 + ipFrame.protocol) with 23 in Hpr.
  unfold udpFrame.sourcePort, udpFrame.destPort, udpFrame.length, udpFrame.data, udpFrame.check.
  unfold IP_ADD_LENGTH, HW_ADD_LENGTH.
  fold h. fold udp. rewrite !Z.add_0_r.
  set (p2 := swap_fields 4 30 26 (swap_fields 6 0 6 packet)).
  assert (Ho2 : octets p2) by (subst p2; repeat apply swap_fields_octets; try lia; assumption).
  assert (Hsw : forall j, rd p2 j
       = if (0 <=? j) && (j <? 6) then rd packet (j + 6)
         else if (6 <=? j) && (j <? 12) then rd packet (j - 6)
         else if (26 <=? j) && (j <? 30) then rd packet (j + 4)
         else if (30 <=? j) && (j <? 34) then rd packet (j - 4)
         else rd packet j).
  { intros j. subst p2.
    destruct (swap_fields_spec 6 0 6 packet) as [Hl1 Hr1]; try lia.
    destruct (swap_fields_spec 4 30 26 (swap_fields 6 0 6 packet)) as [_ Hr2];
      try (rewrite ?Hl1; lia).
    rewrite Hr2, !Hr1. zcases; f_equal; lia. }
  set (p3 := wr16 p2 udp (rd16 p2 (udp + 2))).
  assert (Hh3 : ip_hlen p3 14 = h).
  { apply ip_hlen_ext. subst p3. rd_skip. rewrite Hsw. reflexivity. }
  rewrite Hh3.
  set (p5 := etherCalcIpChecksum (wr16 p3 16 (htons (h + 8 + n))) 14).
  set (p7 := for_loop n (fun i p => wr p (udp + 8 + i) (rd udpData i))
               (wr16 p5 (udp + 4) (htons (8 + n)))).
  set (S := etherSumWords (etherSumWords (udp_pseudo_sum p7 14 udp) p7 udp 6) p7 (udp + 8) n).
  set (c := getEtherChecksum S).
  set (p8 := wr16 p7 (udp + 6) c).
  assert (Hl5 : length p5 = length packet) by (subst p5 p3 p2; length_skip; reflexivity).
  assert (Ho5 : octets p5) by (subst p5 p3; apply calc_octets; repeat apply wr16_octets; exact Ho2).
  assert (Hl7 : length p7 = length packet) by (subst p7; length_skip; exact Hl5).
  assert (Ho7 : octets p7)
    by (subst p7; apply copy_octets; [assumption | apply wr16_octets; exact Ho5]).
  assert (Ho8 : octets p8) by (subst p8; apply wr16_octets; exact Ho7).
  assert (Hh5 : ip_hlen p5 14 = h).
  { rewrite <- Hh3. apply ip_hlen_ext. subst p5. rd_skip. reflexivity. }
  assert (Hh8 : ip_hlen p8 14 = h).
  { rewrite <- Hh5. apply ip_hlen_ext. subst p8 p7. rd_skip. reflexivity. }
  rewrite Hh8. unfold etherPutPacket. cbn [fst tx set_tx].
  rewrite (u16_small (22 + h + n)) by lia.
  set (f := slice p8 0 (22 + h + n)).
  assert (Hf : forall j, 0 <= j < 22 + h + n -> rd f j = rd p8 j)
    by (intros j Hj; subst f; apply rd_sent; lia).
  assert (Hhead : forall j, 0 <= j < udp -> rd p8 j = rd p5 j)
    by (intros j Hj; subst p8 p7; rd_skip; reflexivity).
  assert (Hul : Wire.be16 p8 (udp + 4) = 8 + n).
  { transitivity (Wire.be16 (wr16 p5 (udp + 4) (htons (8 + n))) (udp + 4)).
    - apply be16_ext; subst p8 p7; rd_skip; reflexivity.
    - apply be16_wr16_htons; try lia; assumption. }
  exists f. split; [reflexivity|].
  split; [subst f; rewrite length_slice; lia|].
  split.
  { (* the IP header *)
    rewrite (etherIsIp_ext p5 f udp); try (subst udp; lia).
    2:{ intros j Hj. rewrite Hf by (subst udp; lia). apply Hhead. lia. }
    unfold etherIsIp. cbn zeta.
    change (0 + etherFrame.data) with 14. change (0 + etherFrame.frameType) with 12.
    change (14 + ipFrame.revSize) with 14.
    rewrite frame_type_test by (try assumption; lia).
    replace (Wire.be16 p5 12) with (Wire.be16 packet 12).
    2:{ apply be16_ext; subst p5 p3; rd_skip; rewrite Hsw; reflexivity. }
    rewrite Hty. cbn [Z.eqb Pos.eqb].
    subst p5. rewrite calc_folds_to_zero; [reflexivity | | lia | |].
    - repeat apply wr16_octets. exact Ho2.
    - rewrite (ip_hlen_ext p3) by (rd_skip; reflexivity). lia.
    - rewrite (ip_hlen_ext p3) by (rd_skip; reflexivity).
      subst p3 p2. length_skip. subst udp. lia. }
  split.
  { (* the datagram *)
    rewrite (etherIsUdp_ext p8 f (22 + h + n)); try assumption; rewrite ?Hh8; try lia.
    2:{ fold udp. rewrite Hul. subst udp. lia. }
    unfold etherIsUdp. cbn zeta.
    change etherFrame.data with 14. change (14 + ipFrame.protocol) with 23.
    rewrite Hh8. fold udp.
    replace (rd p8 23) with 17.
    2:{ rewrite <- Hpr. subst p8 p7 p5 p3. rd_skip. rewrite Hsw. reflexivity. }
    cbn [Z.eqb Pos.eqb].
    destruct (etherIsUdp_sum p8 Ho8) as (Hsum & _ & _).
    cbn zeta in Hsum. rewrite Hh8 in Hsum. fold udp in Hsum. rewrite Hsum.
    unfold RFC768.datagram. rewrite Hul.
    assert (Eps : RFC768.pseudo_header p8 14 udp = RFC768.pseudo_header p7 14 udp).
    { unfold RFC768.pseudo_header.
      change (14 + 12) with 26. change (14 + 16) with 30. change (14 + 9) with 23.
      rewrite (slice_ext p8 p7 26 4) by (intros j Hj; subst p8; rd_skip; reflexivity).
      rewrite (slice_ext p8 p7 30 4) by (intros j Hj; subst p8; rd_skip; reflexivity).
      rewrite (slice_ext p8 p7 (udp + 4) 2) by (intros j Hj; subst p8; rd_skip; reflexivity).
      replace (rd p8 23) with (rd p7 23) by (subst p8; rd_skip; reflexivity).
      reflexivity. }
    rewrite Eps. subst p8. rewrite slice_wr16_field by lia.
    replace (udp + 6 - udp) with 6 by lia.
    replace (udp + (8 + n) - (udp + 6 + 2)) with n by lia.
    replace (udp + 6 + 2) with (udp + 8) by lia.
    destruct (udp_pseudo_sum_value p7 udp Ho7) as (Ep & Hop & Bp).
    pose proof (wsum_bounds false _ (slice_octets p7 udp 6 Ho7)) as B6.
    pose proof (wsum_bounds false _ (slice_octets p7 (udp + 8) n Ho7)) as Bd.
    rewrite !length_slice in *. rewrite Z2Nat.id in Bd by lia.
    change (Z.of_nat (Z.to_nat 6)) with 6 in B6.
    assert (ES : S = wsum false (RFC768.pseudo_header p7 14 udp ++ slice p7 udp 6)
                     + wsum false (slice p7 (udp + 8) n)).
    { subst S. rewrite Ep.
      rewrite (etherSumWords_spec _ p7 udp 6) by lia.
      rewrite (u32_small (_ + wsum false (slice p7 udp 6))) by lia.
      rewrite etherSumWords_spec by lia. rewrite u32_small by lia.
      rewrite wsum_app_even; [reflexivity|].
      unfold RFC768.pseudo_header. rewrite !length_app, !length_slice. reflexivity. }
    rewrite app_assoc.
    destruct (checksum_field_verifies (RFC768.pseudo_header p7 14 udp ++ slice p7 udp 6)
                (slice p7 (udp + 8) n) c) as (_ & _ & Hz).
    - unfold octets. apply Forall_app. split; [exact Hop | apply slice_octets; exact Ho7].
    - apply slice_octets; exact Ho7.
    - unfold RFC768.pseudo_header. rewrite !length_app, !length_slice. reflexivity.
    - rewrite wsum_app_even
        by (unfold RFC768.pseudo_header; rewrite !length_app, !length_slice; reflexivity).
      lia.
    - subst c. rewrite ES. reflexivity.
    - cbn zeta in Hz. rewrite <- !app_assoc in Hz |- *. rewrite Hz. reflexivity. }
  split.
  { (* total length *)
    transitivity (Wire.be16 (wr16 p3 16 (htons (h + 8 + n))) 16).
    - apply be16_ext; rewrite Hf by lia; subst p8 p7 p5; rd_skip; reflexivity.
    - apply be16_wr16_htons; try lia; [subst p3; apply wr16_octets; exact Ho2|].
      subst p3 p2. length_skip. lia. }
  split.
  { rewrite <- Hul. apply be16_ext; rewrite Hf by (subst udp; lia); reflexivity. }
  split.
  { apply slice_ext2. intros k Hk. rewrite Hf by (subst udp; lia).
    subst p8. rd_skip. subst p7.
    destruct (copy_in_spec n (udp + 8) udpData (wr16 p5 (udp + 4) (htons (8 + n))))
      as [_ Hc]; try (length_skip; subst udp; lia).
    cbn zeta in Hc. rewrite Hc. zcases. f_equal. lia. }
  assert (Hport : Wire.be16 packet (udp + 2) = Wire.be16 p2 (udp + 2))
    by (apply be16_ext; rewrite Hsw; subst udp; zcases; reflexivity).
  split.
  { transitivity (Wire.be16 p3 udp).
    - apply be16_ext; rewrite Hf by (subst udp; lia); subst p8 p7 p5; rd_skip; reflexivity.
    - rewrite Hport. rewrite <- !htons_rd16 by (try apply wr16_octets; assumption).
      subst p3. rewrite rd16_wr16; [reflexivity | subst udp; lia | |].
      + subst p2. length_skip. subst udp. lia.
      + unfold rd16. pose proof (rd_octet p2 (udp + 2) Ho2).
        pose proof (rd_octet p2 (udp + 2 + 1) Ho2). unfold octet in *. lia. }
  split.
  { rewrite Hport.
    apply be16_ext; rewrite Hf by (subst udp; lia); subst p8 p7 p5 p3; rd_skip; reflexivity. }
  repeat split; apply slice_ext2; intros k Hk; rewrite Hf by lia;
    subst p8 p7 p5 p3; rd_skip; rewrite Hsw; zcases; f_equal; lia.
Qed.

(** The checksum [tcp_checksum] stores makes the sum of the receiver fold
    to 0, when the octets summed are contiguous: no data, or a 20-octet
    TCP header. *)
Lemma tcp_checksum_verifies p tcp L hdr n :
  octets p -> 34 <= tcp -> 0 <= n -> 18 <= hdr -> Z.even hdr = true ->
  L = hdr + n -> L < 65536 -> n = 0 \/ hdr = 20 ->
  tcp + L <= Z.of_nat (length p) ->
  let q := tcp_checksum p 14 tcp L hdr n in
  getEtherChecksum
    (wsum false (slice q 26 8 ++ [0; rd q 23] ++ [0; L mod 2 ^ 8] ++ slice q tcp L)) = 0.
Proof.
  intros Hp Htcp Hn Hhdr Hev HLd HL Hcont Hlen q.
  subst q. unfold tcp_checksum. cbn zeta.
  change (14 + ipFrame.sourceIp) with 26. change (14 + ipFrame.protocol) with 23.
  unfold tcpFrame.checksum, tcpFrame.data.
  set (p0 := wr16 p (tcp + 16) 0).
  assert (Ho0 : octets p0) by (subst p0; apply wr16_octets; assumption).
  assert (Hl0 : length p0 = length p) by (subst p0; apply length_wr16).
  set (S := etherSumWords _ p0 (tcp + 20) n).
  set (c := getEtherChecksum S).
  set (A := slice p0 26 8 ++ [0; rd p0 23] ++ [0; L mod 2 ^ 8] ++ slice p0 tcp 16).
  set (B := slice p0 (tcp + 18) (L - 18)).
  assert (HoA : octets A).
  { subst A. pose proof (rd_octet p0 23 Ho0). unfold octet in *.
    pose proof (Z.mod_pos_bound L (2 ^ 8) ltac:(lia)).
    unfold octets. repeat (apply Forall_app; split); try (apply slice_octets; assumption);
      repeat constructor; unfold octet; lia. }
  assert (HoB : octets B) by (subst B; apply slice_octets; assumption).
  assert (HeA : Nat.even (length A) = true)
    by (subst A; rewrite !length_app, !length_slice; reflexivity).
  assert (E0 : slice p0 tcp L = slice p0 tcp 16 ++ [0; 0] ++ B).
  { subst B. replace L with (16 + (2 + (L - 18))) at 1 by lia.
    rewrite !slice_app by lia. do 2 f_equal; [|f_equal; lia].
    rewrite slice_cons by lia. rewrite slice_cons by lia. rewrite slice_nil by lia.
    subst p0. rewrite !rd_wr16 by lia. replace (tcp + 16 + 1 - 1) with (tcp + 16) by lia.
    rewrite !Z.eqb_refl. destruct (Z.eqb_spec (tcp + 16) (tcp + 16 + 1)); [lia|].
    reflexivity. }
  destruct (tcp_sum_value p0 tcp L Ho0 ltac:(lia)) as (Hsum & _ & Hlt).
  cbn zeta in Hsum, Hlt.
  assert (ES : S = wsum false A + wsum false B).
  { transitivity (wsum false (slice p0 26 8 ++ [0; rd p0 23] ++ [0; L mod 2 ^ 8]
                              ++ slice p0 tcp L)).
    - rewrite <- Hsum. subst S.
      set (X := u32 (u32 (etherSumWords 0 p0 26 8 + _) + _)).
      assert (HX : 0 <= X < 2 ^ 32) by (subst X; apply Z.mod_pos_bound; lia).
      destruct Hcont as [-> | ->].
      + unfold etherSumWords at 1. cbn [sumWords_loop Z.to_nat u16 Z.modulo].
        subst X. rewrite HLd, Z.add_0_r. reflexivity.
      + rewrite (etherSumWords_spec X p0 tcp 20) by lia.
        rewrite etherSumWords_spec by (try apply Z.mod_pos_bound; lia).
        rewrite (etherSumWords_spec X) by lia.
        replace (slice p0 tcp L) with (slice p0 tcp (20 + n)) by (f_equal; lia).
        rewrite slice_app by lia. rewrite wsum_app_even by (rewrite length_slice; reflexivity).
        rewrite u32_add_l. f_equal. lia.
    - rewrite E0. subst A. rewrite !app_assoc.
      rewrite (wsum_app_even false _ B).
      2:{ rewrite !length_app, !length_slice. reflexivity. }
      rewrite (wsum_app_even false _ [0; 0]).
      2:{ rewrite !length_app, !length_slice. reflexivity. }
      cbn [wsum negb]. lia. }
  set (q := wr16 p0 (tcp + 16) c).
  assert (Eq : slice q 26 8 ++ [0; rd q 23] ++ [0; L mod 2 ^ 8] ++ slice q tcp L
               = A ++ [c mod 2 ^ 8; c / 2 ^ 8 mod 2 ^ 8] ++ B).
  { subst A B q.
    rewrite (slice_ext (wr16 p0 (tcp + 16) c) p0 26 8)
      by (intros j Hj; rewrite rd_wr16_other by lia; reflexivity).
    rewrite rd_wr16_other by lia.
    rewrite slice_wr16_field by lia.
    replace (tcp + 16 - tcp) with 16 by lia.
    replace (tcp + 16 + 2) with (tcp + 18) by lia.
    replace (tcp + L - (tcp + 18)) with (L - 18) by lia.
    rewrite <- !app_assoc. reflexivity. }
  rewrite Eq.
  destruct (checksum_field_verifies A B c HoA HoB HeA) as (_ & _ & Hz).
  - rewrite <- ES.
    transitivity (wsum false (slice p0 26 8 ++ [0; rd p0 23] ++ [0; L mod 2 ^ 8]
                              ++ slice p0 tcp L)); [|exact Hlt].
    rewrite ES, E0. subst A. rewrite !app_assoc.
    rewrite (wsum_app_even false _ B) by (rewrite !length_app, !length_slice; reflexivity).
    rewrite (wsum_app_even false _ [0; 0]) by (rewrite !length_app, !length_slice; reflexivity).
    cbn [wsum negb]. lia.
  - subst c. rewrite ES. reflexivity.
  - exact Hz.
Qed.

(** [etherIsTcp] reads the IP header and the segment only. *)
Lemma etherIsTcp_ext m m' n :
  octets m ->
  34 <= n -> 14 + ip_hlen m 14 + u16 (Wire.be16 m 16 - 20) <= n ->
  (forall j, 0 <= j < n -> rd m' j = rd m j) -> etherIsTcp m' = etherIsTcp m.
Proof.
  intros Hm Hn Hu H. unfold etherIsTcp. cbn zeta.
  change etherFrame.data with 14. change (14 + ipFrame.protocol) with 23.
  change (14 + ipFrame.sourceIp) with 26. change (14 + ipFrame.length) with 16.
  pose proof (ip_hlen_range m 14) as Hr.
  rewrite (ip_hlen_ext m m' 14) by (apply H; lia).
  rewrite (H 23) by lia.
  rewrite (rd16_ext m' m 16) by (apply H; lia).
  rewrite (etherSumWords_ext 0 m m' 26 8)
    by (intros j Hj; rewrite u16_small in Hj by lia; apply H; lia).
  rewrite (etherSumWords_ext _ m m' (14 + ip_hlen m 14)); [reflexivity|].
  intros j Hj. apply H. rewrite htons_rd16 in Hj by assumption.
  assert (0 <= u16 (Wire.be16 m 16 - 20) < 65536) by (apply Z.mod_pos_bound; lia).
  rewrite (u16_small (u16 _)) in Hj by lia. lia.
Qed.

(** A buffer with a valid 20-octet IP header of protocol 6 whose total
    length is [20 + L]: after [tcp_checksum] the first [34 + L] octets are a
    frame that [etherIsIp] and [etherIsTcp] accept. *)
Lemma tcp_frame_accepted p L hdr n :
  octets p -> etherIsIp p = true -> ip_hlen p 14 = 20 -> rd p 23 = 6 ->
  Wire.be16 p 16 = 20 + L ->
  0 <= n -> 18 <= hdr -> Z.even hdr = true -> L = hdr + n -> n = 0 \/ hdr = 20 ->
  34 + L <= Z.of_nat (length p) -> L < 65536 - 34 ->
  let f := slice (tcp_checksum p 14 34 L hdr n) 0 (34 + L) in
  etherIsIp f = true /\ etherIsTcp f = true.
Proof.
  intros Hp Hip Hh Hpr Htot Hn Hhdr Hev HL Hcont Hlen HLr f.
  set (q := tcp_checksum p 14 34 L hdr n) in *.
  assert (Hoq : octets q) by (subst q; apply tcp_checksum_octets; assumption).
  assert (Hf : forall j, 0 <= j < 34 + L -> rd f j = rd q j)
    by (intros j Hj; subst f; apply rd_sent; lia).
  assert (Hq : forall j, j <> 50 -> j <> 51 -> rd q j = rd p j)
    by (intros j H0 H1; subst q; apply rd_tcp_checksum_other; lia).
  assert (Hhq : ip_hlen q 14 = 20) by (rewrite <- Hh; apply ip_hlen_ext, Hq; lia).
  assert (Htq : Wire.be16 q 16 = 20 + L) by (rewrite <- Htot; apply be16_ext; apply Hq; lia).
  split.
  - rewrite <- Hip. apply (etherIsIp_ext p f 34); rewrite ?Hh; try lia.
    intros j Hj. rewrite Hf by lia. apply Hq; lia.
  - rewrite (etherIsTcp_ext q f (34 + L)); try assumption; try lia.
    2:{ rewrite Hhq, Htq. rewrite u16_small by lia. lia. }
    unfold etherIsTcp. cbn zeta.
    change etherFrame.data with 14. change (14 + ipFrame.protocol) with 23.
    change (14 + ipFrame.sourceIp) with 26. change (14 + ipFrame.length) with 16.
    rewrite Hhq. change (14 + 20) with 34.
    rewrite (Hq 23), Hpr by lia. cbn [Z.eqb Pos.eqb].
    rewrite htons_rd16, Htq by assumption.
    replace (20 + L - 20) with L by lia. rewrite (u16_small L) by lia.
    destruct (tcp_sum_value q 34 L Hoq ltac:(lia)) as (Hsum & _ & _).
    cbn zeta in Hsum. rewrite (Hq 23), Hpr in Hsum by lia. rewrite Hsum.
    pose proof (tcp_checksum_verifies p 34 L hdr n Hp ltac:(lia) Hn Hhdr Hev HL ltac:(lia)
                  Hcont Hlen) as Hz.
    cbn zeta in Hz. fold q in Hz. rewrite (Hq 23), Hpr in Hz by lia.
    rewrite Hz. reflexivity.
Qed.

(** The IP header the builders complete with [etherCalcIpChecksum]. *)
Lemma calc_is_ip p :
  octets p -> Wire.be16 p 12 = 0x0800 -> 20 <= ip_hlen p 14 ->
  14 + ip_hlen p 14 <= Z.of_nat (length p) ->
  etherIsIp (etherCalcIpChecksum p 14) = true.
Proof.
  intros Hp Hty Hh Hlen.
  unfold etherIsIp. cbn zeta.
  change (0 + etherFrame.data) with 14. change (0 + etherFrame.frameType) with 12.
  change (14 + ipFrame.revSize) with 14.
  rewrite frame_type_test by (try apply calc_octets; try assumption; lia).
  replace (Wire.be16 (etherCalcIpChecksum p 14) 12) with (Wire.be16 p 12)
    by (apply be16_ext; rewrite rd_calc_other by lia; reflexivity).
  rewrite Hty. cbn [Z.eqb Pos.eqb].
  rewrite calc_folds_to_zero; [reflexivity | assumption | lia | lia | lia].
Qed.

(** The SYN ACK of [etherSendTcpSynAck]. *)
Lemma syn_ack_accepted :
  forall g p,
    let doff := Z.shiftr (tcp_hl p) 12 in
    octets p ->
    Wire.be16 p etherFrame.frameType = 0x0800 ->
    rd p (14 + ipFrame.protocol) = 6 ->
    ip_hlen p 14 = 20 -> 5 <= doff ->
    Wire.be16 p (14 + ipFrame.length) = 20 + doff * 4 ->
    94 <= Z.of_nat (length p) ->
    exists f,
      tx (fst (etherSendTcpSynAck g p)) = tx g ++ [f]
      /\ Z.of_nat (length f) = 34 + doff * 4
      /\ etherIsIp f = true
      /\ etherIsTcp f = true.
Proof.
  intros g p doff Hoct Hty Hpr Hh Hdoff Htot Hlen.
  change etherFrame.frameType with 12 in Hty.
  change (14 + ipFrame.protocol) with 23 in Hpr. change (14 + ipFrame.length) with 16 in Htot.
  assert (Hh' : 20 <= ip_hlen p 14) by lia.
  destruct (turn_around_spec p Hoct Hh' ltac:(rewrite Hh; lia)) as (Hl1 & Ho1 & Hfr1 & _).
  pose proof (tcp_hl_after_turn p Hoct Hh' ltac:(rewrite Hh; lia)) as Hhl.
  cbn zeta in Hfr1, Hhl. rewrite Hh in Hfr1, Hhl. change (14 + 20) with 34 in Hfr1, Hhl.
  pose proof (tcp_hl_range p) as Hhlr.
  pose proof (shiftr12_range (tcp_hl p) Hhlr) as Hdr. fold doff in Hdr.
  unfold etherSendTcpSynAck. cbn zeta.
  change (0 + etherFrame.data) with 14. rewrite Hh. change (14 + 20) with 34.
  unfold tcpFrame.sequenceNumber, tcpFrame.headerLength.
  set (p1 := tcp_turn_around p) in *.
  rewrite (Hhl (htols (currentIsn g))).
  set (p2 := wr32 p1 (34 + 4) (htols (currentIsn g))).
  assert (Ehl : htons (rd16 p (34 + 12)) = tcp_hl p).
  { unfold tcp_hl. cbn zeta. change etherFrame.data with 14. rewrite Hh. reflexivity. }
  rewrite Ehl. change (Z.shiftl 1 4) with 16.
  rewrite data_offset_lor by lia. fold doff. rewrite (u8_small doff) by lia.
  set (p3 := wr16 p2 (34 + 12) (htons (Z.lor (tcp_hl p) 16))).
  assert (Ho3 : octets p3) by (subst p3 p2; apply wr16_octets, wr32_octets, Ho1).
  assert (Hl3 : length p3 = length p) by (subst p3 p2; length_skip; exact Hl1).
  assert (Hr3 : forall j, 12 <= j < 26 -> rd p3 j = rd p j)
    by (intros j Hj; subst p3 p2; rd_skip; apply Hfr1; lia).
  assert (Hh3 : ip_hlen p3 14 = 20) by (rewrite <- Hh; apply ip_hlen_ext, Hr3; lia).
  set (p4 := etherCalcIpChecksum p3 14).
  assert (Hr4 : forall j, 12 <= j < 24 -> rd p4 j = rd p j)
    by (intros j Hj; subst p4; rd_skip; apply Hr3; lia).
  set (p5 := tcp_checksum p4 14 34 (doff * 4) (doff * 4) 0).
  assert (Hh5 : ip_hlen p5 14 = 20).
  { rewrite <- Hh. apply ip_hlen_ext. subst p5. rd_skip. apply Hr4. lia. }
  rewrite Hh5. unfold etherPutPacket. cbn [fst tx set_tx set_currentIsn].
  rewrite (u16_small (14 + 20 + doff * 4)) by lia.
  change (14 + 20) with 34.
  exists (slice p5 0 (34 + doff * 4)).
  split; [reflexivity|]. split; [rewrite length_slice; lia|].
  subst p5. apply tcp_frame_accepted; try lia.
  - subst p4. apply calc_octets, Ho3.
  - subst p4. apply calc_is_ip; rewrite ?Hh3; try lia; [exact Ho3|].
    rewrite <- Hty. apply be16_ext; apply Hr3; lia.
  - rewrite <- Hh. apply ip_hlen_ext, Hr4. lia.
  - rewrite Hr4 by lia. exact Hpr.
  - rewrite <- Htot. apply be16_ext; apply Hr4; lia.
  - rewrite Z.even_mul. apply orb_true_r.
  - subst p4. length_skip. lia.
Qed.

(** The data segment of [etherSendTelnetData]. *)
Lemma telnet_data_accepted :
  forall g p telnetData n,
    octets p ->
    Wire.be16 p etherFrame.frameType = 0x0800 ->
    rd p (14 + ipFrame.protocol) = 6 ->
    ip_hlen p 14 = 20 -> Z.shiftr (tcp_hl p) 12 = 5 ->
    octets telnetData -> 0 <= n < 256 -> n <= Z.of_nat (length telnetData) ->
    94 <= Z.of_nat (length p) -> 54 + n <= Z.of_nat (length p) ->
    exists f,
      tx (fst (etherSendTelnetData g p telnetData n)) = tx g ++ [f]
      /\ Z.of_nat (length f) = 54 + n
      /\ etherIsIp f = true
      /\ etherIsTcp f = true
      /\ slice f 54 n = slice telnetData 0 n.
Proof.
  intros g p telnetData n Hoct Hty Hpr Hh Hdoff Hdata Hn Hdl Hlen Hlen'.
  change etherFrame.frameType with 12 in Hty.
  change (14 + ipFrame.protocol) with 23 in Hpr.
  assert (Hh' : 20 <= ip_hlen p 14) by lia.
  destruct (turn_around_spec p Hoct Hh' ltac:(rewrite Hh; lia)) as (Hl1 & Ho1 & Hfr1 & _).
  pose proof (tcp_hl_after_turn p Hoct Hh' ltac:(rewrite Hh; lia)) as Hhl.
  cbn zeta in Hfr1, Hhl. rewrite Hh in Hfr1, Hhl. change (14 + 20) with 34 in Hfr1, Hhl.
  pose proof (tcp_hl_range p) as Hhlr.
  unfold etherSendTelnetData. cbn zeta.
  rewrite (u8_small n) by lia.
  change (0 + etherFrame.data) with 14. rewrite Hh. change (14 + 20) with 34.
  change (14 + ipFrame.length) with 16.
  unfold tcpFrame.sequenceNumber, tcpFrame.headerLength, tcpFrame.data.
  set (p1 := tcp_turn_around p) in *.
  rewrite (Hhl (htols (currentIsn g))).
  set (p2 := wr32 p1 (34 + 4) (htols (currentIsn g))).
  assert (Ehl : htons (rd16 p (34 + 12)) = tcp_hl p).
  { unfold tcp_hl. cbn zeta. change etherFrame.data with 14. rewrite Hh. reflexivity. }
  rewrite Ehl, Hdoff. change (u8 5) with 5. change (5 * 4) with 20.
  set (p3 := wr16 p2 (34 + 12) (htons (tcp_hl p))).
  set (p4 := for_loop n (fun i q => wr q (34 + 20 + i) (rd telnetData i)) p3).
  set (p5 := wr16 p4 16 (htons (40 + n))).
  assert (Ho5 : octets p5).
  { subst p5 p4 p3 p2. apply wr16_octets, copy_octets; [assumption|].
    apply wr16_octets, wr32_octets, Ho1. }
  assert (Hl5 : length p5 = length p) by (subst p5 p4 p3 p2; length_skip; exact Hl1).
  assert (Hr5 : forall j, 12 <= j < 26 -> j <> 16 -> j <> 17 -> rd p5 j = rd p j)
    by (intros j Hj H16 H17; subst p5 p4 p3 p2; rd_skip; apply Hfr1; lia).
  assert (Hh5 : ip_hlen p5 14 = 20) by (rewrite <- Hh; apply ip_hlen_ext, Hr5; lia).
  assert (Ht5 : Wire.be16 p5 16 = 40 + n).
  { subst p5. apply be16_wr16_htons; try lia.
    - subst p4 p3 p2. apply copy_octets; [assumption|]. apply wr16_octets, wr32_octets, Ho1.
    - subst p4 p3 p2. length_skip. lia. }
  set (p6 := etherCalcIpChecksum p5 14).
  assert (Hr6 : forall j, j <> 24 -> j <> 25 -> rd p6 j = rd p5 j)
    by (intros j H0 H1; subst p6; rd_skip; reflexivity).
  set (p7 := tcp_checksum p6 14 34 (20 + n) 20 n).
  assert (Hh7 : ip_hlen p7 14 = 20).
  { rewrite <- Hh5. apply ip_hlen_ext. subst p7. rd_skip. apply Hr6; lia. }
  rewrite Hh7. unfold etherPutPacket. cbn [fst tx set_tx set_currentIsn].
  rewrite (u16_small (14 + 20 + 20 + n)) by lia.
  replace (14 + 20 + 20 + n) with (34 + (20 + n)) by lia.
  exists (slice p7 0 (34 + (20 + n))).
  split; [reflexivity|]. split; [rewrite length_slice; lia|].
  apply and_assoc. split.
  - subst p7. apply tcp_frame_accepted; try lia.
    + subst p6. apply calc_octets, Ho5.
    + subst p6. apply calc_is_ip; rewrite ?Hh5; try lia; [exact Ho5|].
      rewrite <- Hty. apply be16_ext; apply Hr5; lia.
    + rewrite <- Hh5. apply ip_hlen_ext, Hr6; lia.
    + rewrite Hr6, Hr5 by lia. exact Hpr.
    + replace (20 + (20 + n)) with (40 + n) by lia.
      rewrite <- Ht5. apply be16_ext; apply Hr6; lia.
    + reflexivity.
    + subst p6. length_skip. lia.
  - apply slice_ext2. intros k Hk. rewrite rd_sent by lia.
    subst p7 p6 p5. rd_skip. subst p4.
    destruct (copy_in_spec n (34 + 20) telnetData p3) as [_ Hc];
      try (subst p3 p2; length_skip; lia).
    cbn zeta in Hc. rewrite Hc. zcases. f_equal. lia.
Qed.

(** The two segments of [etherSendAckFinAck]. *)
Lemma ack_fin_ack_accepted :
  forall g p,
    let doff := Z.shiftr (tcp_hl p) 12 in
    octets p ->
    Wire.be16 p etherFrame.frameType = 0x0800 ->
    rd p (14 + ipFrame.protocol) = 6 ->
    ip_hlen p 14 = 20 -> 5 <= doff ->
    Wire.be16 p (14 + ipFrame.length) = 20 + doff * 4 ->
    94 <= Z.of_nat (length p) ->
    exists f1 f2,
      tx (fst (etherSendAckFinAck g p)) = tx g ++ [f1; f2]
      /\ etherIsIp f1 = true /\ etherIsTcp f1 = true
      /\ etherIsIp f2 = true /\ etherIsTcp f2 = true.
Proof.
  intros g p doff Hoct Hty Hpr Hh Hdoff Htot Hlen.
  change etherFrame.frameType with 12 in Hty.
  change (14 + ipFrame.protocol) with 23 in Hpr. change (14 + ipFrame.length) with 16 in Htot.
  assert (Hh' : 20 <= ip_hlen p 14) by lia.
  destruct (turn_around_spec p Hoct Hh' ltac:(rewrite Hh; lia)) as (Hl1 & Ho1 & Hfr1 & _).
  pose proof (tcp_hl_after_turn p Hoct Hh' ltac:(rewrite Hh; lia)) as Hhl.
  cbn zeta in Hfr1, Hhl. rewrite Hh in Hfr1, Hhl. change (14 + 20) with 34 in Hfr1, Hhl.
  pose proof (tcp_hl_range p) as Hhlr.
  pose proof (shiftr12_range (tcp_hl p) Hhlr) as Hdr. fold doff in Hdr.
  pose proof (lor_range16 (tcp_hl p) 16 Hhlr ltac:(lia)) as Hlr.
  destruct (clear_bit0 (Z.lor (tcp_hl p) 16) Hlr) as (Hyr & _ & _ & Hy12).
  unfold etherSendAckFinAck. cbn zeta.
  change (0 + etherFrame.data) with 14. rewrite Hh. change (14 + 20) with 34.
  unfold tcpFrame.sequenceNumber, tcpFrame.headerLength.
  set (p1 := tcp_turn_around p) in *.
  rewrite (Hhl (htols (currentIsn g))).
  set (p2 := wr32 p1 (34 + 4) (htols (currentIsn g))).
  assert (Ehl : htons (rd16 p (34 + 12)) = tcp_hl p).
  { unfold tcp_hl. cbn zeta. change etherFrame.data with 14. rewrite Hh. reflexivity. }
  rewrite Ehl. change (Z.shiftl 1 4) with 16.
  set (y := u16 (Z.shiftl (u16 (Z.shiftr (Z.lor (tcp_hl p) 16) 1)) 1)) in *.
  rewrite Hy12, data_offset_lor by lia. fold doff. rewrite (u8_small doff) by lia.
  set (p3 := wr16 p2 (34 + 12) (htons y)).
  assert (Ho3 : octets p3) by (subst p3 p2; apply wr16_octets, wr32_octets, Ho1).
  assert (Hl3 : length p3 = length p) by (subst p3 p2; length_skip; exact Hl1).
  assert (Hr3 : forall j, 12 <= j < 26 -> rd p3 j = rd p j)
    by (intros j Hj; subst p3 p2; rd_skip; apply Hfr1; lia).
  assert (Hh3 : ip_hlen p3 14 = 20) by (rewrite <- Hh; apply ip_hlen_ext, Hr3; lia).
  set (p4 := etherCalcIpChecksum p3 14).
  assert (Ho4 : octets p4) by (subst p4; apply calc_octets, Ho3).
  assert (Hr4 : forall j, 12 <= j < 24 -> rd p4 j = rd p j)
    by (intros j Hj; subst p4; rd_skip; apply Hr3; lia).
  assert (Hip4 : etherIsIp p4 = true).
  { subst p4. apply calc_is_ip; rewrite ?Hh3; try lia; [exact Ho3|].
    rewrite <- Hty. apply be16_ext; apply Hr3; lia. }
  set (p5 := tcp_checksum p4 14 34 (doff * 4) (doff * 4) 0).
  assert (Ho5 : octets p5) by (subst p5; apply tcp_checksum_octets, Ho4).
  assert (Hl5 : length p5 = length p) by (subst p5 p4; length_skip; exact Hl3).
  assert (Hh5 : ip_hlen p5 14 = 20).
  { rewrite <- Hh. apply ip_hlen_ext. subst p5. rd_skip. apply Hr4. lia. }
  set (p6 := wr16 p5 (34 + 12) _).
  assert (Ho6 : octets p6) by (subst p6; apply wr16_octets, Ho5).
  assert (Hr6 : forall j, 0 <= j < 34 -> rd p6 j = rd p4 j)
    by (intros j Hj; subst p6 p5; rd_skip; reflexivity).
  assert (Hh6 : ip_hlen p6 14 = 20).
  { rewrite <- Hh. apply ip_hlen_ext. rewrite Hr6 by lia. apply Hr4. lia. }
  set (p7 := tcp_checksum p6 14 34 (doff * 4) (doff * 4) 0).
  assert (Hh7 : ip_hlen p7 14 = 20).
  { rewrite <- Hh6. apply ip_hlen_ext. subst p7. rd_skip. reflexivity. }
  rewrite Hh5, Hh7. unfold etherPutPacket. cbn [fst tx set_tx set_currentIsn].
  rewrite (u16_small (14 + 20 + doff * 4)) by lia.
  change (14 + 20) with 34.
  exists (slice p5 0 (34 + doff * 4)), (slice p7 0 (34 + doff * 4)).
  split; [rewrite <- app_assoc; reflexivity|].
  apply and_assoc. split.
  - subst p5. apply tcp_frame_accepted; try lia; try assumption.
    + rewrite <- Hh. apply ip_hlen_ext, Hr4. lia.
    + rewrite Hr4 by lia. exact Hpr.
    + rewrite <- Htot. apply be16_ext; apply Hr4; lia.
    + rewrite Z.even_mul. apply orb_true_r.
    + subst p4. length_skip. lia.
  - subst p7. apply tcp_frame_accepted; try lia; try assumption.
    + rewrite <- Hip4. apply (etherIsIp_ext p4 p6 34); try lia; [|exact Hr6].
      rewrite (ip_hlen_ext p p4) by (apply Hr4; lia). lia.
    + rewrite Hr6, Hr4 by lia. exact Hpr.
    + rewrite <- Htot. apply be16_ext; rewrite Hr6 by lia; apply Hr4; lia.
    + rewrite Z.even_mul. apply orb_true_r.
    + subst p6. length_skip. lia.
Qed.

(** X29.  The segments the three TCP builders transmit in answer to a
    segment with a 20-octet IP header pass the tests of the code's own
    receiver, [etherIsIp] and [etherIsTcp]: the SYN ACK and the two answers
    to a FIN when the segment answered carries no data, and the data
    segment, which carries the octets given, when the segment answered has
    a 20-octet TCP header. *)
Theorem X29_tcp_segments_are_accepted :
  forall g p,
    let doff := Z.shiftr (tcp_hl p) 12 in
    octets p ->
    Wire.be16 p etherFrame.frameType = 0x0800 ->
    rd p (14 + ipFrame.protocol) = 6 ->
    ip_hlen p 14 = 20 -> 5 <= doff ->
    94 <= Z.of_nat (length p) ->
    (Wire.be16 p (14 + ipFrame.length) = 20 + doff * 4 ->
       exists f,
         tx (fst (etherSendTcpSynAck g p)) = tx g ++ [f]
         /\ Z.of_nat (length f) = 34 + doff * 4
         /\ etherIsIp f = true /\ etherIsTcp f = true)
    /\ (Wire.be16 p (14 + ipFrame.length) = 20 + doff * 4 ->
       exists f1 f2,
         tx (fst (etherSendAckFinAck g p)) = tx g ++ [f1; f2]
         /\ etherIsIp f1 = true /\ etherIsTcp f1 = true
         /\ etherIsIp f2 = true /\ etherIsTcp f2 = true)
    /\ (forall telnetData n,
          doff = 5 -> octets telnetData ->
          0 <= n < 256 -> n <= Z.of_nat (length telnetData) ->
          54 + n <= Z.of_nat (length p) ->
          exists f,
            tx (fst (etherSendTelnetData g p telnetData n)) = tx g ++ [f]
            /\ Z.of_nat (length f) = 54 + n
            /\ etherIsIp f = true /\ etherIsTcp f = true
            /\ slice f 54 n = slice telnetData 0 n).
Proof.
  intros g p doff Hoct Hty Hpr Hh Hdoff Hlen.
  split; [|split].
  - intros Htot. apply syn_ack_accepted; assumption.
  - intros Htot. apply ack_fin_ack_accepted; assumption.
  - intros telnetData n Hd Hdata Hn Hdl Hl.
    apply telnet_data_accepted; assumption.
Qed.

(** ** Decimal conversion of the console *)

Lemma s32_small x : - 2 ^ 31 <= x < 2 ^ 31 -> s32 x = x.
Proof. intros H. unfold s32. rewrite Z.mod_small by lia. lia. Qed.

Lemma div_pow10_step N m :
  0 <= N -> 0 <= m -> N / 10 ^ (m + 1) * 10 + (N / 10 ^ m) mod 10 = N / 10 ^ m.
Proof.
  intros HN Hm. rewrite Z.pow_add_r by lia. change (10 ^ 1) with 10.
  rewrite <- Z.div_div by lia.
  pose proof (Z.div_mod (N / 10 ^ m) 10 ltac:(lia)). lia.
Qed.

(** [atoi] over [m] decimal digits followed by NUL. *)
Lemma atoi_loop_digits N (m : nat) : forall r i res,
  0 <= N <= 2 ^ 31 - 49 -> 0 <= i ->
  (forall j, 0 <= j < Z.of_nat m ->
             rd r (i + j) = 48 + (N / 10 ^ (Z.of_nat m - 1 - j)) mod 10) ->
  rd r (i + Z.of_nat m) = 0 ->
  res = N / 10 ^ Z.of_nat m ->
  atoi_loop (drop (Z.to_nat i) r) res = N.
Proof.
  induction m as [|m IH]; intros r i res HN Hi Hd Hz Hres.
  - change (Z.of_nat 0) with 0 in *. rewrite Z.add_0_r in Hz.
    change (10 ^ 0) with 1 in Hres. rewrite Z.div_1_r in Hres. subst res.
    destruct (drop (Z.to_nat i) r) as [|x t] eqn:E; [reflexivity|].
    assert (Hx : rd r i = x).
    { unfold rd. destruct (Z.leb_spec 0 i); [|lia].
      rewrite <- (Nat.add_0_r (Z.to_nat i)), <- lookup_drop, E. reflexivity. }
    cbn [atoi_loop]. rewrite <- Hx, Hz. reflexivity.
  - pose proof (Hd 0 ltac:(lia)) as H0. rewrite Z.add_0_r, Z.sub_0_r in H0.
    replace (Z.of_nat (S m) - 1) with (Z.of_nat m) in H0 by lia.
    pose proof (Z.mod_pos_bound (N / 10 ^ Z.of_nat m) 10 ltac:(lia)) as Hdig.
    destruct (r !! Z.to_nat i) as [x|] eqn:E.
    2:{ exfalso. unfold rd in H0. destruct (Z.leb_spec 0 i); [|lia].
        rewrite E in H0. cbn in H0. lia. }
    assert (Hx : x = 48 + (N / 10 ^ Z.of_nat m) mod 10).
    { rewrite <- H0. unfold rd. destruct (Z.leb_spec 0 i); [|lia]. rewrite E. reflexivity. }
    rewrite (drop_S _ _ _ E). cbn [atoi_loop].
    replace (truthy x) with true by (unfold truthy; destruct (Z.eqb_spec x 0); [lia|reflexivity]).
    replace (S (Z.to_nat i)) with (Z.to_nat (i + 1)) by lia.
    pose proof (div_pow10_step N (Z.of_nat m) ltac:(lia) ltac:(lia)) as Hstep.
    replace (Z.of_nat m + 1) with (Z.of_nat (S m)) in Hstep by lia.
    assert (Hq : 0 <= N / 10 ^ Z.of_nat m <= N).
    { split; [apply Z.div_pos; lia|].
      apply Z.div_le_upper_bound; [lia|]. 
      assert (1 <= 10 ^ Z.of_nat m) by (apply Z.pow_le_mono_r with (b := 0) (c := Z.of_nat m); lia).
      nia. }
    assert (Hr0 : 0 <= res) by (subst res; apply Z.div_pos; lia).
    apply IH; try lia.
    + intros j Hj. replace (i + 1 + j) with (i + (j + 1)) by lia.
      rewrite Hd by lia.
      replace (Z.of_nat (S m) - 1 - (j + 1)) with (Z.of_nat m - 1 - j) by lia. reflexivity.
    + replace (i + 1 + Z.of_nat m) with (i + Z.of_nat (S m)) by lia. exact Hz.
    + rewrite (s32_small (res * 10)) by lia.
      rewrite (s32_small (res * 10 + x)) by lia.
      rewrite s32_small by lia. lia.
Qed.

Lemma atoi_digits N (m : nat) r :
  0 <= N <= 2 ^ 31 - 49 ->
  (forall j, 0 <= j < Z.of_nat m -> rd r j = 48 + (N / 10 ^ (Z.of_nat m - 1 - j)) mod 10) ->
  rd r (Z.of_nat m) = 0 ->
  N / 10 ^ Z.of_nat m = 0 ->
  atoi r = N.
Proof.
  intros HN Hd Hz Hend.
  apply (atoi_loop_digits N m r 0 0); try lia.
  - intros j Hj. rewrite Z.add_0_l. apply Hd. exact Hj.
  - rewrite Z.add_0_l. exact Hz.
Qed.

(** The digit loop of [parseInt] on a positive number: the decimal digits
    are stored least significant first. *)
Lemma parseInt_loop_spec N (fuel : nat) : forall i str cur,
  0 <= N -> 0 <= i -> cur = N / 10 ^ i -> cur < 10 ^ (Z.of_nat fuel - 1) ->
  i + Z.of_nat fuel <= 256 -> i + Z.of_nat fuel <= Z.of_nat (length str) + 1 ->
  exists k str',
    parseInt_loop fuel cur i str = Some (k, str')
    /\ i <= k < i + Z.of_nat fuel /\ (cur <> 0 -> i < k) /\ N / 10 ^ k = 0
    /\ length str' = length str
    /\ (forall j, i <= j < k -> rd str' j = 48 + (N / 10 ^ j) mod 10)
    /\ (forall j, ~ (i <= j < k) -> rd str' j = rd str j).
Proof.
  induction fuel as [|fuel IH]; intros i str cur HN Hi Hcur Hlt H256 Hlen.
  - exfalso. assert (0 <= cur) by (subst cur; apply Z.div_pos; lia).
    change (Z.of_nat 0 - 1) with (-1) in Hlt. cbn in Hlt. lia.
  - assert (Hc0 : 0 <= cur) by (subst cur; apply Z.div_pos; lia).
    cbn [parseInt_loop]. destruct (Z.eqb_spec cur 0) as [E0|Hne]; cbn [negb].
    + exists i, str. repeat split; try lia.
    + assert (Hf : (1 <= fuel)%nat).
      { destruct fuel; [|lia]. change (Z.of_nat 1 - 1) with 0 in Hlt. cbn in Hlt. lia. }
      rewrite Z.rem_mod_nonneg, Z.quot_div_nonneg by lia.
      pose proof (Z.mod_pos_bound cur 10 ltac:(lia)) as Hdig.
      destruct (Z.gtb_spec (cur mod 10) 9); [lia|].
      rewrite (u8_small (cur mod 10 + 48)) by lia.
      rewrite (u8_small (i + 1)) by lia.
      destruct (IH (i + 1) (wr str i (cur mod 10 + 48)) (cur / 10)) as (k & str' & Hl & Hk & _ & Hend & Hlen' & Hd & Ho);
        try lia.
      * subst cur. rewrite Z.pow_add_r by lia. change (10 ^ 1) with 10.
        rewrite Z.div_div by lia. reflexivity.
      * apply Z.div_lt_upper_bound; [lia|].
        replace (Z.of_nat (S fuel) - 1) with (Z.of_nat fuel - 1 + 1) in Hlt by lia.
        rewrite Z.pow_add_r in Hlt by lia. change (10 ^ 1) with 10 in Hlt. lia.
      * rewrite length_wr. lia.
      * exists k, str'. rewrite Hl. split; [reflexivity|]. split; [lia|]. split; [lia|].
        split; [exact Hend|].
        split; [rewrite Hlen', length_wr; reflexivity|]. split.
        -- intros j Hj. destruct (Z.eq_dec j i) as [->|Hji].
           ++ rewrite Ho by lia. rewrite rd_wr_eq by lia. subst cur. lia.
           ++ apply Hd. lia.
        -- intros j Hj. rewrite Ho by lia. apply rd_wr_ne. lia.
Qed.

(** X30.  [parseInt] writes the decimal digits of a non-negative number,
    most significant first and terminated by NUL, within the first eleven
    characters of the buffer, and [atoi] reads the number back from
    them. *)
Theorem X30_parseInt_then_atoi :
  forall num str,
    0 <= num <= 2 ^ 31 - 49 -> 11 <= Z.of_nat (length str) ->
    exists r,
      parseInt num str = Some r
      /\ length r = length str
      /\ atoi r = num
      /\ (forall j, 11 <= j -> rd r j = rd str j).
Proof.
  intros num str Hnum Hlen. unfold parseInt. cbn zeta.
  rewrite (s32_small num) by lia.
  destruct (Z.eqb_spec num 0) as [->|Hne].
  - change (u8 (0 + 1)) with 1.
    exists (wr (wr str 0 48) 1 0).
    split; [reflexivity|]. split; [rewrite !length_wr; reflexivity|]. split.
    + apply (atoi_digits 0 1); try lia.
      * intros j Hj. assert (j = 0) by lia. subst j.
        rewrite rd_wr_ne by lia. rewrite rd_wr_eq by lia. reflexivity.
      * apply rd_wr_eq. rewrite length_wr. lia.
      * reflexivity.
    + intros j Hj. rewrite !rd_wr_ne by lia. reflexivity.
  - destruct (parseInt_loop_spec num 11 0 str num)
      as (k & str' & Hl & Hk & Hpos & Hend & Hlen' & Hd & Ho); try lia.
    + change (10 ^ 0) with 1. rewrite Z.div_1_r. reflexivity.
    + rewrite Hl. cbn [mbind option_bind].
      specialize (Hpos Hne).
      unfold reverse. rewrite (s32_small k) by lia. rewrite (u8_small (k - 1)) by lia.
      destruct (reverse_loop_spec 128 0 (k - 1) (wr str' k 0)) as [Hlr Hr];
        try (rewrite ?length_wr; lia).
      cbn zeta in Hlr, Hr.
      set (r := reverse_loop 128 0 (k - 1) (wr str' k 0)) in *.
      exists r. split; [reflexivity|]. clearbody r.
      split; [rewrite Hlr, length_wr; exact Hlen'|]. split.
      * apply (atoi_digits num (Z.to_nat k) r); try lia.
        -- intros j Hj. rewrite Z2Nat.id in * by lia. rewrite Hr.
           zcases. rewrite rd_wr_ne by lia.
           rewrite Hd by lia.
           replace (0 + (k - 1) - j) with (k - 1 - j) by lia. reflexivity.
        -- rewrite Z2Nat.id by lia. rewrite Hr. zcases.
           apply rd_wr_eq. lia.
        -- rewrite Z2Nat.id by lia. exact Hend.
      * intros j Hj. rewrite Hr. zcases. rewrite rd_wr_ne by lia. apply Ho. lia.
Qed.

(** ** Instances *)

(** X1 at the accumulator 0x1FFFE: one turn leaves 0xFFFF. *)
Lemma X1_witness : getEtherChecksum 0x1FFFE = 65535 - fold_carries 2 0x1FFFE.
Proof. apply (X1_checksum_loop_ends 0x1FFFE). lia. Defined.

(** X2 at the accumulator 0x2C0DE. *)
Lemma X2_witness : getEtherChecksum (0x2C0DE + getEtherChecksum 0x2C0DE) = 0.
Proof. apply (X2_checksum_verifies_itself 0x2C0DE). lia. Defined.

(** X3 on the IP header of the echo request, split after ten octets. *)
Lemma X3_witness :
  etherSumWords (etherSumWords 0 Frames.echo_request 14 10) Frames.echo_request (14 + 10) 10
  = etherSumWords 0 Frames.echo_request 14 (10 + 10).
Proof.
  apply (X3_sum_words_splits_at_even_offsets 0 Frames.echo_request 14 10 10);
    first [lia | reflexivity].
Defined.

(** X4 on the IP header of the echo request. *)
Lemma X4_witness :
  getEtherChecksum (etherSumWords 0 Frames.echo_request 14 20) = 0
  <-> RFC1071.wire_checksum_ok (slice Frames.echo_request 14 20).
Proof.
  apply (X4_checksum_test_is_rfc1071 Frames.echo_request 14 20).
  - apply octets_check. vm_compute. reflexivity.
  - lia.
Defined.

(** X5 on the length field of the echo request. *)
Lemma X5_witness :
  htons (rd16 Frames.echo_request 16) = 34.
Proof.
  destruct X5_byte_swaps as (_ & _ & H).
  destruct (H Frames.echo_request 16) as [H16 _].
  - apply octets_check. vm_compute. reflexivity.
  - rewrite H16. vm_compute. reflexivity.
Defined.

(** X6 on the echo request. *)
Lemma X6_witness :
  etherIsIp Frames.echo_request = true
  <-> Wire.be16 Frames.echo_request etherFrame.frameType = 0x0800
      /\ RFC1071.wire_checksum_ok
           (slice Frames.echo_request 14 (ip_hlen Frames.echo_request 14)).
Proof.
  apply (X6_etherIsIp_accepts Frames.echo_request).
  apply octets_check. vm_compute. reflexivity.
Defined.

(** X8 on the ARP request for the host. *)
Lemma X8_witness :
  etherIsArpRequest (glob Frames.static_host) Frames.arp_request = true
  <-> Wire.be16 Frames.arp_request etherFrame.frameType = 0x0806
      /\ slice Frames.arp_request (14 + arpFrame.destIp) 4
         = slice (ipAddress (glob Frames.static_host)) 0 4
      /\ Wire.be16 Frames.arp_request (14 + arpFrame.op) = 1.
Proof.
  apply (X8_etherIsArpRequest_accepts (glob Frames.static_host) Frames.arp_request).
  apply octets_check. vm_compute. reflexivity.
Defined.

(** X13 on a DHCP OFFER: not an ACK, yet the server address is recorded. *)
Lemma X13_witness :
  exists g',
    isDhcpAck (glob Frames.dhcp_host) Frames.dhcp_offer = Some (g', 0)
    /\ slice (serverMacAddress g') 0 6 = Frames.peer_mac.
Proof.
  eexists. split; [vm_compute; reflexivity|].
  etransitivity.
  - eapply (X13_isDhcpAck_records_the_frame_source
              (glob Frames.dhcp_host) Frames.dhcp_offer _ 0).
    + vm_compute. discriminate.
    + vm_compute. reflexivity.
  - vm_compute. reflexivity.
Defined.

(** X17 on the static host: [set dns 8 8 4 4]. *)
Lemma X17_witness :
  slice (etherGetIpGatewayAddress
           (etherSetDNSAddress 8 8 4 4 (glob Frames.static_host)) [0; 0; 0; 0]) 0 4
  = [8; 8; 4; 4].
Proof.
  apply (X17_dns_setter_changes_the_gateway 8 8 4 4 (glob Frames.static_host) [0; 0; 0; 0]);
    vm_compute; discriminate.
Defined.

(** X18 with [MAX_CHARS = 80] and an 8-bit count, on the line "a b<CR>". *)
Lemma X18_witness :
  Forall (fun iv => 0 <= fst iv <= 80) (stores (getsUart0 80 u8 [97; 32; 98; 13])).
Proof.
  apply (X18_short_lines_stay_in_the_buffer 80 u8 [97; 32; 98; 13]).
  - intros k Hk. apply u8_small. lia.
  - vm_compute. discriminate.
Defined.

(** X20 with [MAX_CHARS = 80] and an 8-bit count, on "Set" and CR. *)
Lemma X20_witness :
  getsUart0 80 u8 ([83; 101; 116] ++ 13 :: [120])
  = GetsResult [(0, 115); (1, 101); (2, 116); (3, 0)] [115; 101; 116; 13; 10] 3 true.
Proof.
  rewrite (X20_a_plain_line_is_stored_folded_and_terminated 80 u8 [83; 101; 116] [120]).
  - reflexivity.
  - intros k Hk. apply u8_small. lia.
  - repeat constructor.
  - vm_compute. reflexivity.
Defined.

(** X22 on "abc" followed by NUL. *)
Lemma X22_witness : reverse [97; 98; 99; 0] 3 = [99; 98; 97; 0].
Proof.
  rewrite (proj1 (X22_reverse_reverses_a_prefix [97; 98; 99; 0] 3)).
  - reflexivity.
  - lia.
  - vm_compute. discriminate.
Defined.

(** X24 on the static host asking for 192.168.1.1. *)
Lemma X24_witness :
  exists f,
    tx (fst (etherSendArpRequest (glob Frames.static_host) (replicate 64 0) Frames.peer_ip))
    = tx (glob Frames.static_host) ++ [f]
    /\ etherIsArpRequest (set_ipAddress Frames.peer_ip (glob Frames.static_host)) f = true.
Proof.
  destruct (X24_arp_request_is_well_formed (glob Frames.static_host) (replicate 64 0)
              Frames.peer_ip ltac:(vm_compute; discriminate))
    as (f & Htx & _ & _ & _ & _ & _ & _ & _ & _ & _ & Hacc).
  exists f. split; [exact Htx|]. apply Hacc. reflexivity.
Defined.

(** X25 on the static host, with a buffer of 7s. *)
Lemma X25_witness :
  exists f,
    tx (fst (sendGratiousArp (glob Frames.static_host) (replicate 64 7)))
    = tx (glob Frames.static_host) ++ [f]
    /\ slice f (14 + arpFrame.sourceAddress) 6 = [7; 7; 7; 7; 7; 7].
Proof.
  destruct (X25_gratuitous_arp_leaves_hardware_fields (glob Frames.static_host)
              (replicate 64 7) ltac:(vm_compute; discriminate))
    as (f & Htx & _ & _ & _ & _ & _ & _ & _ & Hsha & _).
  exists f. split; [exact Htx|]. rewrite Hsha. vm_compute. reflexivity.
Defined.

(** X23 on the run of the DHCP host up to RENEWING. *)
Lemma X23_witness :
  exists s,
    run_atomic (boot 10 Frames.dhcp_store (replicate 1522 0))
      (Frames.to_bound ++ Frames.t1_fires) = Some s
    /\ Timer.armed startT1Timer OneShot (timers s)
       && Timer.armed startRebinding Periodic (timers s) = false.
Proof.
  eexists. split.
  - vm_compute. reflexivity.
  - apply (atomic_ticks_keep_t1_and_rebind_apart 10 Frames.dhcp_store
             (replicate 1522 0) (Frames.to_bound ++ Frames.t1_fires)).
    vm_compute. reflexivity.
Defined.

(** X26 on the echo request with the payload abcdef. *)
Lemma X26_witness :
  exists f,
    tx (fst (etherSendPingResponse (glob Frames.static_host) Frames.echo_request))
    = tx (glob Frames.static_host) ++ [f]
    /\ etherIsIp f = true
    /\ RFC1071.wire_checksum_ok (slice f 34 14).
Proof.
  apply (X26_ping_reply_checksums_verify (glob Frames.static_host) Frames.echo_request);
    by_compute.
Defined.

(** X27 on the SYN of the peer: the segment is accepted, so its checksum
    verifies over the pseudo-header of the code. *)
Lemma X27_witness :
  rd Frames.tcp_syn 23 = 6
  /\ RFC1071.wire_checksum_ok
       (Frames.peer_ip ++ Frames.host_ip ++ [0; 6] ++ [0; 20] ++ slice Frames.tcp_syn 34 20).
Proof.
  apply (proj1 (X27_etherIsTcp_accepts Frames.tcp_syn ltac:(by_compute))).
  vm_compute. reflexivity.
Defined.

(** X28 on the datagram "on", answered with "Received". *)
Lemma X28_witness :
  let p := Frames.udp_on [69; 2] ++ replicate 20 0 in
  let g := glob Frames.static_host in
  exists f,
    tx (fst (etherSendUdpResponse g p [82; 101; 99; 101; 105; 118; 101; 100; 0] 9))
    = tx g ++ [f]
    /\ etherIsIp f = true
    /\ etherIsUdp f = true
    /\ slice f 42 9 = [82; 101; 99; 101; 105; 118; 101; 100; 0].
Proof.
  intros p g.
  destruct (X28_udp_response_is_accepted g p [82; 101; 99; 101; 105; 118; 101; 100; 0] 9
              ltac:(by_compute) ltac:(by_compute) ltac:(lia) ltac:(by_compute)
              ltac:(by_compute) ltac:(by_compute) ltac:(by_compute) ltac:(by_compute))
    as (f & Htx & _ & Hip & Hudp & _ & _ & Hdata & _).
  exists f. split; [exact Htx|]. split; [exact Hip|]. split; [exact Hudp | exact Hdata].
Defined.

(** X29 on the SYN of the peer, held in a buffer of 100 octets. *)
Lemma X29_witness :
  let p := Frames.tcp_syn ++ replicate 46 0 in
  let g := glob Frames.static_host in
  (exists f,
     tx (fst (etherSendTcpSynAck g p)) = tx g ++ [f]
     /\ etherIsIp f = true /\ etherIsTcp f = true)
  /\ (exists f,
        tx (fst (etherSendTelnetData g p [72; 101; 108; 108; 111] 5)) = tx g ++ [f]
        /\ etherIsTcp f = true /\ slice f 54 5 = [72; 101; 108; 108; 111]).
Proof.
  intros p g.
  destruct (X29_tcp_segments_are_accepted g p
              ltac:(by_compute) ltac:(by_compute) ltac:(by_compute)
              ltac:(by_compute) ltac:(by_compute) ltac:(by_compute))
    as (Hsyn & _ & Hdata).
  split.
  - destruct (Hsyn ltac:(by_compute)) as (f & Htx & _ & Hip & Htcp).
    exists f. auto.
  - destruct (Hdata [72; 101; 108; 108; 111] 5
                ltac:(by_compute) ltac:(by_compute) ltac:(lia) ltac:(by_compute)
                ltac:(by_compute))
      as (f & Htx & _ & _ & Htcp & Hpay).
    exists f. auto.
Defined.

(** X30 on 2020 and a buffer of twelve characters. *)
Lemma X30_witness :
  exists r,
    parseInt 2020 (replicate 12 7) = Some r
    /\ atoi r = 2020.
Proof.
  destruct (X30_parseInt_then_atoi 2020 (replicate 12 7) ltac:(lia) ltac:(by_compute))
    as (r & Hr & _ & Ha & _).
  exists r. split; [exact Hr | exact Ha].
Defined.

